(** * Inventory core of the e-commerce API: lock, cart reservations, orders

    A shallow embedding of the services that touch product stock:
    - [DistributedLock] (src/utils/distributed-lock.ts): the Redis lock;
    - [CartService] (cart.service.ts): addToCart, updateCartItem,
      mergeAnonymousCart, getCart;
    - [OrderService] (order.service.ts): createOrder, getOrderById,
      cancelOrder, cancelSubOrder, updateOrderItemStatus;
    - [PaymentService] (src/services/payment.service.ts): processPayment.

    Conventions of the embedding.
    - Row ids are UUID strings generated by the database; here they are
      natural numbers drawn from the counter [next_id] of the database.
    - INT columns (stock, quantity) are integers [Z]; DATETIME2 columns and
      [Date.now()] are instants in milliseconds, also [Z].  One service call
      runs at one instant [now]: every clock reading inside it is [now].
    - FLOAT columns (price, total_amount) are carried as [Z] amounts, added
      and multiplied where and in the order the code does it; they only flow
      into totals, never into a stock or status decision, and no theorem
      states a law of their arithmetic.
    - A service is a function from the database to a result and the database
      it leaves behind; [transaction] restores the database on an error, as
      [prisma.$transaction] rolls back when its callback throws.
    - Whether [DistributedLock.withLock] obtains the lock of a product depends
      on other processes and on the wall clock: the environment [Env] answers
      it per product ([lock_granted]).  The in-memory product cache is not
      part of the database and is left out. *)

From Stdlib Require Import ZArith List Bool Lia.
From stdpp Require Import gmap strings.
Import ListNotations.

Open Scope Z_scope.

(** ** The Redis lock (src/utils/distributed-lock.ts) *)

Module DistributedLock.

(** The key space of Redis as far as the lock uses it: a key holds a token
    and the instant at which its PX expiry removes it. *)
Abbreviation Store := (gmap string (string * Z)).

(** GET: an expired key reads as absent. *)
Definition redis_get (now : Z) (s : Store) (k : string) : option string :=
  match s !! k with
  | Some (v, expires) => if now <? expires then Some v else None
  | None => None
  end.

(** SET k v PX ttl NX: writes only when the key is absent; [true] is 'OK'. *)
Definition redis_set_px_nx (now : Z) (s : Store) (k v : string) (ttl : Z)
  : bool * Store :=
  match redis_get now s k with
  | Some _ => (false, s)
  | None => (true, <[k := (v, now + ttl)]> s)
  end.

(** DEL: the number of keys removed. *)
Definition redis_del (now : Z) (s : Store) (k : string) : Z * Store :=
  match redis_get now s k with
  | Some _ => (1, delete k s)
  | None => (0, s)
  end.

Definition lockKey (key : string) : string := "lock:" +:+ key.

(** One turn of the loop of [acquire]: the SET ... PX ttl NX attempt. *)
Definition acquire_attempt (now : Z) (s : Store) (key token : string) (ttl : Z)
  : option string * Store :=
  match redis_set_px_nx now s (lockKey key) token ttl with
  | (true, s') => (Some token, s')
  | (false, s') => (None, s')
  end.

(** [release]: the Lua script compares the stored token and deletes the
    key; the result is [result === 1]. *)
Definition release (now : Z) (s : Store) (key token : string) : bool * Store :=
  let script :=
    if decide (redis_get now s (lockKey key) = Some token)
    then redis_del now s (lockKey key)
    else (0, s) in
  (fst script =? 1, snd script).

End DistributedLock.

(** ** Data model (prisma/migrations/.../migration.sql, src/types) *)

Definition id := nat.

Module OrderStatus.
Inductive t := PENDING | CONFIRMED | SHIPPED | DELIVERED | CANCELLED.

Definition eqb (a b : t) : bool :=
  match a, b with
  | PENDING, PENDING | CONFIRMED, CONFIRMED | SHIPPED, SHIPPED
  | DELIVERED, DELIVERED | CANCELLED, CANCELLED => true
  | _, _ => false
  end.
End OrderStatus.

Module PaymentStatus.
Inductive t := PENDING | PROCESSING | PAID | FAILED | REFUNDED.

Definition eqb (a b : t) : bool :=
  match a, b with
  | PENDING, PENDING | PROCESSING, PROCESSING | PAID, PAID
  | FAILED, FAILED | REFUNDED, REFUNDED => true
  | _, _ => false
  end.
End PaymentStatus.

Module PaymentMethod.
Inductive t := CREDIT_CARD | DEBIT_CARD | PAYPAL | BANK_TRANSFER | CASH_ON_DELIVERY.
End PaymentMethod.

(** The Product table is keyed by its primary key; every query of the
    services on it is by id. *)
Record Product := {
  p_price : Z;
  p_stock : Z;
  p_seller_id : id;
}.

Record Cart := {
  c_id : id;
  c_user_id : option id;
  c_session_id : option id;
  c_expires_at : option Z;
  c_created_at : Z;
}.

Record CartItem := {
  ci_id : id;
  ci_cart_id : id;
  ci_product_id : id;
  ci_quantity : Z;
  ci_reservation_expires_at : option Z;
}.

Record Address := {
  a_id : id;
  a_user_id : id;
  a_full_name : string;
  a_address_line : string;
  a_district : option string;
  a_city : string;
  a_country : string;
  a_postal_code : string;
}.

Record Order := {
  o_id : id;
  o_user_id : id;
  o_address_id : option id;
  o_parent_order_id : option id;
  o_seller_id : option id;
  o_total_amount : Z;
  o_status : OrderStatus.t;
  o_payment_method : option string;
  o_payment_status : PaymentStatus.t;
  o_shipping_address : string;
  o_is_parent : bool;
}.

Record OrderItem := {
  oi_id : id;
  oi_order_id : id;
  oi_product_id : id;
  oi_seller_id : id;
  oi_quantity : Z;
  oi_price : Z;
  oi_status : OrderStatus.t;
}.

Record DB := {
  products : gmap id Product;
  carts : list Cart;
  cart_items : list CartItem;
  addresses : list Address;
  orders : list Order;
  order_items : list OrderItem;
  next_id : id;
}.

(** What a request sees of the world outside the database. *)
Record Env := {
  now : Z;
  lock_granted : id -> bool;
}.

Inductive Error :=
| MissingIdentity
| LockTimeout (product_id : id)
| ProductNotAvailable
| InsufficientStock (available : option Z)
| CartAlreadyExists
| CartNotFound
| ProductNotInCart
| CartEmpty
| AddressNotFound
| ProductNoLongerAvailable
| ReservationExpired
| OrderNotFound
| OrderNotCancellable
| SubOrderNotFound
| SubOrderNotCancellable
| OrderItemNotFound
| InvalidTransition (current requested : OrderStatus.t)
| RecordNotFound.

Inductive Result (A : Type) :=
| Ok (a : A)
| Err (e : Error).
Arguments Ok {A} a.
Arguments Err {A} e.

(** ** Services as database transformers *)

Definition M (A : Type) : Type := DB -> Result A * DB.

Definition ret {A} (a : A) : M A := fun db => (Ok a, db).
Definition throw {A} (e : Error) : M A := fun db => (Err e, db).
Definition bind {A B} (m : M A) (f : A -> M B) : M B :=
  fun db =>
    match m db with
    | (Ok a, db') => f a db'
    | (Err e, db') => (Err e, db')
    end.
Definition get : M DB := fun db => (Ok db, db).

Notation "x <- m ;; k" := (bind m (fun x => k))
  (at level 100, m at next level, right associativity).
Notation "m ;;; k" := (bind m (fun _ => k))
  (at level 100, right associativity).

Definition when (b : bool) (m : M unit) : M unit := if b then m else ret tt.

(** [for (const x of l) { await f(x) }] *)
Fixpoint forM {A} (l : list A) (f : A -> M unit) : M unit :=
  match l with
  | [] => ret tt
  | x :: l' => f x ;;; forM l' f
  end.

(** [prisma.$transaction(async (tx) => body)]: a throw rolls every write of
    the body back. *)
Definition transaction {A} (body : M A) : M A :=
  fun db =>
    match body db with
    | (Ok a, db') => (Ok a, db')
    | (Err e, _) => (Err e, db)
    end.

(** [DistributedLock.withLock(`product:${id}:stock`, fn, 10000, 15000)]:
    a null token throws before [fn] runs; the release in [finally] touches
    Redis only. *)
Definition withLock {A} (env : Env) (product_id : id) (fn : M A) : M A :=
  if lock_granted env product_id then fn else throw (LockTimeout product_id).

(** ** Table primitives (the Prisma calls the services make) *)

Definition set_products (v : gmap id Product) (db : DB) : DB :=
  {| products := v; carts := carts db; cart_items := cart_items db;
     addresses := addresses db; orders := orders db;
     order_items := order_items db; next_id := next_id db |}.

Definition set_carts (v : list Cart) (db : DB) : DB :=
  {| products := products db; carts := v; cart_items := cart_items db;
     addresses := addresses db; orders := orders db;
     order_items := order_items db; next_id := next_id db |}.

Definition set_cart_items (v : list CartItem) (db : DB) : DB :=
  {| products := products db; carts := carts db; cart_items := v;
     addresses := addresses db; orders := orders db;
     order_items := order_items db; next_id := next_id db |}.

Definition set_orders (v : list Order) (db : DB) : DB :=
  {| products := products db; carts := carts db; cart_items := cart_items db;
     addresses := addresses db; orders := v;
     order_items := order_items db; next_id := next_id db |}.

Definition set_order_items (v : list OrderItem) (db : DB) : DB :=
  {| products := products db; carts := carts db; cart_items := cart_items db;
     addresses := addresses db; orders := orders db;
     order_items := v; next_id := next_id db |}.

Definition set_next_id (v : id) (db : DB) : DB :=
  {| products := products db; carts := carts db; cart_items := cart_items db;
     addresses := addresses db; orders := orders db;
     order_items := order_items db; next_id := v |}.

(** The id the database gives to a created row. *)
Definition fresh_id : M id :=
  fun db => (Ok (next_id db), set_next_id (S (next_id db)) db).

(** [updateMany({ where, data })]: every matching row is rewritten. *)
Definition update_where {A} (p : A -> bool) (f : A -> A) (l : list A) : list A :=
  map (fun x => if p x then f x else x) l.

(** [deleteMany({ where })]. *)
Definition delete_where {A} (p : A -> bool) (l : list A) : list A :=
  List.filter (fun x => negb (p x)) l.

Definition with_stock (s : Z) (p : Product) : Product :=
  {| p_price := p_price p; p_stock := s; p_seller_id := p_seller_id p |}.

(** [product.updateMany({ where: { id, stock: { gte: qty } },
      data: { stock: { decrement: qty } } })]: the number of rows changed. *)
Definition product_decrement_if_available (product_id : id) (qty : Z) : M nat :=
  fun db =>
    match products db !! product_id with
    | Some p =>
        if qty <=? p_stock p
        then (Ok 1%nat,
              set_products (<[product_id := with_stock (p_stock p - qty) p]> (products db)) db)
        else (Ok 0%nat, db)
    | None => (Ok 0%nat, db)
    end.

(** [product.update({ where: { id }, data: { stock: { increment: qty } } })]:
    Prisma throws when the row is missing. *)
Definition product_increment (product_id : id) (qty : Z) : M unit :=
  fun db =>
    match products db !! product_id with
    | Some p =>
        (Ok tt,
         set_products (<[product_id := with_stock (p_stock p + qty) p]> (products db)) db)
    | None => (Err RecordNotFound, db)
    end.

(** ** CartService (cart.service.ts) *)

Definition RESERVATION_TTL_MINUTES : Z := 15.
Definition ANONYMOUS_CART_TTL_HOURS : Z := 24.

(** [OR: [{ reservation_expires_at: { gt: now } },
           { reservation_expires_at: null }]] *)
Definition active (now : Z) (it : CartItem) : bool :=
  match ci_reservation_expires_at it with
  | Some e => now <? e
  | None => true
  end.

Definition sum_quantity (l : list CartItem) : Z :=
  fold_right (fun it acc => ci_quantity it + acc) 0 l.

(** [cartItem.aggregate({ where: { product_id, <keep>, OR: active },
      _sum: { quantity: true } })._sum.quantity || 0] *)
Definition reserved (now : Z) (product_id : id) (keep : CartItem -> bool) (db : DB) : Z :=
  sum_quantity
    (List.filter
       (fun it => bool_decide (ci_product_id it = product_id) && keep it && active now it)
       (cart_items db)).

Definition cart_of_user (u : id) (c : Cart) : bool :=
  bool_decide (c_user_id c = Some u).

Definition cart_of_session (s : id) (c : Cart) : bool :=
  bool_decide (c_session_id c = Some s) && bool_decide (c_user_id c = None).

(** [orderBy: { created_at: 'desc' }] followed by taking the first row. *)
Fixpoint latest (l : list Cart) : option Cart :=
  match l with
  | [] => None
  | c :: l' =>
      match latest l' with
      | Some c' => if c_created_at c <? c_created_at c' then Some c' else Some c
      | None => Some c
      end
  end.

(** [cartItem.findUnique({ where: { cart_id_product_id } })] *)
Definition find_cart_item (cart_id product_id : id) (db : DB) : option CartItem :=
  List.find
    (fun it => bool_decide (ci_cart_id it = cart_id) && bool_decide (ci_product_id it = product_id))
    (cart_items db).

Definition with_quantity (q : Z) (e : option Z) (it : CartItem) : CartItem :=
  {| ci_id := ci_id it; ci_cart_id := ci_cart_id it; ci_product_id := ci_product_id it;
     ci_quantity := q; ci_reservation_expires_at := e |}.

(** [cartItem.update({ where: { id }, data: { quantity, reservation_expires_at } })] *)
Definition cart_item_update (item_id : id) (q : Z) (e : option Z) : M unit :=
  fun db =>
    if existsb (fun it => bool_decide (ci_id it = item_id)) (cart_items db)
    then (Ok tt,
          set_cart_items
            (update_where (fun it => bool_decide (ci_id it = item_id)) (with_quantity q e)
               (cart_items db)) db)
    else (Err RecordNotFound, db).

(** [cartItem.create({ data })] *)
Definition cart_item_create (cart_id product_id : id) (q : Z) (e : option Z) : M unit :=
  i <- fresh_id ;;
  fun db =>
    (Ok tt,
     set_cart_items
       (cart_items db ++
        [{| ci_id := i; ci_cart_id := cart_id; ci_product_id := product_id;
            ci_quantity := q; ci_reservation_expires_at := e |}]) db).

(** [cartItem.deleteMany({ where })] and [cartItem.delete({ where })] *)
Definition cart_item_delete_many (p : CartItem -> bool) : M unit :=
  fun db => (Ok tt, set_cart_items (delete_where p (cart_items db)) db).

(** [cart.create({ data: { user_id, session_id, expires_at } })] *)
Definition cart_create (env : Env) (userId sessionId : option id) (expiresAt : option Z)
  : M Cart :=
  i <- fresh_id ;;
  fun db =>
    let cart := {| c_id := i; c_user_id := userId; c_session_id := sessionId;
                   c_expires_at := expiresAt; c_created_at := now env |} in
    (Ok cart, set_carts (carts db ++ [cart]) db).

(** [cart.deleteMany({ where })]; the foreign key of CartItem is
    ON DELETE CASCADE. *)
Definition cart_delete_where (p : Cart -> bool) : M unit :=
  fun db =>
    let gone := List.filter p (carts db) in
    (Ok tt,
     set_cart_items
       (delete_where
          (fun it => existsb (fun c => bool_decide (c_id c = ci_cart_id it)) gone)
          (cart_items db))
       (set_carts (delete_where p (carts db)) db)).

(** [include: { product: ... }] on a cart item: the relation is required. *)
Fixpoint include_product (db : DB) (items : list CartItem)
  : Result (list (CartItem * Product)) :=
  match items with
  | [] => Ok []
  | it :: rest =>
      match products db !! ci_product_id it, include_product db rest with
      | Some p, Ok l => Ok ((it, p) :: l)
      | None, _ => Err RecordNotFound
      | _, Err e => Err e
      end
  end.

Definition items_of_cart (cart_id : id) (db : DB) : list CartItem :=
  List.filter (fun it => bool_decide (ci_cart_id it = cart_id)) (cart_items db).

Definition cart_items_with_product (cart_id : id) : M (list (CartItem * Product)) :=
  fun db => (include_product db (items_of_cart cart_id db), db).

(** Grouping by seller, in the order in which the sellers first appear
    (a [Map], or an object whose keys are UUIDs). *)
Fixpoint group_insert {A} (k : id) (x : A) (groups : list (id * list A))
  : list (id * list A) :=
  match groups with
  | [] => [(k, [x])]
  | (k', xs) :: rest =>
      if bool_decide (k' = k) then (k', xs ++ [x]) :: rest
      else (k', xs) :: group_insert k x rest
  end.

Definition group_by {A} (key : A -> id) (l : list A) : list (id * list A) :=
  fold_left (fun acc x => group_insert (key x) x acc) l [].

Record CartItemResponse := {
  cir_id : id;
  cir_product_id : id;
  cir_price : Z;
  cir_quantity : Z;
  cir_subtotal : Z;
  cir_stock_available : Z;
  cir_reservation_expires_at : option Z;
}.

Record CartResponse := {
  cr_id : option id;
  cr_total_items : Z;
  cr_total_price : Z;
  cr_sellers : list (id * list CartItemResponse);
}.

Definition empty_cart_response (i : option id) : CartResponse :=
  {| cr_id := i; cr_total_items := 0; cr_total_price := 0; cr_sellers := [] |}.

Definition cart_item_response (ip : CartItem * Product) : CartItemResponse :=
  let (item, product) := ip in
  {| cir_id := ci_id item; cir_product_id := ci_product_id item;
     cir_price := p_price product; cir_quantity := ci_quantity item;
     cir_subtotal := p_price product * ci_quantity item;
     cir_stock_available := p_stock product;
     cir_reservation_expires_at := ci_reservation_expires_at item |}.

Definition cart_response (cart_id : id) (items : list (CartItem * Product)) : CartResponse :=
  {| cr_id := Some cart_id;
     cr_total_items := fold_left (fun acc ip => acc + ci_quantity (fst ip)) items 0;
     cr_total_price := fold_left (fun acc ip => acc + p_price (snd ip) * ci_quantity (fst ip)) items 0;
     cr_sellers :=
       map (fun g => (fst g, map cart_item_response (snd g)))
           (group_by (fun ip => p_seller_id (snd ip)) items) |}.

Definition expired (now : Z) (e : option Z) : bool :=
  match e with
  | Some t => t <? now
  | None => false
  end.

(** [getCart]: the read that sweeps expired carts, items of products without
    stock and expired reservations of the cart it returns. *)
Definition getCart (env : Env) (userId sessionId : option id) : M CartResponse :=
  match userId, sessionId with
  | None, None => throw MissingIdentity
  | _, _ =>
      cart_delete_where (fun c => expired (now env) (c_expires_at c)) ;;;
      db <- get ;;
      let cart :=
        match userId, sessionId with
        | Some u, _ => latest (List.filter (cart_of_user u) (carts db))
        | None, Some s => latest (List.filter (cart_of_session s) (carts db))
        | None, None => None
        end in
      match cart with
      | None => ret (empty_cart_response None)
      | Some cart =>
          items <- cart_items_with_product (c_id cart) ;;
          let itemsToRemove := List.filter (fun ip => p_stock (snd ip) =? 0) items in
          when (0 <? length itemsToRemove)%nat
            (cart_item_delete_many
               (fun it => existsb (fun ip => bool_decide (ci_id (fst ip) = ci_id it))
                                  itemsToRemove)) ;;;
          cart_item_delete_many
            (fun it => bool_decide (ci_cart_id it = c_id cart)
                       && expired (now env) (ci_reservation_expires_at it)) ;;;
          db <- get ;;
          match List.find (fun c => bool_decide (c_id c = c_id cart)) (carts db) with
          | None => ret (empty_cart_response (Some (c_id cart)))
          | Some updatedCart =>
              items <- cart_items_with_product (c_id updatedCart) ;;
              ret (cart_response (c_id updatedCart) items)
          end
      end
  end.

(** The cart lookup of [addToCart]: [findFirst] by user, else by anonymous
    session. *)
Definition find_cart (userId sessionId : option id) (db : DB) : option Cart :=
  match userId, sessionId with
  | Some u, _ => List.find (cart_of_user u) (carts db)
  | None, Some s => List.find (cart_of_session s) (carts db)
  | None, None => None
  end.

Definition reservation_expiry (env : Env) : Z :=
  now env + RESERVATION_TTL_MINUTES * 60 * 1000.

(** "Find or create cart".  The [catch] around [cart.create] re-reads a cart
    inserted by a concurrent request; a single request never reaches it. *)
Definition find_or_create_cart (env : Env) (userId sessionId : option id) : M Cart :=
  db <- get ;;
  match find_cart userId sessionId db with
  | Some cart => ret cart
  | None =>
      match userId, sessionId with
      | None, None => throw MissingIdentity
      | _, _ =>
          match find_cart userId sessionId db with
          | Some _ => throw CartAlreadyExists
          | None =>
              let expiresAt :=
                match sessionId with
                | Some _ => Some (now env + ANONYMOUS_CART_TTL_HOURS * 60 * 60 * 1000)
                | None => None
                end in
              cart_create env userId sessionId expiresAt
          end
      end
  end.

(** The write of [addToCart]: "Replace quantity (not add)" on the row the
    cart already has for the product, after the availability is recomputed
    without that row; otherwise a new row. *)
Definition upsert_item (env : Env) (product : Product) (cart : Cart)
    (product_id : id) (quantity : Z) : M unit :=
  db <- get ;;
  match find_cart_item (c_id cart) product_id db with
  | Some existingItem =>
      let newQuantity := quantity in
      let reservedOther :=
        reserved (now env) product_id
          (fun it => negb (bool_decide (ci_id it = ci_id existingItem))) db in
      let availableStock := p_stock product - reservedOther in
      if availableStock <? newQuantity
      then throw (InsufficientStock (Some availableStock))
      else cart_item_update (ci_id existingItem) newQuantity
             (Some (reservation_expiry env))
  | None =>
      cart_item_create (c_id cart) product_id quantity
        (Some (reservation_expiry env))
  end.

(** [addToCart(userId, sessionId, { product_id, quantity })] *)
Definition addToCart (env : Env) (userId sessionId : option id)
    (product_id : id) (quantity : Z) : M CartResponse :=
  match userId, sessionId with
  | None, None => throw MissingIdentity
  | _, _ =>
      withLock env product_id
        (db <- get ;;
         match products db !! product_id with
         | None => throw ProductNotAvailable
         | Some product =>
             let totalReserved := reserved (now env) product_id (fun _ => true) db in
             let availableStock := p_stock product - totalReserved in
             if availableStock <? quantity
             then throw (InsufficientStock (Some availableStock))
             else
               cart <- find_or_create_cart env userId sessionId ;;
               upsert_item env product cart product_id quantity ;;;
               getCart env userId sessionId
         end)
  end.

(** The cart lookup of [updateCartItem] and [removeFromCart]. *)
Definition current_cart (userId sessionId : option id) (db : DB) : option Cart :=
  match userId, sessionId with
  | Some u, _ => List.find (cart_of_user u) (carts db)
  | None, Some s => latest (List.filter (cart_of_session s) (carts db))
  | None, None => None
  end.

(** [updateCartItem(userId, sessionId, productId, quantity)] *)
Definition updateCartItem (env : Env) (userId sessionId : option id)
    (productId : id) (quantity : Z) : M CartResponse :=
  match userId, sessionId with
  | None, None => throw MissingIdentity
  | _, _ =>
      withLock env productId
        (db <- get ;;
         match current_cart userId sessionId db with
         | None => throw CartNotFound
         | Some cart =>
             match find_cart_item (c_id cart) productId db with
             | None => throw ProductNotInCart
             | Some cartItem =>
                 match products db !! productId with
                 | None => throw RecordNotFound
                 | Some product =>
                     if quantity =? 0
                     then
                       cart_item_delete_many
                         (fun it => bool_decide (ci_id it = ci_id cartItem)) ;;;
                       getCart env userId sessionId
                     else
                       let totalReserved :=
                         reserved (now env) productId
                           (fun it => negb (bool_decide (ci_id it = ci_id cartItem))) db in
                       let availableForUpdate := p_stock product - totalReserved in
                       if availableForUpdate <? quantity
                       then throw (InsufficientStock (Some availableForUpdate))
                       else
                         cart_item_update (ci_id cartItem) quantity
                           (Some (reservation_expiry env)) ;;;
                         getCart env userId sessionId
                 end
             end
         end)
  end.

(** The body run under the product lock for one item of the anonymous cart. *)
Definition merge_item (env : Env) (userCart_id : id) (anonymous : CartItem * Product)
  : M unit :=
  let (anonymousItem, product) := anonymous in
  withLock env (ci_product_id anonymousItem)
    (db <- get ;;
     let existingItem := find_cart_item userCart_id (ci_product_id anonymousItem) db in
     let totalReserved :=
       reserved (now env) (ci_product_id anonymousItem)
         (fun it =>
            match existingItem with
            | Some e => negb (bool_decide (ci_id it = ci_id e))
            | None => true
            end) db in
     let availableStock := p_stock product - totalReserved in
     match existingItem with
     | Some e =>
         let newQuantity := ci_quantity e + ci_quantity anonymousItem in
         if newQuantity - ci_quantity e <=? availableStock
         then cart_item_update (ci_id e) newQuantity (Some (reservation_expiry env))
         else ret tt
     | None =>
         if ci_quantity anonymousItem <=? availableStock
         then cart_item_create userCart_id (ci_product_id anonymousItem)
                (ci_quantity anonymousItem) (Some (reservation_expiry env))
         else ret tt
     end).

(** [mergeAnonymousCart(userId, sessionId)] *)
Definition mergeAnonymousCart (env : Env) (userId sessionId : id) : M CartResponse :=
  db <- get ;;
  match latest (List.filter (cart_of_session sessionId) (carts db)) with
  | None => getCart env (Some userId) None
  | Some anonymousCart =>
      items <- cart_items_with_product (c_id anonymousCart) ;;
      match items with
      | [] => getCart env (Some userId) None
      | _ =>
          userCart <-
            match latest (List.filter (cart_of_user userId) (carts db)) with
            | Some c => ret c
            | None => cart_create env (Some userId) None None
            end ;;
          transaction
            (forM items (merge_item env (c_id userCart)) ;;;
             cart_delete_where (fun c => bool_decide (c_id c = c_id anonymousCart))) ;;;
          getCart env (Some userId) None
      end
  end.

(** ** OrderService (order.service.ts) *)

Definition with_order_status (s : OrderStatus.t) (o : Order) : Order :=
  {| o_id := o_id o; o_user_id := o_user_id o; o_address_id := o_address_id o;
     o_parent_order_id := o_parent_order_id o; o_seller_id := o_seller_id o;
     o_total_amount := o_total_amount o; o_status := s;
     o_payment_method := o_payment_method o; o_payment_status := o_payment_status o;
     o_shipping_address := o_shipping_address o; o_is_parent := o_is_parent o |}.

Definition with_payment_status (s : PaymentStatus.t) (o : Order) : Order :=
  {| o_id := o_id o; o_user_id := o_user_id o; o_address_id := o_address_id o;
     o_parent_order_id := o_parent_order_id o; o_seller_id := o_seller_id o;
     o_total_amount := o_total_amount o; o_status := o_status o;
     o_payment_method := o_payment_method o; o_payment_status := s;
     o_shipping_address := o_shipping_address o; o_is_parent := o_is_parent o |}.

Definition with_item_status (s : OrderStatus.t) (it : OrderItem) : OrderItem :=
  {| oi_id := oi_id it; oi_order_id := oi_order_id it; oi_product_id := oi_product_id it;
     oi_seller_id := oi_seller_id it; oi_quantity := oi_quantity it;
     oi_price := oi_price it; oi_status := s |}.

Definition find_order (order_id : id) (db : DB) : option Order :=
  List.find (fun o => bool_decide (o_id o = order_id)) (orders db).

(** [order.update({ where: { id }, data })]: Prisma throws when no row has
    the id. *)
Definition order_update (order_id : id) (f : Order -> Order) : M unit :=
  fun db =>
    if existsb (fun o => bool_decide (o_id o = order_id)) (orders db)
    then (Ok tt,
          set_orders (update_where (fun o => bool_decide (o_id o = order_id)) f (orders db)) db)
    else (Err RecordNotFound, db).

(** [order.updateMany({ where, data })] *)
Definition order_update_many (p : Order -> bool) (f : Order -> Order) : M unit :=
  fun db => (Ok tt, set_orders (update_where p f (orders db)) db).

(** [orderItem.updateMany({ where, data: { status } })] *)
Definition order_item_update_many (p : OrderItem -> bool) (s : OrderStatus.t) : M unit :=
  fun db => (Ok tt, set_order_items (update_where p (with_item_status s) (order_items db)) db).

(** [order.create({ data })] *)
Definition order_create (mk : id -> Order) : M Order :=
  i <- fresh_id ;;
  fun db => (Ok (mk i), set_orders (orders db ++ [mk i]) db).

(** [orderItem.create({ data })] *)
Definition order_item_create (mk : id -> OrderItem) : M unit :=
  i <- fresh_id ;;
  fun db => (Ok tt, set_order_items (order_items db ++ [mk i]) db).

(** [include: { sub_orders }] and [include: { items }] of an order. *)
Definition sub_orders (order_id : id) (db : DB) : list Order :=
  List.filter (fun o => bool_decide (o_parent_order_id o = Some order_id)) (orders db).

Definition items_of_order (order_id : id) (db : DB) : list OrderItem :=
  List.filter (fun it => bool_decide (oi_order_id it = order_id)) (order_items db).

Definition shipping_address_of (a : Address) : string :=
  a_full_name a +:+ ", " +:+ a_address_line a +:+ ", " +:+
  match a_district a with
  | Some d => if bool_decide (d = EmptyString) then EmptyString else d +:+ ", "
  | None => EmptyString
  end +:+ a_city a +:+ ", " +:+ a_country a +:+ " " +:+ a_postal_code a.

Definition total_amount (items : list (CartItem * Product)) : Z :=
  fold_left (fun sum ip => sum + p_price (snd ip) * ci_quantity (fst ip)) items 0.

(** The advisory check of one cart item before the transaction. *)
Definition validate_item (env : Env) (cart_id : id) (ip : CartItem * Product) : M unit :=
  let item := fst ip in
  db <- get ;;
  match products db !! ci_product_id item with
  | None => throw ProductNoLongerAvailable
  | Some currentProduct =>
      if expired (now env) (ci_reservation_expires_at item)
      then throw ReservationExpired
      else
        let totalReservedByOthers :=
          reserved (now env) (ci_product_id item)
            (fun it => negb (bool_decide (ci_cart_id it = cart_id))) db in
        let availableStock := p_stock currentProduct - totalReservedByOthers in
        if availableStock <? ci_quantity item
        then throw (InsufficientStock (Some availableStock))
        else ret tt
  end.

(** The row of [orderItem.create] for a cart item loaded with its product:
    price and seller are those read with the cart. *)
Definition order_item_of (subOrder_id : id) (ip : CartItem * Product) (i : id) : OrderItem :=
  {| oi_id := i; oi_order_id := subOrder_id;
     oi_product_id := ci_product_id (fst ip);
     oi_seller_id := p_seller_id (snd ip);
     oi_quantity := ci_quantity (fst ip);
     oi_price := p_price (snd ip);
     oi_status := OrderStatus.PENDING |}.

(** The body run under the product lock for one item of a sub-order:
    re-read the stock, deduct it with the conditional update, and only then
    create the order item. *)
Definition place_item (env : Env) (subOrder_id : id) (ip : CartItem * Product) : M unit :=
  let item := fst ip in
  withLock env (ci_product_id item)
    (db <- get ;;
     match products db !! ci_product_id item with
     | None => throw (InsufficientStock None)
     | Some product =>
         if p_stock product <? ci_quantity item
         then throw (InsufficientStock None)
         else
           count <- product_decrement_if_available (ci_product_id item) (ci_quantity item) ;;
           if (count =? 0)%nat
           then throw (InsufficientStock None)
           else
             order_item_create (order_item_of subOrder_id ip)
     end).

Record OrderDraft := {
  d_user_id : id;
  d_address_id : id;
  d_payment_method : option string;
  d_shipping_address : string;
}.

Definition new_order (d : OrderDraft) (parent seller : option id) (total : Z)
    (is_parent : bool) (i : id) : Order :=
  {| o_id := i; o_user_id := d_user_id d; o_address_id := Some (d_address_id d);
     o_parent_order_id := parent; o_seller_id := seller; o_total_amount := total;
     o_status := OrderStatus.PENDING; o_payment_method := d_payment_method d;
     o_payment_status := PaymentStatus.PENDING;
     o_shipping_address := d_shipping_address d; o_is_parent := is_parent |}.

(** One seller's share: the sub-order, then its items. *)
Definition place_sub_order (env : Env) (d : OrderDraft) (parent_id : id)
    (group : id * list (CartItem * Product)) : M unit :=
  let (sellerId, items) := group in
  subOrder <- order_create
                (new_order d (Some parent_id) (Some sellerId) (total_amount items) false) ;;
  forM items (place_item env (o_id subOrder)).

(** The callback of [prisma.$transaction] in [createOrder]. *)
Definition createOrder_tx (env : Env) (d : OrderDraft) (cart_id : id)
    (items : list (CartItem * Product)) : M Order :=
  newParentOrder <- order_create (new_order d None None (total_amount items) true) ;;
  forM (group_by (fun ip => p_seller_id (snd ip)) items)
       (place_sub_order env d (o_id newParentOrder)) ;;;
  cart_item_delete_many (fun it => bool_decide (ci_cart_id it = cart_id)) ;;;
  ret newParentOrder.

Record OrderResponse := {
  or_order : Order;
  or_items : list OrderItem;
}.

(** [getOrderById(userId, orderId)]: a parent order shows the items of its
    sub-orders. *)
Definition getOrderById (userId orderId : id) : M OrderResponse :=
  db <- get ;;
  match List.find (fun o => bool_decide (o_id o = orderId) && bool_decide (o_user_id o = userId))
          (orders db) with
  | None => throw OrderNotFound
  | Some order =>
      let subs := sub_orders (o_id order) db in
      if o_is_parent order && (0 <? length subs)%nat
      then ret {| or_order := order;
                  or_items := flat_map (fun s => items_of_order (o_id s) db) subs |}
      else ret {| or_order := order; or_items := items_of_order (o_id order) db |}
  end.

(** [createOrder(userId, addressId, paymentMethod)] *)
Definition createOrder (env : Env) (userId addressId : id) (paymentMethod : option string)
  : M OrderResponse :=
  db <- get ;;
  match List.find (cart_of_user userId) (carts db) with
  | None => throw CartEmpty
  | Some cart =>
      items <- cart_items_with_product (c_id cart) ;;
      match items with
      | [] => throw CartEmpty
      | _ =>
          match List.find (fun a => bool_decide (a_id a = addressId)
                                    && bool_decide (a_user_id a = userId)) (addresses db) with
          | None => throw AddressNotFound
          | Some address =>
              forM items (validate_item env (c_id cart)) ;;;
              parentOrder <-
                transaction
                  (createOrder_tx env
                     {| d_user_id := userId; d_address_id := addressId;
                        d_payment_method := paymentMethod;
                        d_shipping_address := shipping_address_of address |}
                     (c_id cart) items) ;;
              getOrderById userId (o_id parentOrder)
          end
      end
  end.

(** "Restore stock" for one order item, under the product lock. *)
Definition restore_item (env : Env) (item : OrderItem) : M unit :=
  withLock env (oi_product_id item)
    (product_increment (oi_product_id item) (oi_quantity item)).

Definition cancelled (o : Order) : Order :=
  with_payment_status PaymentStatus.REFUNDED (with_order_status OrderStatus.CANCELLED o).

(** The callback of [prisma.$transaction] in [cancelOrder]; [subs] and
    [items] are the rows read with the order before the transaction. *)
Definition cancelOrder_tx (env : Env) (order : Order)
    (subs : list (Order * list OrderItem)) (items : list OrderItem) : M unit :=
  (if o_is_parent order && (0 <? length subs)%nat
   then
     forM subs
       (fun sub =>
          order_update (o_id (fst sub)) cancelled ;;;
          order_item_update_many
            (fun it => bool_decide (oi_order_id it = o_id (fst sub))) OrderStatus.CANCELLED ;;;
          forM (snd sub) (restore_item env))
   else
     forM items (restore_item env) ;;;
     order_item_update_many
       (fun it => bool_decide (oi_order_id it = o_id order)) OrderStatus.CANCELLED) ;;;
  order_update (o_id order) cancelled.

(** [cancelOrder(userId, orderId)] *)
Definition cancelOrder (env : Env) (userId orderId : id) : M OrderResponse :=
  db <- get ;;
  match List.find (fun o => bool_decide (o_id o = orderId) && bool_decide (o_user_id o = userId))
          (orders db) with
  | None => throw OrderNotFound
  | Some order =>
      if negb (OrderStatus.eqb (o_status order) OrderStatus.PENDING)
      then throw OrderNotCancellable
      else
        transaction
          (cancelOrder_tx env order
             (map (fun s => (s, items_of_order (o_id s) db)) (sub_orders (o_id order) db))
             (items_of_order (o_id order) db)) ;;;
        getOrderById userId orderId
  end.

(** The callback of [prisma.$transaction] in [cancelSubOrder]. *)
Definition cancelSubOrder_tx (env : Env) (subOrder : Order) (items : list OrderItem)
  : M unit :=
  order_update (o_id subOrder) cancelled ;;;
  order_item_update_many
    (fun it => bool_decide (oi_order_id it = o_id subOrder)) OrderStatus.CANCELLED ;;;
  forM items (restore_item env) ;;;
  match o_parent_order_id subOrder with
  | Some parent_id =>
      db <- get ;;
      let allSubOrders := sub_orders parent_id db in
      let allCancelled :=
        forallb (fun o => bool_decide (o_id o = o_id subOrder)
                          || OrderStatus.eqb (o_status o) OrderStatus.CANCELLED)
                allSubOrders in
      when allCancelled (order_update parent_id cancelled)
  | None => ret tt
  end.

(** [cancelSubOrder(sellerId, subOrderId)] *)
Definition cancelSubOrder (env : Env) (sellerId subOrderId : id) : M OrderResponse :=
  db <- get ;;
  match List.find (fun o => bool_decide (o_id o = subOrderId)
                            && bool_decide (o_seller_id o = Some sellerId)
                            && negb (o_is_parent o)) (orders db) with
  | None => throw SubOrderNotFound
  | Some subOrder =>
      if negb (OrderStatus.eqb (o_status subOrder) OrderStatus.PENDING)
         && negb (OrderStatus.eqb (o_status subOrder) OrderStatus.CONFIRMED)
      then throw SubOrderNotCancellable
      else
        transaction
          (cancelSubOrder_tx env subOrder (items_of_order (o_id subOrder) db)) ;;;
        match o_parent_order_id subOrder with
        | Some parent_id => getOrderById (o_user_id subOrder) parent_id
        | None => getOrderById (o_user_id subOrder) subOrderId
        end
  end.

(** The table [validTransitions] of [updateOrderItemStatus]. *)
Definition validTransitions (current : OrderStatus.t) : option (list OrderStatus.t) :=
  match current with
  | OrderStatus.PENDING => Some [OrderStatus.CONFIRMED; OrderStatus.CANCELLED]
  | OrderStatus.CONFIRMED => Some [OrderStatus.SHIPPED]
  | OrderStatus.SHIPPED => Some [OrderStatus.DELIVERED]
  | OrderStatus.DELIVERED | OrderStatus.CANCELLED => None
  end.

(** [validTransitions[currentStatus]?.includes(status)] *)
Definition transition_allowed (current requested : OrderStatus.t) : bool :=
  match validTransitions current with
  | Some l => existsb (OrderStatus.eqb requested) l
  | None => false
  end.

(** [orderItem.update({ where: { id }, data: { status } })], returning the
    updated row. *)
Definition order_item_update (item_id : id) (s : OrderStatus.t) : M OrderItem :=
  fun db =>
    match List.find (fun it => bool_decide (oi_id it = item_id)) (order_items db) with
    | Some it =>
        (Ok (with_item_status s it),
         set_order_items
           (update_where (fun it => bool_decide (oi_id it = item_id)) (with_item_status s)
              (order_items db)) db)
    | None => (Err RecordNotFound, db)
    end.

(** The callback of [prisma.$transaction] in [updateOrderItemStatus]. *)
Definition updateOrderItemStatus_tx (orderItemId : id) (status : OrderStatus.t)
  : M OrderItem :=
  updatedItem <- order_item_update orderItemId status ;;
  db <- get ;;
  let subOrder := find_order (oi_order_id updatedItem) db in
  order_update (oi_order_id updatedItem) (with_order_status status) ;;;
  match subOrder with
  | Some so =>
      match o_parent_order_id so with
      | Some parent_id => order_update parent_id (with_order_status status)
      | None => ret tt
      end
  | None => ret tt
  end ;;;
  ret updatedItem.

(** [updateOrderItemStatus(sellerId, orderItemId, status)] *)
Definition updateOrderItemStatus (sellerId orderItemId : id) (status : OrderStatus.t)
  : M OrderItem :=
  db <- get ;;
  match List.find (fun it => bool_decide (oi_id it = orderItemId)
                             && bool_decide (oi_seller_id it = sellerId)) (order_items db) with
  | None => throw OrderItemNotFound
  | Some orderItem =>
      let currentStatus := oi_status orderItem in
      if negb (transition_allowed currentStatus status)
      then throw (InvalidTransition currentStatus status)
      else transaction (updateOrderItemStatus_tx orderItemId status)
  end.

(** ** PaymentService (src/services/payment.service.ts) *)

Record PaymentRequest := {
  pr_order_id : id;
  pr_amount : Z;
  pr_payment_method : PaymentMethod.t;
  pr_card_number : option string;
}.

Record PaymentResponse := {
  resp_success : bool;
  resp_status : PaymentStatus.t;
}.

(** [simulatePaymentGateway]; [roll] is the outcome of the comparison of
    [Math.random()] with the success threshold of the branch. *)
Definition simulatePaymentGateway (payment_method : PaymentMethod.t)
    (card_number : option string) (roll : bool) : bool :=
  match payment_method with
  | PaymentMethod.CASH_ON_DELIVERY => true
  | PaymentMethod.CREDIT_CARD | PaymentMethod.DEBIT_CARD =>
      if bool_decide (card_number = Some "4111111111111111") then true
      else if bool_decide (card_number = Some "4000000000000002") then false
      else roll
  | PaymentMethod.PAYPAL | PaymentMethod.BANK_TRANSFER => roll
  end.

Definition confirmed_paid (o : Order) : Order :=
  with_order_status OrderStatus.CONFIRMED (with_payment_status PaymentStatus.PAID o).

(** [processPayment(paymentRequest)] *)
Definition processPayment (roll : bool) (paymentRequest : PaymentRequest)
  : M PaymentResponse :=
  let order_id := pr_order_id paymentRequest in
  db <- get ;;
  match find_order order_id db with
  | None => throw OrderNotFound
  | Some order =>
      if PaymentStatus.eqb (o_payment_status order) PaymentStatus.PAID
      then ret {| resp_success := true; resp_status := PaymentStatus.PAID |}
      else
        order_update order_id (with_payment_status PaymentStatus.PROCESSING) ;;;
        let isSuccess :=
          simulatePaymentGateway (pr_payment_method paymentRequest)
            (pr_card_number paymentRequest) roll in
        if isSuccess
        then
          db <- get ;;
          let orderWithSubs := find_order order_id db in
          let subs := sub_orders order_id db in
          transaction
            (order_update order_id confirmed_paid ;;;
             if match orderWithSubs with Some o => o_is_parent o | None => false end
                && (0 <? length subs)%nat
             then
               order_update_many
                 (fun o => bool_decide (o_parent_order_id o = Some order_id)) confirmed_paid ;;;
               order_item_update_many
                 (fun it => existsb (fun so => bool_decide (o_id so = oi_order_id it)) subs)
                 OrderStatus.CONFIRMED
             else
               order_item_update_many
                 (fun it => bool_decide (oi_order_id it = order_id)) OrderStatus.CONFIRMED) ;;;
          ret {| resp_success := true; resp_status := PaymentStatus.PAID |}
        else
          order_update order_id (with_payment_status PaymentStatus.FAILED) ;;;
          ret {| resp_success := false; resp_status := PaymentStatus.FAILED |}
  end.

(** ** Notions used by the statements *)

(** A service keeps the invariant [P] and returns values in [V]. *)
Definition keeps {A} (P : DB -> Prop) (m : M A) (V : A -> Prop) : Prop :=
  forall db r db', P db -> m db = (r, db') ->
    P db' /\ forall a, r = Ok a -> V a.


(** The transitions the specification lists as legal. *)
Definition legal_transitions : list (OrderStatus.t * OrderStatus.t) :=
  [ (OrderStatus.PENDING, OrderStatus.CONFIRMED);
    (OrderStatus.PENDING, OrderStatus.CANCELLED);
    (OrderStatus.CONFIRMED, OrderStatus.SHIPPED);
    (OrderStatus.SHIPPED, OrderStatus.DELIVERED) ].

(** The invariant of the stock ledger: no product has negative stock, and
    no cart or order line has a negative quantity. *)
Definition stock_ok (db : DB) : Prop :=
  map_Forall (fun _ p => 0 <= p_stock p) (products db).

Definition Inv (db : DB) : Prop :=
  stock_ok db
  /\ Forall (fun it => 0 <= ci_quantity it) (cart_items db)
  /\ Forall (fun it => 0 <= oi_quantity it) (order_items db).

(** The core operations, as requests. *)
Inductive Op :=
| CreateOrder (env : Env) (userId addressId : id) (paymentMethod : option string)
| CancelOrder (env : Env) (userId orderId : id)
| CancelSubOrder (env : Env) (sellerId subOrderId : id)
| AddToCart (env : Env) (userId sessionId : option id) (product_id : id) (quantity : Z).

(** The database a request leaves behind, whether it succeeds or throws. *)
Definition exec (op : Op) (db : DB) : DB :=
  match op with
  | CreateOrder env userId addressId paymentMethod =>
      snd (createOrder env userId addressId paymentMethod db)
  | CancelOrder env userId orderId => snd (cancelOrder env userId orderId db)
  | CancelSubOrder env sellerId subOrderId => snd (cancelSubOrder env sellerId subOrderId db)
  | AddToCart env userId sessionId product_id quantity =>
      snd (addToCart env userId sessionId product_id quantity db)
  end.

Definition run (ops : list Op) (db : DB) : DB :=
  fold_left (fun d op => exec op d) ops db.

(** [addToCartSchema]: quantity is a positive integer. *)
Definition validated (op : Op) : Prop :=
  match op with
  | AddToCart _ _ _ _ quantity => 1 <= quantity
  | _ => True
  end.

(** The units of a product that a list of order items holds. *)
Definition ordered (items : list OrderItem) (product_id : id) : Z :=
  fold_right
    (fun it acc => (if bool_decide (oi_product_id it = product_id) then oi_quantity it else 0) + acc)
    0 items.

(** The units of a product that the loaded items of a cart ask for. *)
Definition demand (items : list (CartItem * Product)) (product_id : id) : Z :=
  fold_right
    (fun ip acc =>
       (if bool_decide (ci_product_id (fst ip) = product_id) then ci_quantity (fst ip) else 0) + acc)
    0 items.

(** A product row with its stock moved by [delta]; the other columns stay. *)
Definition moved (delta : Z) (p : Product) : Product := with_stock (p_stock p + delta) p.

(** What an order item records of a cart item. *)
Definition order_line (it : OrderItem) : id * Z * id * Z :=
  (oi_product_id it, oi_quantity it, oi_seller_id it, oi_price it).

Definition cart_line (ip : CartItem * Product) : id * Z * id * Z :=
  (ci_product_id (fst ip), ci_quantity (fst ip), p_seller_id (snd ip), p_price (snd ip)).

(** Ids handed out so far are below the counter: a created row never takes
    the id of a stored row, nor an id a stored row refers to. *)
Definition ids_below_counter (db : DB) : Prop :=
  Forall (fun o => (o_id o < next_id db)%nat
                   /\ forall k, o_parent_order_id o = Some k -> (k < next_id db)%nat)
         (orders db)
  /\ Forall (fun it => (oi_order_id it < next_id db)%nat) (order_items db).

(** The tables after a run of writes that only appends orders and order
    items and moves stock. *)
Record placed (db db' : DB) (new_orders : list Order) (created : list OrderItem) : Prop := {
  placed_orders : orders db' = orders db ++ new_orders;
  placed_items : order_items db' = order_items db ++ created;
  placed_cart_items : cart_items db' = cart_items db;
  placed_carts : carts db' = carts db;
  placed_addresses : addresses db' = addresses db;
  placed_next : (next_id db <= next_id db')%nat;
  placed_products : forall p,
      products db' !! p = moved (- ordered created p) <$> products db !! p;
  placed_known : Forall (fun it => is_Some (products db !! oi_product_id it)) created;
}.

(** What the transaction of [createOrder] has written when it commits:
    the parent order, one sub-order per seller, one order item per cart item,
    the stock moved by the ordered units, and the cart emptied. *)
Record committed (env : Env) (cart_id : id) (items : list (CartItem * Product))
    (db db' : DB) (parent : Order) (subs : list Order) (created : list OrderItem)
  : Prop := {
  committed_parent_id : o_id parent = next_id db;
  committed_parent : o_is_parent parent = true
                     /\ o_status parent = OrderStatus.PENDING
                     /\ o_parent_order_id parent = None;
  committed_orders : orders db' = orders db ++ parent :: subs;
  committed_items : order_items db' = order_items db ++ created;
  committed_cart_items :
    cart_items db'
    = delete_where (fun it => bool_decide (ci_cart_id it = cart_id)) (cart_items db);
  committed_carts : carts db' = carts db;
  committed_addresses : addresses db' = addresses db;
  committed_next : (next_id db < next_id db')%nat;
  committed_products : forall p,
      products db' !! p = moved (- ordered created p) <$> products db !! p;
  committed_known : Forall (fun it => is_Some (products db !! oi_product_id it)) created;
  committed_lines : Permutation (map order_line created) (map cart_line items);
  committed_subs :
    Forall (fun s => o_parent_order_id s = Some (next_id db)
                     /\ o_is_parent s = false
                     /\ (next_id db < o_id s < next_id db')%nat) subs;
  committed_subs_nodup : List.NoDup (map o_id subs);
  committed_owner : Forall (fun it => In (oi_order_id it) (map o_id subs)) created;
  committed_count : length subs = length (group_by (fun ip => p_seller_id (snd ip)) items);
  committed_locks :
    Forall (fun ip => lock_granted env (ci_product_id (fst ip)) = true) items;
}.

(** A service that only reads. *)
Definition reads {A} (m : M A) : Prop :=
  forall db r db', m db = (r, db') -> db' = db.

(** The units of a product in a list of lines. *)
Definition line_sum (lines : list (id * Z * id * Z)) (product_id : id) : Z :=
  fold_right
    (fun l acc => (if bool_decide (l.1.1.1 = product_id) then l.1.1.2 else 0) + acc) 0 lines.

(** The columns of an order that no status change touches. *)
Definition order_key (o : Order) : id * id := (o_id o, o_user_id o).

(** The constraints of the CartItem table that the cart proofs use: the
    primary key, the unique index on (cart_id, product_id), ids below the
    counter, and no negative quantity. *)
Definition cart_item_key (it : CartItem) : id * id := (ci_cart_id it, ci_product_id it).

Record cart_rows_ok (db : DB) : Prop := {
  rows_nonneg : Forall (fun it => 0 <= ci_quantity it) (cart_items db);
  rows_pk : List.NoDup (map ci_id (cart_items db));
  rows_unique : List.NoDup (map cart_item_key (cart_items db));
  rows_below : Forall (fun it => (ci_id it < next_id db)%nat) (cart_items db);
  carts_pk : List.NoDup (map c_id (carts db));
  carts_below : Forall (fun c => (c_id c < next_id db)%nat) (carts db);
}.

(** ** Concrete databases *)

Module Example.

Definition env : Env := {| now := 1000000; lock_granted := fun _ => true |}.

Definition later : Env := {| now := 1060000; lock_granted := fun _ => true |}.

Definition user_cart : Cart :=
  {| c_id := 30%nat; c_user_id := Some 1%nat; c_session_id := None;
     c_expires_at := None; c_created_at := 0 |}.

Definition anonymous_cart : Cart :=
  {| c_id := 31%nat; c_user_id := None; c_session_id := Some 9%nat;
     c_expires_at := Some 80000000; c_created_at := 500 |}.

Definition address : Address :=
  {| a_id := 40%nat; a_user_id := 1%nat; a_full_name := "Ada Lovelace";
     a_address_line := "12 Mill Lane"; a_district := None; a_city := "Leeds";
     a_country := "UK"; a_postal_code := "LS1" |}.

Definition row (i cart product : id) (q : Z) : CartItem :=
  {| ci_id := i; ci_cart_id := cart; ci_product_id := product; ci_quantity := q;
     ci_reservation_expires_at := Some 1500000 |}.

Definition shop (stock : Z) (rows : list CartItem) : DB :=
  {| products := {[ 1%nat := {| p_price := 100; p_stock := stock; p_seller_id := 20%nat |} ]};
     carts := [user_cart; anonymous_cart];
     cart_items := rows;
     addresses := [address];
     orders := [];
     order_items := [];
     next_id := 100%nat |}.

(** The user's cart reserves all 5 units of product 1. *)
Definition full_cart : DB := shop 5 [row 32%nat 30%nat 1%nat 5].

(** Stock 10, an empty cart: room to add 5 twice. *)
Definition roomy : DB := shop 10 [].

(** Stock 3; the anonymous cart holds 2 units, the user's cart is empty. *)
Definition merge_new : DB := shop 3 [row 33%nat 31%nat 1%nat 2].

(** Stock 5; the user's cart holds 3 units, the anonymous cart 2. *)
Definition merge_sum : DB := shop 5 [row 32%nat 30%nat 1%nat 3; row 33%nat 31%nat 1%nat 2].

(** Stock 4; the user's cart holds 3 units, the anonymous cart 2. *)
Definition merge_over : DB := shop 4 [row 32%nat 30%nat 1%nat 3; row 33%nat 31%nat 1%nat 2].

(** A parent order 50 of user 1 with the sub-order 51 of seller 20 and its
    one item 60, two units of product 1, all in [status]. *)
Definition order_row (i : id) (parent seller : option id) (is_parent : bool)
    (status : OrderStatus.t) : Order :=
  {| o_id := i; o_user_id := 1%nat; o_address_id := Some 40%nat;
     o_parent_order_id := parent; o_seller_id := seller; o_total_amount := 200;
     o_status := status; o_payment_method := None;
     o_payment_status := PaymentStatus.PENDING;
     o_shipping_address := "Ada Lovelace, 12 Mill Lane, Leeds, UK LS1";
     o_is_parent := is_parent |}.

Definition item_row (status : OrderStatus.t) : OrderItem :=
  {| oi_id := 60%nat; oi_order_id := 51%nat; oi_product_id := 1%nat; oi_seller_id := 20%nat;
     oi_quantity := 2; oi_price := 100; oi_status := status |}.

Definition ordered_shop (status : OrderStatus.t) : DB :=
  {| products := {[ 1%nat := {| p_price := 100; p_stock := 8; p_seller_id := 20%nat |} ]};
     carts := [user_cart];
     cart_items := [];
     addresses := [address];
     orders := [order_row 50%nat None None true status;
                order_row 51%nat (Some 50%nat) (Some 20%nat) false status];
     order_items := [item_row status];
     next_id := 100%nat |}.

End Example.

(** Availability for a merged item as the specification words it: stock
    minus the active reservations of every row but the source (anonymous) row
    and the destination (user-cart) row. *)
Definition merge_availability_spec (now : Z) (stock : Z) (source : CartItem)
    (destination : option CartItem) (db : DB) : Z :=
  stock
  - reserved now (ci_product_id source)
      (fun it =>
         negb (bool_decide (ci_id it = ci_id source))
         && match destination with
            | Some e => negb (bool_decide (ci_id it = ci_id e))
            | None => true
            end) db.

(** The units the source row itself holds while its reservation is live. *)
Definition own_hold (now : Z) (source : CartItem) : Z :=
  if active now source then ci_quantity source else 0.

(** No cart and no cart item of the cart [k] is left. *)
Definition cart_gone (k : id) (db : DB) : Prop :=
  Forall (fun c => c_id c <> k) (carts db)
  /\ Forall (fun it => ci_cart_id it <> k) (cart_items db).

(** A service that leaves one component of the database as it is. *)
Definition fixes {F A} (proj : DB -> F) (m : M A) : Prop :=
  forall db r db', m db = (r, db') -> proj db' = proj db.

Module Witness.

(** The user's cart holds 2 units of product 1 (stock 10). *)
Definition checkout : DB := Example.shop 10 [Example.row 32%nat 30%nat 1%nat 2].

(** No lock can be obtained. *)
Definition contended : Env := {| now := 1000000; lock_granted := fun _ => false |}.

Definition draft : OrderDraft :=
  {| d_user_id := 1%nat; d_address_id := 40%nat; d_payment_method := None;
     d_shipping_address := shipping_address_of Example.address |}.

Definition requests : list Op :=
  [ AddToCart Example.env (Some 1%nat) None 1%nat 5;
    CreateOrder Example.env 1%nat 40%nat None;
    CancelOrder Example.later 1%nat 101%nat ].

(** Two sellers: 10 units of product 1, and a single unit left of product 2
    for which the cart still asks 3. *)
Definition widget : Product := {| p_price := 100; p_stock := 10; p_seller_id := 20%nat |}.
Definition gadget : Product := {| p_price := 30; p_stock := 1; p_seller_id := 21%nat |}.

Definition two_sellers : DB :=
  {| products := {[ 1%nat := widget; 2%nat := gadget ]};
     carts := [Example.user_cart];
     cart_items := [Example.row 32%nat 30%nat 1%nat 2; Example.row 33%nat 30%nat 2%nat 3];
     addresses := [Example.address];
     orders := [];
     order_items := [];
     next_id := 100%nat |}.

Definition stale_items : list (CartItem * Product) :=
  [(Example.row 32%nat 30%nat 1%nat 2, widget); (Example.row 33%nat 30%nat 2%nat 3, gadget)].

(** The sub-order 51 with a second item, 62: one more unit of product 1. *)
Definition sibling_item : OrderItem :=
  {| oi_id := 62%nat; oi_order_id := 51%nat; oi_product_id := 1%nat; oi_seller_id := 20%nat;
     oi_quantity := 1; oi_price := 100; oi_status := OrderStatus.PENDING |}.

Definition two_items : DB :=
  set_order_items [Example.item_row OrderStatus.PENDING; sibling_item]
    (Example.ordered_shop OrderStatus.PENDING).

Definition declined : PaymentRequest :=
  {| pr_order_id := 50%nat; pr_amount := 200;
     pr_payment_method := PaymentMethod.CREDIT_CARD;
     pr_card_number := Some "4000000000000002" |}.

End Witness.

(** * The rest of the services, their callers and the lock protocol

    - [CartService.removeFromCart] (cart.service.ts);
    - [ProductService.getProductById] and [updateStock];
    - [PaymentService.refundPayment], [checkPaymentStatus]
      (src/services/payment.service.ts) and the payment controller
      (src/controllers/payment.controller.ts);
    - [deleteAddress], [getAddressById] (src/services/address.service.ts);
    - the body schemas and the handlers of the seller's status and stock
      updates (src/types/order.ts, src/types/product.ts,
      src/controllers/seller.controller.ts);
    - the cart step of [login] (auth.controller.ts);
    - [extractUserOrSession] (src/controllers/cart.controller.ts),
      [authenticate] (src/middleware/auth.middleware.ts), [logout] and the
      token blacklist (src/utils/jwt.ts);
    - the loop of [DistributedLock.acquire] and [withLock] on the Redis store
      (src/utils/distributed-lock.ts).

    [getUserOrders], [getSellerOrders], [getSellerProducts] and
    [getPublicProducts] sort by the column created_at, which the tables
    above do not carry, and the address writes other than [deleteAddress]
    turn on the column is_default: they are not modelled. *)

(** ** ProductService *)

(** [getProductById(productId)]: the row with
    [available_stock = Math.max(0, product.stock - totalReserved)], or null. *)
Definition getProductById (env : Env) (productId : id) (db : DB) : option (Product * Z) :=
  match products db !! productId with
  | None => None
  | Some product =>
      let totalReserved := reserved (now env) productId (fun _ => true) db in
      let availableStock := Z.max 0 (p_stock product - totalReserved) in
      Some (product, availableStock)
  end.

(** What the services below throw besides the errors above. *)
Inductive Failure :=
| Thrown (e : Error)
| ProductNotFound
| Unauthorized
| ItemNotFoundInCart
| CannotRefundUnpaidOrder
| AddressHasActiveOrders
| AddressUsedInOrderHistory.

(** A service that may throw one of them. *)
Definition MF (A : Type) : Type := DB -> (A + Failure) * DB.

Definition lift {A} (m : M A) : MF A :=
  fun db =>
    match m db with
    | (Ok a, db') => (inl a, db')
    | (Err e, db') => (inr (Thrown e), db')
    end.

(** ** CartService.removeFromCart *)

(** [removeFromCart(userId, sessionId, productId)] *)
Definition removeFromCart (env : Env) (userId sessionId : option id) (productId : id)
  : MF CartResponse :=
  match userId, sessionId with
  | None, None => lift (throw MissingIdentity)
  | _, _ =>
      fun db =>
        match current_cart userId sessionId db with
        | None => (inr (Thrown CartNotFound), db)
        | Some cart =>
            match find_cart_item (c_id cart) productId db with
            | None => (inr ItemNotFoundInCart, db)
            | Some existingItem =>
                lift (cart_item_delete_many
                        (fun it => bool_decide (ci_cart_id it = c_id cart)
                                   && bool_decide (ci_product_id it = productId)) ;;;
                      getCart env userId sessionId) db
            end
        end
  end.

(** ** ProductService: the seller's stock update *)

(** [product.update({ where: { id }, data: { stock } })], returning the row. *)
Definition product_set_stock (productId : id) (stock : Z) : M Product :=
  fun db =>
    match products db !! productId with
    | Some p =>
        (Ok (with_stock stock p),
         set_products (<[productId := with_stock stock p]> (products db)) db)
    | None => (Err RecordNotFound, db)
    end.

(** [updateStock(productId, sellerId, { stock })] *)
Definition updateStock (productId sellerId : id) (stock : Z) : MF Product :=
  fun db =>
    match products db !! productId with
    | None => (inr ProductNotFound, db)
    | Some existingProduct =>
        if negb (bool_decide (p_seller_id existingProduct = sellerId))
        then (inr Unauthorized, db)
        else lift (product_set_stock productId stock) db
    end.

(** ** PaymentService: refund and status *)

(** [refundPayment(order_id)]: the data of its update is that of a
    cancellation, [status: 'CANCELLED', payment_status: REFUNDED]. *)
Definition refundPayment (order_id : id) : MF PaymentResponse :=
  fun db =>
    match find_order order_id db with
    | None => (inr (Thrown OrderNotFound), db)
    | Some order =>
        if negb (PaymentStatus.eqb (o_payment_status order) PaymentStatus.PAID)
        then (inr CannotRefundUnpaidOrder, db)
        else
          lift (order_update order_id cancelled ;;;
                ret {| resp_success := true; resp_status := PaymentStatus.REFUNDED |}) db
    end.

Definition getPaymentStatusMessage (status : PaymentStatus.t) : string :=
  match status with
  | PaymentStatus.PENDING => "Payment is pending"
  | PaymentStatus.PROCESSING => "Payment is being processed"
  | PaymentStatus.PAID => "Payment completed successfully"
  | PaymentStatus.FAILED => "Payment failed"
  | PaymentStatus.REFUNDED => "Payment has been refunded"
  end.

(** [checkPaymentStatus(order_id)] *)
Definition checkPaymentStatus (order_id : id) : M (PaymentStatus.t * string) :=
  db <- get ;;
  match find_order order_id db with
  | None => throw OrderNotFound
  | Some order =>
      ret (o_payment_status order, getPaymentStatusMessage (o_payment_status order))
  end.

(** ** The address service *)

Definition set_addresses (v : list Address) (db : DB) : DB :=
  {| products := products db; carts := carts db; cart_items := cart_items db;
     addresses := v; orders := orders db;
     order_items := order_items db; next_id := next_id db |}.

Definition find_address (userId addressId : id) (db : DB) : option Address :=
  List.find (fun a => bool_decide (a_id a = addressId) && bool_decide (a_user_id a = userId))
    (addresses db).

(** [getAddressById(userId, addressId)] *)
Definition getAddressById (userId addressId : id) : M Address :=
  db <- get ;;
  match find_address userId addressId db with
  | None => throw AddressNotFound
  | Some address => ret address
  end.

(** [status: { notIn: ['CANCELLED', 'DELIVERED'] }] *)
Definition active_status (s : OrderStatus.t) : bool :=
  negb (OrderStatus.eqb s OrderStatus.CANCELLED || OrderStatus.eqb s OrderStatus.DELIVERED).

(** [order.count({ where })] *)
Definition order_count (p : Order -> bool) (db : DB) : nat :=
  length (List.filter p (orders db)).

(** [deleteAddress(userId, addressId)] *)
Definition deleteAddress (userId addressId : id) : MF unit :=
  fun db =>
    match find_address userId addressId db with
    | None => (inr (Thrown AddressNotFound), db)
    | Some address =>
        let activeOrdersWithAddress :=
          order_count (fun o => bool_decide (o_address_id o = Some addressId)
                                && active_status (o_status o)) db in
        if (0 <? activeOrdersWithAddress)%nat
        then (inr AddressHasActiveOrders, db)
        else
          let deliveredOrdersWithAddress :=
            order_count (fun o => bool_decide (o_address_id o = Some addressId)) db in
          if (0 <? deliveredOrdersWithAddress)%nat
          then (inr AddressUsedInOrderHistory, db)
          else
            (inl tt,
             set_addresses
               (delete_where (fun a => bool_decide (a_id a = addressId)) (addresses db)) db)
    end.

(** ** Handlers *)

(** What a handler sends: [reply.code(c).send(payload)], or
    [reply.code(c).send({ error })] with a message of the handler's own, the
    message of the error it caught, or the message of the ZodError that
    [parse] threw. *)
Inductive ReplyError :=
| Said (message : string)
| Caught (e : Failure)
| Invalid.

Inductive Reply (A : Type) :=
| Sent (code : nat) (payload : A)
| Refused (code : nat) (error : ReplyError).
Arguments Sent {A} code payload.
Arguments Refused {A} code error.

Definition Handler (A : Type) : Type := DB -> Reply A * DB.

(** The body of a payment request once [processPaymentSchema] has parsed
    it. *)
Record ProcessPaymentInput := {
  in_order_id : id;
  in_payment_method : PaymentMethod.t;
  in_card_number : option string;
}.

(** The check at the head of the three payment handlers: "Verify order
    belongs to user". *)
Definition verify_order_owner {A} (user order_id : id) (forbidden : string)
    (k : Order -> Handler A) : Handler A :=
  fun db =>
    match find_order order_id db with
    | None => (Refused 404 (Said "Order not found"), db)
    | Some order =>
        if negb (bool_decide (o_user_id order = user))
        then (Refused 403 (Said forbidden), db)
        else k order db
    end.

Module PaymentController.

(** [processPayment(request, reply)]; [validation] is the outcome of
    [processPaymentSchema.safeParse(request.body)], [user] is
    [request.user.id] and [roll] the draw of the gateway. *)
Definition processPayment (roll : bool) (user : id)
    (validation : string + ProcessPaymentInput) : Handler PaymentResponse :=
  match validation with
  | inl message => fun db => (Refused 400 (Said message), db)
  | inr data =>
      verify_order_owner user (in_order_id data) "Unauthorized to pay for this order"
        (fun order db =>
           match processPayment roll
                   {| pr_order_id := in_order_id data;
                      pr_amount := o_total_amount order;
                      pr_payment_method := in_payment_method data;
                      pr_card_number := in_card_number data |} db with
           | (Ok result, db') => (Sent 200 result, db')
           | (Err e, db') => (Refused 400 (Caught (Thrown e)), db')
           end)
  end.

(** [checkPaymentStatus(request, reply)] *)
Definition checkPaymentStatus (user order_id : id) : Handler (PaymentStatus.t * string) :=
  verify_order_owner user order_id "Unauthorized"
    (fun _ db =>
       match checkPaymentStatus order_id db with
       | (Ok status, db') => (Sent 200 status, db')
       | (Err e, db') => (Refused 400 (Caught (Thrown e)), db')
       end).

(** [refundPayment(request, reply)] *)
Definition refundPayment (user order_id : id) : Handler PaymentResponse :=
  verify_order_owner user order_id "Unauthorized"
    (fun _ db =>
       match refundPayment order_id db with
       | (inl result, db') => (Sent 200 result, db')
       | (inr e, db') => (Refused 400 (Caught e), db')
       end).

End PaymentController.

(** [updateOrderStatusSchema.parse(request.body)]: the enum of the body's
    status; [None] when it throws. *)
Definition updateOrderStatusSchema (status : option string) : option OrderStatus.t :=
  match status with
  | Some status =>
      if bool_decide (status = "CONFIRMED") then Some OrderStatus.CONFIRMED
      else if bool_decide (status = "SHIPPED") then Some OrderStatus.SHIPPED
      else if bool_decide (status = "DELIVERED") then Some OrderStatus.DELIVERED
      else None
  | None => None
  end.

(** [updateStockSchema.parse(request.body)]: [z.number().int().min(0)] on
    the stock of the body; [None] when it throws. *)
Definition updateStockSchema (stock : Z) : option Z :=
  if stock <? 0 then None else Some stock.

Module SellerController.

(** [updateOrderItemStatus(request, reply)]: a body that the schema refuses
    makes [parse] throw, which is sent as 400 like any error but
    'Order item not found'. *)
Definition updateOrderItemStatus (user orderItemId : id) (status : option string)
  : Handler OrderItem :=
  fun db =>
    match updateOrderStatusSchema status with
    | None => (Refused 400 Invalid, db)
    | Some data_status =>
        match updateOrderItemStatus user orderItemId data_status db with
        | (Ok orderItem, db') => (Sent 200 orderItem, db')
        | (Err OrderItemNotFound, db') => (Refused 404 (Caught (Thrown OrderItemNotFound)), db')
        | (Err e, db') => (Refused 400 (Caught (Thrown e)), db')
        end
    end.

(** [updateStock(request, reply)] *)
Definition updateStock (user productId : id) (stock : Z) : Handler Product :=
  fun db =>
    match updateStockSchema stock with
    | None => (Refused 400 Invalid, db)
    | Some stock =>
        match updateStock productId user stock db with
        | (inl product, db') => (Sent 200 product, db')
        | (inr ProductNotFound, db') => (Refused 404 (Caught ProductNotFound), db')
        | (inr Unauthorized, db') => (Refused 403 (Caught Unauthorized), db')
        | (inr e, db') => (Refused 400 (Caught e), db')
        end
    end.

End SellerController.

(** The cart step of [login]: a failed merge falls back to [getCart], and a
    failure of that leaves the reply without cart. *)
Definition login_cart (env : Env) (user : id) (sessionId : option id)
  : DB -> option CartResponse * DB :=
  fun db =>
    let fallback (db1 : DB) :=
      match getCart env (Some user) None db1 with
      | (Ok cart, db2) => (Some cart, db2)
      | (Err _, db2) => (None, db2)
      end in
    match sessionId with
    | Some s =>
        match mergeAnonymousCart env user s db with
        | (Ok cart, db1) => (Some cart, db1)
        | (Err _, db1) => fallback db1
        end
    | None => fallback db
    end.

(** ** Tokens and identities *)

Module Auth.

(** SETEX key seconds value *)
Definition redis_setex (now : Z) (s : DistributedLock.Store) (k : string) (seconds : Z)
    (v : string) : DistributedLock.Store :=
  <[k := (v, now + seconds * 1000)]> s.

Definition blacklistKey (token : string) : string := "blacklist:" +:+ token.

(** [blacklistToken(token)]; [days] is
    [parseInt(env.JWT_EXPIRES_IN.replace('d', ''))]. *)
Definition blacklistToken (days : Z) (now : Z) (s : DistributedLock.Store) (token : string)
  : DistributedLock.Store :=
  let expiresIn := days * 24 * 60 * 60 in
  redis_setex now s (blacklistKey token) expiresIn "1".

(** [isTokenBlacklisted(token)] *)
Definition isTokenBlacklisted (now : Z) (s : DistributedLock.Store) (token : string) : bool :=
  match DistributedLock.redis_get now s (blacklistKey token) with
  | Some _ => true
  | None => false
  end.

(** [String.prototype.replace] with a string pattern and the empty
    replacement: the first occurrence of the pattern is removed. *)
Fixpoint drop_prefix (n : nat) (s : string) : string :=
  match n, s with
  | O, _ => s
  | S n', String _ s' => drop_prefix n' s'
  | S _, EmptyString => EmptyString
  end.

Fixpoint remove_first (pattern s : string) : string :=
  if String.prefix pattern s then drop_prefix (String.length pattern) s
  else
    match s with
    | EmptyString => EmptyString
    | String c s' => String c (remove_first pattern s')
    end.

(** [authHeader.replace('Bearer ', '')] *)
Definition bearer_token (authHeader : string) : string := remove_first "Bearer " authHeader.

(** What the handlers read of a request: [jwt] is the id of [request.user]
    once [request.jwtVerify()] has returned, or nothing when it throws;
    a header that is absent, or one that is empty, is falsy. *)
Record Request := {
  jwt : option id;
  authorization : option string;
  x_session_id : option id;
}.

Definition truthy (header : option string) : option string :=
  match header with
  | Some h => if bool_decide (h = EmptyString) then None else Some h
  | None => None
  end.

Inductive AuthError :=
| InvalidToken
| TokenRevoked
| SessionIdRequired.

(** [extractUserOrSession(request)] of the cart handlers.  [userId] is
    assigned before the blacklist is read, and the [catch] that fills in
    [sessionId] leaves it as it is. *)
Definition extractUserOrSession (now : Z) (blacklist : DistributedLock.Store)
    (request : Request) : (option id * option id) + AuthError :=
  let try_block : (option id) * option AuthError :=
    match jwt request with
    | None => (None, Some InvalidToken)
    | Some user =>
        match truthy (authorization request) with
        | Some authHeader =>
            if isTokenBlacklisted now blacklist (bearer_token authHeader)
            then (Some user, Some TokenRevoked)
            else (Some user, None)
        | None => (Some user, None)
        end
    end in
  match try_block with
  | (userId, None) => inl (userId, None)
  | (userId, Some _) =>
      match x_session_id request with
      | Some sessionId => inl (userId, Some sessionId)
      | None => inr SessionIdRequired
      end
  end.

(** [authenticate(request, reply)]: the reply it sends, if any. *)
Definition authenticate (now : Z) (blacklist : DistributedLock.Store) (request : Request)
  : option (nat * string) :=
  match jwt request with
  | None => Some (401%nat, "Invalid token")
  | Some _ =>
      match truthy (authorization request) with
      | None => Some (401%nat, "No token provided")
      | Some authHeader =>
          if isTokenBlacklisted now blacklist (bearer_token authHeader)
          then Some (401%nat, "Token has been revoked")
          else None
      end
  end.

(** [logout(request, reply)]: the code of the reply and the blacklist. *)
Definition logout (days : Z) (now : Z) (blacklist : DistributedLock.Store) (request : Request)
  : nat * DistributedLock.Store :=
  match truthy (authorization request) with
  | None => (401%nat, blacklist)
  | Some authHeader =>
      (200%nat, blacklistToken days now blacklist (bearer_token authHeader))
  end.

End Auth.

(** ** The lock on the Redis store *)

Module Locking.

(** [acquire(key, ttl, timeout)].  [start] is the reading of the clock before
    the loop and [turns] are the readings at the head of each turn, as many
    as the call makes; the SET of a turn runs at the instant of its reading.
    The pause between two turns moves the later readings and nothing else. *)
Fixpoint acquire_loop (start timeout ttl : Z) (key token : string) (turns : list Z)
    (s : DistributedLock.Store) : option string * DistributedLock.Store :=
  match turns with
  | [] => (None, s)
  | t :: later =>
      if t - start <? timeout
      then
        match DistributedLock.acquire_attempt t s key token ttl with
        | (Some tok, s') => (Some tok, s')
        | (None, s') => acquire_loop start timeout ttl key token later s'
        end
      else (None, s)
  end.

Record Clock := {
  start : Z;
  turns : list Z;
  finished : Z;
}.

Definition acquire (clock : Clock) (s : DistributedLock.Store) (key token : string)
    (ttl timeout : Z) : option string * DistributedLock.Store :=
  acquire_loop (start clock) timeout ttl key token (turns clock) s.

(** [withLock(key, fn, ttl, timeout)] for the lock of a product, on the
    Redis store and the database; [finished clock] is the instant of the
    release in [finally].  [if (!token)] also refuses the empty token. *)
Definition withLock {A} (clock : Clock) (product_id : id) (key token : string)
    (ttl timeout : Z) (fn : M A) (s : DistributedLock.Store) (db : DB)
  : Result A * DistributedLock.Store * DB :=
  match acquire clock s key token ttl timeout with
  | (None, s1) => (Err (LockTimeout product_id), s1, db)
  | (Some tok, s1) =>
      if bool_decide (tok = EmptyString)
      then (Err (LockTimeout product_id), s1, db)
      else
        let (r, db') := fn db in
        (r, snd (DistributedLock.release (finished clock) s1 key tok), db')
  end.

End Locking.

(** ** Every request of the services *)

Inductive Call :=
| Inventory (op : Op)
| GetCart (env : Env) (userId sessionId : option id)
| UpdateCartItem (env : Env) (userId sessionId : option id) (productId : id) (quantity : Z)
| RemoveFromCart (env : Env) (userId sessionId : option id) (productId : id)
| MergeAnonymousCart (env : Env) (userId sessionId : id)
| UpdateOrderItemStatus (sellerId orderItemId : id) (status : OrderStatus.t)
| ProcessPayment (roll : bool) (paymentRequest : PaymentRequest)
| RefundPayment (order_id : id)
| UpdateStock (productId sellerId : id) (stock : Z)
| DeleteAddress (userId addressId : id).

Definition serve (c : Call) (db : DB) : DB :=
  match c with
  | Inventory op => exec op db
  | GetCart env userId sessionId => snd (getCart env userId sessionId db)
  | UpdateCartItem env userId sessionId productId quantity =>
      snd (updateCartItem env userId sessionId productId quantity db)
  | RemoveFromCart env userId sessionId productId =>
      snd (removeFromCart env userId sessionId productId db)
  | MergeAnonymousCart env userId sessionId =>
      snd (mergeAnonymousCart env userId sessionId db)
  | UpdateOrderItemStatus sellerId orderItemId status =>
      snd (updateOrderItemStatus sellerId orderItemId status db)
  | ProcessPayment roll paymentRequest => snd (processPayment roll paymentRequest db)
  | RefundPayment order_id => snd (refundPayment order_id db)
  | UpdateStock productId sellerId stock => snd (updateStock productId sellerId stock db)
  | DeleteAddress userId addressId => snd (deleteAddress userId addressId db)
  end.

(** The database a sequence of requests leaves behind. *)
Definition serve_all (calls : list Call) (db : DB) : DB :=
  fold_left (fun d c => serve c d) calls db.

(** The bodies the schemas let through: [addToCartSchema] a positive
    quantity, [updateCartItemSchema] a quantity that is not negative,
    [updateStockSchema] a stock that is not negative. *)
Definition accepted (c : Call) : Prop :=
  match c with
  | Inventory op => validated op
  | UpdateCartItem _ _ _ _ quantity => 0 <= quantity
  | UpdateStock _ _ stock => 0 <= stock
  | _ => True
  end.

(** ** Further notions *)

(** The foreign key of CartItem on Product. *)
Definition cart_products_known (db : DB) : Prop :=
  Forall (fun it => is_Some (products db !! ci_product_id it)) (cart_items db).

(** The steps of [getCart]: the cart it shows, the database without the
    carts that have expired, and the database without the rows of the shown
    cart that are out of stock or whose reservation has expired. *)
Definition shown_cart (userId sessionId : option id) (db : DB) : option Cart :=
  match userId, sessionId with
  | Some u, _ => latest (List.filter (cart_of_user u) (carts db))
  | None, Some s => latest (List.filter (cart_of_session s) (carts db))
  | None, None => None
  end.

Definition without_expired_carts (env : Env) (db : DB) : DB :=
  snd (cart_delete_where (fun c => expired (now env) (c_expires_at c)) db).

Definition without_stale_rows (env : Env) (cart : Cart) (items : list (CartItem * Product))
    (db : DB) : DB :=
  let itemsToRemove := List.filter (fun ip => p_stock (snd ip) =? 0) items in
  let db1 :=
    if (0 <? length itemsToRemove)%nat
    then set_cart_items
           (delete_where
              (fun it => existsb (fun ip => bool_decide (ci_id (fst ip) = ci_id it))
                                 itemsToRemove) (cart_items db)) db
    else db in
  set_cart_items
    (delete_where
       (fun it => bool_decide (ci_cart_id it = c_id cart)
                  && expired (now env) (ci_reservation_expires_at it)) (cart_items db1)) db1.

(** From [db] to [db'] carts and cart rows were deleted, and nothing else
    was written. *)
Record only_deleted (db db' : DB) : Prop := {
  deleted_rows : exists keep, cart_items db' = List.filter keep (cart_items db);
  deleted_carts : exists keep, carts db' = List.filter keep (carts db);
  deleted_products : products db' = products db;
  deleted_orders : orders db' = orders db;
  deleted_order_items : order_items db' = order_items db;
  deleted_addresses : addresses db' = addresses db;
  deleted_next_id : next_id db' = next_id db;
}.

(** The columns of an order and of an order item that are not a status. *)
Definition order_columns (o : Order)
  : id * id * option id * option id * option id * Z * option string * string * bool :=
  (o_id o, o_user_id o, o_address_id o, o_parent_order_id o, o_seller_id o,
   o_total_amount o, o_payment_method o, o_shipping_address o, o_is_parent o).

Definition order_item_columns (it : OrderItem) : id * id * id * id * Z * Z :=
  (oi_id it, oi_order_id it, oi_product_id it, oi_seller_id it, oi_quantity it, oi_price it).

(** From [db] to [db'] the stock of every product [p] went up by [delta p],
    statuses of orders and order items may have changed, and nothing else
    was written. *)
Record restocked (delta : id -> Z) (db db' : DB) : Prop := {
  restocked_products : forall p, products db' !! p = moved (delta p) <$> products db !! p;
  restocked_orders : map order_columns (orders db') = map order_columns (orders db);
  restocked_items :
    map order_item_columns (order_items db') = map order_item_columns (order_items db);
  restocked_carts : carts db' = carts db;
  restocked_cart_items : cart_items db' = cart_items db;
  restocked_addresses : addresses db' = addresses db;
  restocked_next_id : next_id db' = next_id db;
}.

(** The items a parent order shows: those of its sub-orders. *)
Definition items_of_sub_orders (order_id : id) (db : DB) : list OrderItem :=
  flat_map (fun s => items_of_order (o_id s) db) (sub_orders order_id db).

(** The items whose stock [cancelOrder] restores. *)
Definition items_to_restore (order : Order) (db : DB) : list OrderItem :=
  if o_is_parent order && (0 <? length (sub_orders (o_id order) db))%nat
  then items_of_sub_orders (o_id order) db
  else items_of_order (o_id order) db.

(** [allCancelled] of [cancelSubOrder]: every other sub-order of the parent
    is CANCELLED. *)
Definition others_cancelled (subOrder_id parent_id : id) (db : DB) : bool :=
  forallb (fun o => bool_decide (o_id o = subOrder_id)
                    || OrderStatus.eqb (o_status o) OrderStatus.CANCELLED)
          (sub_orders parent_id db).

(** The items of a response, seller after seller. *)
Definition response_items (r : CartResponse) : list CartItemResponse :=
  concat (map snd (cr_sellers r)).

Definition sum_of {A} (f : A -> Z) (l : list A) : Z :=
  fold_right (fun x acc => f x + acc) 0 l.

(** ** Concrete stores, requests and databases *)

Module Scenario.

(** The lock of product 7 is held by another process until instant 10000. *)
Definition held : DistributedLock.Store :=
  {[ "lock:product:7:stock" := ("1700000000000-0.42", 10000) ]}.

(** A call that starts at 9000 and reads the clock at 9000, 9100, 9250 and
    10050, and whose function has finished at 10400. *)
Definition clock : Locking.Clock :=
  {| Locking.start := 9000; Locking.turns := [9000; 9100; 9250; 10050];
     Locking.finished := 10400 |}.

(** The same call when it stops polling before the lock expires. *)
Definition early : Locking.Clock :=
  {| Locking.start := 9000; Locking.turns := [9000; 9100; 9250];
     Locking.finished := 9300 |}.

(** A request of user 1 with a bearer token, and the same request with an
    x-session-id header. *)
Definition signed : Auth.Request :=
  {| Auth.jwt := Some 1%nat; Auth.authorization := Some "Bearer eyJhbGciOi.e30.c2ln";
     Auth.x_session_id := None |}.

Definition signed_with_session : Auth.Request :=
  {| Auth.jwt := Some 1%nat; Auth.authorization := Some "Bearer eyJhbGciOi.e30.c2ln";
     Auth.x_session_id := Some 9%nat |}.

(** A payment of order 50 with the card that the gateway always accepts. *)
Definition accepted_card : PaymentRequest :=
  {| pr_order_id := 50%nat; pr_amount := 200;
     pr_payment_method := PaymentMethod.CREDIT_CARD;
     pr_card_number := Some "4111111111111111" |}.

(** The parent order 50 and its sub-order 51, paid and confirmed. *)
Definition paid_row (i : id) (parent seller : option id) (is_parent : bool) : Order :=
  confirmed_paid (Example.order_row i parent seller is_parent OrderStatus.PENDING).

Definition paid_shop : DB :=
  {| products := products (Example.ordered_shop OrderStatus.CONFIRMED);
     carts := [Example.user_cart];
     cart_items := [];
     addresses := [Example.address];
     orders := [paid_row 50%nat None None true;
                paid_row 51%nat (Some 50%nat) (Some 20%nat) false];
     order_items := [Example.item_row OrderStatus.CONFIRMED];
     next_id := 100%nat |}.

(** The orders of user 1 and a single order 70 of user 2. *)
Definition order_of_user_2 : Order :=
  {| o_id := 70%nat; o_user_id := 2%nat; o_address_id := Some 41%nat;
     o_parent_order_id := None; o_seller_id := None; o_total_amount := 30;
     o_status := OrderStatus.PENDING; o_payment_method := None;
     o_payment_status := PaymentStatus.PENDING;
     o_shipping_address := "Grace Hopper, 1 Navy Yard, Arlington, US 22202";
     o_is_parent := true |}.

Definition two_buyers : DB :=
  set_orders (orders (Example.ordered_shop OrderStatus.PENDING) ++ [order_of_user_2])
    (Example.ordered_shop OrderStatus.PENDING).

(** The order 50 of user 1 with two sub-orders: 51 of seller 20 with two
    units of product 1, and 52 of seller 21 with one unit of product 2. *)
Definition second_item : OrderItem :=
  {| oi_id := 61%nat; oi_order_id := 52%nat; oi_product_id := 2%nat; oi_seller_id := 21%nat;
     oi_quantity := 1; oi_price := 30; oi_status := OrderStatus.PENDING |}.

Definition two_sub_orders : DB :=
  {| products := {[ 1%nat := {| p_price := 100; p_stock := 8; p_seller_id := 20%nat |};
                    2%nat := {| p_price := 30; p_stock := 4; p_seller_id := 21%nat |} ]};
     carts := [Example.user_cart];
     cart_items := [];
     addresses := [Example.address];
     orders := [Example.order_row 50%nat None None true OrderStatus.PENDING;
                Example.order_row 51%nat (Some 50%nat) (Some 20%nat) false OrderStatus.PENDING;
                Example.order_row 52%nat (Some 50%nat) (Some 21%nat) false OrderStatus.PENDING];
     order_items := [Example.item_row OrderStatus.PENDING; second_item];
     next_id := 100%nat |}.

(** An instant after the anonymous cart 31 has expired. *)
Definition next_day : Env := {| now := 90000000; lock_granted := fun _ => true |}.

(** User 1 puts 5 units of product 1 into the cart, the seller sets the
    stock to 0, the user empties the cart row and reads the cart. *)
Definition requests : list Call :=
  [ Inventory (AddToCart Example.env (Some 1%nat) None 1%nat 5);
    UpdateStock 1%nat 20%nat 0;
    UpdateCartItem Example.env (Some 1%nat) None 1%nat 0;
    GetCart Example.later (Some 1%nat) None ].

End Scenario.
(** * Properties *)

(** ** Reasoning about services *)

Lemma bind_inv {A B} (m : M A) (f : A -> M B) db r db' :
  bind m f db = (r, db') ->
  (exists a db1, m db = (Ok a, db1) /\ f a db1 = (r, db'))
  \/ (exists e, m db = (Err e, db') /\ r = Err e).
Proof.
  unfold bind. destruct (m db) as [[a|e] db1]; intros H.
  - left. eauto.
  - right. inversion H; subst. eauto.
Qed.

Lemma bind_ok_inv {A B} (m : M A) (f : A -> M B) db b db' :
  bind m f db = (Ok b, db') ->
  exists a db1, m db = (Ok a, db1) /\ f a db1 = (Ok b, db').
Proof.
  intros H. apply bind_inv in H as [H | (e & _ & H)]; [assumption | discriminate].
Qed.

Lemma transaction_err {A} (body : M A) db e db' :
  transaction body db = (Err e, db') -> db' = db.
Proof.
  unfold transaction. destruct (body db) as [[a|e'] db1]; intros H; inversion H; reflexivity.
Qed.

Lemma transaction_ok {A} (body : M A) db a db' :
  transaction body db = (Ok a, db') -> body db = (Ok a, db').
Proof.
  unfold transaction. destruct (body db) as [[a'|e'] db1]; intros H; inversion H; reflexivity.
Qed.

Lemma bind_ok {A B} (m : M A) (f : A -> M B) db a db1 :
  m db = (Ok a, db1) -> bind m f db = f a db1.
Proof. intros H. unfold bind. rewrite H. reflexivity. Qed.

Lemma bind_err {A B} (m : M A) (f : A -> M B) db e db1 :
  m db = (Err e, db1) -> bind m f db = (Err e, db1).
Proof. intros H. unfold bind. rewrite H. reflexivity. Qed.

Lemma bind_get {B} (f : DB -> M B) db : bind get f db = f db db.
Proof. reflexivity. Qed.

Lemma transaction_commit {A} (body : M A) db a db' :
  body db = (Ok a, db') -> transaction body db = (Ok a, db').
Proof. intros H. unfold transaction. rewrite H. reflexivity. Qed.

Lemma keeps_ret {A} (P : DB -> Prop) (a : A) (V : A -> Prop) :
  V a -> keeps P (ret a) V.
Proof. intros Ha db r db' HP H. inversion H; subst. split; [assumption|]. intros ? [= <-]. exact Ha. Qed.

Lemma keeps_throw {A} (P : DB -> Prop) e (V : A -> Prop) :
  keeps P (throw e) V.
Proof. intros db r db' HP H. inversion H; subst. split; [assumption|]. intros ? [=]. Qed.

Lemma keeps_bind {A B} (P : DB -> Prop) (m : M A) (f : A -> M B) V W :
  keeps P m V -> (forall a, V a -> keeps P (f a) W) -> keeps P (bind m f) W.
Proof.
  intros Hm Hf db r db' HP H.
  apply bind_inv in H as [(a & db1 & H1 & H2) | (e & H1 & ->)].
  - destruct (Hm _ _ _ HP H1) as [HP1 HV]. eapply Hf; eauto.
  - destruct (Hm _ _ _ HP H1) as [HP1 _]. split; [assumption|]. intros ? [=].
Qed.

Lemma keeps_get (P : DB -> Prop) : keeps P get P.
Proof. intros db r db' HP H. inversion H; subst. split; [assumption|]. intros ? [= <-]. exact HP. Qed.

Lemma keeps_forM {A} (P : DB -> Prop) (l : list A) (f : A -> M unit) (Q : A -> Prop) :
  Forall Q l -> (forall x, Q x -> keeps P (f x) (fun _ => True)) ->
  keeps P (forM l f) (fun _ => True).
Proof.
  intros Hl Hf. induction Hl as [|x l Hx Hl IH]; simpl.
  - apply keeps_ret. exact I.
  - eapply keeps_bind; [apply Hf; exact Hx|]. intros _ _. exact IH.
Qed.

Lemma keeps_transaction {A} (P : DB -> Prop) (body : M A) V :
  keeps P body V -> keeps P (transaction body) V.
Proof.
  intros Hb db r db' HP H. unfold transaction in H.
  destruct (body db) as [[a|e] db1] eqn:E; inversion H; subst.
  - eapply Hb; eauto.
  - split; [assumption|]. intros ? [=].
Qed.

Lemma keeps_withLock {A} (P : DB -> Prop) env pid (m : M A) V :
  keeps P m V -> keeps P (withLock env pid m) V.
Proof.
  intros Hm. unfold withLock. destruct (lock_granted env pid); [exact Hm | apply keeps_throw].
Qed.

Lemma keeps_when (P : DB -> Prop) (b : bool) (m : M unit) :
  keeps P m (fun _ => True) -> keeps P (when b m) (fun _ => True).
Proof. intros Hm. destruct b; simpl; [exact Hm | apply keeps_ret; exact I]. Qed.

(** ** The lock *)

(** C10. [release(key, token)] is idempotent: once a release has returned
    true, a second release with the same key and token returns false and
    leaves the store as it is. *)
Theorem release_twice (now1 now2 : Z) (s s1 : DistributedLock.Store) (key token : string) :
  DistributedLock.release now1 s key token = (true, s1) ->
  DistributedLock.release now2 s1 key token = (false, s1).
Proof.
  unfold DistributedLock.release, DistributedLock.redis_del.
  destruct (decide (DistributedLock.redis_get now1 s (DistributedLock.lockKey key) = Some token))
    as [Hget | Hget]; simpl.
  - rewrite Hget. simpl. intros [= <-].
    assert (Hnone : DistributedLock.redis_get now2
                      (delete (DistributedLock.lockKey key) s)
                      (DistributedLock.lockKey key) = None).
    { unfold DistributedLock.redis_get. rewrite lookup_delete_eq. reflexivity. }
    rewrite Hnone. destruct (decide (None = Some token)) as [Heq | _]; [discriminate Heq|].
    reflexivity.
  - intros [=].
Qed.

Lemma release_twice_witness :
  let s : DistributedLock.Store := {[ "lock:product:7:stock" := ("1700000000000-0.42", 10000) ]} in
  DistributedLock.release 50 s "product:7:stock" "1700000000000-0.42"
    = (true, delete "lock:product:7:stock" s)
  /\ DistributedLock.release 60 (delete "lock:product:7:stock" s)
       "product:7:stock" "1700000000000-0.42"
     = (false, delete "lock:product:7:stock" s).
Proof.
  intros s.
  assert (H : DistributedLock.release 50 s "product:7:stock" "1700000000000-0.42"
              = (true, delete "lock:product:7:stock" s)) by reflexivity.
  split; [exact H | exact (release_twice 50 60 _ _ _ _ H)].
Defined.

(** A lock taken by one attempt of [acquire] is released by its token
    while it has not expired. *)
Lemma acquire_then_release (now1 now2 ttl : Z) (s s1 : DistributedLock.Store)
    (key token : string) :
  DistributedLock.acquire_attempt now1 s key token ttl = (Some token, s1) ->
  now2 < now1 + ttl ->
  DistributedLock.release now2 s1 key token
  = (true, delete (DistributedLock.lockKey key) s1).
Proof.
  unfold DistributedLock.acquire_attempt, DistributedLock.redis_set_px_nx.
  destruct (DistributedLock.redis_get now1 s (DistributedLock.lockKey key));
    [discriminate|].
  intros [= <-] Hlive.
  assert (Hget : DistributedLock.redis_get now2
                   (<[DistributedLock.lockKey key := (token, now1 + ttl)]> s)
                   (DistributedLock.lockKey key) = Some token).
  { unfold DistributedLock.redis_get. rewrite lookup_insert_eq.
    destruct (now2 <? now1 + ttl) eqn:E; [reflexivity | apply Z.ltb_ge in E; lia]. }
  unfold DistributedLock.release, DistributedLock.redis_del. rewrite Hget.
  destruct (decide (Some token = Some token)) as [_ | Hne]; [reflexivity | congruence].
Qed.

(** ** Lists as tables *)

Lemma find_update_where {A} (p q : A -> bool) (f : A -> A) (l : list A) :
  (forall x, p (f x) = p x) ->
  List.find p (update_where q f l)
  = option_map (fun x => if q x then f x else x) (List.find p l).
Proof.
  intros Hp. induction l as [|x l IH]; simpl; [reflexivity|].
  destruct (q x) eqn:Hq; rewrite ?Hp; destruct (p x); simpl; rewrite ?Hq; auto.
Qed.

Lemma existsb_find_some {A} (p : A -> bool) (l : list A) x :
  List.find p l = Some x -> existsb p l = true.
Proof.
  intros H. apply existsb_exists. exists x.
  apply find_some in H. exact H.
Qed.

Lemma find_conj_of_find {A} (p q : A -> bool) (l : list A) x :
  List.find p l = Some x -> q x = true ->
  List.find (fun y => p y && q y) l = Some x.
Proof.
  induction l as [|y l IH]; simpl; [discriminate|].
  destruct (p y) eqn:Hy; simpl.
  - intros [= ->] ->. reflexivity.
  - auto.
Qed.

(** ** Order status transitions *)

Lemma transition_allowed_legal current requested :
  transition_allowed current requested = true <-> In (current, requested) legal_transitions.
Proof.
  unfold legal_transitions. simpl.
  destruct current, requested; simpl; split; intros H;
    try reflexivity; try discriminate;
    try (repeat (destruct H as [H | H]; try discriminate H); contradiction);
    auto 6.
Qed.

Lemma updateOrderItemStatus_tx_outcome orderItemId status db :
  (exists item db', transaction (updateOrderItemStatus_tx orderItemId status) db = (Ok item, db')
                    /\ oi_status item = status)
  \/ transaction (updateOrderItemStatus_tx orderItemId status) db = (Err RecordNotFound, db).
Proof.
  unfold transaction, updateOrderItemStatus_tx, bind, order_item_update, order_update, get, ret.
  destruct (List.find _ (order_items db)) as [it|]; [|right; reflexivity].
  cbn -[update_where].
  destruct (existsb _ (orders db)); [|right; reflexivity].
  destruct (List.find _ (orders db)) as [so|]; [|left; eauto].
  destruct (o_parent_order_id so) as [parent_id|]; [|left; eauto].
  cbn -[update_where].
  destruct (existsb _ _); [left; eauto | right; reflexivity].
Qed.

Lemma PaymentStatus_eqb_eq a b : PaymentStatus.eqb a b = true <-> a = b.
Proof. destruct a, b; simpl; split; intros H; try reflexivity; discriminate. Qed.

Lemma OrderStatus_eqb_eq a b : OrderStatus.eqb a b = true <-> a = b.
Proof. destruct a, b; simpl; split; intros H; try reflexivity; discriminate. Qed.

Lemma find_order_update_where k p f db :
  (forall o, o_id (f o) = o_id o) ->
  find_order k (set_orders (update_where p f (orders db)) db)
  = option_map (fun o => if p o then f o else o) (find_order k db).
Proof.
  intros Hid. unfold find_order. simpl. apply find_update_where.
  intros o. rewrite Hid. reflexivity.
Qed.

Lemma order_update_found k f db o :
  find_order k db = Some o ->
  order_update k f db
  = (Ok tt, set_orders (update_where (fun o => bool_decide (o_id o = k)) f (orders db)) db).
Proof.
  intros H. unfold order_update. unfold find_order in H.
  rewrite (existsb_find_some _ _ _ H). reflexivity.
Qed.

Lemma find_order_id k db o : find_order k db = Some o -> o_id o = k.
Proof.
  unfold find_order. intros H. apply find_some in H as [_ H].
  apply bool_decide_eq_true in H. exact H.
Qed.

(** ** Payment *)

(** C8. When the gateway declines, the order ends with payment status
    FAILED, its status is still PENDING, and no table other than Order is
    written: product stock stays as it was. *)
Theorem processPayment_failure roll paymentRequest db order :
  find_order (pr_order_id paymentRequest) db = Some order ->
  o_payment_status order <> PaymentStatus.PAID ->
  o_status order = OrderStatus.PENDING ->
  simulatePaymentGateway (pr_payment_method paymentRequest)
    (pr_card_number paymentRequest) roll = false ->
  exists db',
    processPayment roll paymentRequest db
    = (Ok {| resp_success := false; resp_status := PaymentStatus.FAILED |}, db')
    /\ find_order (pr_order_id paymentRequest) db'
       = Some (with_payment_status PaymentStatus.FAILED order)
    /\ o_status (with_payment_status PaymentStatus.FAILED order) = OrderStatus.PENDING
    /\ products db' = products db
    /\ order_items db' = order_items db
    /\ cart_items db' = cart_items db.
Proof.
  intros Hfind Hpaid Hstatus Hgw.
  unfold processPayment, bind, get. rewrite Hfind.
  destruct (PaymentStatus.eqb (o_payment_status order) PaymentStatus.PAID) eqn:E.
  { apply PaymentStatus_eqb_eq in E. contradiction. }
  rewrite (order_update_found _ _ _ _ Hfind). rewrite Hgw.
  set (db1 := set_orders _ db).
  assert (Hfind1 : find_order (pr_order_id paymentRequest) db1
                   = Some (with_payment_status PaymentStatus.PROCESSING order)).
  { unfold db1. rewrite find_order_update_where by reflexivity. rewrite Hfind. simpl.
    rewrite (find_order_id _ _ _ Hfind). rewrite bool_decide_eq_true_2 by reflexivity.
    reflexivity. }
  rewrite (order_update_found _ _ _ _ Hfind1).
  eexists. split; [reflexivity|].
  split; [|split; [exact Hstatus | repeat split]].
  rewrite find_order_update_where by reflexivity. rewrite Hfind1. simpl.
  rewrite (find_order_id _ _ _ Hfind). rewrite bool_decide_eq_true_2 by reflexivity.
  reflexivity.
Qed.

Lemma Forall_update_where {A} (P : A -> Prop) (q : A -> bool) (f : A -> A) (l : list A) :
  Forall P l -> (forall x, P x -> q x = true -> P (f x)) -> Forall P (update_where q f l).
Proof.
  intros Hl Hf. unfold update_where. apply Forall_map.
  eapply Forall_impl; [exact Hl|]. intros x Hx. simpl.
  destruct (q x) eqn:E; auto.
Qed.

Lemma Forall_update_where_hit {A} (P : A -> Prop) (q : A -> bool) (f : A -> A) (l : list A) :
  (forall x, q x = true -> P (f x)) -> (forall x, q x = false -> P x) ->
  Forall P (update_where q f l).
Proof.
  intros Hf Hn. unfold update_where. apply Forall_map. apply List.Forall_forall.
  intros x _. simpl. destruct (q x) eqn:E; auto.
Qed.

(** ** Cancellation through the status update *)

Lemma cancelOrder_rejects_cancelled env userId orderId db :
  Forall (fun o => o_id o = orderId -> o_status o = OrderStatus.CANCELLED) (orders db) ->
  exists e, cancelOrder env userId orderId db = (Err e, db).
Proof.
  intros Hall. unfold cancelOrder, bind, get.
  destruct (List.find _ (orders db)) as [o|] eqn:E; [|eexists; reflexivity].
  apply find_some in E as [Hin Hp].
  apply andb_true_iff in Hp as [Hid _]. apply bool_decide_eq_true in Hid.
  rewrite List.Forall_forall in Hall. rewrite (Hall _ Hin Hid). simpl.
  eexists; reflexivity.
Qed.

Lemma cancelSubOrder_rejects_cancelled env sellerId subOrderId db :
  Forall (fun o => o_id o = subOrderId -> o_status o = OrderStatus.CANCELLED) (orders db) ->
  exists e, cancelSubOrder env sellerId subOrderId db = (Err e, db).
Proof.
  intros Hall. unfold cancelSubOrder, bind, get.
  destruct (List.find _ (orders db)) as [o|] eqn:E; [|eexists; reflexivity].
  apply find_some in E as [Hin Hp].
  apply andb_true_iff in Hp as [Hp _]. apply andb_true_iff in Hp as [Hid _].
  apply bool_decide_eq_true in Hid.
  rewrite List.Forall_forall in Hall. rewrite (Hall _ Hin Hid). simpl.
  eexists; reflexivity.
Qed.

(** The accepted case of [updateOrderItemStatus]: with the item's
    sub-order in the Order table, and its parent when it has one, a
    transition of the table commits and writes the status on the item, the
    sub-order and the parent; the Product table is not written. *)
Lemma updateOrderItemStatus_accepted db sellerId orderItemId orderItem subOrder status :
  List.find (fun it => bool_decide (oi_id it = orderItemId)) (order_items db) = Some orderItem ->
  oi_seller_id orderItem = sellerId ->
  transition_allowed (oi_status orderItem) status = true ->
  find_order (oi_order_id orderItem) db = Some subOrder ->
  (forall parent_id, o_parent_order_id subOrder = Some parent_id ->
     exists parent, find_order parent_id db = Some parent) ->
  exists db',
    updateOrderItemStatus sellerId orderItemId status db
    = (Ok (with_item_status status orderItem), db')
    /\ List.find (fun it => bool_decide (oi_id it = orderItemId)) (order_items db')
       = Some (with_item_status status orderItem)
    /\ Forall (fun o => o_id o = oi_order_id orderItem -> o_status o = status) (orders db')
    /\ (exists subOrder', find_order (oi_order_id orderItem) db' = Some subOrder'
                          /\ o_status subOrder' = status)
    /\ (forall parent_id, o_parent_order_id subOrder = Some parent_id ->
          Forall (fun o => o_id o = parent_id -> o_status o = status) (orders db')
          /\ exists parent', find_order parent_id db' = Some parent'
                             /\ o_status parent' = status)
    /\ products db' = products db.
Proof.
  intros Hitem Hseller Hallowed Hsub Hparent.
  assert (Hfind : List.find (fun it => bool_decide (oi_id it = orderItemId)
                                       && bool_decide (oi_seller_id it = sellerId))
                    (order_items db) = Some orderItem).
  { apply find_conj_of_find; [exact Hitem|]. apply bool_decide_eq_true_2. exact Hseller. }
  assert (Hid : oi_id orderItem = orderItemId).
  { apply find_some in Hitem as [_ H]. apply bool_decide_eq_true in H. exact H. }
  unfold updateOrderItemStatus. rewrite bind_get, Hfind, Hallowed.
  simpl negb. cbv iota.
  set (db1 := set_order_items
                (update_where (fun it => bool_decide (oi_id it = orderItemId))
                   (with_item_status status) (order_items db)) db).
  assert (H1 : order_item_update orderItemId status db
               = (Ok (with_item_status status orderItem), db1)).
  { unfold order_item_update. rewrite Hitem. reflexivity. }
  assert (Hsub1 : find_order (oi_order_id orderItem) db1 = Some subOrder) by exact Hsub.
  set (db2 := set_orders
                (update_where (fun o => bool_decide (o_id o = oi_order_id orderItem))
                   (with_order_status status) (orders db1)) db1).
  assert (H2 : order_update (oi_order_id orderItem) (with_order_status status) db1
               = (Ok tt, db2)) by exact (order_update_found _ _ _ _ Hsub1).
  assert (Hitem2 : List.find (fun it => bool_decide (oi_id it = orderItemId)) (order_items db2)
                   = Some (with_item_status status orderItem)).
  { unfold db2, db1. simpl. rewrite find_update_where by reflexivity.
    rewrite Hitem. simpl. rewrite Hid, bool_decide_eq_true_2 by reflexivity. reflexivity. }
  assert (Hall2 : Forall (fun o => o_id o = oi_order_id orderItem -> o_status o = status)
                    (orders db2)).
  { unfold db2. simpl. apply Forall_update_where_hit.
    - intros o _ _. reflexivity.
    - intros o Hq Ho. apply bool_decide_eq_false in Hq. contradiction. }
  assert (Hsub2 : exists so, find_order (oi_order_id orderItem) db2 = Some so
                             /\ o_status so = status).
  { unfold db2. rewrite find_order_update_where by reflexivity. rewrite Hsub1. simpl.
    eexists. split; [reflexivity|].
    rewrite (find_order_id _ _ _ Hsub), bool_decide_eq_true_2 by reflexivity. reflexivity. }
  assert (Htx : forall db3,
             match o_parent_order_id subOrder with
             | Some parent_id => order_update parent_id (with_order_status status)
             | None => ret tt
             end db2 = (Ok tt, db3) ->
             transaction (updateOrderItemStatus_tx orderItemId status) db
             = (Ok (with_item_status status orderItem), db3)).
  { intros db3 H3. apply transaction_commit. unfold updateOrderItemStatus_tx.
    rewrite (bind_ok _ _ _ _ _ H1), bind_get.
    change (oi_order_id (with_item_status status orderItem)) with (oi_order_id orderItem).
    rewrite Hsub1, (bind_ok _ _ _ _ _ H2).
    erewrite bind_ok; [reflexivity|]. exact H3. }
  destruct (o_parent_order_id subOrder) as [parent_id|] eqn:Hp.
  - destruct (Hparent parent_id eq_refl) as [parent Hpar].
    assert (Hpar2 : exists p2, find_order parent_id db2 = Some p2).
    { unfold db2. rewrite find_order_update_where by reflexivity.
      assert (Hpar1 : find_order parent_id db1 = Some parent) by exact Hpar.
      rewrite Hpar1. simpl. eauto. }
    destruct Hpar2 as [p2 Hpar2].
    set (db3 := set_orders
                  (update_where (fun o => bool_decide (o_id o = parent_id))
                     (with_order_status status) (orders db2)) db2).
    assert (H3 : order_update parent_id (with_order_status status) db2 = (Ok tt, db3))
      by exact (order_update_found _ _ _ _ Hpar2).
    assert (Hall3 : Forall (fun o => o_id o = oi_order_id orderItem -> o_status o = status)
                      (orders db3)).
    { unfold db3. simpl. apply Forall_update_where; [exact Hall2|].
      intros o Ho _ Hido. reflexivity. }
    assert (Hallp : Forall (fun o => o_id o = parent_id -> o_status o = status) (orders db3)).
    { unfold db3. simpl. apply Forall_update_where_hit.
      - intros o _ _. reflexivity.
      - intros o Hq Ho. apply bool_decide_eq_false in Hq. contradiction. }
    exists db3. split; [exact (Htx db3 H3)|]. split; [exact Hitem2|].
    split; [exact Hall3|]. split.
    { destruct Hsub2 as (so & Hso & Hst). unfold db3.
      rewrite find_order_update_where by reflexivity. rewrite Hso. simpl.
      eexists. split; [reflexivity|]. destruct (bool_decide _); [reflexivity | exact Hst]. }
    split; [|reflexivity].
    intros k [= <-]. split; [exact Hallp|]. unfold db3.
    rewrite find_order_update_where by reflexivity. rewrite Hpar2. simpl.
    eexists. split; [reflexivity|].
    rewrite (find_order_id _ _ _ Hpar2), bool_decide_eq_true_2 by reflexivity. reflexivity.
  - exists db2. split; [exact (Htx db2 eq_refl)|]. split; [exact Hitem2|].
    split; [exact Hall2|]. split; [exact Hsub2|]. split; [intros k [=] | reflexivity].
Qed.

(** C7. [updateOrderItemStatus] accepts exactly PENDING->CONFIRMED,
    PENDING->CANCELLED, CONFIRMED->SHIPPED and SHIPPED->DELIVERED.  For an
    order item of the seller whose sub-order, and parent order if any, are
    in the Order table, each of these four is accepted: the call returns the
    item with the new status and has written that status on the item, the
    sub-order and the parent.  Every other pair is rejected with
    [InvalidTransition] and the database, hence the item, sub-order and
    parent status, is unchanged; so the call succeeds exactly on the four
    pairs. *)
Theorem updateOrderItemStatus_transitions db sellerId orderItemId orderItem subOrder status :
  List.find (fun it => bool_decide (oi_id it = orderItemId)) (order_items db) = Some orderItem ->
  oi_seller_id orderItem = sellerId ->
  find_order (oi_order_id orderItem) db = Some subOrder ->
  (forall parent_id, o_parent_order_id subOrder = Some parent_id ->
     exists parent, find_order parent_id db = Some parent) ->
  (In (oi_status orderItem, status) legal_transitions ->
   exists db',
     updateOrderItemStatus sellerId orderItemId status db
     = (Ok (with_item_status status orderItem), db')
     /\ List.find (fun it => bool_decide (oi_id it = orderItemId)) (order_items db')
        = Some (with_item_status status orderItem)
     /\ (exists subOrder', find_order (oi_order_id orderItem) db' = Some subOrder'
                           /\ o_status subOrder' = status)
     /\ (forall parent_id, o_parent_order_id subOrder = Some parent_id ->
           exists parent', find_order parent_id db' = Some parent'
                           /\ o_status parent' = status))
  /\ (~ In (oi_status orderItem, status) legal_transitions ->
      updateOrderItemStatus sellerId orderItemId status db
      = (Err (InvalidTransition (oi_status orderItem) status), db))
  /\ ((exists item db', updateOrderItemStatus sellerId orderItemId status db = (Ok item, db'))
      <-> In (oi_status orderItem, status) legal_transitions).
Proof.
  intros Hitem Hseller Hsub Hparent.
  assert (Hfind : List.find (fun it => bool_decide (oi_id it = orderItemId)
                                       && bool_decide (oi_seller_id it = sellerId))
                    (order_items db) = Some orderItem).
  { apply find_conj_of_find; [exact Hitem|]. apply bool_decide_eq_true_2. exact Hseller. }
  assert (Haccept : In (oi_status orderItem, status) legal_transitions ->
            exists db',
              updateOrderItemStatus sellerId orderItemId status db
              = (Ok (with_item_status status orderItem), db')
              /\ List.find (fun it => bool_decide (oi_id it = orderItemId)) (order_items db')
                 = Some (with_item_status status orderItem)
              /\ (exists subOrder', find_order (oi_order_id orderItem) db' = Some subOrder'
                                    /\ o_status subOrder' = status)
              /\ (forall parent_id, o_parent_order_id subOrder = Some parent_id ->
                    exists parent', find_order parent_id db' = Some parent'
                                    /\ o_status parent' = status)).
  { intros Hlegal. apply transition_allowed_legal in Hlegal.
    destruct (updateOrderItemStatus_accepted _ _ _ _ _ _ Hitem Hseller Hlegal Hsub Hparent)
      as (db' & Hrun & Hi & _ & Hs & Hp & _).
    exists db'. split; [exact Hrun|]. split; [exact Hi|]. split; [exact Hs|].
    intros k Hk. exact (proj2 (Hp k Hk)). }
  assert (Hreject : ~ In (oi_status orderItem, status) legal_transitions ->
            updateOrderItemStatus sellerId orderItemId status db
            = (Err (InvalidTransition (oi_status orderItem) status), db)).
  { intros Hlegal. unfold updateOrderItemStatus, bind, get. rewrite Hfind.
    destruct (transition_allowed (oi_status orderItem) status) eqn:E.
    - apply transition_allowed_legal in E. contradiction.
    - reflexivity. }
  split; [exact Haccept|]. split; [exact Hreject|]. split.
  - intros (item & db' & Hrun).
    destruct (transition_allowed (oi_status orderItem) status) eqn:E.
    + apply transition_allowed_legal. exact E.
    + rewrite Hreject in Hrun; [discriminate Hrun|].
      intros Hlegal. apply transition_allowed_legal in Hlegal. congruence.
  - intros Hlegal. destruct (Haccept Hlegal) as (db' & Hrun & _). eauto.
Qed.

(** C9, as the code has it.  For a PENDING order item of the seller, the
    status update to CANCELLED succeeds and marks the item, its sub-order
    and the parent order CANCELLED, while the Product table is left as it
    was: no stock is given back.  [cancelOrder] and [cancelSubOrder], the
    only operations that restore stock, reject the sub-order and the parent
    in the resulting state, and in every state in which they are still
    CANCELLED: the units stay deducted for as long as the status stays. *)
Theorem updateOrderItemStatus_cancel_keeps_stock db sellerId orderItemId orderItem subOrder :
  List.find (fun it => bool_decide (oi_id it = orderItemId)) (order_items db) = Some orderItem ->
  oi_seller_id orderItem = sellerId ->
  oi_status orderItem = OrderStatus.PENDING ->
  find_order (oi_order_id orderItem) db = Some subOrder ->
  (forall parent_id, o_parent_order_id subOrder = Some parent_id ->
     exists parent, find_order parent_id db = Some parent) ->
  exists db',
    updateOrderItemStatus sellerId orderItemId OrderStatus.CANCELLED db
    = (Ok (with_item_status OrderStatus.CANCELLED orderItem), db')
    /\ List.find (fun it => bool_decide (oi_id it = orderItemId)) (order_items db')
       = Some (with_item_status OrderStatus.CANCELLED orderItem)
    /\ (exists subOrder', find_order (oi_order_id orderItem) db' = Some subOrder'
                          /\ o_status subOrder' = OrderStatus.CANCELLED)
    /\ (forall parent_id, o_parent_order_id subOrder = Some parent_id ->
          exists parent', find_order parent_id db' = Some parent'
                          /\ o_status parent' = OrderStatus.CANCELLED)
    /\ products db' = products db
    /\ (forall env userId orderId,
          orderId = oi_order_id orderItem \/ o_parent_order_id subOrder = Some orderId ->
          exists e, cancelOrder env userId orderId db' = (Err e, db'))
    /\ (forall env seller,
          exists e, cancelSubOrder env seller (oi_order_id orderItem) db' = (Err e, db'))
    /\ (forall env userId seller orderId later,
          Forall (fun o => o_id o = orderId -> o_status o = OrderStatus.CANCELLED)
            (orders later) ->
          (exists e, cancelOrder env userId orderId later = (Err e, later))
          /\ (exists e, cancelSubOrder env seller orderId later = (Err e, later))).
Proof.
  intros Hitem Hseller Hpending Hsub Hparent.
  assert (Hallowed : transition_allowed (oi_status orderItem) OrderStatus.CANCELLED = true)
    by (rewrite Hpending; reflexivity).
  destruct (updateOrderItemStatus_accepted _ _ _ _ _ _ Hitem Hseller Hallowed Hsub Hparent)
    as (db' & Hrun & Hi & Hall & Hs & Hp & Hproducts).
  exists db'. split; [exact Hrun|]. split; [exact Hi|]. split; [exact Hs|].
  split; [intros k Hk; exact (proj2 (Hp k Hk))|]. split; [exact Hproducts|].
  split; [|split].
  - intros env u k [-> | Hk]; apply cancelOrder_rejects_cancelled;
      [exact Hall | exact (proj1 (Hp k Hk))].
  - intros env s. apply cancelSubOrder_rejects_cancelled. exact Hall.
  - intros env u s k later Hlater. split;
      [apply cancelOrder_rejects_cancelled | apply cancelSubOrder_rejects_cancelled];
      exact Hlater.
Qed.

(** Against C9 as stated.  The sub-order 51 of seller 20 holds item 60, two
    units of product 1, and item 62, one unit of product 1; the stock is 8.
    The seller cancels item 60 by status update: the stock stays 8.  The
    status update of item 62 to CONFIRMED then writes CONFIRMED over the
    CANCELLED of the sub-order and of the parent; item 60 is still
    CANCELLED.  [cancelSubOrder] now accepts the sub-order and restores
    every item of it: the stock is 11, the two units of the cancelled item
    included.  The units were not removed for good. *)
Lemma updateOrderItemStatus_cancel_not_permanent :
  exists item1 db1 item2 db2 resp db3,
    updateOrderItemStatus 20%nat 60%nat OrderStatus.CANCELLED Witness.two_items
    = (Ok item1, db1)
    /\ option_map p_stock (products Witness.two_items !! 1%nat) = Some 8
    /\ option_map p_stock (products db1 !! 1%nat) = Some 8
    /\ updateOrderItemStatus 20%nat 62%nat OrderStatus.CONFIRMED db1 = (Ok item2, db2)
    /\ option_map oi_status
         (List.find (fun it => bool_decide (oi_id it = 60%nat)) (order_items db2))
       = Some OrderStatus.CANCELLED
    /\ option_map o_status (find_order 51%nat db2) = Some OrderStatus.CONFIRMED
    /\ cancelSubOrder Example.env 20%nat 51%nat db2 = (Ok resp, db3)
    /\ option_map p_stock (products db3 !! 1%nat) = Some 11.
Proof.
  do 6 eexists.
  split; [vm_compute; reflexivity|].
  split; [reflexivity|].
  split; [reflexivity|].
  split; [vm_compute; reflexivity|].
  split; [reflexivity|].
  split; [reflexivity|].
  split; [vm_compute; reflexivity|].
  reflexivity.
Qed.

(** ** The stock invariant *)

Lemma keeps_write {A} (P : DB -> Prop) (g : DB -> DB) (v : DB -> A) (V : A -> Prop) :
  (forall db, P db -> P (g db) /\ V (v db)) ->
  keeps P (fun db => (Ok (v db), g db)) V.
Proof.
  intros Hg db r db' HP H. inversion H; subst.
  destruct (Hg _ HP) as [? ?]. split; [assumption|]. intros a [= <-]. assumption.
Qed.

Lemma Inv_fresh_id : keeps Inv fresh_id (fun _ => True).
Proof. apply keeps_write. intros db H. split; [exact H | exact I]. Qed.

Lemma Inv_decrement product_id qty :
  keeps Inv (product_decrement_if_available product_id qty) (fun _ => True).
Proof.
  intros db r db' (Hs & Hc & Ho) H. unfold product_decrement_if_available in H.
  destruct (products db !! product_id) as [p|] eqn:Hp.
  - destruct (qty <=? p_stock p) eqn:Hq; inversion H; subst; clear H.
    + split; [|auto]. split; [|split; assumption].
      unfold stock_ok. simpl. apply map_Forall_insert_2; [|exact Hs]. simpl. lia.
    + split; [|auto]. split; [|split]; assumption.
  - inversion H; subst. split; [|auto]. split; [|split]; assumption.
Qed.

Lemma Inv_increment product_id qty :
  0 <= qty -> keeps Inv (product_increment product_id qty) (fun _ => True).
Proof.
  intros Hq db r db' (Hs & Hc & Ho) H. unfold product_increment in H.
  destruct (products db !! product_id) as [p|] eqn:Hp; inversion H; subst; clear H.
  - split; [|auto]. split; [|split; assumption].
    unfold stock_ok. simpl. apply map_Forall_insert_2; [|exact Hs]. simpl.
    specialize (Hs _ _ Hp). simpl in Hs. lia.
  - split; [|intros ? [=]]. split; [|split]; assumption.
Qed.

Lemma Forall_delete_where {A} (P : A -> Prop) (q : A -> bool) (l : list A) :
  Forall P l -> Forall P (delete_where q l).
Proof.
  intros H. unfold delete_where. rewrite List.Forall_forall in *.
  intros x Hx. apply filter_In in Hx as [Hx _]. auto.
Qed.

Lemma Inv_cart_item_delete_many p : keeps Inv (cart_item_delete_many p) (fun _ => True).
Proof.
  apply keeps_write. intros db (Hs & Hc & Ho). split; [|exact I].
  split; [exact Hs|]. split; [|exact Ho]. simpl. apply Forall_delete_where. exact Hc.
Qed.

Lemma Inv_cart_delete_where p : keeps Inv (cart_delete_where p) (fun _ => True).
Proof.
  apply keeps_write. intros db (Hs & Hc & Ho). split; [|exact I].
  split; [exact Hs|]. split; [|exact Ho]. simpl. apply Forall_delete_where. exact Hc.
Qed.

Lemma Inv_cart_item_update item_id q e :
  0 <= q -> keeps Inv (cart_item_update item_id q e) (fun _ => True).
Proof.
  intros Hq db r db' (Hs & Hc & Ho) H. unfold cart_item_update in H.
  destruct (existsb _ _); inversion H; subst; clear H.
  - split; [|auto]. split; [exact Hs|]. split; [|exact Ho]. simpl.
    apply Forall_update_where; [exact Hc|]. intros x _ _. exact Hq.
  - split; [|intros ? [=]]. split; [|split]; assumption.
Qed.

Lemma Inv_cart_item_create cart_id product_id q e :
  0 <= q -> keeps Inv (cart_item_create cart_id product_id q e) (fun _ => True).
Proof.
  intros Hq. unfold cart_item_create.
  eapply keeps_bind; [apply Inv_fresh_id|]. intros i _.
  apply keeps_write. intros db (Hs & Hc & Ho). split; [|exact I].
  split; [exact Hs|]. split; [|exact Ho]. simpl.
  apply Forall_app. split; [exact Hc|]. constructor; [exact Hq | constructor].
Qed.

Lemma Inv_cart_create env userId sessionId expiresAt :
  keeps Inv (cart_create env userId sessionId expiresAt) (fun _ => True).
Proof.
  unfold cart_create. eapply keeps_bind; [apply Inv_fresh_id|]. intros i _.
  apply keeps_write. intros db H. split; [exact H | exact I].
Qed.

Lemma Inv_order_update order_id f : keeps Inv (order_update order_id f) (fun _ => True).
Proof.
  intros db r db' HP H. unfold order_update in H.
  destruct (existsb _ _); inversion H; subst; clear H.
  - split; [exact HP | auto].
  - split; [exact HP | intros ? [=]].
Qed.

Lemma Inv_order_item_update_many p s :
  keeps Inv (order_item_update_many p s) (fun _ => True).
Proof.
  apply keeps_write. intros db (Hs & Hc & Ho). split; [|exact I].
  split; [exact Hs|]. split; [exact Hc|]. simpl.
  apply Forall_update_where; [exact Ho|]. intros x Hx _. exact Hx.
Qed.

Lemma Inv_order_create mk : keeps Inv (order_create mk) (fun _ => True).
Proof.
  unfold order_create. eapply keeps_bind; [apply Inv_fresh_id|]. intros i _.
  apply keeps_write. intros db H. split; [exact H | exact I].
Qed.

Lemma Inv_order_item_create mk :
  (forall i, 0 <= oi_quantity (mk i)) -> keeps Inv (order_item_create mk) (fun _ => True).
Proof.
  intros Hq. unfold order_item_create.
  eapply keeps_bind; [apply Inv_fresh_id|]. intros i _.
  apply keeps_write. intros db (Hs & Hc & Ho). split; [|exact I].
  split; [exact Hs|]. split; [exact Hc|]. simpl.
  apply Forall_app. split; [exact Ho|]. constructor; [apply Hq | constructor].
Qed.

Lemma include_product_fst db items l :
  include_product db items = Ok l -> map fst l = items.
Proof.
  revert l. induction items as [|it rest IH]; simpl; intros l H.
  - inversion H. reflexivity.
  - destruct (products db !! ci_product_id it); [|discriminate].
    destruct (include_product db rest) as [l'|e]; [|discriminate].
    inversion H; subst. simpl. f_equal. apply IH. reflexivity.
Qed.

Lemma Inv_cart_items_with_product cart_id :
  keeps Inv (cart_items_with_product cart_id)
    (fun items => Forall (fun ip => 0 <= ci_quantity (fst ip)) items).
Proof.
  intros db r db' HP H. unfold cart_items_with_product in H. inversion H; subst; clear H.
  split; [exact HP|]. intros l Hl. apply include_product_fst in Hl.
  destruct HP as (_ & Hc & _).
  assert (Hitems : Forall (fun it => 0 <= ci_quantity it) (items_of_cart cart_id db')).
  { unfold items_of_cart. rewrite List.Forall_forall in *. intros x Hx.
    apply filter_In in Hx as [Hx _]. auto. }
  rewrite <- Hl in Hitems. exact (proj1 (List.Forall_map fst _ l) Hitems).
Qed.

Lemma Inv_getCart env userId sessionId :
  keeps Inv (getCart env userId sessionId) (fun _ => True).
Proof.
  unfold getCart.
  assert (Hbody : keeps Inv
    (cart_delete_where (fun c => expired (now env) (c_expires_at c)) ;;;
     db <- get ;;
     match
       match userId, sessionId with
       | Some u, _ => latest (List.filter (cart_of_user u) (carts db))
       | None, Some s => latest (List.filter (cart_of_session s) (carts db))
       | None, None => None
       end
     with
     | None => ret (empty_cart_response None)
     | Some cart =>
         items <- cart_items_with_product (c_id cart) ;;
         let itemsToRemove := List.filter (fun ip => p_stock (snd ip) =? 0) items in
         when (0 <? length itemsToRemove)%nat
           (cart_item_delete_many
              (fun it => existsb (fun ip => bool_decide (ci_id (fst ip) = ci_id it))
                                 itemsToRemove)) ;;;
         cart_item_delete_many
           (fun it => bool_decide (ci_cart_id it = c_id cart)
                      && expired (now env) (ci_reservation_expires_at it)) ;;;
         db <- get ;;
         match List.find (fun c => bool_decide (c_id c = c_id cart)) (carts db) with
         | None => ret (empty_cart_response (Some (c_id cart)))
         | Some updatedCart =>
             items <- cart_items_with_product (c_id updatedCart) ;;
             ret (cart_response (c_id updatedCart) items)
         end
     end) (fun _ => True)).
  { eapply keeps_bind; [apply Inv_cart_delete_where|]. intros _ _.
    eapply keeps_bind; [apply keeps_get|]. intros db _.
    match goal with |- keeps _ (match ?c with _ => _ end) _ => destruct c as [cart|] end;
      [|apply keeps_ret; exact I].
    eapply keeps_bind; [apply Inv_cart_items_with_product|]. intros items _.
    eapply keeps_bind; [apply keeps_when, Inv_cart_item_delete_many|]. intros _ _.
    eapply keeps_bind; [apply Inv_cart_item_delete_many|]. intros _ _.
    eapply keeps_bind; [apply keeps_get|]. intros db2 _.
    destruct (List.find _ (carts db2)); [|apply keeps_ret; exact I].
    eapply keeps_bind; [apply Inv_cart_items_with_product|]. intros items2 _.
    apply keeps_ret. exact I. }
  destruct userId, sessionId; try exact Hbody. apply keeps_throw.
Qed.

Lemma Inv_find_or_create_cart env userId sessionId :
  keeps Inv (find_or_create_cart env userId sessionId) (fun _ => True).
Proof.
  unfold find_or_create_cart.
  eapply keeps_bind; [apply keeps_get|]. intros db _.
  destruct (find_cart userId sessionId db); [apply keeps_ret; exact I|].
  destruct userId, sessionId; try apply Inv_cart_create. apply keeps_throw.
Qed.

Lemma Inv_upsert_item env product cart product_id quantity :
  1 <= quantity ->
  keeps Inv (upsert_item env product cart product_id quantity) (fun _ => True).
Proof.
  intros Hq. unfold upsert_item.
  eapply keeps_bind; [apply keeps_get|]. intros db1 _.
  destruct (find_cart_item (c_id cart) product_id db1) as [existingItem|].
  - cbv zeta. destruct (_ <? quantity); [apply keeps_throw|].
    apply Inv_cart_item_update. lia.
  - apply Inv_cart_item_create. lia.
Qed.

Lemma Inv_addToCart env userId sessionId product_id quantity :
  1 <= quantity ->
  keeps Inv (addToCart env userId sessionId product_id quantity) (fun _ => True).
Proof.
  intros Hq. unfold addToCart.
  destruct userId as [u|], sessionId as [s|]; try apply keeps_throw.
  all: apply keeps_withLock;
    (eapply keeps_bind; [apply keeps_get|]); intros db _;
    (destruct (products db !! product_id) as [product|]; [|apply keeps_throw]);
    cbv zeta; (destruct (_ <? quantity); [apply keeps_throw|]);
    (eapply keeps_bind; [apply Inv_find_or_create_cart|]); intros cart _;
    (eapply keeps_bind; [apply Inv_upsert_item; exact Hq|]); intros _ _;
    apply Inv_getCart.
Qed.

Lemma Inv_restore_item env item :
  0 <= oi_quantity item -> keeps Inv (restore_item env item) (fun _ => True).
Proof. intros H. apply keeps_withLock, Inv_increment. exact H. Qed.

Lemma Inv_place_item env subOrder_id ip :
  0 <= ci_quantity (fst ip) -> keeps Inv (place_item env subOrder_id ip) (fun _ => True).
Proof.
  intros Hq. unfold place_item. apply keeps_withLock.
  eapply keeps_bind; [apply keeps_get|]. intros db _.
  destruct (products db !! _) as [product|]; [|apply keeps_throw].
  destruct (_ <? _); [apply keeps_throw|].
  eapply keeps_bind; [apply Inv_decrement|]. intros count _.
  destruct (count =? 0)%nat; [apply keeps_throw|].
  apply Inv_order_item_create. intros i. exact Hq.
Qed.

Lemma In_group_insert {A} (k : id) (x : A) groups g y :
  In g (group_insert k x groups) -> In y (snd g) ->
  y = x \/ exists g', In g' groups /\ In y (snd g').
Proof.
  revert g. induction groups as [|[k' xs] rest IH]; simpl; intros g Hg Hy.
  - destruct Hg as [<- | []]. simpl in Hy. destruct Hy as [-> | []]. left. reflexivity.
  - destruct (bool_decide (k' = k)).
    + destruct Hg as [<- | Hg].
      * simpl in Hy. apply in_app_or in Hy as [Hy | [-> | []]].
        -- right. exists (k', xs). auto.
        -- left. reflexivity.
      * right. exists g. auto.
    + destruct Hg as [<- | Hg].
      * right. exists (k', xs). auto.
      * destruct (IH _ Hg Hy) as [-> | (g' & Hg' & Hy')]; [left; reflexivity|].
        right. exists g'. auto.
Qed.

Lemma In_group_by {A} (key : A -> id) (l : list A) g y :
  In g (group_by key l) -> In y (snd g) -> In y l.
Proof.
  unfold group_by.
  assert (H : forall acc, In g (fold_left (fun acc x => group_insert (key x) x acc) l acc) ->
                          In y (snd g) ->
                          In y l \/ exists g', In g' acc /\ In y (snd g')).
  { induction l as [|x l IH]; simpl; intros acc Hg Hy.
    - right. exists g. auto.
    - destruct (IH _ Hg Hy) as [H | (g' & Hg' & Hy')]; [auto|].
      destruct (In_group_insert _ _ _ _ _ Hg' Hy') as [-> | H]; auto. }
  intros Hg Hy. destruct (H [] Hg Hy) as [H' | (g' & [] & _)]. exact H'.
Qed.

Lemma Inv_createOrder_tx env d cart_id items :
  Forall (fun ip => 0 <= ci_quantity (fst ip)) items ->
  keeps Inv (createOrder_tx env d cart_id items) (fun _ => True).
Proof.
  intros Hitems. unfold createOrder_tx.
  eapply keeps_bind; [apply Inv_order_create|]. intros parent _.
  eapply keeps_bind.
  { apply keeps_forM with
      (Q := fun g : id * list (CartItem * Product) =>
              Forall (fun ip => 0 <= ci_quantity (fst ip)) (snd g)).
    - apply List.Forall_forall. intros g Hg. apply List.Forall_forall. intros y Hy.
      rewrite List.Forall_forall in Hitems. apply Hitems.
      eapply In_group_by; eauto.
    - intros [sellerId its] Hg. simpl in Hg. unfold place_sub_order.
      eapply keeps_bind; [apply Inv_order_create|]. intros sub _.
      apply keeps_forM with (Q := fun ip => 0 <= ci_quantity (fst ip)); [exact Hg|].
      intros ip Hip. apply Inv_place_item. exact Hip. }
  intros _ _. eapply keeps_bind; [apply Inv_cart_item_delete_many|]. intros _ _.
  apply keeps_ret. exact I.
Qed.

Lemma Inv_getOrderById userId orderId : keeps Inv (getOrderById userId orderId) (fun _ => True).
Proof.
  unfold getOrderById. eapply keeps_bind; [apply keeps_get|]. intros db _.
  destruct (List.find _ (orders db)); [|apply keeps_throw].
  destruct (_ && _); apply keeps_ret; exact I.
Qed.

Lemma Inv_validate_item env cart_id ip :
  keeps Inv (validate_item env cart_id ip) (fun _ => True).
Proof.
  unfold validate_item. eapply keeps_bind; [apply keeps_get|]. intros db _.
  destruct (products db !! _); [|apply keeps_throw].
  destruct (expired _ _); [apply keeps_throw|].
  cbv zeta. destruct (_ <? _); [apply keeps_throw | apply keeps_ret; exact I].
Qed.

Lemma Inv_createOrder env userId addressId paymentMethod :
  keeps Inv (createOrder env userId addressId paymentMethod) (fun _ => True).
Proof.
  unfold createOrder. eapply keeps_bind; [apply keeps_get|]. intros db _.
  destruct (List.find _ (carts db)) as [cart|]; [|apply keeps_throw].
  eapply keeps_bind; [apply Inv_cart_items_with_product|]. intros items Hitems.
  destruct items as [|ip items]; [apply keeps_throw|].
  destruct (List.find _ (addresses db)) as [address|]; [|apply keeps_throw].
  eapply keeps_bind.
  { apply keeps_forM with (Q := fun _ => True).
    - apply List.Forall_forall. intros; exact I.
    - intros x _. apply Inv_validate_item. }
  intros _ _. eapply keeps_bind.
  { apply keeps_transaction. apply Inv_createOrder_tx. exact Hitems. }
  intros parent _. apply Inv_getOrderById.
Qed.

Lemma items_of_order_nonneg order_id db :
  Inv db -> Forall (fun it => 0 <= oi_quantity it) (items_of_order order_id db).
Proof.
  intros (_ & _ & Ho). unfold items_of_order. rewrite List.Forall_forall in *.
  intros x Hx. apply filter_In in Hx as [Hx _]. auto.
Qed.

Lemma Inv_restore_items env items :
  Forall (fun it => 0 <= oi_quantity it) items ->
  keeps Inv (forM items (restore_item env)) (fun _ => True).
Proof.
  intros H. eapply keeps_forM; [exact H|]. intros x Hx. apply Inv_restore_item. exact Hx.
Qed.

Lemma Inv_cancelOrder env userId orderId :
  keeps Inv (cancelOrder env userId orderId) (fun _ => True).
Proof.
  unfold cancelOrder. eapply keeps_bind; [apply keeps_get|]. intros db Hdb.
  destruct (List.find _ (orders db)) as [order|]; [|apply keeps_throw].
  destruct (negb _); [apply keeps_throw|].
  eapply keeps_bind; [|intros _ _; apply Inv_getOrderById].
  apply keeps_transaction. unfold cancelOrder_tx.
  eapply keeps_bind; [|intros _ _; apply Inv_order_update].
  destruct (_ && _).
  - apply keeps_forM with (Q := fun sub : Order * list OrderItem =>
                                  Forall (fun it => 0 <= oi_quantity it) (snd sub)).
    + apply List.Forall_forall. intros sub Hsub. apply in_map_iff in Hsub as (s & <- & _).
      simpl. apply items_of_order_nonneg. exact Hdb.
    + intros sub Hsub.
      eapply keeps_bind; [apply Inv_order_update|]. intros _ _.
      eapply keeps_bind; [apply Inv_order_item_update_many|]. intros _ _.
      apply Inv_restore_items. exact Hsub.
  - eapply keeps_bind; [apply Inv_restore_items, items_of_order_nonneg; exact Hdb|].
    intros _ _. apply Inv_order_item_update_many.
Qed.

Lemma Inv_cancelSubOrder env sellerId subOrderId :
  keeps Inv (cancelSubOrder env sellerId subOrderId) (fun _ => True).
Proof.
  unfold cancelSubOrder. eapply keeps_bind; [apply keeps_get|]. intros db Hdb.
  destruct (List.find _ (orders db)) as [subOrder|]; [|apply keeps_throw].
  destruct (_ && _); [apply keeps_throw|].
  eapply keeps_bind with (V := fun _ : unit => True).
  - apply keeps_transaction. unfold cancelSubOrder_tx.
    eapply keeps_bind; [apply Inv_order_update|]. intros _ _.
    eapply keeps_bind; [apply Inv_order_item_update_many|]. intros _ _.
    eapply keeps_bind; [apply Inv_restore_items, items_of_order_nonneg; exact Hdb|].
    intros _ _. destruct (o_parent_order_id subOrder); [|apply keeps_ret; exact I].
    eapply keeps_bind; [apply keeps_get|]. intros db1 _.
    apply keeps_when, Inv_order_update.
  - intros _ _. destruct (o_parent_order_id subOrder); apply Inv_getOrderById.
Qed.

Lemma Inv_exec op db : validated op -> Inv db -> Inv (exec op db).
Proof.
  intros Hop Hdb. destruct op; simpl in *.
  - destruct (createOrder env userId addressId paymentMethod db) as [r db'] eqn:E.
    exact (proj1 (Inv_createOrder _ _ _ _ _ _ _ Hdb E)).
  - destruct (cancelOrder env userId orderId db) as [r db'] eqn:E.
    exact (proj1 (Inv_cancelOrder _ _ _ _ _ _ Hdb E)).
  - destruct (cancelSubOrder env sellerId subOrderId db) as [r db'] eqn:E.
    exact (proj1 (Inv_cancelSubOrder _ _ _ _ _ _ Hdb E)).
  - destruct (addToCart env userId sessionId product_id quantity db) as [r db'] eqn:E.
    exact (proj1 (Inv_addToCart _ _ _ _ _ Hop _ _ _ Hdb E)).
Qed.

Lemma Inv_run ops db : Forall validated ops -> Inv db -> Inv (run ops db).
Proof.
  unfold run. intros Hops. revert db.
  induction Hops as [|op ops Hop Hops IH]; simpl; intros db Hdb; [exact Hdb|].
  apply IH. apply Inv_exec; assumption.
Qed.

(** C1. Whatever sequence of createOrder, cancelOrder, cancelSubOrder and
    addToCart requests runs, no product ends with negative stock; the one
    place where stock goes down is the conditional update, which changes a
    row only when its stock is at least the quantity; and the increment adds
    the quantity to the stock of the row. *)
Theorem stock_never_negative ops db :
  Inv db -> Forall validated ops ->
  (forall product_id product,
     products (run ops db) !! product_id = Some product -> 0 <= p_stock product)
  /\ (forall product_id qty count db1 db2,
        product_decrement_if_available product_id qty db1 = (Ok count, db2) ->
        (count = 1%nat /\
         exists product, products db1 !! product_id = Some product
                         /\ qty <= p_stock product
                         /\ products db2
                            = <[product_id := with_stock (p_stock product - qty) product]>
                                (products db1))
        \/ (count = 0%nat /\ db2 = db1))
  /\ (forall product_id qty db1 db2,
        product_increment product_id qty db1 = (Ok tt, db2) ->
        exists product, products db1 !! product_id = Some product
                        /\ products db2
                           = <[product_id := with_stock (p_stock product + qty) product]>
                               (products db1)).
Proof.
  intros Hdb Hops. split; [|split].
  - intros product_id product Hp.
    destruct (Inv_run ops db Hops Hdb) as (Hs & _ & _).
    exact (Hs _ _ Hp).
  - intros product_id qty count db1 db2 H. unfold product_decrement_if_available in H.
    destruct (products db1 !! product_id) as [p|] eqn:Hp.
    + destruct (qty <=? p_stock p) eqn:Hq; inversion H; subst; clear H.
      * left. split; [reflexivity|]. exists p. split; [reflexivity|].
        split; [lia | reflexivity].
      * right. auto.
    + inversion H; subst. right. auto.
  - intros product_id qty db1 db2 H. unfold product_increment in H.
    destruct (products db1 !! product_id) as [p|] eqn:Hp; inversion H; subst.
    exists p. split; reflexivity.
Qed.

(** ** Checkout: what a committed createOrder wrote *)

Lemma ordered_app l1 l2 p : ordered (l1 ++ l2) p = ordered l1 p + ordered l2 p.
Proof. induction l1 as [|x l1 IH]; simpl; [reflexivity|]. rewrite IH. lia. Qed.

Lemma moved_moved a b p : moved a (moved b p) = moved (b + a) p.
Proof. unfold moved, with_stock. simpl. f_equal. lia. Qed.

Lemma moved_0 p : moved 0 p = p.
Proof. destruct p. unfold moved, with_stock. simpl. f_equal. lia. Qed.

Lemma placed_refl db : placed db db [] [].
Proof.
  constructor; simpl; rewrite ?app_nil_r; auto.
  intros p. destruct (products db !! p) as [pr|]; simpl; [|reflexivity].
  rewrite moved_0. reflexivity.
Qed.

Lemma placed_trans db db1 db2 o1 o2 c1 c2 :
  placed db db1 o1 c1 -> placed db1 db2 o2 c2 -> placed db db2 (o1 ++ o2) (c1 ++ c2).
Proof.
  intros [Ho1 Hi1 Hci1 Hc1 Ha1 Hn1 Hp1 Hk1] [Ho2 Hi2 Hci2 Hc2 Ha2 Hn2 Hp2 Hk2].
  constructor.
  - rewrite Ho2, Ho1, app_assoc. reflexivity.
  - rewrite Hi2, Hi1, app_assoc. reflexivity.
  - congruence.
  - congruence.
  - congruence.
  - lia.
  - intros p. rewrite Hp2, Hp1. destruct (products db !! p) as [pr|]; simpl; [|reflexivity].
    rewrite moved_moved, ordered_app. f_equal. f_equal. lia.
  - apply Forall_app. split; [exact Hk1|].
    eapply Forall_impl; [exact Hk2|]. intros it Hit. simpl in Hit.
    rewrite Hp1 in Hit. destruct (products db !! oi_product_id it); [eauto|].
    simpl in Hit. destruct Hit as [? [=]].
Qed.


Lemma place_item_ok env sid ip db db' :
  place_item env sid ip db = (Ok tt, db') ->
  placed db db' [] [order_item_of sid ip (next_id db)]
  /\ next_id db' = S (next_id db)
  /\ lock_granted env (ci_product_id (fst ip)) = true.
Proof.
  unfold place_item, withLock.
  destruct (lock_granted env (ci_product_id (fst ip))) eqn:Hlock; [|discriminate].
  rewrite bind_get.
  destruct (products db !! ci_product_id (fst ip)) as [product|] eqn:Hp; [|discriminate].
  destruct (p_stock product <? ci_quantity (fst ip)) eqn:Hlt; [discriminate|].
  apply Z.ltb_ge in Hlt.
  unfold bind at 1. unfold product_decrement_if_available. rewrite Hp.
  destruct (ci_quantity (fst ip) <=? p_stock product) eqn:Hle; [|apply Z.leb_gt in Hle; lia].
  simpl Nat.eqb. cbv iota.
  unfold order_item_create, bind, fresh_id. simpl.
  intros [= <-]. split; [|split; reflexivity].
  constructor; simpl; rewrite ?app_nil_r; auto.
  intros p. rewrite Z.add_0_r.
    destruct (decide (ci_product_id (fst ip) = p)) as [<- | Hne].
  - rewrite lookup_insert_eq, Hp, bool_decide_eq_true_2 by reflexivity. simpl.
      reflexivity.
  - rewrite lookup_insert_ne by exact Hne.
      rewrite bool_decide_eq_false_2 by exact Hne.
      destruct (products db !! p); simpl; [rewrite moved_0|]; reflexivity.
Qed.

Lemma place_items_ok env sid items db db' :
  forM items (place_item env sid) db = (Ok tt, db') ->
  exists created,
    placed db db' [] created
    /\ map order_line created = map cart_line items
    /\ Forall (fun it => oi_order_id it = sid) created
    /\ Forall (fun ip => lock_granted env (ci_product_id (fst ip)) = true) items.
Proof.
  revert db. induction items as [|ip items IH]; simpl; intros db H.
  - inversion H; subst. exists []. split; [apply placed_refl|]. auto.
  - apply bind_ok_inv in H as ([] & db1 & H1 & H2).
    apply place_item_ok in H1 as (Hp1 & Hn1 & Hl1).
    destruct (IH _ H2) as (created & Hp2 & Hlines & Hsid & Hlocks).
    exists (order_item_of sid ip (next_id db) :: created).
    split; [exact (placed_trans _ _ _ [] [] [_] _ Hp1 Hp2)|].
    split; [simpl; rewrite Hlines; reflexivity|].
    split; constructor; auto.
Qed.

Lemma place_sub_order_ok env d parent_id g db db' :
  place_sub_order env d parent_id g db = (Ok tt, db') ->
  exists created,
    placed db db'
      [new_order d (Some parent_id) (Some (fst g)) (total_amount (snd g)) false (next_id db)]
      created
    /\ map order_line created = map cart_line (snd g)
    /\ Forall (fun it => oi_order_id it = next_id db) created
    /\ (next_id db < next_id db')%nat
    /\ Forall (fun ip => lock_granted env (ci_product_id (fst ip)) = true) (snd g).
Proof.
  destruct g as [sellerId items]. unfold place_sub_order, order_create.
  intros H. apply bind_ok_inv in H as (sub & db1 & H1 & H2).
  unfold bind, fresh_id in H1. simpl in H1. inversion H1; subst; clear H1.
  destruct (place_items_ok _ _ _ _ _ H2) as (created & Hp & Hlines & Hsid & Hlocks).
  exists created. simpl in *. split; [|split; [exact Hlines|split; [exact Hsid|split; [|exact Hlocks]]]].
  - assert (Hp0 : placed db
             (set_orders (orders (set_next_id (S (next_id db)) db) ++
                [new_order d (Some parent_id) (Some sellerId) (total_amount items) false (next_id db)])
                (set_next_id (S (next_id db)) db))
             [new_order d (Some parent_id) (Some sellerId) (total_amount items) false (next_id db)] []).
    { constructor; simpl; rewrite ?app_nil_r; auto.
      intros p. destruct (products db !! p); simpl; [rewrite moved_0|]; reflexivity. }
    exact (placed_trans _ _ _ [_] [] [] _ Hp0 Hp).
  - pose proof (placed_next _ _ _ _ Hp) as Hn. simpl in Hn. lia.
Qed.

Lemma place_groups_ok env d parent_id groups db db' :
  forM groups (place_sub_order env d parent_id) db = (Ok tt, db') ->
  exists subs created,
    placed db db' subs created
    /\ map order_line created = map cart_line (concat (map snd groups))
    /\ Forall (fun s => o_parent_order_id s = Some parent_id
                        /\ o_is_parent s = false
                        /\ (next_id db <= o_id s < next_id db')%nat) subs
    /\ List.NoDup (map o_id subs)
    /\ Forall (fun it => In (oi_order_id it) (map o_id subs)) created
    /\ length subs = length groups
    /\ Forall (fun ip => lock_granted env (ci_product_id (fst ip)) = true)
              (concat (map snd groups)).
Proof.
  revert db. induction groups as [|g groups IH]; simpl; intros db H.
  - inversion H; subst. exists [], []. split; [apply placed_refl|].
    repeat split; auto. constructor.
  - apply bind_ok_inv in H as ([] & db1 & H1 & H2).
    apply place_sub_order_ok in H1 as (c1 & Hp1 & Hl1 & Hs1 & Hn1 & Hk1).
    destruct (IH _ H2) as (subs & c2 & Hp2 & Hl2 & Hs2 & Hnd & Hin & Hlen & Hk2).
    pose proof (placed_next _ _ _ _ Hp2) as Hn2.
    eexists (_ :: subs), (c1 ++ c2).
    split; [exact (placed_trans _ _ _ [_] _ _ _ Hp1 Hp2)|].
    split; [rewrite !map_app, Hl1, Hl2; reflexivity|].
    split.
    { constructor; [simpl; repeat split; lia|].
      eapply Forall_impl; [exact Hs2|]. simpl. intros s (? & ? & ?). repeat split; auto; lia. }
    split.
    { simpl. constructor; [|exact Hnd]. intros Hx.
      apply in_map_iff in Hx as (s & Hsid & Hs).
      rewrite List.Forall_forall in Hs2. destruct (Hs2 _ Hs) as (_ & _ & Hr). lia. }
    split.
    { apply Forall_app. split.
      - eapply Forall_impl; [exact Hs1|]. simpl. intros it ->. left. reflexivity.
      - eapply Forall_impl; [exact Hin|]. simpl. intros it Hit. right. exact Hit. }
    split; [simpl; congruence|].
    apply Forall_app. split; assumption.
Qed.

Lemma group_insert_perm {A} (k : id) (x : A) groups :
  Permutation (concat (map snd (group_insert k x groups))) (x :: concat (map snd groups)).
Proof.
  induction groups as [|[k' xs] rest IH]; simpl.
  - reflexivity.
  - destruct (bool_decide (k' = k)); simpl.
    + rewrite <- app_assoc. simpl.
      rewrite <- Permutation_middle. reflexivity.
    + rewrite IH. rewrite Permutation_middle. reflexivity.
Qed.

Lemma group_by_perm {A} (key : A -> id) (l : list A) :
  Permutation (concat (map snd (group_by key l))) l.
Proof.
  unfold group_by.
  assert (H : forall acc,
             Permutation
               (concat (map snd (fold_left (fun acc x => group_insert (key x) x acc) l acc)))
               (concat (map snd acc) ++ l)).
  { induction l as [|x l IH]; simpl; intros acc.
    - rewrite app_nil_r. reflexivity.
    - rewrite IH, group_insert_perm. rewrite <- Permutation_middle. reflexivity. }
  rewrite H. reflexivity.
Qed.

Lemma group_by_nonempty {A} (key : A -> id) (l : list A) :
  l <> [] -> group_by key l <> [].
Proof.
  intros Hl Hg. pose proof (group_by_perm key l) as Hp. rewrite Hg in Hp. simpl in Hp.
  apply Permutation_nil in Hp. contradiction.
Qed.

Lemma createOrder_tx_ok env d cart_id items db parent db' :
  createOrder_tx env d cart_id items db = (Ok parent, db') ->
  parent = new_order d None None (total_amount items) true (next_id db)
  /\ exists subs created, committed env cart_id items db db' parent subs created.
Proof.
  unfold createOrder_tx, order_create. intros H.
  apply bind_ok_inv in H as (parent0 & db1 & H1 & H).
  unfold bind, fresh_id in H1. simpl in H1. inversion H1; subst; clear H1.
  apply bind_ok_inv in H as ([] & db2 & H2 & H).
  apply bind_ok_inv in H as ([] & db3 & H3 & H).
  inversion H; subst; clear H.
  unfold cart_item_delete_many in H3. inversion H3; subst; clear H3.
  apply place_groups_ok in H2
    as (subs & created & Hp & Hl & Hs & Hnd & Hin & Hlen & Hk).
  destruct Hp as [Ho Hi Hci Hc Ha Hn Hpr Hkn]. simpl in *.
  split; [reflexivity|]. exists subs, created.
  pose proof (group_by_perm (fun ip : CartItem * Product => p_seller_id (snd ip)) items) as Hperm.
  constructor; simpl; auto.
  - rewrite Ho, <- app_assoc. reflexivity.
  - rewrite Hci. reflexivity.
  - rewrite Hl. apply Permutation_map. exact Hperm.
  - rewrite List.Forall_forall in *. intros ip Hip. apply Hk.
    apply (Permutation_in _ (Permutation_sym Hperm)). exact Hip.
Qed.

Lemma reads_bind {A B} (m : M A) (f : A -> M B) :
  reads m -> (forall a, reads (f a)) -> reads (bind m f).
Proof.
  intros Hm Hf db r db' H.
  apply bind_inv in H as [(a & db1 & H1 & H2) | (e & H1 & _)].
  - apply Hm in H1. subst db1. eapply Hf; eauto.
  - eapply Hm; eauto.
Qed.

Lemma reads_get : reads get.
Proof. intros db r db' [= _ <-]. reflexivity. Qed.

Lemma reads_ret {A} (a : A) : reads (ret a).
Proof. intros db r db' [= _ <-]. reflexivity. Qed.

Lemma reads_throw {A} e : reads (@throw A e).
Proof. intros db r db' [= _ <-]. reflexivity. Qed.

Lemma reads_forM {A} (l : list A) (f : A -> M unit) :
  (forall x, reads (f x)) -> reads (forM l f).
Proof.
  intros Hf. induction l as [|x l IH]; simpl; [apply reads_ret|].
  apply reads_bind; [apply Hf | intros _; exact IH].
Qed.

Lemma reads_validate_item env cart_id ip : reads (validate_item env cart_id ip).
Proof.
  unfold validate_item. apply reads_bind; [apply reads_get|]. intros db.
  destruct (products db !! _); [|apply reads_throw].
  destruct (expired _ _); [apply reads_throw|].
  cbv zeta. destruct (_ <? _); [apply reads_throw | apply reads_ret].
Qed.

Lemma reads_cart_items_with_product cart_id : reads (cart_items_with_product cart_id).
Proof. intros db r db' [= _ <-]. reflexivity. Qed.

Lemma reads_getOrderById userId orderId : reads (getOrderById userId orderId).
Proof.
  unfold getOrderById. apply reads_bind; [apply reads_get|]. intros db.
  destruct (List.find _ (orders db)); [|apply reads_throw].
  destruct (_ && _); apply reads_ret.
Qed.

Lemma find_app_hit {A} (p : A -> bool) (l1 l2 : list A) x :
  p x = true -> exists y, List.find p (l1 ++ x :: l2) = Some y.
Proof.
  intros Hx. destruct (List.find p (l1 ++ x :: l2)) as [y|] eqn:E; [eauto|].
  exfalso. pose proof (find_none _ _ E x) as H.
  rewrite H in Hx; [discriminate|]. apply in_or_app. right. left. reflexivity.
Qed.

Lemma getOrderById_found userId orderId db o :
  List.find (fun o => bool_decide (o_id o = orderId) && bool_decide (o_user_id o = userId))
    (orders db) = Some o ->
  exists r, getOrderById userId orderId db = (Ok r, db).
Proof.
  intros H. unfold getOrderById. rewrite bind_get, H.
  destruct (_ && _); eexists; reflexivity.
Qed.

Lemma line_sum_perm l1 l2 p : Permutation l1 l2 -> line_sum l1 p = line_sum l2 p.
Proof.
  intros H. induction H; simpl; try lia.
Qed.

Lemma ordered_line_sum l p : ordered l p = line_sum (map order_line l) p.
Proof. induction l as [|x l IH]; simpl; [reflexivity|]. rewrite IH. reflexivity. Qed.

Lemma demand_line_sum l p : demand l p = line_sum (map cart_line l) p.
Proof. induction l as [|x l IH]; simpl; [reflexivity|]. rewrite IH. reflexivity. Qed.

Lemma committed_demand env cart_id items db db' parent subs created p :
  committed env cart_id items db db' parent subs created ->
  ordered created p = demand items p.
Proof.
  intros H. rewrite ordered_line_sum, demand_line_sum.
  apply line_sum_perm. exact (committed_lines _ _ _ _ _ _ _ _ H).
Qed.

Lemma items_of_cart_cleared cart_id db db' :
  cart_items db' = delete_where (fun it => bool_decide (ci_cart_id it = cart_id)) (cart_items db) ->
  items_of_cart cart_id db' = [].
Proof.
  intros H. unfold items_of_cart. rewrite H. unfold delete_where. clear H.
  induction (cart_items db) as [|x l IH]; simpl; [reflexivity|].
  destruct (bool_decide (ci_cart_id x = cart_id)) eqn:E; simpl; [exact IH|].
  rewrite E. exact IH.
Qed.

(** What [createOrder] does, branch by branch. *)
Lemma createOrder_cases env userId addressId paymentMethod db r db' :
  createOrder env userId addressId paymentMethod db = (r, db') ->
  (exists e, r = Err e /\ db' = db)
  \/ (exists cart items address parent resp,
        List.find (cart_of_user userId) (carts db) = Some cart
        /\ include_product db (items_of_cart (c_id cart) db) = Ok items
        /\ items <> []
        /\ createOrder_tx env
             {| d_user_id := userId; d_address_id := addressId;
                d_payment_method := paymentMethod;
                d_shipping_address := shipping_address_of address |}
             (c_id cart) items db = (Ok parent, db')
        /\ getOrderById userId (o_id parent) db' = (Ok resp, db')
        /\ r = Ok resp).
Proof.
  unfold createOrder. rewrite bind_get.
  destruct (List.find (cart_of_user userId) (carts db)) as [cart|] eqn:Hcart;
    [|intros [= <- <-]; left; eauto].
  intros H. apply bind_inv in H as [(items & db1 & H1 & H) | (e & H1 & ->)].
  2:{ apply reads_cart_items_with_product in H1. left. eauto. }
  pose proof (reads_cart_items_with_product _ _ _ _ H1). subst db1.
  unfold cart_items_with_product in H1. injection H1 as H1.
  destruct items as [|ip items]; [inversion H; subst; left; eauto|].
  destruct (List.find _ (addresses db)) as [address|];
    [|inversion H; subst; left; eauto].
  apply bind_inv in H as [([] & db1 & H2 & H) | (e & H2 & ->)].
  2:{ apply (reads_forM _ _ (reads_validate_item env (c_id cart))) in H2. left. eauto. }
  apply (reads_forM _ _ (reads_validate_item env (c_id cart))) in H2. subst db1.
  apply bind_inv in H as [(parent & db1 & H3 & H) | (e & H3 & ->)].
  2:{ apply transaction_err in H3. left. eauto. }
  apply transaction_ok in H3.
  destruct (createOrder_tx_ok _ _ _ _ _ _ _ H3) as (Hparent & subs & created & Hc).
  assert (Hfound : exists o,
             List.find (fun o => bool_decide (o_id o = o_id parent)
                                 && bool_decide (o_user_id o = userId)) (orders db1) = Some o).
  { rewrite (committed_orders _ _ _ _ _ _ _ _ Hc). apply find_app_hit.
    rewrite Hparent. simpl. rewrite !bool_decide_eq_true_2 by reflexivity. reflexivity. }
  destruct Hfound as (o & Hfound).
  destruct (getOrderById_found _ _ _ _ Hfound) as (resp & Hresp).
  rewrite Hresp in H. inversion H; subst r db'.
  right. exists cart, (ip :: items), address, parent, resp.
  repeat split; auto; discriminate.
Qed.

(** C2. [createOrder] is atomic.  When it fails, at any step (empty cart,
    address, advisory check, lock, stock, row creation), the database is
    exactly the one it started from: no order, sub-order or order item
    stays and no stock is deducted; the same holds for its transaction run
    on any database.  When it succeeds, every cart item has its order item,
    the stock of every product went down by the units ordered, and the
    cart is empty. *)
Theorem createOrder_atomic env userId addressId paymentMethod db :
  (forall e db', createOrder env userId addressId paymentMethod db = (Err e, db') -> db' = db)
  /\ (forall d cart_id items db0 e db',
        transaction (createOrder_tx env d cart_id items) db0 = (Err e, db') -> db' = db0)
  /\ (forall resp db',
        createOrder env userId addressId paymentMethod db = (Ok resp, db') ->
        exists cart items created,
          List.find (cart_of_user userId) (carts db) = Some cart
          /\ include_product db (items_of_cart (c_id cart) db) = Ok items
          /\ order_items db' = order_items db ++ created
          /\ Permutation (map order_line created) (map cart_line items)
          /\ (forall p, products db' !! p = moved (- demand items p) <$> products db !! p)
          /\ items_of_cart (c_id cart) db' = []).
Proof.
  split; [|split].
  - intros e db' H. apply createOrder_cases in H as [(e' & _ & H) | H]; [exact H|].
    destruct H as (? & ? & ? & ? & ? & _ & _ & _ & _ & _ & [=]).
  - intros d cart_id items db0 e db' H. exact (transaction_err _ _ _ _ H).
  - intros resp db' H. apply createOrder_cases in H as [(e' & [=] & _) | H].
    destruct H as (cart & items & address & parent & resp' & Hcart & Hitems & _ & Htx & _ & _).
    destruct (createOrder_tx_ok _ _ _ _ _ _ _ Htx) as (_ & subs & created & Hc).
    exists cart, items, created.
    split; [exact Hcart|]. split; [exact Hitems|].
    split; [exact (committed_items _ _ _ _ _ _ _ _ Hc)|].
    split; [exact (committed_lines _ _ _ _ _ _ _ _ Hc)|].
    split.
    + intros p. rewrite <- (committed_demand _ _ _ _ _ _ _ _ p Hc).
      exact (committed_products _ _ _ _ _ _ _ _ Hc p).
    + apply (items_of_cart_cleared _ db). exact (committed_cart_items _ _ _ _ _ _ _ _ Hc).
Qed.

(** ** Cancellation: stock given back *)

Lemma lookup_moved_is_Some (m m' : gmap id Product) delta p :
  m' !! p = moved delta <$> m !! p -> is_Some (m !! p) -> is_Some (m' !! p).
Proof. intros -> [x ->]. simpl. eauto. Qed.

Lemma restore_items_ok env items db :
  (forall p, lock_granted env p = true) ->
  Forall (fun it => is_Some (products db !! oi_product_id it)) items ->
  exists db',
    forM items (restore_item env) db = (Ok tt, db')
    /\ (forall p, products db' !! p = moved (ordered items p) <$> products db !! p)
    /\ orders db' = orders db
    /\ order_items db' = order_items db.
Proof.
  intros Hlock. revert db. induction items as [|it items IH]; simpl; intros db Hknown.
  - exists db. split; [reflexivity|]. split; [|auto].
    intros p. destruct (products db !! p); simpl; [rewrite moved_0|]; reflexivity.
  - inversion Hknown as [|? ? [pr Hpr] Hrest]; subst.
    set (db1 := set_products
                  (<[oi_product_id it := with_stock (p_stock pr + oi_quantity it) pr]>
                     (products db)) db).
    assert (H1 : restore_item env it db = (Ok tt, db1)).
    { unfold restore_item, withLock, product_increment. rewrite Hlock, Hpr. reflexivity. }
    assert (Hp1 : forall p, products db1 !! p
                  = moved (if bool_decide (oi_product_id it = p) then oi_quantity it else 0)
                      <$> products db !! p).
    { intros p. unfold db1. simpl.
      destruct (decide (oi_product_id it = p)) as [<- | Hne].
      - rewrite lookup_insert_eq, Hpr, bool_decide_eq_true_2 by reflexivity. reflexivity.
      - rewrite lookup_insert_ne, bool_decide_eq_false_2 by exact Hne.
        destruct (products db !! p); simpl; [rewrite moved_0|]; reflexivity. }
    destruct (IH db1) as (db' & H2 & Hp2 & Ho2 & Hi2).
    { eapply Forall_impl; [exact Hrest|]. intros x Hx. simpl in Hx.
      eapply lookup_moved_is_Some; [apply Hp1 | exact Hx]. }
    exists db'. split; [rewrite (bind_ok _ _ _ _ _ H1); exact H2|].
    split; [|split; [rewrite Ho2 | rewrite Hi2]; reflexivity].
    intros p. rewrite Hp2, Hp1. destruct (products db !! p); simpl; [|reflexivity].
    rewrite moved_moved. reflexivity.
Qed.

Lemma existsb_map {A B} (f : A -> B) (p : B -> bool) (l : list A) :
  existsb p (map f l) = existsb (fun x => p (f x)) l.
Proof. induction l as [|x l IH]; simpl; [reflexivity|]. rewrite IH. reflexivity. Qed.

Lemma order_exists_keys k l l' :
  map order_key l' = map order_key l ->
  existsb (fun o => bool_decide (o_id o = k)) l' = existsb (fun o => bool_decide (o_id o = k)) l.
Proof.
  intros H.
  pose proof (existsb_map order_key (fun key : id * id => bool_decide (key.1 = k)) l') as E1.
  pose proof (existsb_map order_key (fun key : id * id => bool_decide (key.1 = k)) l) as E2.
  simpl in E1, E2. rewrite <- E1, <- E2, H. reflexivity.
Qed.

Lemma order_keys_update_where q f l :
  (forall o, order_key (f o) = order_key o) ->
  map order_key (update_where q f l) = map order_key l.
Proof.
  intros Hf. unfold update_where. rewrite map_map. apply map_ext.
  intros o. destruct (q o); [apply Hf | reflexivity].
Qed.

Lemma order_update_ok k f db :
  existsb (fun o => bool_decide (o_id o = k)) (orders db) = true ->
  order_update k f db
  = (Ok tt, set_orders (update_where (fun o => bool_decide (o_id o = k)) f (orders db)) db).
Proof. intros H. unfold order_update. rewrite H. reflexivity. Qed.

(** The loop of [cancelOrder] over the sub-orders read with the order. *)
Lemma cancel_subs_ok env (subs : list (Order * list OrderItem)) db :
  (forall p, lock_granted env p = true) ->
  Forall (fun sub =>
            existsb (fun o => bool_decide (o_id o = o_id (fst sub))) (orders db) = true
            /\ Forall (fun it => is_Some (products db !! oi_product_id it)) (snd sub)) subs ->
  exists db',
    forM subs
      (fun sub =>
         order_update (o_id (fst sub)) cancelled ;;;
         order_item_update_many
           (fun it => bool_decide (oi_order_id it = o_id (fst sub))) OrderStatus.CANCELLED ;;;
         forM (snd sub) (restore_item env)) db = (Ok tt, db')
    /\ (forall p, products db' !! p
                  = moved (ordered (concat (map snd subs)) p) <$> products db !! p)
    /\ map order_key (orders db') = map order_key (orders db).
Proof.
  intros Hlock. revert db. induction subs as [|sub subs IH]; intros db Hsubs.
  - exists db. split; [reflexivity|]. split; [|reflexivity].
    intros p. simpl. destruct (products db !! p); simpl; [rewrite moved_0|]; reflexivity.
  - inversion Hsubs as [|? ? [Hex Hknown] Hrest]; subst.
    pose proof (order_update_ok _ cancelled _ Hex) as H1.
    set (db1 := set_orders _ db) in H1.
    set (db2 := set_order_items
                  (update_where (fun it => bool_decide (oi_order_id it = o_id (fst sub)))
                     (with_item_status OrderStatus.CANCELLED) (order_items db1)) db1).
    assert (H2 : order_item_update_many
                   (fun it => bool_decide (oi_order_id it = o_id (fst sub)))
                   OrderStatus.CANCELLED db1 = (Ok tt, db2)) by reflexivity.
    destruct (restore_items_ok env (snd sub) db2 Hlock Hknown) as (db3 & H3 & Hp3 & Ho3 & _).
    assert (Hkeys3 : map order_key (orders db3) = map order_key (orders db)).
    { rewrite Ho3. unfold db2, db1. simpl. apply order_keys_update_where. reflexivity. }
    destruct (IH db3) as (db' & H4 & Hp4 & Hk4).
    { eapply Forall_impl; [exact Hrest|]. intros s [Hs1 Hs2]. simpl in *. split.
      - rewrite (order_exists_keys _ _ _ Hkeys3). exact Hs1.
      - eapply Forall_impl; [exact Hs2|]. intros x Hx. simpl in Hx.
        eapply lookup_moved_is_Some; [apply Hp3 | exact Hx]. }
    exists db'. split; [|split].
    + simpl. erewrite bind_ok; [exact H4|].
      rewrite (bind_ok _ _ _ _ _ H1), (bind_ok _ _ _ _ _ H2). exact H3.
    + intros p. rewrite Hp4, Hp3. simpl. rewrite ordered_app.
      change (products db2 !! p) with (products db !! p).
      destruct (products db !! p); simpl; [|reflexivity].
      rewrite moved_moved. reflexivity.
    + rewrite Hk4. exact Hkeys3.
Qed.

Lemma ordered_filter_cons x created (ids : list id) p :
  ordered (concat (map (fun k => List.filter (fun it => bool_decide (oi_order_id it = k))
                                   (x :: created)) ids)) p
  = ordered (map (fun _ => x)
               (List.filter (fun k => bool_decide (oi_order_id x = k)) ids)) p
    + ordered (concat (map (fun k => List.filter (fun it => bool_decide (oi_order_id it = k))
                                       created) ids)) p.
Proof.
  induction ids as [|k' ids IH]; [reflexivity|].
  cbn [map concat]. rewrite !ordered_app, IH. cbn [List.filter].
  destruct (bool_decide (oi_order_id x = k')); simpl; lia.
Qed.

Lemma filter_eq_nodup (k : id) (ids : list id) :
  List.NoDup ids -> In k ids ->
  List.filter (fun k' => bool_decide (k = k')) ids = [k].
Proof.
  intros Hnd. induction Hnd as [|k' ids Hnot Hnd IH]; simpl; [intros []|].
  intros [-> | Hin].
  - rewrite bool_decide_eq_true_2 by reflexivity. f_equal.
    clear IH Hnd. induction ids as [|a ids IH]; simpl; [reflexivity|].
    rewrite bool_decide_eq_false_2.
    + apply IH. intros H. apply Hnot. right. exact H.
    + intros ->. apply Hnot. left. reflexivity.
  - rewrite bool_decide_eq_false_2; [exact (IH Hin)|].
    intros ->. contradiction.
Qed.

(** Sorting the created items by sub-order loses none and doubles none. *)
Lemma ordered_partition ids created p :
  List.NoDup ids ->
  Forall (fun it => In (oi_order_id it) ids) created ->
  ordered (concat (map (fun k => List.filter (fun it => bool_decide (oi_order_id it = k))
                                   created) ids)) p
  = ordered created p.
Proof.
  intros Hnd Hin. induction Hin as [|x created Hx Hin IH].
  - induction ids as [|k ids IHids]; simpl; [reflexivity|].
    apply IHids. inversion Hnd; assumption.
  - rewrite ordered_filter_cons, IH.
    rewrite (filter_eq_nodup _ _ Hnd Hx). simpl. lia.
Qed.

Lemma filter_none {A} (p : A -> bool) (l : list A) :
  Forall (fun x => p x = false) l -> List.filter p l = [].
Proof.
  intros H. induction H as [|x l Hx H IH]; simpl; [reflexivity|]. rewrite Hx. exact IH.
Qed.

Lemma filter_all {A} (p : A -> bool) (l : list A) :
  Forall (fun x => p x = true) l -> List.filter p l = l.
Proof.
  intros H. induction H as [|x l Hx H IH]; simpl; [reflexivity|]. rewrite Hx, IH. reflexivity.
Qed.

Lemma find_app_skip {A} (p : A -> bool) (l1 l2 : list A) x :
  Forall (fun y => p y = false) l1 -> p x = true ->
  List.find p (l1 ++ x :: l2) = Some x.
Proof.
  intros H Hx. induction H as [|y l1 Hy H IH]; simpl.
  - rewrite Hx. reflexivity.
  - rewrite Hy. exact IH.
Qed.

Lemma existsb_find {A} (p : A -> bool) (l : list A) :
  existsb p l = true -> exists x, List.find p l = Some x.
Proof.
  intros H. apply existsb_exists in H as (x & Hin & Hx).
  destruct (List.find p l) as [y|] eqn:E; [eauto|].
  rewrite (find_none _ _ E x Hin) in Hx. discriminate.
Qed.

Lemma order_keyed_exists (pk : id * id -> bool) l l' :
  map order_key l' = map order_key l ->
  existsb (fun o => pk (order_key o)) l' = existsb (fun o => pk (order_key o)) l.
Proof.
  intros H. rewrite <- (existsb_map order_key pk l'), <- (existsb_map order_key pk l), H.
  reflexivity.
Qed.

(** The rows a committed createOrder wrote, as cancelOrder reads them. *)
Lemma committed_read env cart_id items db db1 parent subs created userId :
  ids_below_counter db ->
  committed env cart_id items db db1 parent subs created ->
  o_user_id parent = userId ->
  List.find (fun o => bool_decide (o_id o = o_id parent) && bool_decide (o_user_id o = userId))
    (orders db1) = Some parent
  /\ sub_orders (o_id parent) db1 = subs
  /\ map (fun s => (s, items_of_order (o_id s) db1)) subs
     = map (fun s => (s, List.filter (fun it => bool_decide (oi_order_id it = o_id s)) created))
         subs.
Proof.
  intros [Hwo Hwi] Hc Huser.
  pose proof (committed_parent_id _ _ _ _ _ _ _ _ Hc) as Hid.
  destruct (committed_parent _ _ _ _ _ _ _ _ Hc) as (Hisp & Hst & Hpp).
  pose proof (committed_subs _ _ _ _ _ _ _ _ Hc) as Hsubs.
  split; [|split].
  - rewrite (committed_orders _ _ _ _ _ _ _ _ Hc). apply find_app_skip.
    + eapply Forall_impl; [exact Hwo|]. simpl. intros o [Ho _].
      rewrite Hid. rewrite bool_decide_eq_false_2 by lia. reflexivity.
    + rewrite Huser, !bool_decide_eq_true_2 by reflexivity. reflexivity.
  - unfold sub_orders. rewrite (committed_orders _ _ _ _ _ _ _ _ Hc).
    rewrite List.filter_app. simpl. rewrite Hpp.
    rewrite bool_decide_eq_false_2 by discriminate.
    rewrite filter_none, filter_all; [reflexivity| |].
    + eapply Forall_impl; [exact Hsubs|]. simpl. intros s (Hs & _).
      rewrite Hs, Hid. apply bool_decide_eq_true_2. reflexivity.
    + eapply Forall_impl; [exact Hwo|]. simpl. intros o [_ Ho].
      apply bool_decide_eq_false_2. intros Heq. apply Ho in Heq. lia.
  - apply map_ext_in. intros s Hs. f_equal.
    unfold items_of_order. rewrite (committed_items _ _ _ _ _ _ _ _ Hc).
    rewrite List.filter_app, filter_none; [reflexivity|].
    rewrite List.Forall_forall in Hsubs. destruct (Hsubs _ Hs) as (_ & _ & Hr).
    eapply Forall_impl; [exact Hwi|]. simpl. intros it Hit.
    apply bool_decide_eq_false_2. lia.
Qed.

Lemma ordered_by_sub_order (subs : list Order) created p :
  List.NoDup (map o_id subs) ->
  Forall (fun it => In (oi_order_id it) (map o_id subs)) created ->
  ordered (concat (map (fun s => List.filter (fun it => bool_decide (oi_order_id it = o_id s))
                                   created) subs)) p
  = ordered created p.
Proof.
  intros Hnd Hin.
  transitivity
    (ordered (concat (map (fun k => List.filter (fun it => bool_decide (oi_order_id it = k))
                                      created) (map o_id subs))) p).
  - rewrite map_map. reflexivity.
  - apply ordered_partition; assumption.
Qed.

(** C3. A committed [createOrder] followed by [cancelOrder] of the PENDING
    parent order it returned is a round trip on stock: with the product
    locks granted the cancellation succeeds, it adds to every product the
    quantities of the order's items, and the Product table is back to what
    it was before the order. *)
Theorem createOrder_cancelOrder_roundtrip env1 env2 userId addressId paymentMethod db resp db1 :
  ids_below_counter db ->
  createOrder env1 userId addressId paymentMethod db = (Ok resp, db1) ->
  (forall p, lock_granted env2 p = true) ->
  o_status (or_order resp) = OrderStatus.PENDING
  /\ o_is_parent (or_order resp) = true
  /\ exists resp2 db2,
       cancelOrder env2 userId (o_id (or_order resp)) db1 = (Ok resp2, db2)
       /\ (forall p, products db2 !! p
                     = moved (ordered (or_items resp) p) <$> products db1 !! p)
       /\ products db2 = products db.
Proof.
  intros Hwf Hcreate Hlock.
  apply createOrder_cases in Hcreate as [(e & [=] & _) | H].
  destruct H as (cart & items & address & parent & resp' & Hcart & Hitems & Hne & Htx
                 & Hget & [= <-]).
  destruct (createOrder_tx_ok _ _ _ _ _ _ _ Htx) as (Hparent & subs & created & Hc).
  assert (Huser : o_user_id parent = userId) by (rewrite Hparent; reflexivity).
  destruct (committed_read _ _ _ _ _ _ _ _ _ Hwf Hc Huser) as (Hfind & Hsubs & Hread).
  destruct (committed_parent _ _ _ _ _ _ _ _ Hc) as (Hisp & Hst & Hpp).
  assert (Hsubs_ne : (0 <? length subs)%nat = true).
  { rewrite (committed_count _ _ _ _ _ _ _ _ Hc). apply Nat.ltb_lt.
    pose proof (group_by_nonempty (fun ip : CartItem * Product => p_seller_id (snd ip)) items Hne).
    destruct (group_by _ items); [contradiction | simpl; lia]. }
  (* the response of createOrder is the parent order with the created items *)
  assert (Hresp : resp = {| or_order := parent;
                           or_items := flat_map (fun s => items_of_order (o_id s) db1) subs |}).
  { unfold getOrderById in Hget. rewrite bind_get, Hfind, Hsubs, Hisp, Hsubs_ne in Hget.
    simpl in Hget. inversion Hget. reflexivity. }
  assert (Hitems_resp : forall p, ordered (or_items resp) p = ordered created p).
  { intros p. rewrite Hresp. simpl. rewrite flat_map_concat_map.
    replace (map (fun s => items_of_order (o_id s) db1) subs)
      with (map snd (map (fun s => (s, items_of_order (o_id s) db1)) subs))
      by (rewrite map_map; reflexivity).
    rewrite Hread, map_map. simpl.
    apply ordered_by_sub_order.
    - exact (committed_subs_nodup _ _ _ _ _ _ _ _ Hc).
    - exact (committed_owner _ _ _ _ _ _ _ _ Hc). }
  rewrite Hresp. simpl or_order. split; [exact Hst|]. split; [exact Hisp|].
  (* the loop over the sub-orders *)
  set (L := map (fun s => (s, List.filter (fun it => bool_decide (oi_order_id it = o_id s))
                                created)) subs).
  destruct (cancel_subs_ok env2 L db1 Hlock) as (db_b & Hloop & Hprod_b & Hkeys_b).
  { unfold L. apply List.Forall_forall. intros sub Hsub.
    apply in_map_iff in Hsub as (s & <- & Hs). simpl. split.
    - apply existsb_exists. exists s. split.
      + rewrite (committed_orders _ _ _ _ _ _ _ _ Hc). apply in_or_app. right. right. exact Hs.
      + apply bool_decide_eq_true_2. reflexivity.
    - apply List.Forall_forall. intros it Hit. apply filter_In in Hit as [Hit _].
      pose proof (committed_known _ _ _ _ _ _ _ _ Hc) as Hknown.
      rewrite List.Forall_forall in Hknown.
      eapply lookup_moved_is_Some; [apply (committed_products _ _ _ _ _ _ _ _ Hc)|].
      apply Hknown. exact Hit. }
  assert (Hex_b : existsb (fun o => bool_decide (o_id o = o_id parent)) (orders db_b) = true).
  { rewrite (order_exists_keys _ _ _ Hkeys_b). apply (existsb_find_some _ _ parent).
    rewrite (committed_orders _ _ _ _ _ _ _ _ Hc). apply find_app_skip.
    - destruct Hwf as [Hwo _]. eapply Forall_impl; [exact Hwo|]. simpl. intros o [Ho _].
      rewrite (committed_parent_id _ _ _ _ _ _ _ _ Hc). apply bool_decide_eq_false_2. lia.
    - apply bool_decide_eq_true_2. reflexivity. }
  pose proof (order_update_ok _ cancelled _ Hex_b) as Hfinal.
  set (db_c := set_orders _ db_b) in Hfinal.
  assert (Htx2 : transaction
                   (cancelOrder_tx env2 parent
                      (map (fun s => (s, items_of_order (o_id s) db1))
                         (sub_orders (o_id parent) db1))
                      (items_of_order (o_id parent) db1)) db1 = (Ok tt, db_c)).
  { apply transaction_commit. unfold cancelOrder_tx.
    rewrite Hsubs, Hread, Hisp. fold L.
    replace (length L) with (length subs) by (unfold L; rewrite length_map; reflexivity).
    rewrite Hsubs_ne. simpl andb. cbv iota.
    rewrite (bind_ok _ _ _ _ _ Hloop). exact Hfinal. }
  assert (Hkeys_c : map order_key (orders db_c) = map order_key (orders db1)).
  { unfold db_c. simpl. rewrite order_keys_update_where by reflexivity. exact Hkeys_b. }
  assert (Hfound_c : exists o,
             List.find (fun o => bool_decide (o_id o = o_id parent)
                                 && bool_decide (o_user_id o = userId)) (orders db_c) = Some o).
  { apply existsb_find.
    pose proof (order_keyed_exists
                  (fun key => bool_decide (key.1 = o_id parent) && bool_decide (key.2 = userId))
                  _ _ Hkeys_c) as E.
    cbn [order_key fst snd] in E. rewrite E. apply (existsb_find_some _ _ _ Hfind). }
  destruct Hfound_c as (o & Hfound_c).
  destruct (getOrderById_found _ _ _ _ Hfound_c) as (resp2 & Hresp2).
  assert (Hprod : forall p, products db_c !! p = moved (ordered created p) <$> products db1 !! p).
  { intros p. change (products db_c) with (products db_b). rewrite Hprod_b. f_equal. f_equal.
    unfold L. rewrite map_map. simpl.
    apply ordered_by_sub_order.
    - exact (committed_subs_nodup _ _ _ _ _ _ _ _ Hc).
    - exact (committed_owner _ _ _ _ _ _ _ _ Hc). }
  exists resp2, db_c. split; [|split].
  - unfold cancelOrder. rewrite bind_get, Hfind, Hst.
    change (negb (OrderStatus.eqb OrderStatus.PENDING OrderStatus.PENDING)) with false.
    cbv iota.
    rewrite (bind_ok _ _ _ _ _ Htx2). exact Hresp2.
  - intros p. rewrite <- Hresp, Hitems_resp. apply Hprod.
  - apply map_eq. intros p. rewrite Hprod, (committed_products _ _ _ _ _ _ _ _ Hc).
    destruct (products db !! p) as [pr|]; simpl; [|reflexivity].
    rewrite moved_moved. replace (- ordered created p + ordered created p) with 0 by lia.
    rewrite moved_0. reflexivity.
Qed.

(** ** The cart: writes of addToCart and the sweep of getCart *)

Lemma NoDup_map_filter {A B} (f : A -> B) (p : A -> bool) (l : list A) :
  List.NoDup (map f l) -> List.NoDup (map f (List.filter p l)).
Proof.
  induction l as [|x l IH]; simpl; intros H; [constructor|].
  inversion H as [|? ? Hx Hl]; subst.
  destruct (p x); simpl; [|auto]. constructor; [|auto].
  intros Hin. apply Hx. apply in_map_iff in Hin as (y & Hy & Hin).
  apply in_map_iff. exists y. split; [exact Hy|]. apply filter_In in Hin. tauto.
Qed.

Lemma NoDup_map_inj_in {A B} (f : A -> B) (l : list A) x y :
  List.NoDup (map f l) -> In x l -> In y l -> f x = f y -> x = y.
Proof.
  induction l as [|a l IH]; simpl; intros H Hx Hy Hf; [contradiction|].
  inversion H as [|? ? Ha Hl]; subst.
  destruct Hx as [-> | Hx], Hy as [-> | Hy]; auto.
  - exfalso. apply Ha. rewrite Hf. apply in_map. exact Hy.
  - exfalso. apply Ha. rewrite <- Hf. apply in_map. exact Hx.
Qed.


Lemma cart_rows_ok_delete_where q db :
  cart_rows_ok db -> cart_rows_ok (set_cart_items (delete_where q (cart_items db)) db).
Proof.
  intros [H1 H2 H3 H4 H5 H6]. constructor; simpl.
  - apply Forall_delete_where. exact H1.
  - apply NoDup_map_filter. exact H2.
  - apply NoDup_map_filter. exact H3.
  - apply Forall_delete_where. exact H4.
  - exact H5.
  - exact H6.
Qed.

Lemma rows_cart_item_delete_many p :
  keeps cart_rows_ok (cart_item_delete_many p) (fun _ => True).
Proof.
  apply keeps_write. intros db H. split; [|exact I]. apply cart_rows_ok_delete_where. exact H.
Qed.

Lemma rows_cart_delete_where p : keeps cart_rows_ok (cart_delete_where p) (fun _ => True).
Proof.
  apply keeps_write. intros db H. split; [|exact I].
  apply (cart_rows_ok_delete_where _ (set_carts _ db)).
  destruct H as [H1 H2 H3 H4 H5 H6]. constructor; simpl; try assumption.
  - apply NoDup_map_filter. exact H5.
  - apply Forall_delete_where. exact H6.
Qed.

Lemma rows_reads {A} (m : M A) : reads m -> keeps cart_rows_ok m (fun _ => True).
Proof. intros Hm db r db' HP H. apply Hm in H. subst. auto. Qed.

Lemma rows_getCart env userId sessionId :
  keeps cart_rows_ok (getCart env userId sessionId) (fun _ => True).
Proof.
  unfold getCart.
  destruct userId as [u|], sessionId as [s|]; try apply keeps_throw.
  all: eapply keeps_bind; [apply rows_cart_delete_where|]; intros _ _;
    (eapply keeps_bind; [apply keeps_get|]); intros db _;
    match goal with |- keeps _ (match ?c with _ => _ end) _ => destruct c as [cart|] end;
    [|apply keeps_ret; exact I];
    (eapply keeps_bind;
      [apply rows_reads, reads_cart_items_with_product|]); intros items _;
    (eapply keeps_bind; [apply keeps_when, rows_cart_item_delete_many|]); intros _ _;
    (eapply keeps_bind; [apply rows_cart_item_delete_many|]); intros _ _;
    (eapply keeps_bind; [apply keeps_get|]); intros db2 _;
    (destruct (List.find _ (carts db2)); [|apply keeps_ret; exact I]);
    (eapply keeps_bind;
      [apply rows_reads, reads_cart_items_with_product|]); intros items2 _;
    apply keeps_ret; exact I.
Qed.

Lemma map_update_where_key {A B} (key : A -> B) (q : A -> bool) (f : A -> A) (l : list A) :
  (forall x, key (f x) = key x) -> map key (update_where q f l) = map key l.
Proof.
  intros Hf. unfold update_where. rewrite map_map. apply map_ext.
  intros x. destruct (q x); [apply Hf | reflexivity].
Qed.

Lemma rows_cart_item_update item_id q e :
  0 <= q -> keeps cart_rows_ok (cart_item_update item_id q e) (fun _ => True).
Proof.
  intros Hq db r db' [H1 H2 H3 H4 H5 H6] H. unfold cart_item_update in H.
  destruct (existsb _ _); inversion H; subst; clear H.
  - split; [|auto]. constructor; simpl.
    + apply Forall_update_where; [exact H1|]. intros x _ _. exact Hq.
    + rewrite map_update_where_key by reflexivity. exact H2.
    + rewrite map_update_where_key by reflexivity. exact H3.
    + apply Forall_update_where; [exact H4|]. intros x Hx _. exact Hx.
    + exact H5.
    + exact H6.
  - split; [constructor; assumption | intros ? [=]].
Qed.

Lemma find_cart_item_none cart_id product_id db :
  find_cart_item cart_id product_id db = None ->
  ~ In (cart_id, product_id) (map cart_item_key (cart_items db)).
Proof.
  unfold find_cart_item. intros H Hin. apply in_map_iff in Hin as (it & Hkey & Hin).
  pose proof (find_none _ _ H it Hin) as Hf. simpl in Hf.
  unfold cart_item_key in Hkey. injection Hkey as Hc Hp.
  rewrite !bool_decide_eq_true_2 in Hf by assumption. discriminate.
Qed.

Lemma NoDup_snoc {A} (l : list A) (x : A) :
  List.NoDup l -> ~ In x l -> List.NoDup (l ++ [x]).
Proof.
  induction l as [|a l IH]; simpl; intros H Hx.
  - constructor; [intros [] | constructor].
  - inversion H as [|? ? Ha Hl]; subst. constructor.
    + intros Hin. apply in_app_or in Hin as [Hin | [-> | []]]; [contradiction|].
      apply Hx. left. reflexivity.
    + apply IH; [exact Hl|]. intros Hin. apply Hx. right. exact Hin.
Qed.

Lemma cart_item_create_rows cart_id product_id q e db r db' :
  0 <= q -> cart_rows_ok db ->
  find_cart_item cart_id product_id db = None ->
  cart_item_create cart_id product_id q e db = (r, db') ->
  cart_rows_ok db'
  /\ r = Ok tt
  /\ cart_items db'
     = cart_items db ++ [{| ci_id := next_id db; ci_cart_id := cart_id;
                            ci_product_id := product_id; ci_quantity := q;
                            ci_reservation_expires_at := e |}]
  /\ carts db' = carts db /\ products db' = products db.
Proof.
  intros Hq [H1 H2 H3 H4 H5 H6] Hnone H.
  unfold cart_item_create, bind, fresh_id in H. simpl in H. inversion H; subst; clear H.
  split; [|auto]. constructor; simpl; [| | | |exact H5|].
  - apply Forall_app. split; [exact H1|]. constructor; [exact Hq | constructor].
  - rewrite map_app. simpl. apply NoDup_snoc; [exact H2|].
    intros Hx. apply in_map_iff in Hx as (it & Hid & Hit).
    rewrite List.Forall_forall in H4. specialize (H4 _ Hit). lia.
  - rewrite map_app. simpl. apply NoDup_snoc; [exact H3|].
    exact (find_cart_item_none _ _ _ Hnone).
  - apply Forall_app. split.
    + eapply Forall_impl; [exact H4|]. simpl. intros; lia.
    + constructor; [simpl; lia | constructor].
  - eapply Forall_impl; [exact H6|]. simpl. intros; lia.
Qed.

Lemma find_app_none {A} (p : A -> bool) (l : list A) x :
  List.find p l = None -> p x = true -> List.find p (l ++ [x]) = Some x.
Proof.
  intros H Hx. induction l as [|y l IH]; simpl in *.
  - rewrite Hx. reflexivity.
  - destruct (p y); [discriminate | auto].
Qed.

Lemma find_or_create_cart_ok env userId sessionId db cart dbA :
  find_or_create_cart env userId sessionId db = (Ok cart, dbA) ->
  find_cart userId sessionId dbA = Some cart
  /\ cart_items dbA = cart_items db
  /\ products dbA = products db
  /\ (next_id db <= next_id dbA)%nat
  /\ (carts dbA = carts db
      \/ (carts dbA = carts db ++ [cart]
          /\ expired (now env) (c_expires_at cart) = false)).
Proof.
  unfold find_or_create_cart. rewrite bind_get.
  destruct (find_cart userId sessionId db) as [c|] eqn:Hfind.
  { intros [= <- <-]. repeat split; auto. }
  assert (Hexp : forall t, expired t (Some (t + ANONYMOUS_CART_TTL_HOURS * 60 * 60 * 1000)) = false).
  { intros t. unfold expired, ANONYMOUS_CART_TTL_HOURS. apply Z.ltb_ge. lia. }
  destruct userId as [u|], sessionId as [s|]; try discriminate;
    unfold cart_create, bind, fresh_id; simpl; intros [= <- <-]; simpl;
    (split; [unfold find_cart in *; simpl; apply find_app_none; [exact Hfind|]
            |split; [reflexivity|split; [reflexivity|split; [lia|right; split; [reflexivity|]]]]]).
  all: try apply Hexp; try reflexivity.
  - unfold cart_of_user. simpl. apply bool_decide_eq_true_2. reflexivity.
  - unfold cart_of_user. simpl. apply bool_decide_eq_true_2. reflexivity.
  - unfold cart_of_session. simpl. rewrite !bool_decide_eq_true_2 by reflexivity. reflexivity.
Qed.


Lemma upsert_item_ok env product cart product_id quantity dbA dbB :
  0 <= quantity -> cart_rows_ok dbA ->
  upsert_item env product cart product_id quantity dbA = (Ok tt, dbB) ->
  cart_rows_ok dbB
  /\ carts dbB = carts dbA
  /\ products dbB = products dbA
  /\ exists item,
       find_cart_item (c_id cart) product_id dbB = Some item
       /\ ci_quantity item = quantity
       /\ ci_reservation_expires_at item = Some (reservation_expiry env).
Proof.
  intros Hq Hrows. unfold upsert_item. rewrite bind_get.
  destruct (find_cart_item (c_id cart) product_id dbA) as [existing|] eqn:Hfind.
  - cbv zeta. destruct (_ <? quantity); [discriminate|]. intros H.
    split; [exact (proj1 (rows_cart_item_update _ _ _ Hq _ _ _ Hrows H))|].
    unfold cart_item_update in H. destruct (existsb _ _); [|discriminate].
    inversion H; subst; clear H. simpl. split; [reflexivity|]. split; [reflexivity|].
    exists (with_quantity quantity (Some (reservation_expiry env)) existing).
    split; [|split; reflexivity].
    unfold find_cart_item in *. simpl. rewrite find_update_where by reflexivity.
    rewrite Hfind. simpl. rewrite bool_decide_eq_true_2 by reflexivity. reflexivity.
  - intros H.
    destruct (cart_item_create_rows _ _ _ _ _ _ _ Hq Hrows Hfind H)
      as (Hrows' & _ & Hitems & Hcarts & Hprod).
    split; [exact Hrows'|]. split; [exact Hcarts|]. split; [exact Hprod|].
    exists {| ci_id := next_id dbA; ci_cart_id := c_id cart; ci_product_id := product_id;
              ci_quantity := quantity;
              ci_reservation_expires_at := Some (reservation_expiry env) |}.
    split; [|split; reflexivity].
    unfold find_cart_item in *. rewrite Hitems. apply find_app_none; [exact Hfind|].
    simpl. rewrite !bool_decide_eq_true_2 by reflexivity. reflexivity.
Qed.

Lemma include_product_In db items l it pr :
  include_product db items = Ok l -> In (it, pr) l ->
  In it items /\ products db !! ci_product_id it = Some pr.
Proof.
  revert l. induction items as [|x rest IH]; simpl; intros l H Hin.
  - inversion H; subst. contradiction.
  - destruct (products db !! ci_product_id x) as [p|] eqn:Hp; [|discriminate].
    destruct (include_product db rest) as [l'|e]; [|discriminate].
    inversion H; subst. destruct Hin as [[= <- <-] | Hin].
    + split; [left; reflexivity | exact Hp].
    + destruct (IH _ eq_refl Hin) as [? ?]. split; [right|]; assumption.
Qed.

Lemma delete_where_none {A} (p : A -> bool) (l : list A) :
  Forall (fun x => p x = false) l -> delete_where p l = l.
Proof.
  intros H. unfold delete_where. apply filter_all.
  eapply Forall_impl; [exact H|]. simpl. intros x ->. reflexivity.
Qed.


Lemma rows_find_or_create_cart env userId sessionId :
  keeps cart_rows_ok (find_or_create_cart env userId sessionId) (fun _ => True).
Proof.
  intros db r db' Hrows H. split; [|auto].
  unfold find_or_create_cart in H. rewrite bind_get in H.
  destruct (find_cart userId sessionId db); [inversion H; subst; exact Hrows|].
  destruct userId, sessionId; try (inversion H; subst; exact Hrows);
    unfold cart_create, bind, fresh_id in H; simpl in H; inversion H; subst; clear H;
    destruct Hrows as [H1 H2 H3 H4 H5 H6]; constructor; simpl; auto.
  all: try (eapply Forall_impl; [exact H4|]; simpl; intros x Hx;
            apply Nat.lt_lt_succ_r; exact Hx).
  all: try (rewrite map_app; simpl; apply NoDup_snoc; [exact H5|];
            intros Hx; apply in_map_iff in Hx as (c & Hid & Hc);
            rewrite List.Forall_forall in H6; specialize (H6 _ Hc); lia).
  all: apply Forall_app; split;
    [eapply Forall_impl; [exact H6|]; simpl; intros x Hx; apply Nat.lt_lt_succ_r; exact Hx
    |constructor; [simpl; apply Nat.lt_succ_diag_r | constructor]].
Qed.

Lemma rows_upsert_item env product cart product_id quantity :
  0 <= quantity ->
  keeps cart_rows_ok (upsert_item env product cart product_id quantity) (fun _ => True).
Proof.
  intros Hq db r db' Hrows H. unfold upsert_item in H. rewrite bind_get in H.
  destruct (find_cart_item (c_id cart) product_id db) as [existing|] eqn:Hfind.
  - cbv zeta in H. destruct (_ <? quantity).
    + inversion H; subst. auto.
    + exact (rows_cart_item_update _ _ _ Hq _ _ _ Hrows H).
  - split; [|auto]. exact (proj1 (cart_item_create_rows _ _ _ _ _ _ _ Hq Hrows Hfind H)).
Qed.

Lemma rows_addToCart env userId sessionId product_id quantity :
  0 <= quantity ->
  keeps cart_rows_ok (addToCart env userId sessionId product_id quantity) (fun _ => True).
Proof.
  intros Hq. unfold addToCart.
  destruct userId as [u|], sessionId as [s|]; try apply keeps_throw.
  all: apply keeps_withLock;
    (eapply keeps_bind; [apply keeps_get|]); intros db _;
    (destruct (products db !! product_id) as [product|]; [|apply keeps_throw]);
    cbv zeta; (destruct (_ <? quantity); [apply keeps_throw|]);
    (eapply keeps_bind; [apply rows_find_or_create_cart|]); intros cart _;
    (eapply keeps_bind; [apply rows_upsert_item; exact Hq|]); intros _ _;
    apply rows_getCart.
Qed.

Lemma addToCart_ok_inv env userId sessionId product_id quantity db r db' :
  addToCart env userId sessionId product_id quantity db = (Ok r, db') ->
  exists product cart dbA dbB,
    lock_granted env product_id = true
    /\ products db !! product_id = Some product
    /\ quantity <= p_stock product - reserved (now env) product_id (fun _ => true) db
    /\ find_or_create_cart env userId sessionId db = (Ok cart, dbA)
    /\ upsert_item env product cart product_id quantity dbA = (Ok tt, dbB)
    /\ getCart env userId sessionId dbB = (Ok r, db').
Proof.
  unfold addToCart.
  assert (Hbody :
    withLock env product_id
      (db <- get ;;
       match products db !! product_id with
       | None => throw ProductNotAvailable
       | Some product =>
           let totalReserved := reserved (now env) product_id (fun _ => true) db in
           let availableStock := p_stock product - totalReserved in
           if availableStock <? quantity
           then throw (InsufficientStock (Some availableStock))
           else
             cart <- find_or_create_cart env userId sessionId ;;
             upsert_item env product cart product_id quantity ;;;
             getCart env userId sessionId
       end) db = (Ok r, db') ->
    exists product cart dbA dbB,
      lock_granted env product_id = true
      /\ products db !! product_id = Some product
      /\ quantity <= p_stock product - reserved (now env) product_id (fun _ => true) db
      /\ find_or_create_cart env userId sessionId db = (Ok cart, dbA)
      /\ upsert_item env product cart product_id quantity dbA = (Ok tt, dbB)
      /\ getCart env userId sessionId dbB = (Ok r, db')).
  { unfold withLock. destruct (lock_granted env product_id); [|discriminate].
    rewrite bind_get.
    destruct (products db !! product_id) as [product|]; [|discriminate].
    cbv zeta. destruct (_ <? quantity) eqn:Hlt; [discriminate|]. apply Z.ltb_ge in Hlt.
    intros H. apply bind_ok_inv in H as (cart & dbA & H1 & H).
    apply bind_ok_inv in H as ([] & dbB & H2 & H).
    exists product, cart, dbA, dbB. auto 10. }
  destruct userId, sessionId; try exact Hbody. discriminate.
Qed.





Lemma find_cart_In userId sessionId db cart :
  find_cart userId sessionId db = Some cart -> In cart (carts db).
Proof.
  unfold find_cart. intros H.
  destruct userId as [u|]; [|destruct sessionId as [s|]; [|discriminate]];
    apply find_some in H as [H _]; exact H.
Qed.



(** ** Re-adding to a cart that already holds the product *)

Lemma addToCart_first_check env userId sessionId product_id quantity db product :
  (userId <> None \/ sessionId <> None) ->
  lock_granted env product_id = true ->
  products db !! product_id = Some product ->
  p_stock product - reserved (now env) product_id (fun _ => true) db < quantity ->
  addToCart env userId sessionId product_id quantity db
  = (Err (InsufficientStock
            (Some (p_stock product - reserved (now env) product_id (fun _ => true) db))), db).
Proof.
  intros Hid Hlock Hprod Hlt. unfold addToCart, withLock. rewrite Hlock.
  destruct userId, sessionId; try (destruct Hid as [H | H]; congruence);
    rewrite bind_get, Hprod; cbv zeta;
    (destruct (_ <? quantity) eqn:E; [reflexivity | apply Z.ltb_ge in E; lia]).
Qed.

Lemma sum_quantity_filter_le (f g : CartItem -> bool) l :
  Forall (fun it => 0 <= ci_quantity it) l ->
  (forall it, f it = true -> g it = true) ->
  sum_quantity (List.filter f l) <= sum_quantity (List.filter g l).
Proof.
  intros Hl Hfg. induction Hl as [|x l Hx Hl IH]; simpl; [lia|].
  destruct (f x) eqn:Hf.
  - rewrite (Hfg _ Hf). simpl. lia.
  - destruct (g x); simpl; lia.
Qed.

(** With no negative quantity in the table, the availability recomputed
    without the cart's own row is never below the first one: once the first
    check of [addToCart] has passed, the second cannot fail. *)
Lemma reserved_keep_le now product_id keep db :
  Forall (fun it => 0 <= ci_quantity it) (cart_items db) ->
  reserved now product_id keep db <= reserved now product_id (fun _ => true) db.
Proof.
  intros H. unfold reserved. apply sum_quantity_filter_le; [exact H|].
  intros it Hit. apply andb_true_iff in Hit as [Hit Ha].
  apply andb_true_iff in Hit as [Hp _]. rewrite Hp, Ha. reflexivity.
Qed.

(** C4. The cart of user 1 reserves all 5 units of product 1 (stock 5).
    Availability without the cart's own row is 5, enough for quantity 5, and
    [updateCartItem] accepts the quantity; [addToCart] for the same cart,
    product and quantity is rejected by its first check, which counts the
    cart's own reservation: "Insufficient stock. Available: 0". *)
Theorem addToCart_readd_own_reservation :
  p_stock {| p_price := 100; p_stock := 5; p_seller_id := 20%nat |}
  - reserved (now Example.env) 1%nat
      (fun it => negb (bool_decide (ci_id it = 32%nat))) Example.full_cart = 5
  /\ addToCart Example.env (Some 1%nat) None 1%nat 5 Example.full_cart
     = (Err (InsufficientStock (Some 0)), Example.full_cart)
  /\ exists r db',
       updateCartItem Example.env (Some 1%nat) None 1%nat 5 Example.full_cart = (Ok r, db')
       /\ option_map ci_quantity (find_cart_item 30%nat 1%nat db') = Some 5.
Proof.
  split; [reflexivity|]. split; [vm_compute; reflexivity|].
  eexists. eexists. split; vm_compute; reflexivity.
Qed.

(** ** Merging the anonymous cart *)

Lemma filter_ext_in' {A} (f g : A -> bool) (l : list A) :
  (forall x, In x l -> f x = g x) -> List.filter f l = List.filter g l.
Proof.
  induction l as [|x l IH]; simpl; intros H; [reflexivity|].
  rewrite (H x (or_introl eq_refl)), IH; [reflexivity|]. intros y Hy. apply H. right. exact Hy.
Qed.

(** One row's share of a reservation sum. *)
Lemma sum_quantity_split (f : CartItem -> bool) (l : list CartItem) a :
  List.NoDup (map ci_id l) -> In a l ->
  sum_quantity (List.filter f l)
  = sum_quantity (List.filter (fun it => negb (bool_decide (ci_id it = ci_id a)) && f it) l)
    + (if f a then ci_quantity a else 0).
Proof.
  induction l as [|x l IH]; simpl; intros Hnd Hin; [contradiction|].
  inversion Hnd as [|? ? Hx Hl]; subst.
  destruct Hin as [-> | Hin].
  - rewrite bool_decide_eq_true_2 by reflexivity. simpl.
    assert (Htail : List.filter (fun it => negb (bool_decide (ci_id it = ci_id a)) && f it) l
                    = List.filter f l).
    { apply filter_ext_in'. intros y Hy. rewrite bool_decide_eq_false_2; [reflexivity|].
      intros Heq. apply Hx. rewrite <- Heq. apply in_map. exact Hy. }
    rewrite Htail. destruct (f a); simpl; lia.
  - assert (Hne : ci_id x <> ci_id a).
    { intros Heq. apply Hx. rewrite Heq. apply in_map. exact Hin. }
    rewrite bool_decide_eq_false_2 by exact Hne. simpl.
    specialize (IH Hl Hin). destruct (f x); simpl; lia.
Qed.

(** What the check of [merge_item] measures: the availability of the
    specification minus the hold of the source row itself. *)
Lemma merge_available_code now stock source destination db :
  List.NoDup (map ci_id (cart_items db)) ->
  In source (cart_items db) ->
  (forall e, destination = Some e -> ci_id e <> ci_id source) ->
  stock
  - reserved now (ci_product_id source)
      (fun it => match destination with
                 | Some e => negb (bool_decide (ci_id it = ci_id e))
                 | None => true
                 end) db
  = merge_availability_spec now stock source destination db - own_hold now source.
Proof.
  intros Hnd Hin Hdest. unfold merge_availability_spec, own_hold, reserved.
  rewrite (sum_quantity_split _ _ source Hnd Hin).
  rewrite bool_decide_eq_true_2 by reflexivity.
  assert (Hkeep : match destination with
                  | Some e => negb (bool_decide (ci_id source = ci_id e))
                  | None => true
                  end = true).
  { destruct destination as [e|]; [|reflexivity].
    rewrite bool_decide_eq_false_2; [reflexivity|]. intros Heq. exact (Hdest e eq_refl (eq_sym Heq)). }
  rewrite Hkeep. simpl.
  assert (Hfilter :
    List.filter
      (fun it => negb (bool_decide (ci_id it = ci_id source))
                 && (bool_decide (ci_product_id it = ci_product_id source)
                     && match destination with
                        | Some e => negb (bool_decide (ci_id it = ci_id e))
                        | None => true
                        end && active now it)) (cart_items db)
    = List.filter
        (fun it => bool_decide (ci_product_id it = ci_product_id source)
                   && (negb (bool_decide (ci_id it = ci_id source))
                       && match destination with
                          | Some e => negb (bool_decide (ci_id it = ci_id e))
                          | None => true
                          end) && active now it) (cart_items db)).
  { apply filter_ext_in'. intros y _.
    destruct (bool_decide (ci_id y = ci_id source)),
             (bool_decide (ci_product_id y = ci_product_id source)); reflexivity. }
  rewrite Hfilter. lia.
Qed.

Lemma fixes_bind {F A B} (proj : DB -> F) (m : M A) (f : A -> M B) :
  fixes proj m -> (forall a, fixes proj (f a)) -> fixes proj (bind m f).
Proof.
  intros Hm Hf db r db' H.
  apply bind_inv in H as [(a & db1 & H1 & H2) | (e & H1 & _)].
  - rewrite (Hf _ _ _ _ H2). eapply Hm; eauto.
  - eapply Hm; eauto.
Qed.

Lemma fixes_reads {F A} (proj : DB -> F) (m : M A) : reads m -> fixes proj m.
Proof. intros Hm db r db' H. apply Hm in H. subst. reflexivity. Qed.

Lemma fixes_forM {F A} (proj : DB -> F) (l : list A) (f : A -> M unit) :
  (forall x, fixes proj (f x)) -> fixes proj (forM l f).
Proof.
  intros Hf. induction l as [|x l IH]; simpl; [apply fixes_reads, reads_ret|].
  apply fixes_bind; [apply Hf | intros _; exact IH].
Qed.

Lemma fixes_withLock {F A} (proj : DB -> F) env pid (m : M A) :
  fixes proj m -> fixes proj (withLock env pid m).
Proof.
  intros Hm. unfold withLock. destruct (lock_granted env pid); [exact Hm|].
  apply fixes_reads, reads_throw.
Qed.

Lemma carts_cart_item_update item_id q e : fixes carts (cart_item_update item_id q e).
Proof.
  intros db r db' H. unfold cart_item_update in H.
  destruct (existsb _ _); inversion H; reflexivity.
Qed.

Lemma carts_cart_item_create cart_id product_id q e :
  fixes carts (cart_item_create cart_id product_id q e).
Proof.
  intros db r db' H. unfold cart_item_create, bind, fresh_id in H. simpl in H.
  inversion H; reflexivity.
Qed.

Lemma carts_merge_item env userCart_id ip : fixes carts (merge_item env userCart_id ip).
Proof.
  destruct ip as [anonymousItem product]. unfold merge_item.
  apply fixes_withLock. apply fixes_bind; [apply fixes_reads, reads_get|]. intros db.
  cbv zeta. destruct (find_cart_item _ _ db) as [e|].
  - destruct (_ <=? _); [apply carts_cart_item_update | apply fixes_reads, reads_ret].
  - destruct (_ <=? _); [apply carts_cart_item_create | apply fixes_reads, reads_ret].
Qed.

Lemma cart_delete_where_gone k db r db' :
  existsb (fun c => bool_decide (c_id c = k)) (carts db) = true ->
  cart_delete_where (fun c => bool_decide (c_id c = k)) db = (r, db') ->
  cart_gone k db'.
Proof.
  intros Hex H. unfold cart_delete_where in H. inversion H; subst; clear H.
  apply existsb_exists in Hex as (c & Hc & Hk).
  split; simpl.
  - unfold delete_where. apply List.Forall_forall. intros x Hx.
    apply filter_In in Hx as [_ Hx]. apply negb_true_iff, bool_decide_eq_false in Hx. exact Hx.
  - unfold delete_where. apply List.Forall_forall. intros it Hit.
    apply filter_In in Hit as [_ Hit]. apply negb_true_iff in Hit.
    intros Heq. assert (Ht : existsb (fun c0 => bool_decide (c_id c0 = ci_cart_id it))
                               (List.filter (fun c0 => bool_decide (c_id c0 = k)) (carts db))
                             = true).
    { apply existsb_exists. exists c. split.
      - apply filter_In. split; assumption.
      - rewrite Heq. exact Hk. }
    rewrite Ht in Hit. discriminate.
Qed.

Lemma gone_delete_items k p : keeps (cart_gone k) (cart_item_delete_many p) (fun _ => True).
Proof.
  apply keeps_write. intros db [Hc Hi]. split; [|exact I]. split; simpl; [exact Hc|].
  apply Forall_delete_where. exact Hi.
Qed.

Lemma gone_delete_carts k p : keeps (cart_gone k) (cart_delete_where p) (fun _ => True).
Proof.
  apply keeps_write. intros db [Hc Hi]. split; [|exact I]. split; simpl.
  - apply Forall_delete_where. exact Hc.
  - apply Forall_delete_where. exact Hi.
Qed.

Lemma gone_reads k {A} (m : M A) : reads m -> keeps (cart_gone k) m (fun _ => True).
Proof. intros Hm db r db' HP H. apply Hm in H. subst. auto. Qed.

Lemma gone_getCart k env userId sessionId :
  keeps (cart_gone k) (getCart env userId sessionId) (fun _ => True).
Proof.
  unfold getCart.
  destruct userId as [u|], sessionId as [s|]; try apply keeps_throw.
  all: eapply keeps_bind; [apply gone_delete_carts|]; intros _ _;
    (eapply keeps_bind; [apply keeps_get|]); intros db _;
    match goal with |- keeps _ (match ?c with _ => _ end) _ => destruct c as [cart|] end;
    [|apply keeps_ret; exact I];
    (eapply keeps_bind;
      [apply gone_reads, reads_cart_items_with_product|]); intros items _;
    (eapply keeps_bind; [apply keeps_when, gone_delete_items|]); intros _ _;
    (eapply keeps_bind; [apply gone_delete_items|]); intros _ _;
    (eapply keeps_bind; [apply keeps_get|]); intros db2 _;
    (destruct (List.find _ (carts db2)); [|apply keeps_ret; exact I]);
    (eapply keeps_bind;
      [apply gone_reads, reads_cart_items_with_product|]); intros items2 _;
    apply keeps_ret; exact I.
Qed.

Lemma latest_In l c : latest l = Some c -> In c l.
Proof.
  revert c. induction l as [|x l IH]; simpl; intros c H; [discriminate|].
  destruct (latest l) as [c'|].
  - destruct (_ <? _); inversion H; subst; auto.
  - inversion H; subst. auto.
Qed.

(** A merge that went through has deleted the anonymous cart and, by the
    cascade, its items. *)
Lemma mergeAnonymousCart_deletes env userId sessionId db anonymousCart r db' :
  latest (List.filter (cart_of_session sessionId) (carts db)) = Some anonymousCart ->
  items_of_cart (c_id anonymousCart) db <> [] ->
  mergeAnonymousCart env userId sessionId db = (Ok r, db') ->
  cart_gone (c_id anonymousCart) db'.
Proof.
  intros Hanon Hitems H. unfold mergeAnonymousCart in H.
  rewrite bind_get, Hanon in H.
  apply bind_ok_inv in H as (items & db1 & H1 & H).
  pose proof (reads_cart_items_with_product _ _ _ _ H1). subst db1.
  unfold cart_items_with_product in H1. injection H1 as H1.
  destruct items as [|ip items].
  { apply include_product_fst in H1. simpl in H1. symmetry in H1. contradiction. }
  apply bind_ok_inv in H as (userCart & db1 & H2 & H).
  assert (Hin1 : In anonymousCart (carts db1)).
  { apply latest_In in Hanon. apply filter_In in Hanon as [Hanon _].
    destruct (latest (List.filter (cart_of_user userId) (carts db))).
    - inversion H2; subst. exact Hanon.
    - unfold cart_create, bind, fresh_id in H2. simpl in H2. inversion H2; subst. simpl.
      apply in_or_app. left. exact Hanon. }
  apply bind_ok_inv in H as ([] & db2 & H3 & H).
  apply transaction_ok in H3.
  apply bind_ok_inv in H3 as ([] & db3 & H4 & H5).
  pose proof (fixes_forM carts _ _ (carts_merge_item env (c_id userCart)) _ _ _ H4) as Hcarts.
  assert (Hgone : cart_gone (c_id anonymousCart) db2).
  { eapply cart_delete_where_gone; [|exact H5].
    apply existsb_exists. exists anonymousCart. split.
    - rewrite Hcarts. exact Hin1.
    - apply bool_decide_eq_true_2. reflexivity. }
  exact (proj1 (gone_getCart _ _ _ _ _ _ _ Hgone H)).
Qed.

Lemma find_cart_item_In cart_id product_id db it :
  find_cart_item cart_id product_id db = Some it ->
  In it (cart_items db) /\ ci_cart_id it = cart_id /\ ci_product_id it = product_id.
Proof.
  unfold find_cart_item. intros H. apply find_some in H as [Hin Hp].
  apply andb_true_iff in Hp as [Hc Hp]. apply bool_decide_eq_true in Hc, Hp. auto.
Qed.

(** The decision of [merge_item] for one anonymous row. *)
Lemma merge_item_decision env userCart_id source product db :
  lock_granted env (ci_product_id source) = true ->
  List.NoDup (map ci_id (cart_items db)) ->
  In source (cart_items db) ->
  ci_cart_id source <> userCart_id ->
  let destination := find_cart_item userCart_id (ci_product_id source) db in
  let available :=
    merge_availability_spec (now env) (p_stock product) source destination db
    - own_hold (now env) source in
  (ci_quantity source <= available ->
     exists db' item,
       merge_item env userCart_id (source, product) db = (Ok tt, db')
       /\ find_cart_item userCart_id (ci_product_id source) db' = Some item
       /\ ci_quantity item
          = match destination with
            | Some e => ci_quantity e + ci_quantity source
            | None => ci_quantity source
            end
       /\ ci_reservation_expires_at item = Some (reservation_expiry env))
  /\ (available < ci_quantity source ->
      merge_item env userCart_id (source, product) db = (Ok tt, db)).
Proof.
  intros Hlock Hnd Hin Hcart destination available.
  assert (Hdest : forall e, destination = Some e -> ci_id e <> ci_id source).
  { intros e He Heq. apply find_cart_item_In in He as (Hine & Hce & _).
    pose proof (NoDup_map_inj_in ci_id _ _ _ Hnd Hine Hin Heq). subst e. contradiction. }
  pose proof (merge_available_code (now env) (p_stock product) source destination db
                Hnd Hin Hdest) as Hcode.
  fold available in Hcode.
  unfold merge_item, withLock. rewrite Hlock, bind_get. fold destination. cbv zeta.
  rewrite Hcode. clear Hcode.
  destruct destination as [e|] eqn:He; split; intros Hav.
  - replace (ci_quantity e + ci_quantity source - ci_quantity e) with (ci_quantity source)
      by lia.
    destruct (ci_quantity source <=? available) eqn:E; [|apply Z.leb_gt in E; lia].
    unfold cart_item_update.
    destruct (find_cart_item_In _ _ _ _ He) as (Hine & _ & _).
    assert (Hex : existsb (fun it => bool_decide (ci_id it = ci_id e)) (cart_items db) = true).
    { apply existsb_exists. exists e. split; [exact Hine|].
      apply bool_decide_eq_true_2. reflexivity. }
    rewrite Hex. eexists.
    exists (with_quantity (ci_quantity e + ci_quantity source)
              (Some (reservation_expiry env)) e).
    split; [reflexivity|].
    unfold find_cart_item in *. simpl. rewrite find_update_where by reflexivity.
    unfold destination in He. rewrite He. simpl.
    rewrite bool_decide_eq_true_2 by reflexivity. split; [reflexivity|]. split; reflexivity.
  - replace (ci_quantity e + ci_quantity source - ci_quantity e) with (ci_quantity source)
      by lia.
    destruct (ci_quantity source <=? available) eqn:E; [apply Z.leb_le in E; lia|].
    reflexivity.
  - destruct (ci_quantity source <=? available) eqn:E; [|apply Z.leb_gt in E; lia].
    unfold cart_item_create, bind, fresh_id. simpl.
    eexists.
    exists {| ci_id := next_id db; ci_cart_id := userCart_id;
              ci_product_id := ci_product_id source; ci_quantity := ci_quantity source;
              ci_reservation_expires_at := Some (reservation_expiry env) |}.
    split; [reflexivity|].
    unfold find_cart_item in *. simpl. split; [|split; reflexivity].
    apply find_app_none; [exact He|].
    simpl. rewrite !bool_decide_eq_true_2 by reflexivity. reflexivity.
  - destruct (ci_quantity source <=? available) eqn:E; [apply Z.leb_le in E; lia|].
    reflexivity.
Qed.

(** What [mergeAnonymousCart] does.  For each item of the anonymous cart the
    check is made against the stock read with the cart minus the active
    reservations of every row except the destination row: the source row,
    while its reservation is live, counts.  When the anonymous quantity fits,
    it is added to the destination row, or a new row is created with it, and
    the reservation is refreshed; when it does not fit nothing is written
    for the item.  An anonymous cart with items is deleted by the merge.
    In particular quantity 2 merged into a row of quantity 3 with 5 units
    available (source and destination rows left out) gives quantity 5. *)
Lemma mergeAnonymousCart_rule :
  (forall env userCart_id source product db,
     lock_granted env (ci_product_id source) = true ->
     List.NoDup (map ci_id (cart_items db)) ->
     In source (cart_items db) ->
     ci_cart_id source <> userCart_id ->
     let destination := find_cart_item userCart_id (ci_product_id source) db in
     let available :=
       merge_availability_spec (now env) (p_stock product) source destination db
       - own_hold (now env) source in
     (ci_quantity source <= available ->
        exists db' item,
          merge_item env userCart_id (source, product) db = (Ok tt, db')
          /\ find_cart_item userCart_id (ci_product_id source) db' = Some item
          /\ ci_quantity item
             = match destination with
               | Some e => ci_quantity e + ci_quantity source
               | None => ci_quantity source
               end
          /\ ci_reservation_expires_at item = Some (reservation_expiry env))
     /\ (available < ci_quantity source ->
         merge_item env userCart_id (source, product) db = (Ok tt, db))
     /\ (forall e,
           destination = Some e -> ci_quantity e = 3 -> ci_quantity source = 2 ->
           5 <= merge_availability_spec (now env) (p_stock product) source destination db ->
           exists db' item,
             merge_item env userCart_id (source, product) db = (Ok tt, db')
             /\ find_cart_item userCart_id (ci_product_id source) db' = Some item
             /\ ci_quantity item = 5))
  /\ (forall env userId sessionId db anonymousCart r db',
        latest (List.filter (cart_of_session sessionId) (carts db)) = Some anonymousCart ->
        items_of_cart (c_id anonymousCart) db <> [] ->
        mergeAnonymousCart env userId sessionId db = (Ok r, db') ->
        cart_gone (c_id anonymousCart) db').
Proof.
  split; [|exact mergeAnonymousCart_deletes].
  intros env userCart_id source product db Hlock Hnd Hin Hcart destination available.
  destruct (merge_item_decision env userCart_id source product db Hlock Hnd Hin Hcart)
    as [Hfit Hdrop].
  split; [exact Hfit|]. split; [exact Hdrop|].
  intros e He H3 H2 H5.
  destruct Hfit as (db' & item & Hm & Hf & Hq & _).
  { subst available. unfold destination in *. unfold own_hold. rewrite H2.
    destruct (active (now env) source); lia. }
  exists db', item. split; [exact Hm|]. split; [exact Hf|].
  rewrite Hq. unfold destination in He. rewrite He. lia.
Qed.

(** C5.  The merge at two inputs, the availability being the stock less
    the live reservations of every row but the source and the destination.
    - Stock 3, the anonymous cart holds 2 units, the user's cart has no row:
      3 units are available and the item fits, yet the merge creates no row
      for the user, and the anonymous cart is deleted with its item.
    - Stock 4, the user's cart holds 3 units, the anonymous cart 2: 4 units
      are available, the sum 5 does not fit, yet the merge writes 5.
    In both the aggregate of the merge has counted the source row, which
    the merge is about to delete, and at the second it has held only the
    added quantity against what is left. *)
Theorem mergeAnonymousCart_counts_source_row :
  (merge_availability_spec (now Example.env) 3 (Example.row 33%nat 31%nat 1%nat 2) None
     Example.merge_new = 3
   /\ ci_quantity (Example.row 33%nat 31%nat 1%nat 2) <= 3
   /\ exists r db',
        mergeAnonymousCart Example.env 1%nat 9%nat Example.merge_new = (Ok r, db')
        /\ find_cart_item 30%nat 1%nat db' = None
        /\ cart_items db' = [])
  /\ (merge_availability_spec (now Example.env) 4 (Example.row 33%nat 31%nat 1%nat 2)
        (Some (Example.row 32%nat 30%nat 1%nat 3)) Example.merge_over = 4
      /\ 4 < ci_quantity (Example.row 32%nat 30%nat 1%nat 3)
             + ci_quantity (Example.row 33%nat 31%nat 1%nat 2)
      /\ exists r db',
           mergeAnonymousCart Example.env 1%nat 9%nat Example.merge_over = (Ok r, db')
           /\ option_map ci_quantity (find_cart_item 30%nat 1%nat db') = Some 5
           /\ option_map p_stock (products db' !! 1%nat) = Some 4).
Proof.
  split.
  - split; [reflexivity|]. split; [vm_compute; discriminate|].
    eexists. eexists. split; [vm_compute; reflexivity|]. split; reflexivity.
  - split; [reflexivity|]. split; [vm_compute; reflexivity|].
    eexists. eexists. split; [vm_compute; reflexivity|]. split; reflexivity.
Qed.

(** ** The theorems at concrete inputs *)

Lemma stock_never_negative_witness :
  Inv Example.roomy
  /\ Forall validated Witness.requests
  /\ match products (run Witness.requests Example.roomy) !! 1%nat with
     | Some product => 0 <= p_stock product
     | None => False
     end.
Proof.
  assert (HInv : Inv Example.roomy).
  { split; [|split; constructor].
    apply map_Forall_singleton. simpl. lia. }
  assert (Hops : Forall validated Witness.requests).
  { repeat constructor. simpl. lia. }
  split; [exact HInv|]. split; [exact Hops|].
  destruct (products (run Witness.requests Example.roomy) !! 1%nat) as [product|] eqn:E.
  - exact (proj1 (stock_never_negative Witness.requests Example.roomy HInv Hops) _ _ E).
  - vm_compute in E. discriminate E.
Defined.

(** The callback of the transaction, run by itself on a cart whose second
    item asks for more than is left: it stops with InsufficientStock after
    it has written the parent order, both sub-orders and the first order
    item and has deducted the first item's stock.  Under [transaction]
    nothing of that stays. *)
Lemma createOrder_tx_rolls_back :
  (exists db',
     createOrder_tx Example.env Witness.draft 30%nat Witness.stale_items Witness.two_sellers
     = (Err (InsufficientStock None), db')
     /\ map o_id (orders db') = [100%nat; 101%nat; 103%nat]
     /\ map oi_product_id (order_items db') = [1%nat]
     /\ option_map p_stock (products db' !! 1%nat) = Some 8)
  /\ transaction
       (createOrder_tx Example.env Witness.draft 30%nat Witness.stale_items)
       Witness.two_sellers
     = (Err (InsufficientStock None), Witness.two_sellers).
Proof.
  split.
  - eexists. split; [vm_compute; reflexivity|]. repeat split; reflexivity.
  - vm_compute. reflexivity.
Qed.

Lemma createOrder_atomic_witness :
  fst (createOrder Witness.contended 1%nat 40%nat None Witness.checkout)
  = Err (LockTimeout 1%nat)
  /\ snd (createOrder Witness.contended 1%nat 40%nat None Witness.checkout)
     = Witness.checkout.
Proof.
  assert (H : createOrder Witness.contended 1%nat 40%nat None Witness.checkout
              = (Err (LockTimeout 1%nat),
                 snd (createOrder Witness.contended 1%nat 40%nat None Witness.checkout))).
  { vm_compute. reflexivity. }
  split; [rewrite H; reflexivity|].
  exact (proj1 (createOrder_atomic Witness.contended 1%nat 40%nat None Witness.checkout)
           _ _ H).
Defined.

Lemma createOrder_cancelOrder_roundtrip_witness :
  ids_below_counter Witness.checkout
  /\ match createOrder Example.env 1%nat 40%nat None Witness.checkout with
     | (Ok resp, db1) =>
         exists resp2 db2,
           cancelOrder Example.later 1%nat (o_id (or_order resp)) db1 = (Ok resp2, db2)
           /\ products db2 = products Witness.checkout
     | (Err _, _) => False
     end.
Proof.
  assert (Hwf : ids_below_counter Witness.checkout) by (split; constructor).
  split; [exact Hwf|].
  destruct (createOrder Example.env 1%nat 40%nat None Witness.checkout)
    as [[resp|e] db1] eqn:E.
  - assert (Hlock : forall p, lock_granted Example.later p = true) by reflexivity.
    destruct (createOrder_cancelOrder_roundtrip Example.env Example.later 1%nat 40%nat None
                Witness.checkout resp db1 Hwf E Hlock)
      as (_ & _ & resp2 & db2 & Hcancel & _ & Hproducts).
    exists resp2, db2. split; [exact Hcancel | exact Hproducts].
  - vm_compute in E. discriminate E.
Defined.


Lemma updateOrderItemStatus_transitions_witness :
  (exists db',
     updateOrderItemStatus 20%nat 60%nat OrderStatus.DELIVERED
       (Example.ordered_shop OrderStatus.SHIPPED)
     = (Ok (Example.item_row OrderStatus.DELIVERED), db')
     /\ option_map o_status (find_order 51%nat db') = Some OrderStatus.DELIVERED
     /\ option_map o_status (find_order 50%nat db') = Some OrderStatus.DELIVERED)
  /\ updateOrderItemStatus 20%nat 60%nat OrderStatus.PENDING
       (Example.ordered_shop OrderStatus.SHIPPED)
     = (Err (InvalidTransition OrderStatus.SHIPPED OrderStatus.PENDING),
        Example.ordered_shop OrderStatus.SHIPPED).
Proof.
  assert (Hitem : List.find (fun it => bool_decide (oi_id it = 60%nat))
                    (order_items (Example.ordered_shop OrderStatus.SHIPPED))
                  = Some (Example.item_row OrderStatus.SHIPPED)) by reflexivity.
  assert (Hsub : find_order (oi_order_id (Example.item_row OrderStatus.SHIPPED))
                   (Example.ordered_shop OrderStatus.SHIPPED)
                 = Some (Example.order_row 51%nat (Some 50%nat) (Some 20%nat) false
                           OrderStatus.SHIPPED)) by reflexivity.
  assert (Hparent : forall parent_id,
             o_parent_order_id
               (Example.order_row 51%nat (Some 50%nat) (Some 20%nat) false OrderStatus.SHIPPED)
             = Some parent_id ->
             exists parent,
               find_order parent_id (Example.ordered_shop OrderStatus.SHIPPED) = Some parent).
  { intros parent_id [= <-]. eexists. reflexivity. }
  split.
  - destruct (updateOrderItemStatus_transitions _ 20%nat 60%nat _ _ OrderStatus.DELIVERED
                Hitem eq_refl Hsub Hparent) as (Haccept & _ & _).
    destruct Haccept as (db' & Hrun & _ & (so & Hso & Hst) & Hp).
    { simpl. auto. }
    destruct (Hp 50%nat eq_refl) as (po & Hpo & Hpst).
    exists db'. split; [exact Hrun|].
    change (oi_order_id (Example.item_row OrderStatus.SHIPPED)) with 51%nat in Hso.
    rewrite Hso, Hpo. simpl. rewrite Hst, Hpst. split; reflexivity.
  - destruct (updateOrderItemStatus_transitions _ 20%nat 60%nat _ _ OrderStatus.PENDING
                Hitem eq_refl Hsub Hparent) as (_ & Hreject & _).
    apply Hreject.
    simpl. intros H. repeat (destruct H as [H | H]; [discriminate H|]). exact H.
Defined.

Lemma processPayment_failure_witness :
  exists db',
    processPayment true Witness.declined (Example.ordered_shop OrderStatus.PENDING)
    = (Ok {| resp_success := false; resp_status := PaymentStatus.FAILED |}, db')
    /\ option_map o_payment_status (find_order 50%nat db') = Some PaymentStatus.FAILED
    /\ option_map o_status (find_order 50%nat db') = Some OrderStatus.PENDING
    /\ products db' = products (Example.ordered_shop OrderStatus.PENDING).
Proof.
  destruct (processPayment_failure true Witness.declined
              (Example.ordered_shop OrderStatus.PENDING)
              (Example.order_row 50%nat None None true OrderStatus.PENDING))
    as (db' & Hrun & Hfind & Hstatus & Hproducts & _).
  - reflexivity.
  - discriminate.
  - reflexivity.
  - reflexivity.
  - exists db'. split; [exact Hrun|]. change (pr_order_id Witness.declined) with 50%nat in Hfind.
    rewrite Hfind. simpl. auto.
Defined.

Lemma updateOrderItemStatus_cancel_keeps_stock_witness :
  exists db',
    updateOrderItemStatus 20%nat 60%nat OrderStatus.CANCELLED
      (Example.ordered_shop OrderStatus.PENDING)
    = (Ok (Example.item_row OrderStatus.CANCELLED), db')
    /\ products db' = products (Example.ordered_shop OrderStatus.PENDING)
    /\ (exists e, cancelOrder Example.env 1%nat 50%nat db' = (Err e, db'))
    /\ (exists e, cancelSubOrder Example.env 20%nat 51%nat db' = (Err e, db')).
Proof.
  destruct (updateOrderItemStatus_cancel_keeps_stock
              (Example.ordered_shop OrderStatus.PENDING) 20%nat 60%nat
              (Example.item_row OrderStatus.PENDING)
              (Example.order_row 51%nat (Some 50%nat) (Some 20%nat) false OrderStatus.PENDING))
    as (db' & Hrun & _ & _ & _ & Hproducts & Horder & Hsub & _).
  - reflexivity.
  - reflexivity.
  - reflexivity.
  - reflexivity.
  - intros parent_id [= <-]. eexists. reflexivity.
  - exists db'. split; [exact Hrun|]. split; [exact Hproducts|]. split.
    + apply Horder. right. reflexivity.
    + apply Hsub.
Defined.

Lemma mergeAnonymousCart_rule_witness :
  exists db' item,
    merge_item Example.env 30%nat
      (Example.row 33%nat 31%nat 1%nat 2,
       {| p_price := 100; p_stock := 5; p_seller_id := 20%nat |}) Example.merge_sum
    = (Ok tt, db')
    /\ find_cart_item 30%nat 1%nat db' = Some item
    /\ ci_quantity item = 5.
Proof.
  destruct (proj1 mergeAnonymousCart_rule Example.env 30%nat
              (Example.row 33%nat 31%nat 1%nat 2)
              {| p_price := 100; p_stock := 5; p_seller_id := 20%nat |} Example.merge_sum)
    as (_ & _ & Hf).
  - reflexivity.
  - simpl. repeat constructor; simpl; intros H; repeat (destruct H as [H | H]; try discriminate H);
      exact H.
  - simpl. right. left. reflexivity.
  - simpl. discriminate.
  - apply (Hf (Example.row 32%nat 30%nat 1%nat 3)).
    + reflexivity.
    + reflexivity.
    + reflexivity.
    + vm_compute. discriminate.
Defined.

(** * Properties of the rest of the code *)

(** ** The lock protocol *)

Lemma redis_get_insert now (s : DistributedLock.Store) k v expires :
  DistributedLock.redis_get now (<[k := (v, expires)]> s) k
  = if now <? expires then Some v else None.
Proof. unfold DistributedLock.redis_get. rewrite lookup_insert_eq. reflexivity. Qed.

Lemma acquire_attempt_free now s key token ttl :
  DistributedLock.redis_get now s (DistributedLock.lockKey key) = None ->
  DistributedLock.acquire_attempt now s key token ttl
  = (Some token, <[DistributedLock.lockKey key := (token, now + ttl)]> s).
Proof.
  intros H. unfold DistributedLock.acquire_attempt, DistributedLock.redis_set_px_nx.
  rewrite H. reflexivity.
Qed.

Lemma acquire_attempt_held now s key token ttl holder :
  DistributedLock.redis_get now s (DistributedLock.lockKey key) = Some holder ->
  DistributedLock.acquire_attempt now s key token ttl = (None, s).
Proof.
  intros H. unfold DistributedLock.acquire_attempt, DistributedLock.redis_set_px_nx.
  rewrite H. reflexivity.
Qed.

Lemma acquire_loop_outcome start timeout ttl key token turns s :
  match Locking.acquire_loop start timeout ttl key token turns s with
  | (Some tok, s') =>
      tok = token
      /\ exists t, In t turns
           /\ t - start < timeout
           /\ DistributedLock.redis_get t s (DistributedLock.lockKey key) = None
           /\ s' = <[DistributedLock.lockKey key := (token, t + ttl)]> s
  | (None, s') => s' = s
  end.
Proof.
  induction turns as [|t later IH]; simpl; [reflexivity|].
  destruct (t - start <? timeout) eqn:Ht; [|reflexivity].
  apply Z.ltb_lt in Ht.
  destruct (DistributedLock.redis_get t s (DistributedLock.lockKey key)) as [holder|] eqn:Hget.
  - rewrite (acquire_attempt_held _ _ _ _ _ _ Hget).
    destruct (Locking.acquire_loop start timeout ttl key token later s) as [[tok|] s'];
      [|exact IH].
    destruct IH as (Htok & t' & Hin & Hlt & Hfree & Hs').
    split; [exact Htok|]. exists t'. auto.
  - rewrite (acquire_attempt_free _ _ _ _ _ Hget).
    split; [reflexivity|]. exists t. auto.
Qed.

(** X1. [acquire] returns its own token or null.  It takes the lock at one of
    its turns, within the timeout, at which the key is absent or has expired,
    and writes the key with the expiry [ttl] after that turn; when it returns
    null it has written nothing.  So a lock that is live is never written
    over. *)
Theorem acquire_outcome clock s key token ttl timeout :
  match Locking.acquire clock s key token ttl timeout with
  | (Some tok, s') =>
      tok = token
      /\ exists t, In t (Locking.turns clock)
           /\ t - Locking.start clock < timeout
           /\ DistributedLock.redis_get t s (DistributedLock.lockKey key) = None
           /\ s' = <[DistributedLock.lockKey key := (token, t + ttl)]> s
  | (None, s') => s' = s
  end.
Proof. unfold Locking.acquire. apply acquire_loop_outcome. Qed.

(** X2. While another holder's key has not expired at any of the turns,
    [acquire] gives up with null and the holder keeps the lock; once a turn
    falls at or after the expiry, within the timeout, [acquire] takes the
    lock at that turn. *)
Theorem acquire_waits_for_expiry clock s key holder expires token ttl timeout before t later :
  s !! DistributedLock.lockKey key = Some (holder, expires) ->
  Locking.turns clock = before ++ t :: later ->
  Forall (fun u => u < expires) before ->
  Forall (fun u => u - Locking.start clock < timeout) (before ++ [t]) ->
  (t < expires ->
   Forall (fun u => u < expires) later ->
   Locking.acquire clock s key token ttl timeout = (None, s))
  /\ (expires <= t ->
      Locking.acquire clock s key token ttl timeout
      = (Some token, <[DistributedLock.lockKey key := (token, t + ttl)]> s)).
Proof.
  intros Hheld Hturns Hbefore Hwithin. unfold Locking.acquire. rewrite Hturns.
  assert (Hlive : forall u, u < expires ->
            DistributedLock.redis_get u s (DistributedLock.lockKey key) = Some holder).
  { intros u Hu. unfold DistributedLock.redis_get. rewrite Hheld.
    destruct (u <? expires) eqn:E; [reflexivity | apply Z.ltb_ge in E; lia]. }
  assert (Hdead : forall u, expires <= u ->
            DistributedLock.redis_get u s (DistributedLock.lockKey key) = None).
  { intros u Hu. unfold DistributedLock.redis_get. rewrite Hheld.
    destruct (u <? expires) eqn:E; [apply Z.ltb_lt in E; lia | reflexivity]. }
  clear Hturns. split.
  - intros Ht Hlater.
    assert (Hall : Forall (fun u => u < expires) (before ++ t :: later)).
    { apply Forall_app. split; [exact Hbefore|]. constructor; assumption. }
    clear Hbefore Hwithin Hlater Ht.
    induction Hall as [|u l Hu Hall IH]; simpl; [reflexivity|].
    destruct (u - Locking.start clock <? timeout); [|reflexivity].
    rewrite (acquire_attempt_held _ _ _ _ _ _ (Hlive u Hu)). exact IH.
  - intros Ht. induction Hbefore as [|u l Hu Hbefore IH]; simpl in *.
    + inversion Hwithin as [|? ? Hw _]; subst.
      destruct (t - Locking.start clock <? timeout) eqn:E; [|apply Z.ltb_ge in E; lia].
      rewrite (acquire_attempt_free _ _ _ _ _ (Hdead t Ht)). reflexivity.
    + inversion Hwithin as [|? ? Hw Hrest]; subst.
      destruct (u - Locking.start clock <? timeout) eqn:E; [|apply Z.ltb_ge in E; lia].
      rewrite (acquire_attempt_held _ _ _ _ _ _ (Hlive u Hu)). apply IH. exact Hrest.
Qed.

(** X3. [withLock] on the Redis store does to the database what [withLock]
    with the answer of [acquire] as [lock_granted] does.  When the lock is
    not obtained the function is not run and the store is as it was; when it
    is, the key reads as absent from the release on, whether the function
    returned or threw and whether or not the lock expired under it. *)
Theorem withLock_on_redis {A} env clock product_id key token ttl timeout (fn : M A) s db :
  token <> EmptyString ->
  lock_granted env product_id
  = match fst (Locking.acquire clock s key token ttl timeout) with
    | Some _ => true
    | None => false
    end ->
  exists s',
    Locking.withLock clock product_id key token ttl timeout fn s db
    = (fst (withLock env product_id fn db), s', snd (withLock env product_id fn db))
    /\ (lock_granted env product_id = true ->
        forall t, Locking.finished clock <= t ->
          DistributedLock.redis_get t s' (DistributedLock.lockKey key) = None)
    /\ (lock_granted env product_id = false -> s' = s).
Proof.
  intros Htoken Hgranted. unfold Locking.withLock, withLock.
  pose proof (acquire_loop_outcome (Locking.start clock) timeout ttl key token
                (Locking.turns clock) s) as Hout.
  fold (Locking.acquire clock s key token ttl timeout) in Hout.
  destruct (Locking.acquire clock s key token ttl timeout) as [[tok|] s1]; simpl in Hgranted.
  - destruct Hout as (-> & t0 & _ & _ & _ & ->).
    rewrite Hgranted. rewrite bool_decide_eq_false_2 by exact Htoken.
    destruct (fn db) as [r db'] eqn:Hfn. eexists. split; [reflexivity|].
    split; [|discriminate].
    intros _ t Ht. unfold DistributedLock.release.
    rewrite redis_get_insert.
    destruct (Locking.finished clock <? t0 + ttl) eqn:E.
    + destruct (decide (Some token = Some token)) as [_ | Hne]; [|congruence].
      unfold DistributedLock.redis_del. rewrite redis_get_insert, E. simpl.
      unfold DistributedLock.redis_get. rewrite lookup_delete_eq. reflexivity.
    + destruct (decide (None = Some token)) as [Heq | _]; [discriminate Heq|]. simpl.
      rewrite redis_get_insert. apply Z.ltb_ge in E.
      destruct (t <? t0 + ttl) eqn:E'; [apply Z.ltb_lt in E'; lia | reflexivity].
  - subst s1. rewrite Hgranted. eexists. split; [reflexivity|].
    split; [discriminate | reflexivity].
Qed.

(** X4. A holder whose lock has expired cannot release the lock of the process
    that took it next: the script compares the token, returns false and
    leaves the new holder's key. *)
Theorem release_after_takeover now1 now2 now3 ttl1 ttl2 s s1 key a b :
  DistributedLock.acquire_attempt now1 s key a ttl1 = (Some a, s1) ->
  now1 + ttl1 <= now2 ->
  a <> b ->
  exists s2,
    DistributedLock.acquire_attempt now2 s1 key b ttl2 = (Some b, s2)
    /\ DistributedLock.release now3 s2 key a = (false, s2)
    /\ (now3 < now2 + ttl2 ->
        DistributedLock.redis_get now3 s2 (DistributedLock.lockKey key) = Some b).
Proof.
  intros Hacq Hexp Hab.
  unfold DistributedLock.acquire_attempt, DistributedLock.redis_set_px_nx in Hacq.
  destruct (DistributedLock.redis_get now1 s (DistributedLock.lockKey key)); [discriminate|].
  injection Hacq as <-.
  assert (Hfree : DistributedLock.redis_get now2
                    (<[DistributedLock.lockKey key := (a, now1 + ttl1)]> s)
                    (DistributedLock.lockKey key) = None).
  { rewrite redis_get_insert.
    destruct (now2 <? now1 + ttl1) eqn:E; [apply Z.ltb_lt in E; lia | reflexivity]. }
  eexists. split; [exact (acquire_attempt_free _ _ _ _ _ Hfree)|].
  split.
  - unfold DistributedLock.release. rewrite redis_get_insert.
    destruct (now3 <? now2 + ttl2).
    + destruct (decide (Some b = Some a)) as [Heq | _]; [congruence | reflexivity].
    + destruct (decide (None = Some a)) as [Heq | _]; [discriminate Heq | reflexivity].
  - intros Hlive. rewrite redis_get_insert.
    destruct (now3 <? now2 + ttl2) eqn:E; [reflexivity | apply Z.ltb_ge in E; lia].
Qed.

Lemma acquire_waits_for_expiry_witness :
  Locking.acquire Scenario.early Scenario.held "product:7:stock" "1700000000009-0.17"
    10000 15000 = (None, Scenario.held)
  /\ Locking.acquire Scenario.clock Scenario.held "product:7:stock" "1700000000009-0.17"
       10000 15000
     = (Some "1700000000009-0.17",
        <["lock:product:7:stock" := ("1700000000009-0.17", 10050 + 10000)]> Scenario.held).
Proof.
  assert (Hheld : Scenario.held !! DistributedLock.lockKey "product:7:stock"
                  = Some ("1700000000000-0.42", 10000)) by reflexivity.
  split.
  - apply (proj1 (acquire_waits_for_expiry Scenario.early Scenario.held "product:7:stock"
                    "1700000000000-0.42" 10000 "1700000000009-0.17" 10000 15000
                    [9000; 9100] 9250 [] Hheld eq_refl
                    ltac:(repeat constructor) ltac:(repeat constructor))).
    + reflexivity.
    + constructor.
  - apply (proj2 (acquire_waits_for_expiry Scenario.clock Scenario.held "product:7:stock"
                    "1700000000000-0.42" 10000 "1700000000009-0.17" 10000 15000
                    [9000; 9100; 9250] 10050 [] Hheld eq_refl
                    ltac:(repeat constructor) ltac:(repeat constructor))).
    discriminate.
Defined.

Lemma withLock_on_redis_witness :
  exists s',
    Locking.withLock Scenario.clock 7%nat "product:7:stock" "1700000000009-0.17" 10000 15000
      (product_increment 1%nat 2) Scenario.held Example.roomy
    = (fst (withLock Example.env 7%nat (product_increment 1%nat 2) Example.roomy), s',
       snd (withLock Example.env 7%nat (product_increment 1%nat 2) Example.roomy))
    /\ DistributedLock.redis_get 10400 s' "lock:product:7:stock" = None.
Proof.
  destruct (withLock_on_redis Example.env Scenario.clock 7%nat "product:7:stock"
              "1700000000009-0.17" 10000 15000 (product_increment 1%nat 2)
              Scenario.held Example.roomy)
    as (s' & Hrun & Hfree & _).
  - discriminate.
  - reflexivity.
  - exists s'. split; [exact Hrun|]. apply (Hfree eq_refl). reflexivity.
Defined.

Lemma release_after_takeover_witness :
  exists s2,
    DistributedLock.acquire_attempt 10050
      (<["lock:product:7:stock" := ("1700000000000-0.42", 0 + 10000)]> ∅)
      "product:7:stock" "1700000000009-0.17" 10000 = (Some "1700000000009-0.17", s2)
    /\ DistributedLock.release 10400 s2 "product:7:stock" "1700000000000-0.42" = (false, s2)
    /\ DistributedLock.redis_get 10400 s2 "lock:product:7:stock" = Some "1700000000009-0.17".
Proof.
  destruct (release_after_takeover 0 10050 10400 10000 10000 ∅
              (<["lock:product:7:stock" := ("1700000000000-0.42", 0 + 10000)]> ∅)
              "product:7:stock" "1700000000000-0.42" "1700000000009-0.17")
    as (s2 & Hacq & Hrel & Hget).
  - reflexivity.
  - discriminate.
  - discriminate.
  - exists s2. split; [exact Hacq|]. split; [exact Hrel|]. apply Hget. reflexivity.
Defined.

(** ** Tokens and identities *)

Lemma isTokenBlacklisted_blacklistToken days now1 now2 s token :
  now2 < now1 + days * 24 * 60 * 60 * 1000 ->
  Auth.isTokenBlacklisted now2 (Auth.blacklistToken days now1 s token) token = true.
Proof.
  intros H. unfold Auth.isTokenBlacklisted, Auth.blacklistToken, Auth.redis_setex.
  rewrite redis_get_insert.
  destruct (now2 <? now1 + days * 24 * 60 * 60 * 1000) eqn:E;
    [reflexivity | apply Z.ltb_ge in E; lia].
Qed.

Lemma extractUserOrSession_verified now blacklist request user authHeader :
  Auth.jwt request = Some user ->
  Auth.truthy (Auth.authorization request) = Some authHeader ->
  Auth.extractUserOrSession now blacklist request
  = if Auth.isTokenBlacklisted now blacklist (Auth.bearer_token authHeader)
    then match Auth.x_session_id request with
         | Some sessionId => inl (Some user, Some sessionId)
         | None => inr Auth.SessionIdRequired
         end
    else inl (Some user, None).
Proof.
  intros Hjwt Hauth. unfold Auth.extractUserOrSession. rewrite Hjwt, Hauth.
  destruct (Auth.isTokenBlacklisted now blacklist (Auth.bearer_token authHeader));
    reflexivity.
Qed.

(** X5. [extractUserOrSession] never lets 'Token has been revoked' out: the
    [catch] of its own [try] takes it.  With a token that verifies and is on
    the blacklist, the request goes on with the user of the token as soon as
    it carries an x-session-id header, and without the header it fails with
    'Session ID required'; a token that is not on the blacklist gives the
    user and no session. *)
Theorem extractUserOrSession_revoked_token now blacklist request user authHeader :
  Auth.jwt request = Some user ->
  Auth.truthy (Auth.authorization request) = Some authHeader ->
  Auth.extractUserOrSession now blacklist request
  = if Auth.isTokenBlacklisted now blacklist (Auth.bearer_token authHeader)
    then match Auth.x_session_id request with
         | Some sessionId => inl (Some user, Some sessionId)
         | None => inr Auth.SessionIdRequired
         end
    else inl (Some user, None).
Proof. exact (extractUserOrSession_verified now blacklist request user authHeader). Qed.

(** X6. After [logout], and until the blacklist entry expires, [authenticate]
    refuses the token with 401 'Token has been revoked', while
    [extractUserOrSession] of the cart handlers still answers with the user
    of the token for a request that carries an x-session-id header. *)
Theorem logout_then_cart_request days now1 now2 blacklist request user authHeader sessionId :
  Auth.jwt request = Some user ->
  Auth.truthy (Auth.authorization request) = Some authHeader ->
  Auth.x_session_id request = Some sessionId ->
  now2 < now1 + days * 24 * 60 * 60 * 1000 ->
  fst (Auth.logout days now1 blacklist request) = 200%nat
  /\ Auth.authenticate now2 (snd (Auth.logout days now1 blacklist request)) request
     = Some (401%nat, "Token has been revoked")
  /\ Auth.extractUserOrSession now2 (snd (Auth.logout days now1 blacklist request)) request
     = inl (Some user, Some sessionId).
Proof.
  intros Hjwt Hauth Hsession Hlive.
  unfold Auth.logout. rewrite Hauth. simpl.
  pose proof (isTokenBlacklisted_blacklistToken days now1 now2 blacklist
                (Auth.bearer_token authHeader) Hlive) as Hblack.
  split; [reflexivity|]. split.
  - unfold Auth.authenticate. rewrite Hjwt, Hauth, Hblack. reflexivity.
  - rewrite (extractUserOrSession_verified _ _ _ _ _ Hjwt Hauth), Hblack, Hsession.
    reflexivity.
Qed.

Lemma extractUserOrSession_revoked_token_witness :
  Auth.extractUserOrSession 5000
    (Auth.blacklistToken 7 1000 ∅ "eyJhbGciOi.e30.c2ln") Scenario.signed_with_session
  = inl (Some 1%nat, Some 9%nat)
  /\ Auth.extractUserOrSession 5000
       (Auth.blacklistToken 7 1000 ∅ "eyJhbGciOi.e30.c2ln") Scenario.signed
     = inr Auth.SessionIdRequired.
Proof.
  split.
  - rewrite (extractUserOrSession_revoked_token 5000 _ Scenario.signed_with_session 1%nat
               "Bearer eyJhbGciOi.e30.c2ln" eq_refl eq_refl).
    reflexivity.
  - rewrite (extractUserOrSession_revoked_token 5000 _ Scenario.signed 1%nat
               "Bearer eyJhbGciOi.e30.c2ln" eq_refl eq_refl).
    reflexivity.
Defined.

Lemma logout_then_cart_request_witness :
  fst (Auth.logout 7 1000 ∅ Scenario.signed_with_session) = 200%nat
  /\ Auth.authenticate 5000 (snd (Auth.logout 7 1000 ∅ Scenario.signed_with_session))
       Scenario.signed_with_session
     = Some (401%nat, "Token has been revoked")
  /\ Auth.extractUserOrSession 5000 (snd (Auth.logout 7 1000 ∅ Scenario.signed_with_session))
       Scenario.signed_with_session
     = inl (Some 1%nat, Some 9%nat).
Proof.
  apply (logout_then_cart_request 7 1000 5000 ∅ Scenario.signed_with_session 1%nat
           "Bearer eyJhbGciOi.e30.c2ln" 9%nat); reflexivity.
Defined.

(** ** Payments *)

Lemma filter_update_where {A} (p q : A -> bool) (f : A -> A) (l : list A) :
  (forall x, p (f x) = p x) ->
  List.filter p (update_where q f l) = update_where q f (List.filter p l).
Proof.
  intros Hp. unfold update_where. induction l as [|x l IH]; simpl; [reflexivity|].
  assert (Hx : p (if q x then f x else x) = p x) by (destruct (q x); [apply Hp | reflexivity]).
  rewrite Hx. destruct (p x); simpl; rewrite IH; reflexivity.
Qed.

Lemma map_update_where {A B} (g : A -> B) (q : A -> bool) (f : A -> A) (l : list A) :
  (forall x, g (f x) = g x) -> map g (update_where q f l) = map g l.
Proof.
  intros Hg. unfold update_where. rewrite map_map. apply map_ext.
  intros x. destruct (q x); [apply Hg | reflexivity].
Qed.

Lemma sub_orders_update_where k q f db :
  (forall o, o_parent_order_id (f o) = o_parent_order_id o) ->
  sub_orders k (set_orders (update_where q f (orders db)) db)
  = update_where q f (sub_orders k db).
Proof.
  intros Hf. unfold sub_orders. simpl. apply filter_update_where.
  intros o. rewrite Hf. reflexivity.
Qed.

Lemma length_update_where {A} (q : A -> bool) (f : A -> A) (l : list A) :
  length (update_where q f l) = length l.
Proof. unfold update_where. apply length_map. Qed.

Lemma processPayment_paid roll paymentRequest db order :
  find_order (pr_order_id paymentRequest) db = Some order ->
  o_payment_status order = PaymentStatus.PAID ->
  processPayment roll paymentRequest db
  = (Ok {| resp_success := true; resp_status := PaymentStatus.PAID |}, db).
Proof.
  intros Hfind Hpaid. unfold processPayment. rewrite bind_get, Hfind, Hpaid. reflexivity.
Qed.

(** X7. A payment that the gateway accepts, for a parent order with
    sub-orders: whatever the statuses were, the parent and every sub-order
    end CONFIRMED and PAID and every item of every sub-order ends CONFIRMED,
    an order or item that had been cancelled included; products and carts
    are not written.  Paying the order again, with any method, card and
    draw, answers 'Order already paid' and changes nothing. *)
Theorem processPayment_success roll paymentRequest db order :
  find_order (pr_order_id paymentRequest) db = Some order ->
  o_payment_status order <> PaymentStatus.PAID ->
  o_is_parent order = true ->
  sub_orders (pr_order_id paymentRequest) db <> [] ->
  simulatePaymentGateway (pr_payment_method paymentRequest)
    (pr_card_number paymentRequest) roll = true ->
  exists db',
    processPayment roll paymentRequest db
    = (Ok {| resp_success := true; resp_status := PaymentStatus.PAID |}, db')
    /\ find_order (pr_order_id paymentRequest) db' = Some (confirmed_paid order)
    /\ Forall (fun o => o_parent_order_id o = Some (pr_order_id paymentRequest) ->
                        o_status o = OrderStatus.CONFIRMED
                        /\ o_payment_status o = PaymentStatus.PAID) (orders db')
    /\ Forall (fun it => In (oi_order_id it)
                           (map o_id (sub_orders (pr_order_id paymentRequest) db)) ->
                         oi_status it = OrderStatus.CONFIRMED) (order_items db')
    /\ products db' = products db
    /\ cart_items db' = cart_items db
    /\ forall roll' paymentRequest',
         pr_order_id paymentRequest' = pr_order_id paymentRequest ->
         processPayment roll' paymentRequest' db'
         = (Ok {| resp_success := true; resp_status := PaymentStatus.PAID |}, db').
Proof.
  intros Hfind Hunpaid Hparent Hsubs Hgw.
  set (k := pr_order_id paymentRequest) in *.
  assert (Hk : o_id order = k) by exact (find_order_id _ _ _ Hfind).
  unfold processPayment. fold k. rewrite bind_get, Hfind.
  destruct (PaymentStatus.eqb (o_payment_status order) PaymentStatus.PAID) eqn:E.
  { apply PaymentStatus_eqb_eq in E. contradiction. }
  rewrite (bind_ok _ _ _ _ _ (order_update_found _ _ _ _ Hfind)). rewrite Hgw.
  set (db1 := set_orders _ db).
  assert (Hfind1 : find_order k db1 = Some (with_payment_status PaymentStatus.PROCESSING order)).
  { unfold db1. rewrite find_order_update_where by reflexivity. rewrite Hfind. simpl.
    rewrite Hk, bool_decide_eq_true_2 by reflexivity. reflexivity. }
  assert (Hsubs1 : sub_orders k db1
                   = update_where (fun o => bool_decide (o_id o = k))
                       (with_payment_status PaymentStatus.PROCESSING) (sub_orders k db)).
  { unfold db1. apply sub_orders_update_where. reflexivity. }
  assert (Hlen1 : (0 <? length (sub_orders k db1))%nat = true).
  { rewrite Hsubs1, length_update_where. apply Nat.ltb_lt.
    destruct (sub_orders k db); [contradiction | simpl; lia]. }
  rewrite bind_get, Hfind1. simpl o_is_parent. rewrite Hparent, Hlen1. simpl andb. cbv iota.
  set (db2 := set_orders
                (update_where (fun o => bool_decide (o_id o = k)) confirmed_paid (orders db1))
                db1).
  assert (H2 : order_update k confirmed_paid db1 = (Ok tt, db2))
    by exact (order_update_found _ _ _ _ Hfind1).
  set (db3 := set_orders
                (update_where (fun o => bool_decide (o_parent_order_id o = Some k))
                   confirmed_paid (orders db2)) db2).
  set (db4 := set_order_items
                (update_where
                   (fun it => existsb (fun so => bool_decide (o_id so = oi_order_id it))
                                (sub_orders k db1))
                   (with_item_status OrderStatus.CONFIRMED) (order_items db3)) db3).
  assert (Htx : transaction
                  (order_update k confirmed_paid ;;;
                   order_update_many (fun o => bool_decide (o_parent_order_id o = Some k))
                     confirmed_paid ;;;
                   order_item_update_many
                     (fun it => existsb (fun so => bool_decide (o_id so = oi_order_id it))
                                  (sub_orders k db1)) OrderStatus.CONFIRMED) db1
                = (Ok tt, db4)).
  { apply transaction_commit. rewrite (bind_ok _ _ _ _ _ H2). reflexivity. }
  rewrite (bind_ok _ _ _ _ _ Htx).
  assert (Hfind4 : find_order k db4 = Some (confirmed_paid order)).
  { change (find_order k db4) with (find_order k db3). unfold db3.
    rewrite find_order_update_where by reflexivity. unfold db2.
    rewrite find_order_update_where by reflexivity. rewrite Hfind1. simpl.
    rewrite Hk, (bool_decide_eq_true_2 (k = k)) by reflexivity.
    destruct (bool_decide _); reflexivity. }
  exists db4. split; [reflexivity|]. split; [exact Hfind4|]. split; [|split; [|split; [|split]]].
  - change (orders db4) with (orders db3). unfold db3. simpl.
    apply Forall_update_where_hit.
    + intros o _ _. split; reflexivity.
    + intros o Hq Ho. apply bool_decide_eq_false in Hq. contradiction.
  - unfold db4. simpl. apply Forall_update_where_hit.
    + intros it _ _. reflexivity.
    + intros it Hq Hin. exfalso.
      assert (Hex : existsb (fun so => bool_decide (o_id so = oi_order_id it))
                      (sub_orders k db1) = true).
      { apply in_map_iff in Hin as (so & Hid & Hso).
        rewrite Hsubs1. apply existsb_exists.
        exists (if bool_decide (o_id so = k)
                then with_payment_status PaymentStatus.PROCESSING so else so).
        split.
        - unfold update_where. apply in_map_iff. exists so. auto.
        - apply bool_decide_eq_true_2. rewrite <- Hid. destruct (bool_decide _); reflexivity. }
      rewrite Hex in Hq. discriminate.
  - reflexivity.
  - reflexivity.
  - intros roll' paymentRequest' Hsame. apply (processPayment_paid _ _ _ (confirmed_paid order)).
    + rewrite Hsame. exact Hfind4.
    + reflexivity.
Qed.

Lemma processPayment_success_witness :
  exists db',
    processPayment false Scenario.accepted_card (Example.ordered_shop OrderStatus.CANCELLED)
    = (Ok {| resp_success := true; resp_status := PaymentStatus.PAID |}, db')
    /\ option_map o_status (find_order 50%nat db') = Some OrderStatus.CONFIRMED
    /\ products db' = products (Example.ordered_shop OrderStatus.CANCELLED).
Proof.
  destruct (processPayment_success false Scenario.accepted_card
              (Example.ordered_shop OrderStatus.CANCELLED)
              (Example.order_row 50%nat None None true OrderStatus.CANCELLED))
    as (db' & Hrun & Hfind & _ & _ & Hproducts & _).
  - reflexivity.
  - discriminate.
  - reflexivity.
  - discriminate.
  - reflexivity.
  - exists db'. split; [exact Hrun|]. split; [|exact Hproducts].
    change (pr_order_id Scenario.accepted_card) with 50%nat in Hfind.
    rewrite Hfind. reflexivity.
Defined.

Lemma find_order_other k k' f db o :
  (forall x, o_id (f x) = o_id x) ->
  k' <> k ->
  find_order k' db = Some o ->
  find_order k' (set_orders (update_where (fun x => bool_decide (o_id x = k)) f (orders db)) db)
  = Some o.
Proof.
  intros Hf Hne Hfind. rewrite find_order_update_where by exact Hf. rewrite Hfind. simpl.
  rewrite (find_order_id _ _ _ Hfind), bool_decide_eq_false_2 by exact Hne. reflexivity.
Qed.

(** X8. A refund of a paid order marks that order CANCELLED and REFUNDED and
    nothing else: no stock is given back, the order items keep their status,
    and every other order, its sub-orders included, is as it was.  A second
    refund is refused with 'Cannot refund unpaid order'. *)
Theorem refundPayment_marks_the_order_only db order_id order :
  find_order order_id db = Some order ->
  o_payment_status order = PaymentStatus.PAID ->
  exists db',
    refundPayment order_id db
    = (inl {| resp_success := true; resp_status := PaymentStatus.REFUNDED |}, db')
    /\ find_order order_id db' = Some (cancelled order)
    /\ (forall k o, k <> order_id -> find_order k db = Some o -> find_order k db' = Some o)
    /\ order_items db' = order_items db
    /\ products db' = products db
    /\ refundPayment order_id db' = (inr CannotRefundUnpaidOrder, db').
Proof.
  intros Hfind Hpaid. unfold refundPayment at 1. rewrite Hfind, Hpaid. simpl negb. cbv iota.
  unfold lift. rewrite (bind_ok _ _ _ _ _ (order_update_found _ _ _ _ Hfind)).
  set (db' := set_orders _ db).
  assert (Hfind' : find_order order_id db' = Some (cancelled order)).
  { unfold db'. rewrite find_order_update_where by reflexivity. rewrite Hfind. simpl.
    rewrite (find_order_id _ _ _ Hfind), bool_decide_eq_true_2 by reflexivity. reflexivity. }
  exists db'. split; [reflexivity|]. split; [exact Hfind'|].
  split; [|split; [reflexivity|split; [reflexivity|]]].
  - intros k o Hne Ho. unfold db'. apply find_order_other; [reflexivity | exact Hne | exact Ho].
  - unfold refundPayment. rewrite Hfind'. reflexivity.
Qed.

Lemma refundPayment_marks_the_order_only_witness :
  exists db',
    refundPayment 50%nat Scenario.paid_shop
    = (inl {| resp_success := true; resp_status := PaymentStatus.REFUNDED |}, db')
    /\ option_map o_status (find_order 50%nat db') = Some OrderStatus.CANCELLED
    /\ option_map o_status (find_order 51%nat db') = Some OrderStatus.CONFIRMED
    /\ order_items db' = [Example.item_row OrderStatus.CONFIRMED]
    /\ products db' = products Scenario.paid_shop.
Proof.
  destruct (refundPayment_marks_the_order_only Scenario.paid_shop 50%nat
              (Scenario.paid_row 50%nat None None true))
    as (db' & Hrun & Hfind & Hothers & Hitems & Hproducts & _).
  - reflexivity.
  - reflexivity.
  - exists db'. split; [exact Hrun|]. split; [rewrite Hfind; reflexivity|].
    split; [|split; [exact Hitems | exact Hproducts]].
    rewrite (Hothers 51%nat (Scenario.paid_row 51%nat (Some 50%nat) (Some 20%nat) false));
      [reflexivity | discriminate | reflexivity].
Defined.

(** ** Handlers *)

Lemma fixes_transaction {F A} (proj : DB -> F) (body : M A) :
  fixes proj body -> fixes proj (transaction body).
Proof.
  intros Hb db r db' H. unfold transaction in H.
  destruct (body db) as [[a|e] db1] eqn:E; inversion H; subst; [|reflexivity].
  exact (Hb _ _ _ E).
Qed.

Lemma fixes_order_update {F} (proj : DB -> F) k f :
  (forall v db, proj (set_orders v db) = proj db) -> fixes proj (order_update k f).
Proof.
  intros Hproj db r db' H. unfold order_update in H.
  destruct (existsb _ _); inversion H; subst; [apply Hproj | reflexivity].
Qed.

Lemma fixes_order_item_update {F} (proj : DB -> F) k s :
  (forall v db, proj (set_order_items v db) = proj db) -> fixes proj (order_item_update k s).
Proof.
  intros Hproj db r db' H. unfold order_item_update in H.
  destruct (List.find _ _); inversion H; subst; [apply Hproj | reflexivity].
Qed.

Lemma fixes_ret {F A} (proj : DB -> F) (a : A) : fixes proj (ret a).
Proof. apply fixes_reads, reads_ret. Qed.

Lemma fixes_updateOrderItemStatus_tx {F} (proj : DB -> F) orderItemId status :
  (forall v db, proj (set_orders v db) = proj db) ->
  (forall v db, proj (set_order_items v db) = proj db) ->
  fixes proj (updateOrderItemStatus_tx orderItemId status).
Proof.
  intros Ho Hi. unfold updateOrderItemStatus_tx.
  apply fixes_bind; [apply fixes_order_item_update; exact Hi|]. intros item.
  apply fixes_bind; [apply fixes_reads, reads_get|]. intros db.
  apply fixes_bind; [apply fixes_order_update; exact Ho|]. intros _.
  apply fixes_bind; [|intros _; apply fixes_ret].
  destruct (find_order _ db) as [so|]; [|apply fixes_ret].
  destruct (o_parent_order_id so); [apply fixes_order_update; exact Ho | apply fixes_ret].
Qed.

(** What a call of [updateOrderItemStatus] can do. *)
Lemma updateOrderItemStatus_outcome sellerId orderItemId status db :
  (exists item db',
     updateOrderItemStatus sellerId orderItemId status db = (Ok item, db')
     /\ oi_status item = status
     /\ products db' = products db
     /\ cart_items db' = cart_items db)
  \/ (exists e, updateOrderItemStatus sellerId orderItemId status db = (Err e, db)).
Proof.
  unfold updateOrderItemStatus. rewrite bind_get.
  destruct (List.find _ (order_items db)) as [orderItem|]; [|right; eexists; reflexivity].
  destruct (negb _); [right; eexists; reflexivity|].
  destruct (updateOrderItemStatus_tx_outcome orderItemId status db)
    as [(item & db' & Hrun & Hstatus) | Herr].
  - left. exists item, db'. split; [exact Hrun|]. split; [exact Hstatus|].
    split.
    + exact (fixes_transaction products _
               (fixes_updateOrderItemStatus_tx products orderItemId status
                  (fun _ _ => eq_refl) (fun _ _ => eq_refl)) _ _ _ Hrun).
    + exact (fixes_transaction cart_items _
               (fixes_updateOrderItemStatus_tx cart_items orderItemId status
                  (fun _ _ => eq_refl) (fun _ _ => eq_refl)) _ _ _ Hrun).
  - right. eexists. exact Herr.
Qed.

(** X9. Through the seller's endpoint an order item is never cancelled: the
    schema of the body lets only CONFIRMED, SHIPPED and DELIVERED through,
    so a reply 200 carries an item in one of these three statuses, and
    'CANCELLED' is answered with 400.  The handler never writes a product,
    and when it refuses it has written nothing at all. *)
Theorem seller_status_update_never_cancels user orderItemId status db :
  match SellerController.updateOrderItemStatus user orderItemId status db with
  | (Sent code item, db') =>
      code = 200%nat
      /\ In (oi_status item)
           [OrderStatus.CONFIRMED; OrderStatus.SHIPPED; OrderStatus.DELIVERED]
      /\ products db' = products db
  | (Refused code _, db') => db' = db
  end
  /\ SellerController.updateOrderItemStatus user orderItemId (Some "CANCELLED") db
     = (Refused 400 Invalid, db).
Proof.
  split; [|reflexivity].
  unfold SellerController.updateOrderItemStatus.
  destruct (updateOrderStatusSchema status) as [data_status|] eqn:Hparse; [|reflexivity].
  assert (Hin : In data_status
                  [OrderStatus.CONFIRMED; OrderStatus.SHIPPED; OrderStatus.DELIVERED]).
  { unfold updateOrderStatusSchema in Hparse. destruct status as [status|]; [|discriminate].
    repeat (destruct (bool_decide _) in Hparse;
            [injection Hparse as <-; simpl; auto|]).
    discriminate. }
  destruct (updateOrderItemStatus_outcome user orderItemId data_status db)
    as [(item & db' & Hrun & Hstatus & Hproducts & _) | (e & Herr)].
  - rewrite Hrun. rewrite Hstatus. auto.
  - rewrite Herr. destruct e; reflexivity.
Qed.

Section OrdersOfOthers.

Variable db0 : DB.
Variable order_id : id.

(** The orders that are neither the order [order_id] nor one of its
    sub-orders read as in [db0]. *)
Let others_kept (d : DB) : Prop :=
  forall k o, find_order k db0 = Some o ->
    o_id o <> order_id -> o_parent_order_id o <> Some order_id ->
    find_order k d = Some o.

Lemma others_order_update f :
  (forall o, o_id (f o) = o_id o) ->
  keeps others_kept (order_update order_id f) (fun _ => True).
Proof.
  intros Hf d r d' HP H. unfold order_update in H.
  destruct (existsb _ _); inversion H; subst; clear H; [|split; [exact HP | intros ? [=]]].
  split; [|auto]. intros k o Ho Hid Hparent.
  rewrite find_order_update_where by exact Hf. rewrite (HP k o Ho Hid Hparent). simpl.
  rewrite bool_decide_eq_false_2 by exact Hid. reflexivity.
Qed.

Lemma others_order_update_many f :
  (forall o, o_id (f o) = o_id o) ->
  keeps others_kept
    (order_update_many (fun o => bool_decide (o_parent_order_id o = Some order_id)) f)
    (fun _ => True).
Proof.
  intros Hf. apply keeps_write. intros d HP. split; [|exact I].
  intros k o Ho Hid Hparent.
  rewrite find_order_update_where by exact Hf. rewrite (HP k o Ho Hid Hparent). simpl.
  rewrite bool_decide_eq_false_2 by exact Hparent. reflexivity.
Qed.

Lemma others_order_item_update_many p s :
  keeps others_kept (order_item_update_many p s) (fun _ => True).
Proof. apply keeps_write. intros d HP. split; [exact HP | exact I]. Qed.

Lemma others_processPayment roll paymentRequest :
  pr_order_id paymentRequest = order_id ->
  keeps others_kept (processPayment roll paymentRequest) (fun _ => True).
Proof.
  intros Hk. unfold processPayment. rewrite Hk.
  eapply keeps_bind; [apply keeps_get|]. intros d _.
  destruct (find_order order_id d) as [order|]; [|apply keeps_throw].
  destruct (PaymentStatus.eqb _ _); [apply keeps_ret; exact I|].
  eapply keeps_bind; [apply others_order_update; reflexivity|]. intros _ _.
  destruct (simulatePaymentGateway _ _ _).
  - eapply keeps_bind; [apply keeps_get|]. intros d1 _. cbv zeta.
    eapply keeps_bind with (V := fun _ : unit => True); [|intros _ _; apply keeps_ret; exact I].
    apply keeps_transaction.
    eapply keeps_bind; [apply others_order_update; reflexivity|]. intros _ _.
    destruct (_ && _).
    + eapply keeps_bind; [apply others_order_update_many; reflexivity|]. intros _ _.
      apply others_order_item_update_many.
    + apply others_order_item_update_many.
  - eapply keeps_bind; [apply others_order_update; reflexivity|]. intros _ _.
    apply keeps_ret. exact I.
Qed.

Lemma others_refundPayment d r d' :
  others_kept d -> refundPayment order_id d = (r, d') -> others_kept d'.
Proof.
  intros HP H. unfold refundPayment in H.
  destruct (find_order order_id d) as [order|]; [|inversion H; subst; exact HP].
  destruct (negb _); [inversion H; subst; exact HP|].
  unfold lift in H.
  destruct ((order_update order_id cancelled ;;;
             ret {| resp_success := true; resp_status := PaymentStatus.REFUNDED |}) d)
    as [r0 d0] eqn:E.
  assert (HP0 : others_kept d0).
  { refine (proj1 (keeps_bind others_kept _ _ (fun _ => True) (fun _ => True)
                     (others_order_update cancelled (fun _ => eq_refl)) _ d r0 d0 HP E)).
    intros _ _. apply keeps_ret. exact I. }
  destruct r0; inversion H; subst; exact HP0.
Qed.

Lemma others_kept_refl : others_kept db0.
Proof. intros k o Ho _ _. exact Ho. Qed.

End OrdersOfOthers.

(** X10. The three payment handlers write no order of another user: when every
    sub-order belongs to the user of its parent, an order that is not the
    requester's reads after the request as it did before it, whether the
    request was served or refused. *)
Theorem payment_handlers_write_own_orders_only roll user validation order_id db db' k o :
  Forall (fun s => forall parent_id parent,
            o_parent_order_id s = Some parent_id ->
            find_order parent_id db = Some parent ->
            o_user_id s = o_user_id parent) (orders db) ->
  In db' [snd (PaymentController.processPayment roll user validation db);
          snd (PaymentController.refundPayment user order_id db);
          snd (PaymentController.checkPaymentStatus user order_id db)] ->
  find_order k db = Some o ->
  o_user_id o <> user ->
  find_order k db' = Some o.
Proof.
  intros Hsubs Hin Ho Huser.
  assert (Hin_o : In o (orders db)).
  { unfold find_order in Ho. apply find_some in Ho as [Hin_o _]. exact Hin_o. }
  assert (Hmine : forall target order,
            find_order target db = Some order -> o_user_id order = user ->
            o_id o <> target /\ o_parent_order_id o <> Some target).
  { intros target order Horder Howner. split.
    - intros Heq. rewrite (find_order_id _ _ _ Ho) in Heq. subst k.
      rewrite Horder in Ho. injection Ho as <-. contradiction.
    - intros Hparent. rewrite List.Forall_forall in Hsubs.
      rewrite (Hsubs o Hin_o target order Hparent Horder) in Huser. contradiction. }
  assert (Hguard : forall A target forbidden (h : Order -> Handler A),
            (forall order d', o_user_id order = user ->
               find_order target db = Some order ->
               snd (h order db) = d' -> find_order k d' = Some o) ->
            find_order k (snd (verify_order_owner user target forbidden h db)) = Some o).
  { intros A target forbidden h Hh. unfold verify_order_owner.
    destruct (find_order target db) as [order|] eqn:Horder; [|exact Ho].
    destruct (bool_decide (o_user_id order = user)) eqn:Hown; simpl; [|exact Ho].
    apply bool_decide_eq_true in Hown. eapply Hh; eauto. }
  destruct Hin as [<- | [<- | [<- | []]]].
  - unfold PaymentController.processPayment.
    destruct validation as [message | data]; [exact Ho|].
    apply Hguard. intros order d' Hown Horder Hd'.
    destruct (Hmine _ _ Horder Hown) as [Hid Hparent].
    set (request := {| pr_order_id := in_order_id data; pr_amount := o_total_amount order;
                       pr_payment_method := in_payment_method data;
                       pr_card_number := in_card_number data |}) in *.
    destruct (processPayment roll request db) as [r d1] eqn:E.
    pose proof (proj1 (others_processPayment db (in_order_id data) roll request eq_refl
                         db r d1 (others_kept_refl db (in_order_id data)) E)) as Hkept.
    assert (Hd1 : d' = d1) by (destruct r; simpl in Hd'; congruence).
    rewrite Hd1. exact (Hkept k o Ho Hid Hparent).
  - unfold PaymentController.refundPayment. apply Hguard.
    intros order d' Hown Horder Hd'.
    destruct (Hmine _ _ Horder Hown) as [Hid Hparent].
    destruct (refundPayment order_id db) as [r d1] eqn:E.
    pose proof (others_refundPayment db order_id db r d1
                  (others_kept_refl db order_id) E) as Hkept.
    assert (Hd1 : d' = d1) by (destruct r; simpl in Hd'; congruence).
    rewrite Hd1. exact (Hkept k o Ho Hid Hparent).
  - unfold PaymentController.checkPaymentStatus. apply Hguard.
    intros order d' Hown Horder Hd'.
    unfold checkPaymentStatus in Hd'. rewrite bind_get, Horder in Hd'. simpl in Hd'.
    subst d'. exact Ho.
Qed.

Lemma payment_handlers_write_own_orders_only_witness :
  find_order 50%nat
    (snd (PaymentController.processPayment true 2%nat
            (inr {| in_order_id := 70%nat; in_payment_method := PaymentMethod.PAYPAL;
                    in_card_number := None |}) Scenario.two_buyers))
  = Some (Example.order_row 50%nat None None true OrderStatus.PENDING)
  /\ fst (PaymentController.processPayment true 2%nat
            (inr {| in_order_id := 70%nat; in_payment_method := PaymentMethod.PAYPAL;
                    in_card_number := None |}) Scenario.two_buyers)
     = Sent 200 {| resp_success := true; resp_status := PaymentStatus.PAID |}.
Proof.
  split; [|reflexivity].
  apply (payment_handlers_write_own_orders_only true 2%nat
           (inr {| in_order_id := 70%nat; in_payment_method := PaymentMethod.PAYPAL;
                   in_card_number := None |}) 70%nat Scenario.two_buyers).
  - repeat constructor; intros parent_id parent Hparent Hfind;
      try discriminate Hparent.
    injection Hparent as <-. injection Hfind as <-. reflexivity.
  - left. reflexivity.
  - reflexivity.
  - discriminate.
Defined.

(** ** Products and addresses *)

Lemma reserved_same_rows now product_id keep db db' :
  cart_items db' = cart_items db ->
  reserved now product_id keep db' = reserved now product_id keep db.
Proof. unfold reserved. intros ->. reflexivity. Qed.

(** X11. The handler of the seller's stock update answers 200 only to the seller
    of the product and only for a stock that is not negative; then the stock
    of that one product is the number sent, set without a look at the
    reservations: the carts keep their rows, and [getProductById] shows the
    new stock less the reserved units, or 0 when more is reserved than is in
    stock.  Every other answer is a 400, 403 or 404 and nothing is written. *)
Theorem seller_stock_update user productId stock db :
  match SellerController.updateStock user productId stock db with
  | (Sent code product, db') =>
      code = 200%nat
      /\ 0 <= stock
      /\ p_stock product = stock
      /\ p_seller_id product = user
      /\ products db' = <[productId := product]> (products db)
      /\ cart_items db' = cart_items db
      /\ orders db' = orders db
      /\ forall env,
            getProductById env productId db'
            = Some (product,
                    Z.max 0 (stock - reserved (now env) productId (fun _ => true) db))
  | (Refused code _, db') => db' = db /\ In code [400%nat; 403%nat; 404%nat]
  end.
Proof.
  unfold SellerController.updateStock, updateStockSchema.
  destruct (stock <? 0) eqn:Hneg; [simpl; auto|]. apply Z.ltb_ge in Hneg.
  unfold updateStock.
  destruct (products db !! productId) as [product|] eqn:Hproduct; [|simpl; auto].
  destruct (bool_decide (p_seller_id product = user)) eqn:Hseller; simpl; [|auto].
  apply bool_decide_eq_true in Hseller.
  unfold lift, product_set_stock. rewrite Hproduct. simpl.
  repeat split; try assumption.
  intros env. unfold getProductById. simpl. rewrite lookup_insert_eq. reflexivity.
Qed.

Lemma find_delete_where_other {A} (p q : A -> bool) (l : list A) :
  (forall x, p x = true -> q x = false) ->
  List.find p (delete_where q l) = List.find p l.
Proof.
  intros H. unfold delete_where. induction l as [|x l IH]; simpl; [reflexivity|].
  destruct (p x) eqn:Hp.
  - rewrite (H x Hp). simpl. rewrite Hp. reflexivity.
  - destruct (q x); simpl; [|rewrite Hp]; exact IH.
Qed.

(** X12. [deleteAddress] deletes an address only when no order refers to it,
    whatever the status of the order: the foreign key of Order on Address is
    never left dangling.  Otherwise it throws and writes nothing; when it
    deletes, the address is gone, [getAddressById] no longer finds it, and
    the other addresses, the orders and the products are as they were. *)
Theorem deleteAddress_spares_addresses_of_orders userId addressId db :
  match deleteAddress userId addressId db with
  | (inl _, db') =>
      Forall (fun o => o_address_id o <> Some addressId) (orders db)
      /\ Forall (fun a => a_id a <> addressId) (addresses db')
      /\ getAddressById userId addressId db' = (Err AddressNotFound, db')
      /\ (forall u k, k <> addressId -> find_address u k db' = find_address u k db)
      /\ orders db' = orders db
      /\ products db' = products db
  | (inr e, db') =>
      db' = db
      /\ (e = AddressUsedInOrderHistory \/ e = AddressHasActiveOrders ->
          Exists (fun o => o_address_id o = Some addressId) (orders db))
  end.
Proof.
  unfold deleteAddress.
  destruct (find_address userId addressId db) as [address|];
    [|split; [reflexivity | intros [H | H]; discriminate H]].
  cbv zeta. unfold order_count.
  destruct (List.filter
              (fun o => bool_decide (o_address_id o = Some addressId)
                        && active_status (o_status o)) (orders db)) as [|o1 l1] eqn:Hactive.
  - destruct (List.filter (fun o => bool_decide (o_address_id o = Some addressId)) (orders db))
      as [|o2 l2] eqn:Hany; simpl.
    + split; [|split; [|split; [|split; [|split; reflexivity]]]].
      * apply List.Forall_forall. intros o Ho Haddr.
        assert (Hin : In o (List.filter
                              (fun o => bool_decide (o_address_id o = Some addressId))
                              (orders db))).
        { apply filter_In. split; [exact Ho|]. apply bool_decide_eq_true_2. exact Haddr. }
        rewrite Hany in Hin. exact Hin.
      * unfold delete_where. apply List.Forall_forall. intros a Ha.
        apply filter_In in Ha as [_ Ha]. apply negb_true_iff, bool_decide_eq_false in Ha.
        exact Ha.
      * unfold getAddressById. rewrite bind_get. unfold find_address. simpl.
        destruct (List.find _ _) as [a|] eqn:E; [|reflexivity].
        apply find_some in E as [Hin Hp]. unfold delete_where in Hin.
        apply filter_In in Hin as [_ Hn]. apply andb_true_iff in Hp as [Hp _].
        apply bool_decide_eq_true in Hp. apply negb_true_iff, bool_decide_eq_false in Hn.
        contradiction.
      * intros u k Hne. unfold find_address. simpl. apply find_delete_where_other.
        intros a Ha. apply andb_true_iff in Ha as [Ha _]. apply bool_decide_eq_true in Ha.
        apply bool_decide_eq_false_2. congruence.
    + split; [reflexivity|]. intros _. apply List.Exists_exists. exists o2.
      assert (Hin : In o2 (List.filter
                             (fun o => bool_decide (o_address_id o = Some addressId))
                             (orders db))) by (rewrite Hany; left; reflexivity).
      apply filter_In in Hin as [Hin Haddr]. apply bool_decide_eq_true in Haddr.
      split; assumption.
  - simpl. split; [reflexivity|]. intros _. apply List.Exists_exists. exists o1.
    assert (Hin : In o1 (List.filter
                           (fun o => bool_decide (o_address_id o = Some addressId)
                                     && active_status (o_status o)) (orders db)))
      by (rewrite Hactive; left; reflexivity).
    apply filter_In in Hin as [Hin Haddr]. apply andb_true_iff in Haddr as [Haddr _].
    apply bool_decide_eq_true in Haddr. split; assumption.
Qed.

Lemma createOrder_ok_address env userId addressId paymentMethod db resp db' :
  createOrder env userId addressId paymentMethod db = (Ok resp, db') ->
  exists address, find_address userId addressId db = Some address.
Proof.
  unfold createOrder. rewrite bind_get.
  destruct (List.find (cart_of_user userId) (carts db)) as [cart|]; [|discriminate].
  intros H. apply bind_ok_inv in H as (items & db1 & _ & H).
  destruct items as [|ip items]; [discriminate|].
  unfold find_address.
  destruct (List.find _ (addresses db)) as [address|]; [eauto | discriminate].
Qed.

Lemma filter_app_hit {A} (p : A -> bool) (l1 l2 : list A) x :
  p x = true -> (0 <? length (List.filter p (l1 ++ x :: l2)))%nat = true.
Proof.
  intros Hx. rewrite List.filter_app, length_app. simpl. rewrite Hx. simpl.
  apply Nat.ltb_lt. lia.
Qed.

(** X13. Once [createOrder] has committed an order to an address, the owner
    cannot delete the address: [deleteAddress] answers 'Cannot delete address
    while it has active orders' and writes nothing. *)
Theorem createOrder_then_deleteAddress env userId addressId paymentMethod db resp db' :
  createOrder env userId addressId paymentMethod db = (Ok resp, db') ->
  deleteAddress userId addressId db' = (inr AddressHasActiveOrders, db').
Proof.
  intros Hcreate.
  destruct (createOrder_ok_address _ _ _ _ _ _ _ Hcreate) as (address & Haddress).
  apply createOrder_cases in Hcreate as [(e & [=] & _) | H].
  destruct H as (cart & items & address' & parent & resp' & _ & _ & _ & Htx & _ & _).
  destruct (createOrder_tx_ok _ _ _ _ _ _ _ Htx) as (Hparent & subs & created & Hc).
  unfold deleteAddress, find_address.
  rewrite (committed_addresses _ _ _ _ _ _ _ _ Hc).
  unfold find_address in Haddress. rewrite Haddress. cbv zeta. unfold order_count.
  rewrite (committed_orders _ _ _ _ _ _ _ _ Hc).
  rewrite filter_app_hit; [reflexivity|].
  rewrite Hparent. simpl. rewrite bool_decide_eq_true_2 by reflexivity. reflexivity.
Qed.

Lemma createOrder_then_deleteAddress_witness :
  match createOrder Example.env 1%nat 40%nat None Witness.checkout with
  | (Ok resp, db') => deleteAddress 1%nat 40%nat db' = (inr AddressHasActiveOrders, db')
  | (Err _, _) => False
  end.
Proof.
  destruct (createOrder Example.env 1%nat 40%nat None Witness.checkout)
    as [[resp|e] db'] eqn:E.
  - exact (createOrder_then_deleteAddress _ _ _ _ _ _ _ E).
  - vm_compute in E. discriminate E.
Defined.

(** ** The cart as [getCart] shows it *)

(** [getCart], step by step. *)
Lemma getCart_steps env userId sessionId db :
  (userId <> None \/ sessionId <> None) ->
  getCart env userId sessionId db
  = let db0 := without_expired_carts env db in
    match shown_cart userId sessionId db0 with
    | None => (Ok (empty_cart_response None), db0)
    | Some cart =>
        match include_product db0 (items_of_cart (c_id cart) db0) with
        | Err e => (Err e, db0)
        | Ok items =>
            let db' := without_stale_rows env cart items db0 in
            match List.find (fun c => bool_decide (c_id c = c_id cart)) (carts db') with
            | None => (Ok (empty_cart_response (Some (c_id cart))), db')
            | Some updatedCart =>
                match include_product db' (items_of_cart (c_id updatedCart) db') with
                | Ok items2 => (Ok (cart_response (c_id updatedCart) items2), db')
                | Err e => (Err e, db')
                end
            end
        end
    end.
Proof.
  intros Hid.
  assert (Hbody :
    (cart_delete_where (fun c => expired (now env) (c_expires_at c)) ;;;
     db <- get ;;
     match shown_cart userId sessionId db with
     | None => ret (empty_cart_response None)
     | Some cart =>
         items <- cart_items_with_product (c_id cart) ;;
         let itemsToRemove := List.filter (fun ip => p_stock (snd ip) =? 0) items in
         when (0 <? length itemsToRemove)%nat
           (cart_item_delete_many
              (fun it => existsb (fun ip => bool_decide (ci_id (fst ip) = ci_id it))
                                 itemsToRemove)) ;;;
         cart_item_delete_many
           (fun it => bool_decide (ci_cart_id it = c_id cart)
                      && expired (now env) (ci_reservation_expires_at it)) ;;;
         db <- get ;;
         match List.find (fun c => bool_decide (c_id c = c_id cart)) (carts db) with
         | None => ret (empty_cart_response (Some (c_id cart)))
         | Some updatedCart =>
             items <- cart_items_with_product (c_id updatedCart) ;;
             ret (cart_response (c_id updatedCart) items)
         end
     end) db
    = let db0 := without_expired_carts env db in
      match shown_cart userId sessionId db0 with
      | None => (Ok (empty_cart_response None), db0)
      | Some cart =>
          match include_product db0 (items_of_cart (c_id cart) db0) with
          | Err e => (Err e, db0)
          | Ok items =>
              let db' := without_stale_rows env cart items db0 in
              match List.find (fun c => bool_decide (c_id c = c_id cart)) (carts db') with
              | None => (Ok (empty_cart_response (Some (c_id cart))), db')
              | Some updatedCart =>
                  match include_product db' (items_of_cart (c_id updatedCart) db') with
                  | Ok items2 => (Ok (cart_response (c_id updatedCart) items2), db')
                  | Err e => (Err e, db')
                  end
              end
          end
      end).
  { cbv zeta. unfold without_expired_carts.
    unfold bind at 1. unfold cart_delete_where. cbv beta iota zeta. cbn [snd].
    set (db0 := set_cart_items _ _). rewrite bind_get.
    destruct (shown_cart userId sessionId db0) as [cart|]; [|reflexivity].
    unfold bind at 1. unfold cart_items_with_product at 1.
    destruct (include_product db0 (items_of_cart (c_id cart) db0)) as [items|e];
      [|reflexivity].
    unfold without_stale_rows. cbv zeta.
    destruct (0 <? length (List.filter (fun ip => (p_stock (snd ip) =? 0)%Z) items))%nat;
      simpl when.
    - unfold bind at 1. unfold cart_item_delete_many at 1.
      unfold bind at 1. unfold cart_item_delete_many at 1.
      rewrite bind_get.
      match goal with |- context [List.find ?p (carts ?d)] =>
        destruct (List.find p (carts d)) as [updatedCart|] end; [|reflexivity].
      unfold bind, cart_items_with_product.
      match goal with |- context [include_product ?d ?l] =>
        destruct (include_product d l) end; reflexivity.
    - unfold bind at 1. unfold ret at 1.
      unfold bind at 1. unfold cart_item_delete_many at 1.
      rewrite bind_get.
      match goal with |- context [List.find ?p (carts ?d)] =>
        destruct (List.find p (carts d)) as [updatedCart|] end; [|reflexivity].
      unfold bind, cart_items_with_product.
      match goal with |- context [include_product ?d ?l] =>
        destruct (include_product d l) end; reflexivity. }
  unfold getCart.
  destruct userId as [u|], sessionId as [s|]; try exact Hbody.
  destruct Hid as [H | H]; congruence.
Qed.

Lemma fold_left_sum_of {A} (f : A -> Z) (l : list A) (a : Z) :
  fold_left (fun acc x => acc + f x) l a = a + sum_of f l.
Proof.
  revert a. induction l as [|x l IH]; simpl; intros a; [lia|].
  rewrite IH. unfold sum_of. simpl. lia.
Qed.

Lemma sum_of_perm {A} (f : A -> Z) (l1 l2 : list A) :
  Permutation l1 l2 -> sum_of f l1 = sum_of f l2.
Proof. intros H. induction H; simpl; lia. Qed.

Lemma sum_of_ext {A} (f g : A -> Z) (l : list A) :
  (forall x, f x = g x) -> sum_of f l = sum_of g l.
Proof. intros H. induction l as [|x l IH]; simpl; [reflexivity|]. rewrite H, IH. reflexivity. Qed.

Lemma sum_of_map {A B} (g : A -> B) (f : B -> Z) (l : list A) :
  sum_of f (map g l) = sum_of (fun x => f (g x)) l.
Proof. induction l as [|x l IH]; simpl; [reflexivity|]. rewrite IH. reflexivity. Qed.

Lemma response_items_cart_response cart_id items :
  response_items (cart_response cart_id items)
  = map cart_item_response
      (concat (map snd (group_by (fun ip : CartItem * Product => p_seller_id (snd ip)) items))).
Proof.
  unfold response_items, cart_response. simpl. rewrite map_map. simpl.
  induction (group_by _ items) as [|g gs IH]; simpl; [reflexivity|].
  rewrite map_app, IH. reflexivity.
Qed.

Lemma response_items_perm cart_id items :
  Permutation (response_items (cart_response cart_id items)) (map cart_item_response items).
Proof.
  rewrite response_items_cart_response. apply Permutation_map. apply group_by_perm.
Qed.

Lemma include_product_pairs db rows l it :
  include_product db rows = Ok l -> In it rows ->
  exists p, In (it, p) l /\ products db !! ci_product_id it = Some p.
Proof.
  revert l. induction rows as [|x rest IH]; simpl; intros l H Hin; [contradiction|].
  destruct (products db !! ci_product_id x) as [p|] eqn:Hp; [|discriminate].
  destruct (include_product db rest) as [l'|e]; [|discriminate].
  injection H as <-. destruct Hin as [-> | Hin].
  - exists p. split; [left; reflexivity | exact Hp].
  - destruct (IH _ eq_refl Hin) as (p' & Hin' & Hp'). exists p'. split; [right|]; assumption.
Qed.

Lemma without_expired_carts_carts env db :
  carts (without_expired_carts env db)
  = delete_where (fun c => expired (now env) (c_expires_at c)) (carts db).
Proof. reflexivity. Qed.

Lemma without_expired_carts_live env db :
  Forall (fun c => expired (now env) (c_expires_at c) = false)
    (carts (without_expired_carts env db)).
Proof.
  rewrite without_expired_carts_carts. unfold delete_where. apply List.Forall_forall.
  intros c Hc. apply filter_In in Hc as [_ Hc]. apply negb_true_iff in Hc. exact Hc.
Qed.

Lemma without_stale_rows_carts env cart items db :
  carts (without_stale_rows env cart items db) = carts db.
Proof. unfold without_stale_rows. cbv zeta. destruct (_ <? _)%nat; reflexivity. Qed.

Lemma without_stale_rows_products env cart items db :
  products (without_stale_rows env cart items db) = products db.
Proof. unfold without_stale_rows. cbv zeta. destruct (_ <? _)%nat; reflexivity. Qed.

Lemma length_filter_0 {A} (p : A -> bool) (l : list A) x :
  (0 <? length (List.filter p l))%nat = false -> In x l -> p x = false.
Proof.
  intros H Hin. destruct (p x) eqn:Hp; [|reflexivity].
  assert (Hx : In x (List.filter p l)) by (apply filter_In; auto).
  destruct (List.filter p l); [contradiction | discriminate].
Qed.

(** The rows that [getCart] leaves to the cart it shows have a live
    reservation and a product in stock. *)
Lemma without_stale_rows_fresh env cart items db it p :
  include_product db (items_of_cart (c_id cart) db) = Ok items ->
  In it (cart_items (without_stale_rows env cart items db)) ->
  ci_cart_id it = c_id cart ->
  products db !! ci_product_id it = Some p ->
  In it (cart_items db)
  /\ expired (now env) (ci_reservation_expires_at it) = false
  /\ p_stock p <> 0.
Proof.
  intros Hitems Hin Hcart Hp. unfold without_stale_rows in Hin. cbv zeta in Hin.
  simpl in Hin. unfold delete_where in Hin at 1.
  apply filter_In in Hin as [Hin Hlive].
  rewrite bool_decide_eq_true_2 in Hlive by exact Hcart. simpl in Hlive.
  apply negb_true_iff in Hlive.
  assert (Hrow : In it (cart_items db)
                 /\ forall ip, In ip (List.filter (fun ip => p_stock (snd ip) =? 0) items) ->
                               ci_id (fst ip) <> ci_id it).
  { destruct (0 <? length (List.filter (fun ip => (p_stock (snd ip) =? 0)%Z) items))%nat
      eqn:Hany.
    - simpl in Hin. unfold delete_where in Hin. apply filter_In in Hin as [Hin Hkeep].
      split; [exact Hin|]. intros ip Hip Heq. apply negb_true_iff in Hkeep.
      assert (Hex : existsb (fun ip => bool_decide (ci_id (fst ip) = ci_id it))
                      (List.filter (fun ip => p_stock (snd ip) =? 0) items) = true).
      { apply existsb_exists. exists ip. split; [exact Hip|].
        apply bool_decide_eq_true_2. exact Heq. }
      rewrite Hex in Hkeep. discriminate.
    - split; [exact Hin|]. intros ip Hip.
      destruct (List.filter (fun ip => p_stock (snd ip) =? 0) items); [contradiction|].
      discriminate Hany. }
  destruct Hrow as [Hrow Hids]. split; [exact Hrow|]. split; [exact Hlive|].
  intros Hzero.
  assert (Hmine : In it (items_of_cart (c_id cart) db)).
  { unfold items_of_cart. apply filter_In. split; [exact Hrow|].
    apply bool_decide_eq_true_2. exact Hcart. }
  destruct (include_product_pairs _ _ _ _ Hitems Hmine) as (p' & Hpair & Hp').
  rewrite Hp in Hp'. injection Hp' as <-.
  apply (Hids (it, p)); [|reflexivity].
  apply filter_In. split; [exact Hpair|]. simpl. apply Z.eqb_eq. exact Hzero.
Qed.

Lemma cart_item_response_fields ip :
  cir_id (cart_item_response ip) = ci_id (fst ip)
  /\ cir_product_id (cart_item_response ip) = ci_product_id (fst ip)
  /\ cir_quantity (cart_item_response ip) = ci_quantity (fst ip)
  /\ cir_stock_available (cart_item_response ip) = p_stock (snd ip)
  /\ cir_reservation_expires_at (cart_item_response ip)
     = ci_reservation_expires_at (fst ip).
Proof. destruct ip as [it p]. simpl. auto. Qed.

Lemma cart_response_total_items cart_id items :
  cr_total_items (cart_response cart_id items)
  = sum_of cir_quantity (response_items (cart_response cart_id items)).
Proof.
  rewrite (sum_of_perm _ _ _ (response_items_perm cart_id items)), sum_of_map.
  unfold cart_response. simpl. rewrite fold_left_sum_of, Z.add_0_l.
  apply sum_of_ext. intros ip. symmetry. apply cart_item_response_fields.
Qed.

Lemma getCart_identity env userId sessionId db r db' :
  getCart env userId sessionId db = (Ok r, db') -> userId <> None \/ sessionId <> None.
Proof.
  destruct userId, sessionId; intros H;
    first [left; discriminate | right; discriminate | discriminate H].
Qed.

Lemma shown_cart_In userId sessionId db cart :
  shown_cart userId sessionId db = Some cart -> In cart (carts db).
Proof.
  unfold shown_cart. intros H.
  destruct userId as [u|]; [|destruct sessionId as [s|]; [|discriminate]];
    apply latest_In in H; apply filter_In in H as [H _]; exact H.
Qed.

Lemma find_by_id_In {A} (key : A -> id) (l : list A) x :
  In x l -> exists y, List.find (fun c => bool_decide (key c = key x)) l = Some y
                      /\ key y = key x.
Proof.
  intros Hin.
  destruct (List.find (fun c => bool_decide (key c = key x)) l) as [y|] eqn:E.
  - exists y. split; [reflexivity|]. apply find_some in E as [_ E].
    apply bool_decide_eq_true in E. exact E.
  - pose proof (find_none _ _ E x Hin) as H. simpl in H.
    rewrite bool_decide_eq_true_2 in H by reflexivity. discriminate.
Qed.

(** What a call of [getCart] that returns has done. *)
Lemma getCart_ok_inv env userId sessionId db r db' :
  getCart env userId sessionId db = (Ok r, db') ->
  let db0 := without_expired_carts env db in
  (shown_cart userId sessionId db0 = None /\ r = empty_cart_response None /\ db' = db0)
  \/ (exists cart items items2,
        shown_cart userId sessionId db0 = Some cart
        /\ include_product db0 (items_of_cart (c_id cart) db0) = Ok items
        /\ db' = without_stale_rows env cart items db0
        /\ include_product db' (items_of_cart (c_id cart) db') = Ok items2
        /\ r = cart_response (c_id cart) items2).
Proof.
  intros H. pose proof (getCart_identity _ _ _ _ _ _ H) as Hid.
  rewrite (getCart_steps _ _ _ _ Hid) in H. cbv zeta in *.
  destruct (shown_cart userId sessionId (without_expired_carts env db)) as [cart|] eqn:Hshown.
  2:{ left. injection H as <- <-. auto. }
  right.
  destruct (include_product _ (items_of_cart (c_id cart) (without_expired_carts env db)))
    as [items|e] eqn:Hitems; [|discriminate].
  set (d1 := without_stale_rows env cart items (without_expired_carts env db)) in *.
  assert (Hin : In cart (carts d1)).
  { unfold d1. rewrite without_stale_rows_carts. exact (shown_cart_In _ _ _ _ Hshown). }
  destruct (find_by_id_In c_id _ _ Hin) as (updatedCart & Hfind & Hsame).
  rewrite Hfind, Hsame in H.
  destruct (include_product d1 (items_of_cart (c_id cart) d1)) as [items2|e] eqn:Hitems2;
    [|discriminate].
  injection H as <- <-. exists cart, items, items2. auto.
Qed.

(** X14. The cart that [getCart] returns lists rows of the shown cart that
    are in the database it leaves, with their quantities; none is of a
    product that is out of stock and none has an expired reservation;
    total_items is the sum of the quantities listed.  No cart that has
    expired is left in the database. *)
Theorem getCart_shows_live_rows env userId sessionId db r db' :
  getCart env userId sessionId db = (Ok r, db') ->
  Forall (fun i => cir_stock_available i <> 0
                   /\ expired (now env) (cir_reservation_expires_at i) = false
                   /\ exists it, In it (cart_items db')
                                 /\ cr_id r = Some (ci_cart_id it)
                                 /\ cir_id i = ci_id it
                                 /\ cir_product_id i = ci_product_id it
                                 /\ cir_quantity i = ci_quantity it) (response_items r)
  /\ cr_total_items r = sum_of cir_quantity (response_items r)
  /\ Forall (fun c => expired (now env) (c_expires_at c) = false) (carts db').
Proof.
  intros H. apply getCart_ok_inv in H. cbv zeta in H.
  destruct H as [(_ & -> & ->) | (cart & items & items2 & Hshown & Hitems & -> & Hitems2 & ->)].
  - split; [constructor|]. split; [reflexivity|].
    apply without_expired_carts_live.
  - split; [|split; [apply cart_response_total_items|]].
    + apply List.Forall_forall. intros i Hi.
      apply (Permutation_in _ (response_items_perm _ _)) in Hi.
      apply in_map_iff in Hi as ([it p] & <- & Hip).
      destruct (include_product_In _ _ _ _ _ Hitems2 Hip) as [Hrow Hp].
      unfold items_of_cart in Hrow. apply filter_In in Hrow as [Hrow Hcart].
      apply bool_decide_eq_true in Hcart.
      rewrite without_stale_rows_products in Hp.
      destruct (without_stale_rows_fresh _ _ _ _ _ _ Hitems Hrow Hcart Hp)
        as (_ & Hlive & Hstock).
      simpl. split; [exact Hstock|]. split; [exact Hlive|].
      exists it. rewrite Hcart. auto.
    + rewrite without_stale_rows_carts. apply without_expired_carts_live.
Qed.

Lemma getCart_shows_live_rows_witness :
  match getCart Example.later (Some 1%nat) None Example.merge_sum with
  | (Ok r, db') =>
      cr_total_items r = sum_of cir_quantity (response_items r)
      /\ Forall (fun c => expired (now Example.later) (c_expires_at c) = false) (carts db')
  | (Err _, _) => False
  end.
Proof.
  destruct (getCart Example.later (Some 1%nat) None Example.merge_sum)
    as [[r|e] db'] eqn:E.
  - destruct (getCart_shows_live_rows _ _ _ _ _ _ E) as (_ & Hitems & Hcarts).
    split; assumption.
  - vm_compute in E. discriminate E.
Defined.

Lemma set_cart_items_same db : set_cart_items (cart_items db) db = db.
Proof. destruct db; reflexivity. Qed.

Lemma without_expired_carts_none env db :
  Forall (fun c => expired (now env) (c_expires_at c) = false) (carts db) ->
  without_expired_carts env db = db.
Proof.
  intros Hlive. unfold without_expired_carts, cart_delete_where. cbn [snd].
  rewrite (filter_none _ _ Hlive). simpl.
  rewrite (delete_where_none _ (carts db) Hlive).
  rewrite delete_where_none by (apply List.Forall_forall; reflexivity).
  destruct db; reflexivity.
Qed.

Lemma without_stale_rows_none env cart items db :
  Forall (fun ip => p_stock (snd ip) <> 0) items ->
  Forall (fun it => ci_cart_id it = c_id cart ->
                    expired (now env) (ci_reservation_expires_at it) = false)
         (cart_items db) ->
  without_stale_rows env cart items db = db.
Proof.
  intros Hstock Hlive. unfold without_stale_rows. cbv zeta.
  rewrite filter_none.
  2:{ eapply Forall_impl; [exact Hstock|]. simpl. intros ip Hip. apply Z.eqb_neq. exact Hip. }
  simpl. rewrite delete_where_none; [apply set_cart_items_same|].
  eapply Forall_impl; [exact Hlive|]. simpl. intros it Hit.
  destruct (bool_decide (ci_cart_id it = c_id cart)) eqn:E; [|reflexivity].
  apply bool_decide_eq_true in E. rewrite (Hit E). reflexivity.
Qed.

(** X15. [getCart] is idempotent at an instant: a second call at the same
    instant returns the same cart and leaves the database as the first call
    left it. *)
Theorem getCart_again env userId sessionId db r db' :
  getCart env userId sessionId db = (Ok r, db') ->
  getCart env userId sessionId db' = (Ok r, db').
Proof.
  intros H. pose proof (getCart_identity _ _ _ _ _ _ H) as Hid.
  apply getCart_ok_inv in H. cbv zeta in H.
  rewrite (getCart_steps _ _ _ _ Hid). cbv zeta.
  destruct H as [(Hshown & -> & ->) | (cart & items & items2 & Hshown & Hitems & Hdb' & Hitems2 & ->)].
  - rewrite (without_expired_carts_none env (without_expired_carts env db))
      by apply without_expired_carts_live.
    rewrite Hshown. reflexivity.
  - assert (Hcarts : carts db' = carts (without_expired_carts env db)).
    { rewrite Hdb'. apply without_stale_rows_carts. }
    assert (Hproducts : products db' = products (without_expired_carts env db)).
    { rewrite Hdb'. apply without_stale_rows_products. }
    rewrite (without_expired_carts_none env db').
    2:{ rewrite Hcarts. apply without_expired_carts_live. }
    assert (Hshown' : shown_cart userId sessionId db' = Some cart).
    { unfold shown_cart in *. rewrite Hcarts. exact Hshown. }
    rewrite Hshown', Hitems2.
    assert (Hfresh : forall it p, In it (cart_items db') -> ci_cart_id it = c_id cart ->
                       products db' !! ci_product_id it = Some p ->
                       expired (now env) (ci_reservation_expires_at it) = false
                       /\ p_stock p <> 0).
    { intros it p Hin Hcart Hp. rewrite Hdb' in Hin. rewrite Hproducts in Hp.
      destruct (without_stale_rows_fresh _ _ _ _ _ _ Hitems Hin Hcart Hp) as (_ & ? & ?).
      auto. }
    rewrite (without_stale_rows_none env cart items2 db').
    + destruct (find_by_id_In c_id (carts db') cart) as (updatedCart & Hfind & Hsame).
      { rewrite Hcarts. exact (shown_cart_In _ _ _ _ Hshown). }
      rewrite Hfind, Hsame, Hitems2. reflexivity.
    + apply List.Forall_forall. intros [it p] Hip.
      destruct (include_product_In _ _ _ _ _ Hitems2 Hip) as [Hrow Hp].
      unfold items_of_cart in Hrow. apply filter_In in Hrow as [Hrow Hcart].
      apply bool_decide_eq_true in Hcart. simpl.
      exact (proj2 (Hfresh it p Hrow Hcart Hp)).
    + apply List.Forall_forall. intros it Hin Hcart.
      assert (Hmine : In it (items_of_cart (c_id cart) db')).
      { unfold items_of_cart. apply filter_In. split; [exact Hin|].
        apply bool_decide_eq_true_2. exact Hcart. }
      destruct (include_product_pairs _ _ _ _ Hitems2 Hmine) as (p & _ & Hp).
      exact (proj1 (Hfresh it p Hin Hcart Hp)).
Qed.

Lemma getCart_again_witness :
  match getCart Example.later (Some 1%nat) None Example.merge_sum with
  | (Ok r, db') => getCart Example.later (Some 1%nat) None db' = (Ok r, db')
  | (Err _, _) => False
  end.
Proof.
  destruct (getCart Example.later (Some 1%nat) None Example.merge_sum)
    as [[r|e] db'] eqn:E.
  - exact (getCart_again _ _ _ _ _ _ E).
  - vm_compute in E. discriminate E.
Defined.

(** ** What [getCart] writes *)

Lemma filter_filter' {A} (p q : A -> bool) (l : list A) :
  List.filter p (List.filter q l) = List.filter (fun x => q x && p x) l.
Proof.
  induction l as [|x l IH]; simpl; [reflexivity|].
  destruct (q x); simpl; [destruct (p x)|]; rewrite IH; reflexivity.
Qed.

Lemma only_deleted_refl db : only_deleted db db.
Proof.
  constructor; try reflexivity; exists (fun _ => true); symmetry; apply filter_all;
    apply List.Forall_forall; reflexivity.
Qed.

Lemma only_deleted_trans db1 db2 db3 :
  only_deleted db1 db2 -> only_deleted db2 db3 -> only_deleted db1 db3.
Proof.
  intros [[k1 Hr1] [c1 Hc1] Hp1 Ho1 Hi1 Ha1 Hn1] [[k2 Hr2] [c2 Hc2] Hp2 Ho2 Hi2 Ha2 Hn2].
  constructor; try congruence.
  - exists (fun x => k1 x && k2 x). rewrite Hr2, Hr1. apply filter_filter'.
  - exists (fun x => c1 x && c2 x). rewrite Hc2, Hc1. apply filter_filter'.
Qed.

Lemma only_deleted_cart_item_delete_many db0 p :
  keeps (only_deleted db0) (cart_item_delete_many p) (fun _ => True).
Proof.
  apply keeps_write. intros db H. split; [|exact I].
  apply (only_deleted_trans _ _ _ H).
  constructor; try reflexivity.
  - exists (fun x => negb (p x)). reflexivity.
  - exists (fun _ => true). symmetry. apply filter_all. apply List.Forall_forall. reflexivity.
Qed.

Lemma only_deleted_cart_delete_where db0 p :
  keeps (only_deleted db0) (cart_delete_where p) (fun _ => True).
Proof.
  apply keeps_write. intros db H. split; [|exact I].
  apply (only_deleted_trans _ _ _ H).
  constructor; try reflexivity; eexists; reflexivity.
Qed.

Lemma only_deleted_reads db0 {A} (m : M A) :
  reads m -> keeps (only_deleted db0) m (fun _ => True).
Proof. intros Hm db r db' HP H. apply Hm in H. subst. auto. Qed.

Lemma only_deleted_getCart db0 env userId sessionId :
  keeps (only_deleted db0) (getCart env userId sessionId) (fun _ => True).
Proof.
  unfold getCart.
  destruct userId as [u|], sessionId as [s|]; try apply keeps_throw.
  all: eapply keeps_bind; [apply only_deleted_cart_delete_where|]; intros _ _;
    (eapply keeps_bind; [apply keeps_get|]); intros db _;
    match goal with |- keeps _ (match ?c with _ => _ end) _ => destruct c as [cart|] end;
    [|apply keeps_ret; exact I];
    (eapply keeps_bind;
      [apply only_deleted_reads, reads_cart_items_with_product|]); intros items _;
    (eapply keeps_bind; [apply keeps_when, only_deleted_cart_item_delete_many|]); intros _ _;
    (eapply keeps_bind; [apply only_deleted_cart_item_delete_many|]); intros _ _;
    (eapply keeps_bind; [apply keeps_get|]); intros db2 _;
    (destruct (List.find _ (carts db2)); [|apply keeps_ret; exact I]);
    (eapply keeps_bind;
      [apply only_deleted_reads, reads_cart_items_with_product|]); intros items2 _;
    apply keeps_ret; exact I.
Qed.

Lemma include_product_total db rows :
  Forall (fun it => is_Some (products db !! ci_product_id it)) rows ->
  exists l, include_product db rows = Ok l.
Proof.
  intros H. induction H as [|it rows [p Hp] H [l IH]]; simpl; [eauto|].
  rewrite Hp, IH. eauto.
Qed.

Lemma known_only_deleted db db' :
  only_deleted db db' -> cart_products_known db -> cart_products_known db'.
Proof.
  intros [[keep Hrows] _ Hproducts _ _ _ _] Hknown. unfold cart_products_known in *.
  rewrite Hrows, Hproducts. rewrite List.Forall_forall in *. intros it Hit.
  apply filter_In in Hit as [Hit _]. auto.
Qed.

Lemma items_of_cart_known cart_id db :
  cart_products_known db ->
  Forall (fun it => is_Some (products db !! ci_product_id it)) (items_of_cart cart_id db).
Proof.
  unfold cart_products_known, items_of_cart. rewrite !List.Forall_forall.
  intros H it Hit. apply filter_In in Hit as [Hit _]. auto.
Qed.

Lemma only_deleted_without_expired_carts env db :
  only_deleted db (without_expired_carts env db).
Proof.
  unfold without_expired_carts.
  destruct (cart_delete_where (fun c => expired (now env) (c_expires_at c)) db)
    as [r d] eqn:E.
  exact (proj1 (only_deleted_cart_delete_where db _ _ _ _ (only_deleted_refl db) E)).
Qed.

Lemma only_deleted_without_stale_rows env cart items db :
  only_deleted db (without_stale_rows env cart items db).
Proof.
  unfold without_stale_rows. cbv zeta.
  match goal with |- only_deleted _ (set_cart_items _ ?d) =>
    assert (H1 : only_deleted db d) end.
  { destruct (_ <? _)%nat; [|apply only_deleted_refl].
    constructor; try reflexivity; eexists; [reflexivity|].
    symmetry. apply filter_all. apply List.Forall_forall. intros; exact eq_refl. }
  apply (only_deleted_trans _ _ _ H1).
  constructor; try reflexivity; eexists; [reflexivity|].
  symmetry. apply filter_all. apply List.Forall_forall. intros; exact eq_refl.
Qed.

Lemma getCart_frame env userId sessionId db :
  only_deleted db (snd (getCart env userId sessionId db))
  /\ (userId <> None \/ sessionId <> None ->
      cart_products_known db ->
      exists r, fst (getCart env userId sessionId db) = Ok r).
Proof.
  split.
  - destruct (getCart env userId sessionId db) as [r db'] eqn:E.
    exact (proj1 (only_deleted_getCart db _ _ _ _ _ _ (only_deleted_refl db) E)).
  - intros Hid Hknown. rewrite (getCart_steps _ _ _ _ Hid). cbv zeta.
    pose proof (known_only_deleted _ _ (only_deleted_without_expired_carts env db) Hknown)
      as Hknown0.
    destruct (shown_cart userId sessionId (without_expired_carts env db)) as [cart|] eqn:Hshown;
      [|eexists; reflexivity].
    destruct (include_product_total _ _ (items_of_cart_known (c_id cart) _ Hknown0))
      as (items & Hitems).
    rewrite Hitems.
    set (d1 := without_stale_rows env cart items (without_expired_carts env db)).
    pose proof (known_only_deleted _ _ (only_deleted_without_stale_rows env cart items _)
                  Hknown0) as Hknown1.
    fold d1 in Hknown1.
    destruct (List.find _ (carts d1)) as [updatedCart|]; [|eexists; reflexivity].
    destruct (include_product_total _ _ (items_of_cart_known (c_id updatedCart) _ Hknown1))
      as (items2 & Hitems2).
    rewrite Hitems2. eexists. reflexivity.
Qed.


(** X16. [getCart] is a read that deletes: whatever it returns, it has only
    deleted carts and cart rows, and has created no cart.  For a caller with
    an identity, in a cart table whose rows refer to products that exist, it
    does not throw. *)
Theorem getCart_only_deletes env userId sessionId db :
  only_deleted db (snd (getCart env userId sessionId db))
  /\ (userId <> None \/ sessionId <> None ->
      cart_products_known db ->
      exists r, fst (getCart env userId sessionId db) = Ok r).
Proof. exact (getCart_frame env userId sessionId db). Qed.

(** ** The stock ledger under every request *)

Lemma keeps_snd {A} (P : DB -> Prop) (m : M A) V db :
  keeps P m V -> P db -> P (snd (m db)).
Proof.
  intros Hm HP. destruct (m db) as [r db'] eqn:E. exact (proj1 (Hm _ _ _ HP E)).
Qed.

Lemma snd_lift {A} (m : M A) db : snd (lift m db) = snd (m db).
Proof. unfold lift. destruct (m db) as [[a|e] db']; reflexivity. Qed.

Lemma Inv_updateCartItem env userId sessionId productId quantity :
  0 <= quantity ->
  keeps Inv (updateCartItem env userId sessionId productId quantity) (fun _ => True).
Proof.
  intros Hq. unfold updateCartItem.
  destruct userId as [u|], sessionId as [s|]; try apply keeps_throw.
  all: apply keeps_withLock;
    (eapply keeps_bind; [apply keeps_get|]); intros db _;
    (destruct (current_cart _ _ db) as [cart|]; [|apply keeps_throw]);
    (destruct (find_cart_item _ _ db) as [cartItem|]; [|apply keeps_throw]);
    (destruct (products db !! productId) as [product|]; [|apply keeps_throw]);
    (destruct (quantity =? 0);
      [eapply keeps_bind; [apply Inv_cart_item_delete_many|]; intros _ _; apply Inv_getCart|]);
    cbv zeta; (destruct (_ <? quantity); [apply keeps_throw|]);
    (eapply keeps_bind; [apply Inv_cart_item_update; exact Hq|]); intros _ _;
    apply Inv_getCart.
Qed.

Lemma Inv_removeFromCart env userId sessionId productId db :
  Inv db -> Inv (snd (removeFromCart env userId sessionId productId db)).
Proof.
  intros Hdb. unfold removeFromCart.
  assert (Hbody : forall cart,
    Inv (snd (lift (cart_item_delete_many
                      (fun it => bool_decide (ci_cart_id it = c_id cart)
                                 && bool_decide (ci_product_id it = productId)) ;;;
                    getCart env userId sessionId) db))).
  { intros cart. rewrite snd_lift. eapply keeps_snd; [|exact Hdb].
    eapply keeps_bind; [apply Inv_cart_item_delete_many|]. intros _ _. apply Inv_getCart. }
  destruct userId as [u|], sessionId as [s|]; try exact Hdb.
  all: destruct (current_cart _ _ db) as [cart|]; [|exact Hdb];
    (destruct (find_cart_item _ _ db); [apply Hbody | exact Hdb]).
Qed.

Lemma find_cart_item_nonneg cart_id product_id db e :
  Inv db -> find_cart_item cart_id product_id db = Some e -> 0 <= ci_quantity e.
Proof.
  intros (_ & Hc & _) H. apply find_some in H as [H _].
  rewrite List.Forall_forall in Hc. auto.
Qed.

Lemma Inv_merge_item env userCart_id ip :
  0 <= ci_quantity (fst ip) ->
  keeps Inv (merge_item env userCart_id ip) (fun _ => True).
Proof.
  destruct ip as [anonymousItem product]. simpl. intros Hq.
  apply keeps_withLock.
  eapply keeps_bind; [apply keeps_get|]. intros db Hdb. cbv zeta.
  destruct (find_cart_item userCart_id (ci_product_id anonymousItem) db) as [e|] eqn:He.
  - destruct (_ <=? _); [|apply keeps_ret; exact I].
    apply Inv_cart_item_update.
    pose proof (find_cart_item_nonneg _ _ _ _ Hdb He). lia.
  - destruct (_ <=? _); [|apply keeps_ret; exact I].
    apply Inv_cart_item_create. exact Hq.
Qed.

Lemma Inv_mergeAnonymousCart env userId sessionId :
  keeps Inv (mergeAnonymousCart env userId sessionId) (fun _ => True).
Proof.
  unfold mergeAnonymousCart.
  eapply keeps_bind; [apply keeps_get|]. intros db _.
  destruct (latest (List.filter (cart_of_session sessionId) (carts db)))
    as [anonymousCart|]; [|apply Inv_getCart].
  eapply keeps_bind; [apply Inv_cart_items_with_product|]. intros items Hitems.
  destruct items as [|ip items]; [apply Inv_getCart|].
  eapply keeps_bind with (V := fun _ => True).
  { destruct (latest (List.filter (cart_of_user userId) (carts db)));
      [apply keeps_ret; exact I | apply Inv_cart_create]. }
  intros userCart _.
  eapply keeps_bind; [|intros _ _; apply Inv_getCart].
  apply keeps_transaction.
  eapply keeps_bind; [|intros _ _; apply Inv_cart_delete_where].
  eapply keeps_forM; [exact Hitems|]. intros x Hx. apply Inv_merge_item. exact Hx.
Qed.

Lemma Inv_order_item_update item_id s :
  keeps Inv (order_item_update item_id s) (fun _ => True).
Proof.
  intros db r db' (Hs & Hc & Ho) H. unfold order_item_update in H.
  destruct (List.find _ (order_items db)); inversion H; subst; clear H.
  - split; [|auto]. split; [exact Hs|]. split; [exact Hc|]. simpl.
    apply Forall_update_where; [exact Ho|]. intros x Hx _. exact Hx.
  - split; [|intros ? [=]]. split; [|split]; assumption.
Qed.

Lemma Inv_order_update_many p f : keeps Inv (order_update_many p f) (fun _ => True).
Proof. apply keeps_write. intros db H. split; [exact H | exact I]. Qed.

Lemma Inv_updateOrderItemStatus sellerId orderItemId status :
  keeps Inv (updateOrderItemStatus sellerId orderItemId status) (fun _ => True).
Proof.
  unfold updateOrderItemStatus.
  eapply keeps_bind; [apply keeps_get|]. intros db _.
  destruct (List.find _ (order_items db)); [|apply keeps_throw].
  destruct (negb _); [apply keeps_throw|].
  apply keeps_transaction. unfold updateOrderItemStatus_tx.
  eapply keeps_bind; [apply Inv_order_item_update|]. intros updatedItem _.
  eapply keeps_bind; [apply keeps_get|]. intros db1 _.
  eapply keeps_bind; [apply Inv_order_update|]. intros _ _.
  eapply keeps_bind with (V := fun _ => True); [|intros _ _; apply keeps_ret; exact I].
  destruct (find_order _ db1) as [so|]; [|apply keeps_ret; exact I].
  destruct (o_parent_order_id so); [apply Inv_order_update | apply keeps_ret; exact I].
Qed.

Lemma Inv_processPayment roll paymentRequest :
  keeps Inv (processPayment roll paymentRequest) (fun _ => True).
Proof.
  unfold processPayment. cbv zeta.
  eapply keeps_bind; [apply keeps_get|]. intros db _.
  destruct (find_order _ db); [|apply keeps_throw].
  destruct (PaymentStatus.eqb _ _); [apply keeps_ret; exact I|].
  eapply keeps_bind; [apply Inv_order_update|]. intros _ _.
  destruct (simulatePaymentGateway _ _ _).
  - eapply keeps_bind; [apply keeps_get|]. intros db1 _.
    eapply keeps_bind with (V := fun _ => True); [|intros _ _; apply keeps_ret; exact I].
    apply keeps_transaction.
    eapply keeps_bind; [apply Inv_order_update|]. intros _ _.
    destruct (_ && _).
    + eapply keeps_bind; [apply Inv_order_update_many|]. intros _ _.
      apply Inv_order_item_update_many.
    + apply Inv_order_item_update_many.
  - eapply keeps_bind; [apply Inv_order_update|]. intros _ _. apply keeps_ret. exact I.
Qed.

Lemma Inv_refundPayment order_id db : Inv db -> Inv (snd (refundPayment order_id db)).
Proof.
  intros Hdb. unfold refundPayment.
  destruct (find_order order_id db); [|exact Hdb].
  destruct (negb _); [exact Hdb|].
  rewrite snd_lift. apply keeps_snd with (V := fun _ => True); [|exact Hdb].
  eapply keeps_bind; [apply Inv_order_update|]. intros _ _. apply keeps_ret. exact I.
Qed.

Lemma Inv_updateStock productId sellerId stock db :
  0 <= stock -> Inv db -> Inv (snd (updateStock productId sellerId stock db)).
Proof.
  intros Hstock Hdb. unfold updateStock.
  destruct (products db !! productId) as [p|] eqn:Hp; [|exact Hdb].
  destruct (negb _); [exact Hdb|].
  unfold lift, product_set_stock. rewrite Hp. simpl.
  destruct Hdb as (Hs & Hc & Ho). split; [|split; assumption].
  unfold stock_ok. simpl. apply map_Forall_insert_2; [|exact Hs]. simpl. exact Hstock.
Qed.

Lemma Inv_deleteAddress userId addressId db :
  Inv db -> Inv (snd (deleteAddress userId addressId db)).
Proof.
  intros Hdb. unfold deleteAddress.
  destruct (find_address userId addressId db); [|exact Hdb].
  cbv zeta. destruct (_ <? _)%nat; [exact Hdb|].
  destruct (_ <? _)%nat; [exact Hdb|]. exact Hdb.
Qed.

Lemma Inv_serve c db : accepted c -> Inv db -> Inv (serve c db).
Proof.
  intros Hc Hdb. destruct c; simpl in *.
  - apply Inv_exec; assumption.
  - exact (keeps_snd _ _ _ _ (Inv_getCart env userId sessionId) Hdb).
  - exact (keeps_snd _ _ _ _ (Inv_updateCartItem env userId sessionId productId quantity Hc)
             Hdb).
  - apply Inv_removeFromCart. exact Hdb.
  - exact (keeps_snd _ _ _ _ (Inv_mergeAnonymousCart env userId sessionId) Hdb).
  - exact (keeps_snd _ _ _ _ (Inv_updateOrderItemStatus sellerId orderItemId status) Hdb).
  - exact (keeps_snd _ _ _ _ (Inv_processPayment roll paymentRequest) Hdb).
  - apply Inv_refundPayment. exact Hdb.
  - apply Inv_updateStock; assumption.
  - apply Inv_deleteAddress. exact Hdb.
Qed.

(** X17. Whatever sequence of requests to the cart, order, seller, payment and
    address services runs, with the bodies their schemas let through, no
    product ends with negative stock and no cart row or order item with a
    negative quantity. *)
Theorem any_request_keeps_stock_nonnegative calls db :
  Inv db -> Forall accepted calls -> Inv (serve_all calls db).
Proof.
  intros Hdb Hcalls. revert db Hdb. unfold serve_all.
  induction Hcalls as [|c calls Hc Hcalls IH]; simpl; intros db Hdb; [exact Hdb|].
  apply IH. apply Inv_serve; assumption.
Qed.

Lemma any_request_keeps_stock_nonnegative_witness :
  Inv Example.roomy
  /\ Forall accepted Scenario.requests
  /\ Inv (serve_all Scenario.requests Example.roomy).
Proof.
  assert (HInv : Inv Example.roomy).
  { split; [|split; constructor].
    apply map_Forall_singleton. simpl. lia. }
  assert (Hcalls : Forall accepted Scenario.requests).
  { repeat constructor; simpl; lia. }
  split; [exact HInv|]. split; [exact Hcalls|].
  exact (any_request_keeps_stock_nonnegative Scenario.requests Example.roomy HInv Hcalls).
Defined.

(** ** Reservations after a cart write *)

Lemma sum_quantity_app l1 l2 :
  sum_quantity (l1 ++ l2) = sum_quantity l1 + sum_quantity l2.
Proof. induction l1 as [|x l1 IH]; simpl; lia. Qed.

Lemma reservation_expiry_live env it q :
  active (now env) (with_quantity q (Some (reservation_expiry env)) it) = true.
Proof.
  unfold active, with_quantity, reservation_expiry, RESERVATION_TTL_MINUTES. simpl.
  apply Z.ltb_lt. lia.
Qed.

Lemma reserved_after_update now product_id a q e db :
  List.NoDup (map ci_id (cart_items db)) ->
  In a (cart_items db) ->
  ci_product_id a = product_id ->
  now < e ->
  reserved now product_id (fun _ => true)
    (set_cart_items
       (update_where (fun it => bool_decide (ci_id it = ci_id a)) (with_quantity q (Some e))
          (cart_items db)) db)
  = reserved now product_id (fun it => negb (bool_decide (ci_id it = ci_id a))) db + q.
Proof.
  intros Hnd Hin Hp He. unfold reserved. simpl.
  induction (cart_items db) as [|x l IH]; [contradiction|].
  inversion Hnd as [|? ? Hx Hl]; subst.
  assert (Hrest : forall l',
    ~ In (ci_id a) (map ci_id l') ->
    update_where (fun it => bool_decide (ci_id it = ci_id a)) (with_quantity q (Some e)) l' = l'
    /\ List.filter
         (fun it => bool_decide (ci_product_id it = ci_product_id a)
                    && negb (bool_decide (ci_id it = ci_id a)) && active now it) l'
       = List.filter
           (fun it => bool_decide (ci_product_id it = ci_product_id a) && true
                      && active now it) l').
  { intros l' Hnot. split.
    - unfold update_where. rewrite <- (map_id l') at 2. apply map_ext_in. intros y Hy.
      rewrite bool_decide_eq_false_2; [reflexivity|].
      intros Heq. apply Hnot. rewrite <- Heq. apply in_map. exact Hy.
    - apply filter_ext_in'. intros y Hy.
      rewrite (bool_decide_eq_false_2 (ci_id y = ci_id a)); [reflexivity|].
      intros Heq. apply Hnot. rewrite <- Heq. apply in_map. exact Hy. }
  destruct Hin as [-> | Hin].
  - destruct (Hrest l Hx) as [Hsame Hfilter].
    unfold update_where in *. simpl. rewrite Hsame, Hfilter.
    rewrite (bool_decide_eq_true_2 (ci_id a = ci_id a)) by reflexivity. simpl.
    rewrite (bool_decide_eq_true_2 (ci_product_id a = ci_product_id a)) by reflexivity.
    simpl. unfold active at 1. simpl. apply Z.ltb_lt in He. rewrite He. simpl. lia.
  - assert (Hne : ci_id x <> ci_id a).
    { intros Heq. apply Hx. rewrite Heq. apply in_map. exact Hin. }
    specialize (IH Hl Hin). unfold update_where in *. simpl.
    rewrite (bool_decide_eq_false_2 _ Hne). simpl.
    destruct (bool_decide (ci_product_id x = ci_product_id a) && true && active now x);
      simpl; rewrite IH; lia.
Qed.

Lemma reserved_after_create now product_id row db :
  ci_product_id row = product_id ->
  active now row = true ->
  reserved now product_id (fun _ => true) (set_cart_items (cart_items db ++ [row]) db)
  = reserved now product_id (fun _ => true) db + ci_quantity row.
Proof.
  intros Hp Ha. unfold reserved. simpl. rewrite List.filter_app, sum_quantity_app. simpl.
  rewrite bool_decide_eq_true_2 by exact Hp. rewrite Ha. simpl. lia.
Qed.

Lemma reserved_only_deleted now product_id keep db db' :
  only_deleted db db' ->
  Forall (fun it => 0 <= ci_quantity it) (cart_items db) ->
  reserved now product_id keep db' <= reserved now product_id keep db.
Proof.
  intros [[k Hrows] _ _ _ _ _ _] Hnonneg. unfold reserved. rewrite Hrows, filter_filter'.
  apply sum_quantity_filter_le; [exact Hnonneg|].
  intros it Hit. apply andb_true_iff in Hit as [_ Hit]. exact Hit.
Qed.

(** ** [addToCart] against the stock the product page shows *)

Lemma find_or_create_cart_total env userId sessionId db :
  userId <> None \/ sessionId <> None ->
  exists cart dbA, find_or_create_cart env userId sessionId db = (Ok cart, dbA).
Proof.
  intros Hid. unfold find_or_create_cart. rewrite bind_get.
  destruct (find_cart userId sessionId db) as [c|]; [eexists; eexists; reflexivity|].
  destruct userId as [u|], sessionId as [s|];
    try (destruct Hid as [H | H]; congruence);
    unfold cart_create, bind, fresh_id; simpl; eexists; eexists; reflexivity.
Qed.

Lemma cart_item_update_found item db q e :
  In item (cart_items db) ->
  cart_item_update (ci_id item) q e db
  = (Ok tt,
     set_cart_items
       (update_where (fun it => bool_decide (ci_id it = ci_id item)) (with_quantity q e)
          (cart_items db)) db).
Proof.
  intros Hin. unfold cart_item_update.
  assert (Hex : existsb (fun it => bool_decide (ci_id it = ci_id item)) (cart_items db) = true).
  { apply existsb_exists. exists item. split; [exact Hin|].
    apply bool_decide_eq_true_2. reflexivity. }
  rewrite Hex. reflexivity.
Qed.

Lemma upsert_item_total env product cart product_id quantity dbA :
  Forall (fun it => 0 <= ci_quantity it) (cart_items dbA) ->
  quantity <= p_stock product - reserved (now env) product_id (fun _ => true) dbA ->
  exists dbB, upsert_item env product cart product_id quantity dbA = (Ok tt, dbB).
Proof.
  intros Hnonneg Hq. unfold upsert_item. rewrite bind_get.
  destruct (find_cart_item (c_id cart) product_id dbA) as [existing|] eqn:Hfind.
  - cbv zeta.
    pose proof (reserved_keep_le (now env) product_id
                  (fun it => negb (bool_decide (ci_id it = ci_id existing))) dbA Hnonneg).
    destruct (_ <? quantity) eqn:E; [apply Z.ltb_lt in E; lia|].
    apply find_cart_item_In in Hfind as [Hin _].
    rewrite (cart_item_update_found _ _ _ _ Hin). eexists. reflexivity.
  - unfold cart_item_create, bind, fresh_id. simpl. eexists. reflexivity.
Qed.

Lemma known_upsert_item env product cart product_id quantity dbA dbB :
  cart_products_known dbA ->
  is_Some (products dbA !! product_id) ->
  upsert_item env product cart product_id quantity dbA = (Ok tt, dbB) ->
  cart_products_known dbB.
Proof.
  intros Hknown Hprod. unfold upsert_item. rewrite bind_get.
  destruct (find_cart_item (c_id cart) product_id dbA) as [existing|] eqn:Hfind.
  - cbv zeta. destruct (_ <? quantity); [discriminate|].
    unfold cart_item_update. destruct (existsb _ _); [|discriminate].
    intros [= <-]. unfold cart_products_known in *. simpl.
    apply Forall_update_where; [exact Hknown|]. intros x Hx _. exact Hx.
  - unfold cart_item_create, bind, fresh_id. simpl. intros [= <-].
    unfold cart_products_known in *. simpl.
    apply Forall_app. split; [exact Hknown|]. constructor; [exact Hprod | constructor].
Qed.

Lemma addToCart_checked env userId sessionId product_id quantity db product :
  userId <> None \/ sessionId <> None ->
  lock_granted env product_id = true ->
  products db !! product_id = Some product ->
  quantity <= p_stock product - reserved (now env) product_id (fun _ => true) db ->
  addToCart env userId sessionId product_id quantity db
  = (cart <- find_or_create_cart env userId sessionId ;;
     upsert_item env product cart product_id quantity ;;;
     getCart env userId sessionId) db.
Proof.
  intros Hid Hlock Hprod Hq. unfold addToCart, withLock. rewrite Hlock.
  destruct userId, sessionId; try (destruct Hid as [H | H]; congruence);
    rewrite bind_get, Hprod; cbv zeta;
    (destruct (_ <? quantity) eqn:E; [apply Z.ltb_lt in E; lia | reflexivity]).
Qed.

Lemma addToCart_total env userId sessionId product_id quantity db product :
  userId <> None \/ sessionId <> None ->
  lock_granted env product_id = true ->
  products db !! product_id = Some product ->
  quantity <= p_stock product - reserved (now env) product_id (fun _ => true) db ->
  Forall (fun it => 0 <= ci_quantity it) (cart_items db) ->
  cart_products_known db ->
  exists r db', addToCart env userId sessionId product_id quantity db = (Ok r, db').
Proof.
  intros Hid Hlock Hprod Hq Hnonneg Hknown.
  rewrite (addToCart_checked _ _ _ _ _ _ _ Hid Hlock Hprod Hq).
  destruct (find_or_create_cart_total env userId sessionId db Hid) as (cart & dbA & HA).
  destruct (find_or_create_cart_ok _ _ _ _ _ _ HA) as (_ & Hitems & Hproducts & _ & _).
  destruct (upsert_item_total env product cart product_id quantity dbA) as (dbB & HB).
  { rewrite Hitems. exact Hnonneg. }
  { unfold reserved in *. rewrite Hitems. exact Hq. }
  assert (HknownA : cart_products_known dbA).
  { unfold cart_products_known. rewrite Hitems, Hproducts. exact Hknown. }
  assert (HknownB : cart_products_known dbB).
  { eapply known_upsert_item; [exact HknownA| |exact HB].
    rewrite Hproducts, Hprod. eexists. reflexivity. }
  destruct (proj2 (getCart_frame env userId sessionId dbB) Hid HknownB)
    as (r & Hr).
  exists r, (snd (getCart env userId sessionId dbB)).
  rewrite (bind_ok _ _ _ _ _ HA), (bind_ok _ _ _ _ _ HB).
  destruct (getCart env userId sessionId dbB) as [r' d]. simpl in *. rewrite Hr. reflexivity.
Qed.

Lemma addToCart_rejected env userId sessionId product_id quantity db e db' :
  Forall (fun it => 0 <= ci_quantity it) (cart_items db) ->
  cart_products_known db ->
  addToCart env userId sessionId product_id quantity db = (Err e, db') -> db' = db.
Proof.
  intros Hnonneg Hknown H.
  destruct (lock_granted env product_id) eqn:Hlock.
  2:{ unfold addToCart, withLock in H. rewrite Hlock in H.
      destruct userId, sessionId; inversion H; reflexivity. }
  destruct userId as [u|] eqn:Hu, sessionId as [s|] eqn:Hs.
  4:{ inversion H. reflexivity. }
  all: rewrite <- Hu, <- Hs in H;
    assert (Hid : userId <> None \/ sessionId <> None)
      by (subst; first [left; discriminate | right; discriminate]);
    clear Hu Hs;
    destruct (products db !! product_id) as [product|] eqn:Hprod;
    [|unfold addToCart, withLock in H; rewrite Hlock in H;
      destruct userId, sessionId; try (destruct Hid as [H0 | H0]; congruence);
      rewrite bind_get, Hprod in H; inversion H; reflexivity];
    destruct (Z_lt_le_dec
                (p_stock product - reserved (now env) product_id (fun _ => true) db) quantity)
      as [Hlt | Hle];
    [rewrite (addToCart_first_check _ _ _ _ _ _ _ Hid Hlock Hprod Hlt) in H;
     inversion H; reflexivity|];
    destruct (addToCart_total _ _ _ _ _ _ _ Hid Hlock Hprod Hle Hnonneg Hknown)
      as (r & d & Hok);
    rewrite Hok in H; discriminate H.
Qed.

(** X18. With the lock granted, no negative quantity in the cart table and every
    cart row referring to a product that exists, [addToCart] of a positive
    quantity succeeds exactly when the quantity is at most the
    available_stock that [getProductById] shows for the product at that
    instant; and a call that throws has written nothing, not even the cart
    it may have created. *)
Theorem addToCart_accepts_what_is_available env userId sessionId product_id quantity db :
  userId <> None \/ sessionId <> None ->
  lock_granted env product_id = true ->
  1 <= quantity ->
  Forall (fun it => 0 <= ci_quantity it) (cart_items db) ->
  cart_products_known db ->
  ((exists r db', addToCart env userId sessionId product_id quantity db = (Ok r, db'))
   <-> (exists product available,
          getProductById env product_id db = Some (product, available)
          /\ quantity <= available))
  /\ (forall e db',
        addToCart env userId sessionId product_id quantity db = (Err e, db') -> db' = db).
Proof.
  intros Hid Hlock Hq Hnonneg Hknown. split.
  - unfold getProductById. split.
    + intros (r & db' & H).
      apply addToCart_ok_inv in H as (product & _ & _ & _ & _ & Hprod & Hle & _).
      rewrite Hprod. cbv zeta. eexists. eexists. split; [reflexivity|]. lia.
    + intros (product & available & H & Hle).
      destruct (products db !! product_id) as [p|] eqn:Hprod; [|discriminate].
      cbv zeta in H. injection H as <- <-.
      apply (addToCart_total _ _ _ _ _ _ p Hid Hlock Hprod); [lia | exact Hnonneg | exact Hknown].
  - intros e db'. apply addToCart_rejected; assumption.
Qed.

Lemma addToCart_accepts_what_is_available_witness :
  ((exists r db', addToCart Example.env (Some 1%nat) None 1%nat 5 Example.roomy = (Ok r, db'))
   <-> (exists product available,
          getProductById Example.env 1%nat Example.roomy = Some (product, available)
          /\ 5 <= available))
  /\ (forall e db',
        addToCart Example.env (Some 1%nat) None 1%nat 5 Example.roomy = (Err e, db') ->
        db' = Example.roomy).
Proof.
  apply (addToCart_accepts_what_is_available Example.env (Some 1%nat) None 1%nat 5
           Example.roomy).
  - left. discriminate.
  - reflexivity.
  - lia.
  - constructor.
  - constructor.
Defined.

(** ** No write of the cart service reserves more than the stock *)

Lemma upsert_item_reserved env product cart product_id quantity dbA dbB :
  cart_rows_ok dbA ->
  quantity <= p_stock product - reserved (now env) product_id (fun _ => true) dbA ->
  upsert_item env product cart product_id quantity dbA = (Ok tt, dbB) ->
  reserved (now env) product_id (fun _ => true) dbB <= p_stock product.
Proof.
  intros Hrows Hq. unfold upsert_item. rewrite bind_get.
  destruct (find_cart_item (c_id cart) product_id dbA) as [existing|] eqn:Hfind.
  - cbv zeta. destruct (_ <? quantity) eqn:E; [discriminate|]. apply Z.ltb_ge in E.
    apply find_cart_item_In in Hfind as (Hin & _ & Hp).
    rewrite (cart_item_update_found _ _ _ _ Hin). intros [= <-].
    rewrite (reserved_after_update _ _ _ _ _ _ (rows_pk _ Hrows) Hin Hp).
    + lia.
    + unfold reservation_expiry, RESERVATION_TTL_MINUTES. lia.
  - unfold cart_item_create, bind, fresh_id. simpl. intros [= <-].
    match goal with |- reserved _ _ _ ?d <= _ =>
      change d with
        (set_cart_items
           (cart_items (set_next_id (S (next_id dbA)) dbA)
            ++ [{| ci_id := next_id dbA; ci_cart_id := c_id cart; ci_product_id := product_id;
                   ci_quantity := quantity;
                   ci_reservation_expires_at := Some (reservation_expiry env) |}])
           (set_next_id (S (next_id dbA)) dbA)) end.
    rewrite reserved_after_create.
    + simpl. unfold reserved in *. simpl. lia.
    + reflexivity.
    + unfold active, reservation_expiry, RESERVATION_TTL_MINUTES. simpl.
      apply Z.ltb_lt. lia.
Qed.

Lemma getCart_reserved env userId sessionId product_id dbB r db' product bound :
  cart_rows_ok dbB ->
  products dbB !! product_id = Some product ->
  reserved (now env) product_id (fun _ => true) dbB <= bound ->
  getCart env userId sessionId dbB = (r, db') ->
  products db' !! product_id = Some product
  /\ reserved (now env) product_id (fun _ => true) db' <= bound.
Proof.
  intros Hrows Hprod Hle H.
  pose proof (proj1 (getCart_frame env userId sessionId dbB)) as Hdel.
  rewrite H in Hdel. simpl in Hdel. split.
  - rewrite (deleted_products _ _ Hdel). exact Hprod.
  - pose proof (reserved_only_deleted (now env) product_id (fun _ => true) _ _ Hdel
                  (rows_nonneg _ Hrows)). lia.
Qed.

Lemma updateCartItem_ok_inv env userId sessionId productId quantity db r db' :
  quantity <> 0 ->
  updateCartItem env userId sessionId productId quantity db = (Ok r, db') ->
  exists cart cartItem product dbB,
    lock_granted env productId = true
    /\ current_cart userId sessionId db = Some cart
    /\ find_cart_item (c_id cart) productId db = Some cartItem
    /\ products db !! productId = Some product
    /\ quantity <= p_stock product
                   - reserved (now env) productId
                       (fun it => negb (bool_decide (ci_id it = ci_id cartItem))) db
    /\ cart_item_update (ci_id cartItem) quantity (Some (reservation_expiry env)) db
       = (Ok tt, dbB)
    /\ getCart env userId sessionId dbB = (Ok r, db').
Proof.
  intros Hq. unfold updateCartItem, withLock.
  destruct (lock_granted env productId); [|destruct userId, sessionId; discriminate].
  destruct userId as [u|], sessionId as [s|]; try discriminate.
  all: rewrite bind_get;
    (destruct (current_cart _ _ db) as [cart|] eqn:Hcart; [|discriminate]);
    (destruct (find_cart_item (c_id cart) productId db) as [cartItem|] eqn:Hfind;
      [|discriminate]);
    (destruct (products db !! productId) as [product|] eqn:Hprod; [|discriminate]);
    (destruct (quantity =? 0) eqn:E0; [apply Z.eqb_eq in E0; contradiction|]);
    cbv zeta; (destruct (_ <? quantity) eqn:E; [discriminate|]); apply Z.ltb_ge in E;
    intros H; apply bind_ok_inv in H as ([] & dbB & H1 & H2);
    exists cart, cartItem, product, dbB; repeat split; assumption || reflexivity.
Qed.

(** X19. After a successful [addToCart], or a successful [updateCartItem] to a
    positive quantity, the reservations of the product that are live at the
    instant of the call add up to at most its stock. *)
Theorem cart_write_never_over_reserves env userId sessionId product_id quantity db r db' :
  cart_rows_ok db ->
  1 <= quantity ->
  addToCart env userId sessionId product_id quantity db = (Ok r, db')
  \/ updateCartItem env userId sessionId product_id quantity db = (Ok r, db') ->
  exists product,
    products db' !! product_id = Some product
    /\ reserved (now env) product_id (fun _ => true) db' <= p_stock product.
Proof.
  intros Hrows Hq [H | H].
  - apply addToCart_ok_inv in H
      as (product & cart & dbA & dbB & _ & Hprod & Hle & HA & HB & HC).
    destruct (find_or_create_cart_ok _ _ _ _ _ _ HA) as (_ & Hitems & Hproducts & _ & _).
    pose proof (proj1 (rows_find_or_create_cart _ _ _ _ _ _ Hrows HA)) as HrowsA.
    assert (HleA : quantity
                   <= p_stock product - reserved (now env) product_id (fun _ => true) dbA).
    { unfold reserved in *. rewrite Hitems. exact Hle. }
    pose proof (upsert_item_reserved _ _ _ _ _ _ _ HrowsA HleA HB) as HleB.
    destruct (upsert_item_ok _ _ _ _ _ _ _ (ltac:(lia) : 0 <= quantity) HrowsA HB)
      as (HrowsB & _ & HproductsB & _).
    exists product. eapply getCart_reserved; [exact HrowsB| | |exact HC].
    + rewrite HproductsB, Hproducts. exact Hprod.
    + exact HleB.
  - apply updateCartItem_ok_inv in H
      as (cart & cartItem & product & dbB & _ & _ & Hfind & Hprod & Hle & HB & HC); [|lia].
    pose proof (proj1 (rows_cart_item_update _ _ _ (ltac:(lia) : 0 <= quantity)
                         _ _ _ Hrows HB)) as HrowsB.
    apply find_cart_item_In in Hfind as (Hin & _ & Hp).
    rewrite (cart_item_update_found _ _ _ _ Hin) in HB. injection HB as <-.
    exists product. eapply getCart_reserved; [exact HrowsB| | |exact HC].
    + exact Hprod.
    + rewrite (reserved_after_update _ _ _ _ _ _ (rows_pk _ Hrows) Hin Hp).
      * lia.
      * unfold reservation_expiry, RESERVATION_TTL_MINUTES. lia.
Qed.

Lemma rows_ok_roomy : cart_rows_ok Example.roomy.
Proof.
  constructor; simpl; try (constructor; fail).
  - constructor; [simpl; intros [Hx|[]]; discriminate Hx|].
    constructor; [intros [] | constructor].
  - repeat (constructor; [simpl; lia|]). constructor.
Qed.

Lemma cart_write_never_over_reserves_witness :
  match addToCart Example.env (Some 1%nat) None 1%nat 5 Example.roomy with
  | (Ok r, db') =>
      exists product,
        products db' !! 1%nat = Some product
        /\ reserved (now Example.env) 1%nat (fun _ => true) db' <= p_stock product
  | (Err _, _) => False
  end.
Proof.
  destruct (addToCart Example.env (Some 1%nat) None 1%nat 5 Example.roomy)
    as [[r|e] db'] eqn:E.
  - apply (cart_write_never_over_reserves Example.env (Some 1%nat) None 1%nat 5
             Example.roomy r db'); [exact rows_ok_roomy | lia | left; exact E].
  - vm_compute in E. discriminate E.
Defined.

(** ** Removing an item *)

Lemma lift_ok {A} (m : M A) db a db' :
  lift m db = (inl a, db') <-> m db = (Ok a, db').
Proof.
  unfold lift. destruct (m db) as [[x|e] d]; split; intros H; inversion H; reflexivity.
Qed.

Lemma delete_by_id_or_key item db :
  cart_rows_ok db ->
  In item (cart_items db) ->
  delete_where (fun it => bool_decide (ci_id it = ci_id item)) (cart_items db)
  = delete_where (fun it => bool_decide (ci_cart_id it = ci_cart_id item)
                            && bool_decide (ci_product_id it = ci_product_id item))
      (cart_items db).
Proof.
  intros Hrows Hin. unfold delete_where. apply filter_ext_in'. intros y Hy. f_equal.
  destruct (bool_decide (ci_id y = ci_id item)) eqn:E.
  - apply bool_decide_eq_true in E.
    rewrite (NoDup_map_inj_in ci_id _ _ _ (rows_pk _ Hrows) Hy Hin E).
    rewrite !bool_decide_eq_true_2 by reflexivity. reflexivity.
  - apply bool_decide_eq_false in E. symmetry. apply andb_false_iff.
    destruct (bool_decide (ci_cart_id y = ci_cart_id item)) eqn:Ec; [right | left; reflexivity].
    apply bool_decide_eq_false. intros Hp. apply bool_decide_eq_true in Ec. apply E.
    f_equal. apply (NoDup_map_inj_in cart_item_key _ _ _ (rows_unique _ Hrows) Hy Hin).
    unfold cart_item_key. rewrite Ec, Hp. reflexivity.
Qed.

Lemma remove_then_getCart env userId sessionId cart_id productId db r db' :
  (cart_item_delete_many
     (fun it => bool_decide (ci_cart_id it = cart_id)
                && bool_decide (ci_product_id it = productId)) ;;;
   getCart env userId sessionId) db = (r, db') ->
  find_cart_item cart_id productId db' = None /\ products db' = products db.
Proof.
  intros H. unfold bind, cart_item_delete_many in H. cbv beta iota in H.
  pose proof (proj1 (getCart_frame env userId sessionId
    (set_cart_items
       (delete_where
          (fun it => bool_decide (ci_cart_id it = cart_id)
                     && bool_decide (ci_product_id it = productId)) (cart_items db)) db)))
    as Hdel.
  rewrite H in Hdel. simpl in Hdel.
  destruct Hdel as [[keep Hrows] _ Hproducts _ _ _ _]. simpl in *.
  split; [|exact Hproducts].
  unfold find_cart_item. rewrite Hrows.
  destruct (List.find _ _) as [x|] eqn:E; [|reflexivity].
  apply find_some in E as [Hin Hx].
  apply filter_In in Hin as [Hin _]. unfold delete_where in Hin.
  apply filter_In in Hin as [_ Hnot]. rewrite Hx in Hnot. discriminate Hnot.
Qed.

(** X20. For a cart table that satisfies its unique indexes and whose rows refer
    to products that exist, and with the product lock granted,
    [updateCartItem] with quantity 0 is [removeFromCart]: one succeeds exactly
    when the other does, with the same response and the same database.
    Afterwards the cart of the caller has no row for the product. *)
Theorem updateCartItem_zero_is_removeFromCart env userId sessionId productId db r db' :
  lock_granted env productId = true ->
  cart_rows_ok db ->
  cart_products_known db ->
  (updateCartItem env userId sessionId productId 0 db = (Ok r, db')
   <-> removeFromCart env userId sessionId productId db = (inl r, db'))
  /\ (removeFromCart env userId sessionId productId db = (inl r, db') ->
      exists cart,
        current_cart userId sessionId db = Some cart
        /\ find_cart_item (c_id cart) productId db' = None
        /\ products db' = products db).
Proof.
  intros Hlock Hrows Hknown.
  assert (Hbody :
    (withLock env productId
       (db <- get ;;
        match current_cart userId sessionId db with
        | None => throw CartNotFound
        | Some cart =>
            match find_cart_item (c_id cart) productId db with
            | None => throw ProductNotInCart
            | Some cartItem =>
                match products db !! productId with
                | None => throw RecordNotFound
                | Some product =>
                    if 0 =? 0
                    then
                      cart_item_delete_many
                        (fun it => bool_decide (ci_id it = ci_id cartItem)) ;;;
                      getCart env userId sessionId
                    else
                      let totalReserved :=
                        reserved (now env) productId
                          (fun it => negb (bool_decide (ci_id it = ci_id cartItem))) db in
                      let availableForUpdate := p_stock product - totalReserved in
                      if availableForUpdate <? 0
                      then throw (InsufficientStock (Some availableForUpdate))
                      else
                        cart_item_update (ci_id cartItem) 0
                          (Some (reservation_expiry env)) ;;;
                        getCart env userId sessionId
                end
            end
        end) db = (Ok r, db')
     <-> match current_cart userId sessionId db with
         | None => (inr (Thrown CartNotFound), db)
         | Some cart =>
             match find_cart_item (c_id cart) productId db with
             | None => (inr ItemNotFoundInCart, db)
             | Some existingItem =>
                 lift (cart_item_delete_many
                         (fun it => bool_decide (ci_cart_id it = c_id cart)
                                    && bool_decide (ci_product_id it = productId)) ;;;
                       getCart env userId sessionId) db
             end
         end = (inl r, db'))
    /\ (match current_cart userId sessionId db with
        | None => (inr (Thrown CartNotFound), db)
        | Some cart =>
            match find_cart_item (c_id cart) productId db with
            | None => (inr ItemNotFoundInCart, db)
            | Some existingItem =>
                lift (cart_item_delete_many
                        (fun it => bool_decide (ci_cart_id it = c_id cart)
                                   && bool_decide (ci_product_id it = productId)) ;;;
                      getCart env userId sessionId) db
            end
        end = (inl r, db') ->
        exists cart,
          current_cart userId sessionId db = Some cart
          /\ find_cart_item (c_id cart) productId db' = None
          /\ products db' = products db)).
  { unfold withLock. rewrite Hlock, bind_get.
    destruct (current_cart userId sessionId db) as [cart|];
      [|split; [split; discriminate | discriminate]].
    destruct (find_cart_item (c_id cart) productId db) as [item|] eqn:Hfind;
      [|split; [split; discriminate | discriminate]].
    apply find_cart_item_In in Hfind as (Hin & Hc & Hp).
    assert (Hprod : is_Some (products db !! productId)).
    { unfold cart_products_known in Hknown. rewrite List.Forall_forall in Hknown.
      rewrite <- Hp. apply Hknown. exact Hin. }
    destruct Hprod as [product Hprod]. rewrite Hprod. simpl (0 =? 0).
    cbv iota. rewrite lift_ok.
    assert (Hsame :
      (cart_item_delete_many (fun it => bool_decide (ci_id it = ci_id item)) ;;;
       getCart env userId sessionId) db
      = (cart_item_delete_many
           (fun it => bool_decide (ci_cart_id it = c_id cart)
                      && bool_decide (ci_product_id it = productId)) ;;;
         getCart env userId sessionId) db).
    { unfold bind, cart_item_delete_many. cbv beta iota.
      rewrite (delete_by_id_or_key _ _ Hrows Hin), Hc, Hp. reflexivity. }
    rewrite Hsame. split; [tauto|].
    intros H. exists cart. split; [reflexivity|].
    exact (remove_then_getCart _ _ _ _ _ _ _ _ H). }
  unfold updateCartItem, removeFromCart.
  destruct userId as [u|], sessionId as [s|]; try exact Hbody.
  split; [split; discriminate | discriminate].
Qed.

Lemma rows_ok_full_cart : cart_rows_ok Example.full_cart.
Proof.
  constructor; simpl.
  - repeat constructor. simpl. lia.
  - constructor; [intros [] | constructor].
  - constructor; [intros [] | constructor].
  - repeat constructor.
  - constructor; [simpl; intros [Hx|[]]; discriminate Hx|].
    constructor; [intros [] | constructor].
  - repeat (constructor; [simpl; lia|]). constructor.
Qed.

Lemma known_full_cart : cart_products_known Example.full_cart.
Proof. repeat constructor. simpl. eexists. reflexivity. Qed.

Lemma updateCartItem_zero_is_removeFromCart_witness :
  match removeFromCart Example.env (Some 1%nat) None 1%nat Example.full_cart with
  | (inl r, db') =>
      updateCartItem Example.env (Some 1%nat) None 1%nat 0 Example.full_cart = (Ok r, db')
      /\ exists cart,
           current_cart (Some 1%nat) None Example.full_cart = Some cart
           /\ find_cart_item (c_id cart) 1%nat db' = None
           /\ products db' = products Example.full_cart
  | (inr _, _) => False
  end.
Proof.
  destruct (removeFromCart Example.env (Some 1%nat) None 1%nat Example.full_cart)
    as [[r|e] db'] eqn:E.
  - destruct (updateCartItem_zero_is_removeFromCart Example.env (Some 1%nat) None 1%nat
                Example.full_cart r db' eq_refl rows_ok_full_cart known_full_cart)
      as [Hiff Hgone].
    split; [apply Hiff; exact E | apply Hgone; exact E].
  - vm_compute in E. discriminate E.
Defined.

(** ** The unique indexes of the cart tables under every request *)

Lemma cart_rows_ok_frame db db' :
  carts db' = carts db -> cart_items db' = cart_items db ->
  (next_id db <= next_id db')%nat ->
  cart_rows_ok db -> cart_rows_ok db'.
Proof.
  intros Hc Hi Hn [H1 H2 H3 H4 H5 H6]. constructor; rewrite ?Hc, ?Hi; try assumption.
  - eapply Forall_impl; [exact H4|]. simpl. intros; lia.
  - eapply Forall_impl; [exact H6|]. simpl. intros; lia.
Qed.

Ltac rows_frame H :=
  split; [refine (cart_rows_ok_frame _ _ _ _ _ H); simpl; auto; lia | auto; intros ? [=]].

Lemma rows_fresh_id : keeps cart_rows_ok fresh_id (fun _ => True).
Proof. intros db r db' Hrows H. inversion H; subst. rows_frame Hrows. Qed.

Lemma rows_decrement product_id qty :
  keeps cart_rows_ok (product_decrement_if_available product_id qty) (fun _ => True).
Proof.
  intros db r db' Hrows H. unfold product_decrement_if_available in H.
  destruct (products db !! product_id) as [p|]; [destruct (qty <=? p_stock p)|];
    inversion H; subst; rows_frame Hrows.
Qed.

Lemma rows_increment product_id qty :
  keeps cart_rows_ok (product_increment product_id qty) (fun _ => True).
Proof.
  intros db r db' Hrows H. unfold product_increment in H.
  destruct (products db !! product_id) as [p|]; inversion H; subst; rows_frame Hrows.
Qed.

Lemma rows_order_update order_id f :
  keeps cart_rows_ok (order_update order_id f) (fun _ => True).
Proof.
  intros db r db' Hrows H. unfold order_update in H.
  destruct (existsb _ _); inversion H; subst; rows_frame Hrows.
Qed.

Lemma rows_order_update_many p f :
  keeps cart_rows_ok (order_update_many p f) (fun _ => True).
Proof. intros db r db' Hrows H. inversion H; subst. rows_frame Hrows. Qed.

Lemma rows_order_item_update_many p s :
  keeps cart_rows_ok (order_item_update_many p s) (fun _ => True).
Proof. intros db r db' Hrows H. inversion H; subst. rows_frame Hrows. Qed.

Lemma rows_order_item_update item_id s :
  keeps cart_rows_ok (order_item_update item_id s) (fun _ => True).
Proof.
  intros db r db' Hrows H. unfold order_item_update in H.
  destruct (List.find _ (order_items db)); inversion H; subst; rows_frame Hrows.
Qed.

Lemma rows_order_create mk : keeps cart_rows_ok (order_create mk) (fun _ => True).
Proof.
  unfold order_create. eapply keeps_bind; [apply rows_fresh_id|]. intros i _.
  intros db r db' Hrows H. inversion H; subst. rows_frame Hrows.
Qed.

Lemma rows_order_item_create mk : keeps cart_rows_ok (order_item_create mk) (fun _ => True).
Proof.
  unfold order_item_create. eapply keeps_bind; [apply rows_fresh_id|]. intros i _.
  intros db r db' Hrows H. inversion H; subst. rows_frame Hrows.
Qed.

Lemma rows_cart_create env userId sessionId expiresAt :
  keeps cart_rows_ok (cart_create env userId sessionId expiresAt) (fun _ => True).
Proof.
  intros db r db' [H1 H2 H3 H4 H5 H6] H.
  unfold cart_create, bind, fresh_id in H. simpl in H. inversion H; subst; clear H.
  split; [|auto]. constructor; simpl; auto.
  - eapply Forall_impl; [exact H4|]. simpl. intros; lia.
  - rewrite map_app. simpl. apply NoDup_snoc; [exact H5|].
    intros Hx. apply in_map_iff in Hx as (c & Hid & Hc).
    rewrite List.Forall_forall in H6. specialize (H6 _ Hc). lia.
  - apply Forall_app. split.
    + eapply Forall_impl; [exact H6|]. simpl. intros; lia.
    + constructor; [simpl; lia | constructor].
Qed.

Lemma rows_place_item env subOrder_id ip :
  keeps cart_rows_ok (place_item env subOrder_id ip) (fun _ => True).
Proof.
  unfold place_item. apply keeps_withLock.
  eapply keeps_bind; [apply keeps_get|]. intros db _.
  destruct (products db !! _) as [product|]; [|apply keeps_throw].
  destruct (_ <? _); [apply keeps_throw|].
  eapply keeps_bind; [apply rows_decrement|]. intros count _.
  destruct (count =? 0)%nat; [apply keeps_throw|].
  apply rows_order_item_create.
Qed.

Lemma keeps_forM_all {A} (P : DB -> Prop) (l : list A) (f : A -> M unit) :
  (forall x, keeps P (f x) (fun _ => True)) -> keeps P (forM l f) (fun _ => True).
Proof.
  intros Hf. apply keeps_forM with (Q := fun _ => True); [|intros x _; apply Hf].
  apply List.Forall_forall. intros; exact I.
Qed.

Lemma rows_createOrder env userId addressId paymentMethod :
  keeps cart_rows_ok (createOrder env userId addressId paymentMethod) (fun _ => True).
Proof.
  unfold createOrder. eapply keeps_bind; [apply keeps_get|]. intros db _.
  destruct (List.find _ (carts db)) as [cart|]; [|apply keeps_throw].
  eapply keeps_bind; [apply rows_reads, reads_cart_items_with_product|]. intros items _.
  destruct items as [|ip items]; [apply keeps_throw|].
  destruct (List.find _ (addresses db)) as [address|]; [|apply keeps_throw].
  eapply keeps_bind.
  { apply keeps_forM_all. intros x. apply rows_reads, reads_validate_item. }
  intros _ _. eapply keeps_bind with (V := fun _ => True).
  { apply keeps_transaction. unfold createOrder_tx.
    eapply keeps_bind; [apply rows_order_create|]. intros parent _.
    eapply keeps_bind.
    { apply keeps_forM_all. intros [sellerId its]. unfold place_sub_order.
      eapply keeps_bind; [apply rows_order_create|]. intros sub _.
      apply keeps_forM_all. intros x. apply rows_place_item. }
    intros _ _. eapply keeps_bind; [apply rows_cart_item_delete_many|]. intros _ _.
    apply keeps_ret. exact I. }
  intros parent _. apply rows_reads, reads_getOrderById.
Qed.

Lemma rows_restore_items env items :
  keeps cart_rows_ok (forM items (restore_item env)) (fun _ => True).
Proof.
  apply keeps_forM_all. intros x. apply keeps_withLock, rows_increment.
Qed.

Lemma rows_cancelOrder env userId orderId :
  keeps cart_rows_ok (cancelOrder env userId orderId) (fun _ => True).
Proof.
  unfold cancelOrder. eapply keeps_bind; [apply keeps_get|]. intros db _.
  destruct (List.find _ (orders db)) as [order|]; [|apply keeps_throw].
  destruct (negb _); [apply keeps_throw|].
  eapply keeps_bind; [|intros _ _; apply rows_reads, reads_getOrderById].
  apply keeps_transaction. unfold cancelOrder_tx.
  eapply keeps_bind; [|intros _ _; apply rows_order_update].
  destruct (_ && _).
  - apply keeps_forM_all. intros sub.
    eapply keeps_bind; [apply rows_order_update|]. intros _ _.
    eapply keeps_bind; [apply rows_order_item_update_many|]. intros _ _.
    apply rows_restore_items.
  - eapply keeps_bind; [apply rows_restore_items|].
    intros _ _. apply rows_order_item_update_many.
Qed.

Lemma rows_cancelSubOrder env sellerId subOrderId :
  keeps cart_rows_ok (cancelSubOrder env sellerId subOrderId) (fun _ => True).
Proof.
  unfold cancelSubOrder. eapply keeps_bind; [apply keeps_get|]. intros db _.
  destruct (List.find _ (orders db)) as [subOrder|]; [|apply keeps_throw].
  destruct (_ && _); [apply keeps_throw|].
  eapply keeps_bind with (V := fun _ : unit => True).
  - apply keeps_transaction. unfold cancelSubOrder_tx.
    eapply keeps_bind; [apply rows_order_update|]. intros _ _.
    eapply keeps_bind; [apply rows_order_item_update_many|]. intros _ _.
    eapply keeps_bind; [apply rows_restore_items|].
    intros _ _. destruct (o_parent_order_id subOrder); [|apply keeps_ret; exact I].
    eapply keeps_bind; [apply keeps_get|]. intros db1 _.
    apply keeps_when, rows_order_update.
  - intros _ _. destruct (o_parent_order_id subOrder); apply rows_reads, reads_getOrderById.
Qed.

Lemma rows_updateCartItem env userId sessionId productId quantity :
  0 <= quantity ->
  keeps cart_rows_ok (updateCartItem env userId sessionId productId quantity)
    (fun _ => True).
Proof.
  intros Hq. unfold updateCartItem.
  destruct userId as [u|], sessionId as [s|]; try apply keeps_throw.
  all: apply keeps_withLock;
    (eapply keeps_bind; [apply keeps_get|]); intros db _;
    (destruct (current_cart _ _ db) as [cart|]; [|apply keeps_throw]);
    (destruct (find_cart_item _ _ db) as [cartItem|]; [|apply keeps_throw]);
    (destruct (products db !! productId) as [product|]; [|apply keeps_throw]);
    (destruct (quantity =? 0);
      [eapply keeps_bind; [apply rows_cart_item_delete_many|]; intros _ _;
       apply rows_getCart|]);
    cbv zeta; (destruct (_ <? quantity); [apply keeps_throw|]);
    (eapply keeps_bind; [apply rows_cart_item_update; exact Hq|]); intros _ _;
    apply rows_getCart.
Qed.

Lemma rows_removeFromCart env userId sessionId productId db :
  cart_rows_ok db -> cart_rows_ok (snd (removeFromCart env userId sessionId productId db)).
Proof.
  intros Hdb. unfold removeFromCart.
  assert (Hbody : forall cart,
    cart_rows_ok
      (snd (lift (cart_item_delete_many
                    (fun it => bool_decide (ci_cart_id it = c_id cart)
                               && bool_decide (ci_product_id it = productId)) ;;;
                  getCart env userId sessionId) db))).
  { intros cart. rewrite snd_lift. apply keeps_snd with (V := fun _ => True); [|exact Hdb].
    eapply keeps_bind; [apply rows_cart_item_delete_many|]. intros _ _. apply rows_getCart. }
  destruct userId as [u|], sessionId as [s|]; try exact Hdb.
  all: destruct (current_cart _ _ db) as [cart|]; [|exact Hdb];
    (destruct (find_cart_item _ _ db); [apply Hbody | exact Hdb]).
Qed.

Lemma rows_merge_item env userCart_id ip :
  0 <= ci_quantity (fst ip) ->
  keeps cart_rows_ok (merge_item env userCart_id ip) (fun _ => True).
Proof.
  destruct ip as [anonymousItem product]. simpl. intros Hq db r db' Hdb H.
  unfold merge_item, withLock in H.
  destruct (lock_granted env (ci_product_id anonymousItem));
    [|inversion H; subst; split; [exact Hdb | intros ? [=]]].
  rewrite bind_get in H. cbv zeta in H.
  destruct (find_cart_item userCart_id (ci_product_id anonymousItem) db) as [e|] eqn:He.
  - destruct (_ <=? _); [|inversion H; subst; auto].
    apply find_cart_item_In in He as [Hin _].
    pose proof (rows_nonneg _ Hdb) as Hnonneg. rewrite List.Forall_forall in Hnonneg.
    specialize (Hnonneg _ Hin).
    refine (rows_cart_item_update _ _ _ _ _ _ _ Hdb H). lia.
  - destruct (_ <=? _); [|inversion H; subst; auto].
    split; [|auto]. exact (proj1 (cart_item_create_rows _ _ _ _ _ _ _ Hq Hdb He H)).
Qed.

Lemma rows_cart_items_with_product cart_id :
  keeps cart_rows_ok (cart_items_with_product cart_id)
    (fun items => Forall (fun ip => 0 <= ci_quantity (fst ip)) items).
Proof.
  intros db r db' HP H. unfold cart_items_with_product in H. inversion H; subst; clear H.
  split; [exact HP|]. intros l Hl. apply include_product_fst in Hl.
  assert (Hitems : Forall (fun it => 0 <= ci_quantity it) (items_of_cart cart_id db')).
  { pose proof (rows_nonneg _ HP) as Hc.
    unfold items_of_cart. rewrite List.Forall_forall in *. intros x Hx.
    apply filter_In in Hx as [Hx _]. auto. }
  rewrite <- Hl in Hitems. exact (proj1 (List.Forall_map fst _ l) Hitems).
Qed.

Lemma rows_mergeAnonymousCart env userId sessionId :
  keeps cart_rows_ok (mergeAnonymousCart env userId sessionId) (fun _ => True).
Proof.
  unfold mergeAnonymousCart.
  eapply keeps_bind; [apply keeps_get|]. intros db _.
  destruct (latest (List.filter (cart_of_session sessionId) (carts db)))
    as [anonymousCart|]; [|apply rows_getCart].
  eapply keeps_bind; [apply rows_cart_items_with_product|]. intros items Hitems.
  destruct items as [|ip items]; [apply rows_getCart|].
  eapply keeps_bind with (V := fun _ => True).
  { destruct (latest (List.filter (cart_of_user userId) (carts db)));
      [apply keeps_ret; exact I | apply rows_cart_create]. }
  intros userCart _.
  eapply keeps_bind; [|intros _ _; apply rows_getCart].
  apply keeps_transaction.
  eapply keeps_bind; [|intros _ _; apply rows_cart_delete_where].
  eapply keeps_forM; [exact Hitems|]. intros x Hx. apply rows_merge_item. exact Hx.
Qed.

Lemma rows_updateOrderItemStatus sellerId orderItemId status :
  keeps cart_rows_ok (updateOrderItemStatus sellerId orderItemId status) (fun _ => True).
Proof.
  unfold updateOrderItemStatus.
  eapply keeps_bind; [apply keeps_get|]. intros db _.
  destruct (List.find _ (order_items db)); [|apply keeps_throw].
  destruct (negb _); [apply keeps_throw|].
  apply keeps_transaction. unfold updateOrderItemStatus_tx.
  eapply keeps_bind; [apply rows_order_item_update|]. intros updatedItem _.
  eapply keeps_bind; [apply keeps_get|]. intros db1 _.
  eapply keeps_bind; [apply rows_order_update|]. intros _ _.
  eapply keeps_bind with (V := fun _ => True); [|intros _ _; apply keeps_ret; exact I].
  destruct (find_order _ db1) as [so|]; [|apply keeps_ret; exact I].
  destruct (o_parent_order_id so); [apply rows_order_update | apply keeps_ret; exact I].
Qed.

Lemma rows_processPayment roll paymentRequest :
  keeps cart_rows_ok (processPayment roll paymentRequest) (fun _ => True).
Proof.
  unfold processPayment. cbv zeta.
  eapply keeps_bind; [apply keeps_get|]. intros db _.
  destruct (find_order _ db); [|apply keeps_throw].
  destruct (PaymentStatus.eqb _ _); [apply keeps_ret; exact I|].
  eapply keeps_bind; [apply rows_order_update|]. intros _ _.
  destruct (simulatePaymentGateway _ _ _).
  - eapply keeps_bind; [apply keeps_get|]. intros db1 _.
    eapply keeps_bind with (V := fun _ => True); [|intros _ _; apply keeps_ret; exact I].
    apply keeps_transaction.
    eapply keeps_bind; [apply rows_order_update|]. intros _ _.
    destruct (_ && _).
    + eapply keeps_bind; [apply rows_order_update_many|]. intros _ _.
      apply rows_order_item_update_many.
    + apply rows_order_item_update_many.
  - eapply keeps_bind; [apply rows_order_update|]. intros _ _. apply keeps_ret. exact I.
Qed.

Lemma rows_refundPayment order_id db :
  cart_rows_ok db -> cart_rows_ok (snd (refundPayment order_id db)).
Proof.
  intros Hdb. unfold refundPayment.
  destruct (find_order order_id db); [|exact Hdb].
  destruct (negb _); [exact Hdb|].
  rewrite snd_lift. apply keeps_snd with (V := fun _ => True); [|exact Hdb].
  eapply keeps_bind; [apply rows_order_update|]. intros _ _. apply keeps_ret. exact I.
Qed.

Lemma rows_updateStock productId sellerId stock db :
  cart_rows_ok db -> cart_rows_ok (snd (updateStock productId sellerId stock db)).
Proof.
  intros Hdb. unfold updateStock.
  destruct (products db !! productId) as [p|] eqn:Hp; [|exact Hdb].
  destruct (negb _); [exact Hdb|].
  unfold lift, product_set_stock. rewrite Hp. simpl.
  refine (cart_rows_ok_frame _ _ _ _ _ Hdb); simpl; auto.
Qed.

Lemma rows_deleteAddress userId addressId db :
  cart_rows_ok db -> cart_rows_ok (snd (deleteAddress userId addressId db)).
Proof.
  intros Hdb. unfold deleteAddress.
  destruct (find_address userId addressId db); [|exact Hdb].
  cbv zeta. destruct (_ <? _)%nat; [exact Hdb|].
  destruct (_ <? _)%nat; [exact Hdb|].
  refine (cart_rows_ok_frame _ _ _ _ _ Hdb); simpl; auto.
Qed.

Lemma rows_serve c db : accepted c -> cart_rows_ok db -> cart_rows_ok (serve c db).
Proof.
  intros Hc Hdb. destruct c as [op| | | | | | | | |]; simpl in *.
  - destruct op; simpl in *.
    + exact (keeps_snd _ _ _ _ (rows_createOrder env userId addressId paymentMethod) Hdb).
    + exact (keeps_snd _ _ _ _ (rows_cancelOrder env userId orderId) Hdb).
    + exact (keeps_snd _ _ _ _ (rows_cancelSubOrder env sellerId subOrderId) Hdb).
    + apply (keeps_snd _ _ (fun _ => True)); [|exact Hdb].
      apply rows_addToCart. lia.
  - exact (keeps_snd _ _ _ _ (rows_getCart env userId sessionId) Hdb).
  - exact (keeps_snd _ _ _ _ (rows_updateCartItem env userId sessionId productId quantity Hc)
             Hdb).
  - apply rows_removeFromCart. exact Hdb.
  - exact (keeps_snd _ _ _ _ (rows_mergeAnonymousCart env userId sessionId) Hdb).
  - exact (keeps_snd _ _ _ _ (rows_updateOrderItemStatus sellerId orderItemId status) Hdb).
  - exact (keeps_snd _ _ _ _ (rows_processPayment roll paymentRequest) Hdb).
  - apply rows_refundPayment. exact Hdb.
  - apply rows_updateStock. exact Hdb.
  - apply rows_deleteAddress. exact Hdb.
Qed.

(** X21. Whatever sequence of requests runs, the cart tables keep their keys:
    no two cart rows share an id or the pair of cart and product, no two
    carts share an id, ids stay below the counter and no quantity is
    negative. *)
Theorem cart_indexes_hold_under_any_request calls db :
  cart_rows_ok db -> Forall accepted calls -> cart_rows_ok (serve_all calls db).
Proof.
  intros Hdb Hcalls. revert db Hdb. unfold serve_all.
  induction Hcalls as [|c calls Hc Hcalls IH]; simpl; intros db Hdb; [exact Hdb|].
  apply IH. apply rows_serve; assumption.
Qed.

Lemma cart_indexes_hold_under_any_request_witness :
  cart_rows_ok (serve_all Scenario.requests Example.roomy).
Proof.
  apply (cart_indexes_hold_under_any_request Scenario.requests Example.roomy).
  - exact rows_ok_roomy.
  - repeat constructor; simpl; lia.
Defined.

(** ** Cancellations: what they restore *)

Lemma restocked_refl db : restocked (fun _ => 0) db db.
Proof.
  constructor; try reflexivity.
  intros p. destruct (products db !! p); simpl; [rewrite moved_0|]; reflexivity.
Qed.

Lemma restocked_ext (d1 d2 : id -> Z) db db' :
  (forall p, d1 p = d2 p) -> restocked d1 db db' -> restocked d2 db db'.
Proof.
  intros Hd [H1 H2 H3 H4 H5 H6 H7]. constructor; try assumption.
  intros p. rewrite H1, Hd. reflexivity.
Qed.

Lemma restocked_trans (d1 d2 : id -> Z) db1 db2 db3 :
  restocked d1 db1 db2 -> restocked d2 db2 db3 ->
  restocked (fun p => d1 p + d2 p) db1 db3.
Proof.
  intros [H1 H2 H3 H4 H5 H6 H7] [K1 K2 K3 K4 K5 K6 K7]. constructor; try congruence.
  intros p. rewrite K1, H1. destruct (products db1 !! p); simpl; [|reflexivity].
  rewrite moved_moved. reflexivity.
Qed.

Lemma restocked_set_orders q f db :
  (forall o, order_columns (f o) = order_columns o) ->
  restocked (fun _ => 0) db (set_orders (update_where q f (orders db)) db).
Proof.
  intros Hf. constructor; try reflexivity.
  - intros p. simpl. destruct (products db !! p); simpl; [rewrite moved_0|]; reflexivity.
  - simpl. apply map_update_where. exact Hf.
Qed.

Lemma restocked_set_order_items q s db :
  restocked (fun _ => 0) db
    (set_order_items (update_where q (with_item_status s) (order_items db)) db).
Proof.
  constructor; try reflexivity.
  - intros p. simpl. destruct (products db !! p); simpl; [rewrite moved_0|]; reflexivity.
  - simpl. apply map_update_where. reflexivity.
Qed.

Lemma order_update_inv k f db db' :
  order_update k f db = (Ok tt, db') ->
  db' = set_orders (update_where (fun o => bool_decide (o_id o = k)) f (orders db)) db.
Proof.
  unfold order_update. destruct (existsb _ _); [|discriminate]. intros [= <-]. reflexivity.
Qed.

Lemma restocked_order_update k f db db' :
  (forall o, order_columns (f o) = order_columns o) ->
  order_update k f db = (Ok tt, db') -> restocked (fun _ => 0) db db'.
Proof.
  intros Hf H. apply order_update_inv in H as ->. apply restocked_set_orders. exact Hf.
Qed.

Lemma restore_item_inv env it db db' :
  restore_item env it db = (Ok tt, db') ->
  restocked (fun p => if bool_decide (oi_product_id it = p) then oi_quantity it else 0) db db'.
Proof.
  unfold restore_item, withLock, product_increment.
  destruct (lock_granted env (oi_product_id it)); [|discriminate].
  destruct (products db !! oi_product_id it) as [pr|] eqn:Hpr; [|discriminate].
  intros [= <-]. constructor; try reflexivity.
  intros p. simpl. destruct (decide (oi_product_id it = p)) as [<- | Hne].
  - rewrite lookup_insert_eq, Hpr, bool_decide_eq_true_2 by reflexivity. reflexivity.
  - rewrite lookup_insert_ne, bool_decide_eq_false_2 by exact Hne.
    destruct (products db !! p); simpl; [rewrite moved_0|]; reflexivity.
Qed.

Lemma restore_items_inv env items db db' :
  forM items (restore_item env) db = (Ok tt, db') ->
  restocked (ordered items) db db'.
Proof.
  revert db. induction items as [|it items IH]; simpl; intros db H.
  - injection H as <-. apply restocked_refl.
  - apply bind_ok_inv in H as ([] & db1 & H1 & H2).
    exact (restocked_trans _ _ _ _ _ (restore_item_inv _ _ _ _ H1) (IH _ H2)).
Qed.

Lemma cancelled_columns o : order_columns (cancelled o) = order_columns o.
Proof. reflexivity. Qed.

Lemma cancel_subs_inv env (subs : list (Order * list OrderItem)) db db' :
  forM subs
    (fun sub =>
       order_update (o_id (fst sub)) cancelled ;;;
       order_item_update_many
         (fun it => bool_decide (oi_order_id it = o_id (fst sub))) OrderStatus.CANCELLED ;;;
       forM (snd sub) (restore_item env)) db = (Ok tt, db') ->
  restocked (ordered (concat (map snd subs))) db db'.
Proof.
  revert db. induction subs as [|sub subs IH]; simpl; intros db H.
  - injection H as <-. apply restocked_refl.
  - apply bind_ok_inv in H as ([] & db3 & H123 & H4).
    apply bind_ok_inv in H123 as ([] & db1 & H1 & H23).
    apply bind_ok_inv in H23 as ([] & db2 & H2 & H3).
    injection H2 as <-.
    pose proof (restocked_order_update _ _ _ _ cancelled_columns H1) as R1.
    pose proof (restocked_set_order_items
                  (fun it => bool_decide (oi_order_id it = o_id (fst sub)))
                  OrderStatus.CANCELLED db1) as R2.
    pose proof (restore_items_inv _ _ _ _ H3) as R3.
    pose proof (IH _ H4) as R4.
    eapply restocked_ext;
      [|exact (restocked_trans _ _ _ _ _
                 (restocked_trans _ _ _ _ _ (restocked_trans _ _ _ _ _ R1 R2) R3) R4)].
    intros p. simpl. rewrite ordered_app. lia.
Qed.

Lemma flat_map_pairs {A B} (f : A -> list B) (l : list A) :
  concat (map snd (map (fun s => (s, f s)) l)) = flat_map f l.
Proof. rewrite map_map. simpl. symmetry. apply flat_map_concat_map. Qed.

Lemma cancelOrder_inv env userId orderId db resp db' :
  cancelOrder env userId orderId db = (Ok resp, db') ->
  exists order,
    List.find (fun o => bool_decide (o_id o = orderId) && bool_decide (o_user_id o = userId))
      (orders db) = Some order
    /\ o_status order = OrderStatus.PENDING
    /\ restocked (ordered (items_to_restore order db)) db db'.
Proof.
  unfold cancelOrder. rewrite bind_get.
  destruct (List.find _ (orders db)) as [order|] eqn:Hfind; [|discriminate].
  destruct (negb _) eqn:Hst; [discriminate|].
  apply negb_false_iff, OrderStatus_eqb_eq in Hst.
  intros H. apply bind_ok_inv in H as ([] & dbT & Htx & Hget).
  apply reads_getOrderById in Hget as ->.
  exists order. split; [reflexivity|]. split; [exact Hst|].
  apply transaction_ok in Htx. unfold cancelOrder_tx in Htx.
  apply bind_ok_inv in Htx as ([] & db1 & Hbody & Hlast).
  pose proof (restocked_order_update _ _ _ _ cancelled_columns Hlast) as Rlast.
  unfold items_to_restore, items_of_sub_orders.
  rewrite length_map in Hbody.
  destruct (o_is_parent order && (0 <? length (sub_orders (o_id order) db))%nat).
  - apply cancel_subs_inv in Hbody. rewrite flat_map_pairs in Hbody.
    eapply restocked_ext; [|exact (restocked_trans _ _ _ _ _ Hbody Rlast)].
    intros p. simpl. lia.
  - apply bind_ok_inv in Hbody as ([] & db0 & H1 & H2). injection H2 as <-.
    pose proof (restore_items_inv _ _ _ _ H1) as R1.
    pose proof (restocked_set_order_items
                  (fun it => bool_decide (oi_order_id it = o_id order))
                  OrderStatus.CANCELLED db0) as R2.
    eapply restocked_ext;
      [|exact (restocked_trans _ _ _ _ _ (restocked_trans _ _ _ _ _ R1 R2) Rlast)].
    intros p. simpl. lia.
Qed.

Lemma fixes_restore_items {F} (proj : DB -> F) env items :
  (forall v db, proj (set_products v db) = proj db) ->
  fixes proj (forM items (restore_item env)).
Proof.
  intros Hproj. apply fixes_forM. intros it. apply fixes_withLock.
  intros db r db' H. unfold product_increment in H.
  destruct (products db !! oi_product_id it); inversion H; subst; [apply Hproj | reflexivity].
Qed.

Lemma update_where_twice {A} (p1 p2 : A -> bool) (f : A -> A) (l : list A) :
  (forall x, f (f x) = f x) -> (forall x, p2 (f x) = p2 x) ->
  update_where p2 f (update_where p1 f l) = update_where (fun x => p1 x || p2 x) f l.
Proof.
  intros Hf Hp. unfold update_where. rewrite map_map. apply map_ext. intros x.
  destruct (p1 x); simpl.
  - rewrite Hp. destruct (p2 x); [apply Hf | reflexivity].
  - reflexivity.
Qed.

Lemma update_where_ext {A} (p1 p2 : A -> bool) (f : A -> A) (l : list A) :
  (forall x, p1 x = p2 x) -> update_where p1 f l = update_where p2 f l.
Proof.
  intros Hp. unfold update_where. apply map_ext. intros x. rewrite Hp. reflexivity.
Qed.

Lemma forallb_update_where {A} (g q : A -> bool) (f : A -> A) (l : list A) :
  (forall x, q x = true -> g (f x) = g x) ->
  forallb g (update_where q f l) = forallb g l.
Proof.
  intros Hg. unfold update_where. induction l as [|x l IH]; simpl; [reflexivity|].
  rewrite IH. destruct (q x) eqn:E; [rewrite (Hg _ E)|]; reflexivity.
Qed.

Lemma cancelSubOrder_inv env sellerId subOrderId db resp db' :
  cancelSubOrder env sellerId subOrderId db = (Ok resp, db') ->
  exists subOrder,
    List.find (fun o => bool_decide (o_id o = subOrderId)
                        && bool_decide (o_seller_id o = Some sellerId)
                        && negb (o_is_parent o)) (orders db) = Some subOrder
    /\ In (o_status subOrder) [OrderStatus.PENDING; OrderStatus.CONFIRMED]
    /\ restocked (ordered (items_of_order (o_id subOrder) db)) db db'
    /\ order_items db'
       = update_where (fun it => bool_decide (oi_order_id it = o_id subOrder))
           (with_item_status OrderStatus.CANCELLED) (order_items db)
    /\ orders db'
       = update_where
           (fun o => bool_decide (o_id o = o_id subOrder)
                     || match o_parent_order_id subOrder with
                        | Some k => bool_decide (o_id o = k)
                                    && others_cancelled (o_id subOrder) k db
                        | None => false
                        end)
           cancelled (orders db).
Proof.
  unfold cancelSubOrder. rewrite bind_get.
  destruct (List.find _ (orders db)) as [subOrder|] eqn:Hfind; [|discriminate].
  destruct (negb _ && negb _) eqn:Hst; [discriminate|].
  intros H. apply bind_ok_inv in H as ([] & dbT & Htx & Hget).
  assert (Hsame : db' = dbT).
  { destruct (o_parent_order_id subOrder); exact (reads_getOrderById _ _ _ _ _ Hget). }
  subst db'. clear Hget.
  exists subOrder. split; [reflexivity|]. split.
  { destruct (o_status subOrder); simpl in *; auto; discriminate. }
  apply transaction_ok in Htx. unfold cancelSubOrder_tx in Htx.
  apply bind_ok_inv in Htx as ([] & db1 & H1 & Htx).
  apply bind_ok_inv in Htx as ([] & db2 & H2 & Htx).
  apply bind_ok_inv in Htx as ([] & db3 & H3 & Htx).
  apply order_update_inv in H1. injection H2 as <-.
  pose proof (restore_items_inv _ _ _ _ H3) as R3.
  pose proof (fixes_restore_items orders env _ (fun _ _ => eq_refl) _ _ _ H3) as Ho3.
  pose proof (fixes_restore_items order_items env _ (fun _ _ => eq_refl) _ _ _ H3) as Hi3.
  simpl in Ho3, Hi3. rewrite H1 in Ho3, Hi3. simpl in Ho3, Hi3.
  assert (R12 : restocked (fun _ => 0) db
                  (set_order_items
                     (update_where (fun it => bool_decide (oi_order_id it = o_id subOrder))
                        (with_item_status OrderStatus.CANCELLED) (order_items db1)) db1)).
  { eapply restocked_ext;
      [|exact (restocked_trans _ _ _ _ _
                 (restocked_set_orders (fun o => bool_decide (o_id o = o_id subOrder))
                    cancelled db cancelled_columns)
                 (eq_rect_r (fun d => restocked (fun _ => 0) d _)
                    (restocked_set_order_items _ OrderStatus.CANCELLED db1) (eq_sym H1)))].
    intros p. simpl. lia. }
  assert (R : restocked (ordered (items_of_order (o_id subOrder) db)) db db3).
  { eapply restocked_ext; [|exact (restocked_trans _ _ _ _ _ R12 R3)].
    intros p. simpl. lia. }
  destruct (o_parent_order_id subOrder) as [k|] eqn:Hparent.
  - rewrite bind_get in Htx.
    assert (Hall :
      forallb (fun o => bool_decide (o_id o = o_id subOrder)
                        || OrderStatus.eqb (o_status o) OrderStatus.CANCELLED)
              (sub_orders k db3)
      = others_cancelled (o_id subOrder) k db).
    { unfold others_cancelled, sub_orders. rewrite Ho3.
      rewrite filter_update_where by reflexivity.
      apply forallb_update_where. intros x Hx. simpl. rewrite Hx. reflexivity. }
    rewrite Hall in Htx.
    destruct (others_cancelled (o_id subOrder) k db) eqn:Hothers; simpl in Htx.
    + pose proof (restocked_order_update _ _ _ _ cancelled_columns Htx) as R4.
      apply order_update_inv in Htx. subst dbT. simpl.
      split; [|split].
      * eapply restocked_ext; [|exact (restocked_trans _ _ _ _ _ R R4)].
        intros p. simpl. lia.
      * exact Hi3.
      * rewrite Ho3. rewrite update_where_twice by reflexivity.
        apply update_where_ext. intros x. rewrite andb_true_r. reflexivity.
    + injection Htx as <-. split; [exact R|]. split; [exact Hi3|].
      rewrite Ho3. apply update_where_ext. intros x.
      rewrite andb_false_r, orb_false_r. reflexivity.
  - injection Htx as <-. split; [exact R|]. split; [exact Hi3|].
    rewrite Ho3. apply update_where_ext. intros x. rewrite orb_false_r. reflexivity.
Qed.

(** X22. [cancelSubOrder] of a sub-order of the seller that is PENDING or
    CONFIRMED: every item of the sub-order becomes CANCELLED and the stock
    of its product goes up by its quantity; the sub-order becomes CANCELLED
    with payment status REFUNDED; the parent order becomes so exactly when
    every other sub-order of the parent is already CANCELLED.  No other
    order, order item or table is written. *)
Theorem cancelSubOrder_effect env sellerId subOrderId db resp db' :
  cancelSubOrder env sellerId subOrderId db = (Ok resp, db') ->
  exists subOrder,
    In subOrder (orders db)
    /\ o_id subOrder = subOrderId
    /\ o_seller_id subOrder = Some sellerId
    /\ In (o_status subOrder) [OrderStatus.PENDING; OrderStatus.CONFIRMED]
    /\ restocked (ordered (items_of_order subOrderId db)) db db'
    /\ order_items db'
       = update_where (fun it => bool_decide (oi_order_id it = subOrderId))
           (with_item_status OrderStatus.CANCELLED) (order_items db)
    /\ orders db'
       = update_where
           (fun o => bool_decide (o_id o = subOrderId)
                     || match o_parent_order_id subOrder with
                        | Some k => bool_decide (o_id o = k) && others_cancelled subOrderId k db
                        | None => false
                        end)
           cancelled (orders db).
Proof.
  intros H. apply cancelSubOrder_inv in H as (subOrder & Hfind & Hst & R & Hi & Ho).
  apply find_some in Hfind as [Hin Hp].
  apply andb_true_iff in Hp as [Hp _]. apply andb_true_iff in Hp as [Hid Hseller].
  apply bool_decide_eq_true in Hid, Hseller. subst subOrderId.
  exists subOrder. auto 10.
Qed.

(** X23. [cancelOrder] restores the stock of every item it read with the order:
    for a parent order the items of all its sub-orders, whatever the status
    of the sub-order and of the item.  The order it cancels is PENDING, and
    besides stock and statuses nothing is written. *)
Theorem cancelOrder_restores_every_item env userId orderId db resp db' :
  cancelOrder env userId orderId db = (Ok resp, db') ->
  exists order,
    In order (orders db)
    /\ o_id order = orderId
    /\ o_user_id order = userId
    /\ o_status order = OrderStatus.PENDING
    /\ restocked (ordered (items_to_restore order db)) db db'.
Proof.
  intros H. apply cancelOrder_inv in H as (order & Hfind & Hst & R).
  apply find_some in Hfind as [Hin Hp].
  apply andb_true_iff in Hp as [Hid Huser]. apply bool_decide_eq_true in Hid, Huser.
  exists order. auto.
Qed.

Lemma ordered_update_where q s l p :
  ordered (update_where q (with_item_status s) l) p = ordered l p.
Proof.
  unfold update_where. induction l as [|x l IH]; simpl; [reflexivity|].
  rewrite IH. destruct (q x); reflexivity.
Qed.

Lemma ordered_flat_map {A} (g1 g2 : A -> list OrderItem) (l : list A) p :
  (forall s, ordered (g1 s) p = ordered (g2 s) p) ->
  ordered (flat_map g1 l) p = ordered (flat_map g2 l) p.
Proof.
  intros Hg. induction l as [|x l IH]; simpl; [reflexivity|].
  rewrite !ordered_app, IH, Hg. reflexivity.
Qed.

(** X24. A seller cancels a sub-order, then the buyer cancels the parent order,
    which is still PENDING: the second cancellation restores the items of
    every sub-order, the cancelled one included, so the stock of the
    products of that sub-order has gone up twice by the ordered quantity. *)
Theorem cancelSubOrder_then_cancelOrder env1 env2 sellerId subOrderId userId orderId
    db r1 db1 r2 db2 :
  cancelSubOrder env1 sellerId subOrderId db = (Ok r1, db1) ->
  cancelOrder env2 userId orderId db1 = (Ok r2, db2) ->
  (forall o, In o (orders db) -> o_id o = orderId -> o_is_parent o = true) ->
  In subOrderId (map o_id (sub_orders orderId db)) ->
  restocked (fun p => ordered (items_of_sub_orders orderId db) p
                      + ordered (items_of_order subOrderId db) p) db db2
  /\ incl (items_of_order subOrderId db) (items_of_sub_orders orderId db).
Proof.
  intros Hsub Hcancel Hparent Hchild.
  apply cancelSubOrder_inv in Hsub as (subOrder & Hfind & _ & R1 & Hi & Ho).
  assert (Hid : o_id subOrder = subOrderId).
  { apply find_some in Hfind as [_ Hp]. apply andb_true_iff in Hp as [Hp _].
    apply andb_true_iff in Hp as [Hp _]. apply bool_decide_eq_true in Hp. exact Hp. }
  rewrite Hid in *.
  apply cancelOrder_inv in Hcancel as (order1 & Hfind1 & _ & R2).
  apply find_some in Hfind1 as [Hin1 Hp1].
  apply andb_true_iff in Hp1 as [Hid1 _]. apply bool_decide_eq_true in Hid1.
  set (P := fun o => bool_decide (o_id o = subOrderId)
                     || match o_parent_order_id subOrder with
                        | Some k => bool_decide (o_id o = k) && others_cancelled subOrderId k db
                        | None => false
                        end) in *.
  assert (His : o_is_parent order1 = true).
  { rewrite Ho in Hin1. unfold update_where in Hin1.
    apply in_map_iff in Hin1 as (o & Heq & Hin).
    assert (Hcols : o_id order1 = o_id o /\ o_is_parent order1 = o_is_parent o)
      by (rewrite <- Heq; destruct (P o); split; reflexivity).
    destruct Hcols as [Hc1 Hc2]. rewrite Hc2. apply Hparent; [exact Hin|]. congruence. }
  assert (Hsubs : sub_orders orderId db1 = update_where P cancelled (sub_orders orderId db)).
  { unfold sub_orders. rewrite Ho. apply filter_update_where. reflexivity. }
  assert (Hlen : (0 <? length (sub_orders orderId db1))%nat = true).
  { rewrite Hsubs, length_update_where. apply Nat.ltb_lt.
    destruct (sub_orders orderId db); [contradiction | simpl; lia]. }
  assert (Hitems : forall k p,
             ordered (items_of_order k db1) p = ordered (items_of_order k db) p).
  { intros k p. unfold items_of_order. rewrite Hi.
    rewrite filter_update_where by reflexivity. apply ordered_update_where. }
  split.
  - eapply restocked_ext; [|exact (restocked_trans _ _ _ _ _ R1 R2)].
    intros p. simpl. unfold items_to_restore. rewrite Hid1, His, Hlen. simpl.
    unfold items_of_sub_orders. rewrite Hsubs. unfold update_where.
    rewrite flat_map_concat_map, map_map, <- flat_map_concat_map.
    rewrite (ordered_flat_map _ (fun s => items_of_order (o_id s) db)); [lia|].
    intros s. rewrite Hitems. destruct (P s); reflexivity.
  - intros it Hit. unfold items_of_sub_orders. apply in_flat_map.
    apply in_map_iff in Hchild as (s & Hs & Hin). exists s. split; [exact Hin|].
    rewrite Hs. exact Hit.
Qed.

Lemma cancelSubOrder_effect_witness :
  match cancelSubOrder Example.env 20%nat 51%nat Scenario.two_sub_orders with
  | (Ok resp, db') =>
      exists subOrder,
        In subOrder (orders Scenario.two_sub_orders)
        /\ o_id subOrder = 51%nat
        /\ o_seller_id subOrder = Some 20%nat
        /\ In (o_status subOrder) [OrderStatus.PENDING; OrderStatus.CONFIRMED]
        /\ restocked (ordered (items_of_order 51%nat Scenario.two_sub_orders))
             Scenario.two_sub_orders db'
        /\ order_items db'
           = update_where (fun it => bool_decide (oi_order_id it = 51%nat))
               (with_item_status OrderStatus.CANCELLED) (order_items Scenario.two_sub_orders)
        /\ orders db'
           = update_where
               (fun o => bool_decide (o_id o = 51%nat)
                         || match o_parent_order_id subOrder with
                            | Some k => bool_decide (o_id o = k)
                                        && others_cancelled 51%nat k Scenario.two_sub_orders
                            | None => false
                            end)
               cancelled (orders Scenario.two_sub_orders)
  | (Err _, _) => False
  end.
Proof.
  destruct (cancelSubOrder Example.env 20%nat 51%nat Scenario.two_sub_orders)
    as [[resp|e] db'] eqn:E.
  - exact (cancelSubOrder_effect Example.env 20%nat 51%nat Scenario.two_sub_orders resp db' E).
  - vm_compute in E. discriminate E.
Defined.

Lemma cancelOrder_restores_every_item_witness :
  match cancelOrder Example.env 1%nat 50%nat Scenario.two_sub_orders with
  | (Ok resp, db') =>
      exists order,
        In order (orders Scenario.two_sub_orders)
        /\ o_id order = 50%nat
        /\ o_user_id order = 1%nat
        /\ o_status order = OrderStatus.PENDING
        /\ restocked (ordered (items_to_restore order Scenario.two_sub_orders))
             Scenario.two_sub_orders db'
  | (Err _, _) => False
  end.
Proof.
  destruct (cancelOrder Example.env 1%nat 50%nat Scenario.two_sub_orders)
    as [[resp|e] db'] eqn:E.
  - exact (cancelOrder_restores_every_item Example.env 1%nat 50%nat Scenario.two_sub_orders
             resp db' E).
  - vm_compute in E. discriminate E.
Defined.

Lemma cancelSubOrder_then_cancelOrder_witness :
  match cancelSubOrder Example.env 20%nat 51%nat Scenario.two_sub_orders with
  | (Ok r1, db1) =>
      match cancelOrder Example.env 1%nat 50%nat db1 with
      | (Ok r2, db2) =>
          restocked (fun p => ordered (items_of_sub_orders 50%nat Scenario.two_sub_orders) p
                              + ordered (items_of_order 51%nat Scenario.two_sub_orders) p)
            Scenario.two_sub_orders db2
          /\ incl (items_of_order 51%nat Scenario.two_sub_orders)
               (items_of_sub_orders 50%nat Scenario.two_sub_orders)
      | (Err _, _) => False
      end
  | (Err _, _) => False
  end.
Proof.
  destruct (cancelSubOrder Example.env 20%nat 51%nat Scenario.two_sub_orders)
    as [[r1|e1] db1] eqn:E1; [|vm_compute in E1; discriminate E1].
  destruct (cancelOrder Example.env 1%nat 50%nat db1) as [[r2|e2] db2] eqn:E2.
  - apply (cancelSubOrder_then_cancelOrder Example.env Example.env 20%nat 51%nat 1%nat 50%nat
             Scenario.two_sub_orders r1 db1 r2 db2 E1 E2).
    + simpl. intros o [<- | [<- | [<- | []]]] Hid; try reflexivity; discriminate Hid.
    + simpl. left. reflexivity.
  - assert (Hrun : fst (cancelOrder Example.env 1%nat 50%nat
                          (snd (cancelSubOrder Example.env 20%nat 51%nat
                                  Scenario.two_sub_orders))) = Err e2)
      by (rewrite E1; cbn [snd]; rewrite E2; reflexivity).
    vm_compute in Hrun. discriminate Hrun.
Defined.

(** ** One item's status drives the order *)

(** X25. A successful [updateOrderItemStatus] writes the new status on the one
    order item, and on the whole sub-order of the item and on its parent
    order, whatever the statuses of the other items of the sub-order and of
    the other sub-orders of the parent; those items, every other order, the
    stock and the carts stay as they were. *)
Theorem updateOrderItemStatus_sets_order_status sellerId orderItemId status db item db' :
  updateOrderItemStatus sellerId orderItemId status db = (Ok item, db') ->
  exists subOrder,
    find_order (oi_order_id item) db = Some subOrder
    /\ oi_id item = orderItemId
    /\ oi_status item = status
    /\ order_items db'
       = update_where (fun it => bool_decide (oi_id it = orderItemId))
           (with_item_status status) (order_items db)
    /\ orders db'
       = update_where
           (fun o => bool_decide (o_id o = oi_order_id item)
                     || match o_parent_order_id subOrder with
                        | Some k => bool_decide (o_id o = k)
                        | None => false
                        end)
           (with_order_status status) (orders db)
    /\ products db' = products db
    /\ carts db' = carts db
    /\ cart_items db' = cart_items db.
Proof.
  unfold updateOrderItemStatus. rewrite bind_get.
  destruct (List.find _ (order_items db)) as [orderItem|]; [|discriminate].
  destruct (negb _); [discriminate|].
  intros H. apply transaction_ok in H. unfold updateOrderItemStatus_tx in H.
  apply bind_ok_inv in H as (updatedItem & db1 & H1 & H).
  rewrite bind_get in H.
  apply bind_ok_inv in H as ([] & db2 & H2 & H).
  apply bind_ok_inv in H as ([] & db3 & H3 & H).
  injection H as <- <-.
  unfold order_item_update in H1.
  destruct (List.find (fun it => bool_decide (oi_id it = orderItemId)) (order_items db))
    as [it0|] eqn:Hit0; [|discriminate].
  injection H1 as <- <-.
  apply find_some in Hit0 as [_ Hid0]. apply bool_decide_eq_true in Hid0.
  assert (Hex : exists so, find_order (oi_order_id it0) db = Some so).
  { unfold order_update in H2. simpl in H2.
    destruct (existsb _ (orders db)) eqn:Hex; [|discriminate].
    exact (existsb_find _ _ Hex). }
  destruct Hex as (so & Hso).
  apply order_update_inv in H2. subst db2. simpl in *.
  change (find_order (oi_order_id it0) (set_order_items _ db))
    with (find_order (oi_order_id it0) db) in H3.
  rewrite Hso in H3. rewrite Hso.
  exists so. split; [reflexivity|]. split; [exact Hid0|]. split; [reflexivity|].
  destruct (o_parent_order_id so) as [k|].
  - apply order_update_inv in H3. subst db3. simpl.
    split; [reflexivity|]. split; [|auto].
    apply update_where_twice; reflexivity.
  - injection H3 as <-. simpl. split; [reflexivity|]. split; [|auto].
    apply update_where_ext. intros x. rewrite orb_false_r. reflexivity.
Qed.

Lemma updateOrderItemStatus_sets_order_status_witness :
  match updateOrderItemStatus 20%nat 60%nat OrderStatus.CONFIRMED Scenario.two_sub_orders with
  | (Ok item, db') =>
      exists subOrder,
        find_order (oi_order_id item) Scenario.two_sub_orders = Some subOrder
        /\ oi_id item = 60%nat
        /\ oi_status item = OrderStatus.CONFIRMED
        /\ order_items db'
           = update_where (fun it => bool_decide (oi_id it = 60%nat))
               (with_item_status OrderStatus.CONFIRMED) (order_items Scenario.two_sub_orders)
        /\ orders db'
           = update_where
               (fun o => bool_decide (o_id o = oi_order_id item)
                         || match o_parent_order_id subOrder with
                            | Some k => bool_decide (o_id o = k)
                            | None => false
                            end)
               (with_order_status OrderStatus.CONFIRMED) (orders Scenario.two_sub_orders)
        /\ products db' = products Scenario.two_sub_orders
        /\ carts db' = carts Scenario.two_sub_orders
        /\ cart_items db' = cart_items Scenario.two_sub_orders
  | (Err _, _) => False
  end.
Proof.
  destruct (updateOrderItemStatus 20%nat 60%nat OrderStatus.CONFIRMED Scenario.two_sub_orders)
    as [[item|e] db'] eqn:E.
  - exact (updateOrderItemStatus_sets_order_status 20%nat 60%nat OrderStatus.CONFIRMED
             Scenario.two_sub_orders item db' E).
  - vm_compute in E. discriminate E.
Defined.

(** ** Adding to a cart that has expired *)

Lemma gone_only_deleted k db db' :
  only_deleted db db' -> cart_gone k db -> cart_gone k db'.
Proof.
  intros [[keep Hrows] [keepc Hcarts] _ _ _ _ _] [Hc Hi]. split.
  - rewrite Hcarts. rewrite List.Forall_forall in *. intros x Hx.
    apply filter_In in Hx as [Hx _]. auto.
  - rewrite Hrows. rewrite List.Forall_forall in *. intros x Hx.
    apply filter_In in Hx as [Hx _]. auto.
Qed.

Lemma without_expired_carts_gone env c db :
  List.NoDup (map c_id (carts db)) ->
  In c (carts db) ->
  expired (now env) (c_expires_at c) = true ->
  cart_gone (c_id c) (without_expired_carts env db).
Proof.
  intros Hnd Hin Hexp. unfold without_expired_carts, cart_delete_where. simpl. split; simpl.
  - unfold delete_where. apply List.Forall_forall. intros x Hx.
    apply filter_In in Hx as [Hx Hlive]. intros Heq.
    rewrite (NoDup_map_inj_in c_id _ _ _ Hnd Hx Hin Heq), Hexp in Hlive. discriminate Hlive.
  - unfold delete_where. apply List.Forall_forall. intros it Hit.
    apply filter_In in Hit as [_ Hit]. apply negb_true_iff in Hit. intros Heq.
    assert (Ht : existsb (fun c0 => bool_decide (c_id c0 = ci_cart_id it))
                   (List.filter (fun c0 => expired (now env) (c_expires_at c0)) (carts db))
                 = true).
    { apply existsb_exists. exists c. split.
      - apply filter_In. split; assumption.
      - apply bool_decide_eq_true_2. symmetry. exact Heq. }
    rewrite Ht in Hit. discriminate Hit.
Qed.

Lemma getCart_sweeps_expired env userId sessionId db r db' c :
  List.NoDup (map c_id (carts db)) ->
  In c (carts db) ->
  expired (now env) (c_expires_at c) = true ->
  getCart env userId sessionId db = (Ok r, db') ->
  cart_gone (c_id c) db'.
Proof.
  intros Hnd Hin Hexp H.
  pose proof (without_expired_carts_gone env c db Hnd Hin Hexp) as Hgone.
  apply getCart_ok_inv in H. cbv zeta in H.
  destruct H as [(_ & _ & ->) | (cart & items & items2 & _ & _ & -> & _ & _)];
    [exact Hgone|].
  exact (gone_only_deleted _ _ _ (only_deleted_without_stale_rows env cart items _) Hgone).
Qed.

Lemma carts_upsert_item env product cart product_id quantity :
  fixes carts (upsert_item env product cart product_id quantity).
Proof.
  unfold upsert_item. apply fixes_bind; [apply fixes_reads, reads_get|]. intros db.
  destruct (find_cart_item (c_id cart) product_id db).
  - cbv zeta. destruct (_ <? quantity);
      [apply fixes_reads, reads_throw | apply carts_cart_item_update].
  - apply carts_cart_item_create.
Qed.

(** X26. [addToCart] looks the cart up without regard to its expiry, and the
    [getCart] that ends it sweeps the expired carts: when the cart it finds
    has expired, the call reports success, and afterwards neither the cart
    nor the row it has just written exists. *)
Theorem addToCart_into_expired_cart env userId sessionId product_id quantity db cart r db' :
  List.NoDup (map c_id (carts db)) ->
  find_cart userId sessionId db = Some cart ->
  expired (now env) (c_expires_at cart) = true ->
  addToCart env userId sessionId product_id quantity db = (Ok r, db') ->
  cart_gone (c_id cart) db'
  /\ find_cart_item (c_id cart) product_id db' = None
  /\ products db' = products db.
Proof.
  intros Hnd Hfind Hexp H.
  apply addToCart_ok_inv in H as (product & cart' & dbA & dbB & _ & _ & _ & HA & HB & HC).
  unfold find_or_create_cart in HA. rewrite bind_get, Hfind in HA. injection HA as <- <-.
  pose proof (carts_upsert_item _ _ _ _ _ _ _ _ HB) as Hcarts.
  assert (Hgone : cart_gone (c_id cart) db').
  { apply (getCart_sweeps_expired _ _ _ _ _ _ cart) in HC; [exact HC| | |exact Hexp].
    - rewrite Hcarts. exact Hnd.
    - rewrite Hcarts. exact (find_cart_In _ _ _ _ Hfind). }
  split; [exact Hgone|]. split.
  - unfold find_cart_item. destruct (List.find _ _) as [it|] eqn:E; [|reflexivity].
    apply find_some in E as [Hin Hp]. apply andb_true_iff in Hp as [Hp _].
    apply bool_decide_eq_true in Hp. destruct Hgone as [_ Hi].
    rewrite List.Forall_forall in Hi. exfalso. exact (Hi _ Hin Hp).
  - pose proof (proj1 (getCart_frame env userId sessionId dbB)) as Hdel.
    rewrite HC in Hdel. simpl in Hdel. rewrite (deleted_products _ _ Hdel).
    unfold upsert_item in HB. rewrite bind_get in HB.
    destruct (find_cart_item (c_id cart) product_id db).
    + cbv zeta in HB. destruct (_ <? quantity); [discriminate|].
      unfold cart_item_update in HB. destruct (existsb _ _); [|discriminate].
      injection HB as <-. reflexivity.
    + unfold cart_item_create, bind, fresh_id in HB. simpl in HB. injection HB as <-.
      reflexivity.
Qed.

Lemma addToCart_into_expired_cart_witness :
  match addToCart Scenario.next_day None (Some 9%nat) 1%nat 2 Example.roomy with
  | (Ok r, db') =>
      cart_gone (c_id Example.anonymous_cart) db'
      /\ find_cart_item (c_id Example.anonymous_cart) 1%nat db' = None
      /\ products db' = products Example.roomy
  | (Err _, _) => False
  end.
Proof.
  destruct (addToCart Scenario.next_day None (Some 9%nat) 1%nat 2 Example.roomy)
    as [[r|e] db'] eqn:E.
  - apply (addToCart_into_expired_cart Scenario.next_day None (Some 9%nat) 1%nat 2
             Example.roomy Example.anonymous_cart r db').
    + exact (carts_pk _ rows_ok_roomy).
    + reflexivity.
    + reflexivity.
    + exact E.
  - vm_compute in E. discriminate E.
Defined.

(** ** The cart step of login *)

Lemma known_merge_item env userCart_id ip db0 :
  is_Some (products db0 !! ci_product_id (fst ip)) ->
  keeps (fun d => cart_products_known d /\ products d = products db0)
    (merge_item env userCart_id ip) (fun _ => True).
Proof.
  destruct ip as [anonymousItem product]. simpl. intros Hprod d r d' [Hk Hp] H.
  unfold merge_item, withLock in H.
  destruct (lock_granted env (ci_product_id anonymousItem));
    [|inversion H; subst; split; [split; assumption | intros ? [=]]].
  rewrite bind_get in H. cbv zeta in H.
  destruct (find_cart_item userCart_id (ci_product_id anonymousItem) d) as [e|].
  - destruct (_ <=? _); [|inversion H; subst; auto].
    unfold cart_item_update in H. destruct (existsb _ _); inversion H; subst; clear H.
    + split; [|auto]. split; [|exact Hp]. unfold cart_products_known in *. simpl.
      apply Forall_update_where; [exact Hk|]. intros x Hx _. exact Hx.
    + split; [split; assumption | intros ? [=]].
  - destruct (_ <=? _); [|inversion H; subst; auto].
    unfold cart_item_create, bind, fresh_id in H. simpl in H. inversion H; subst; clear H.
    split; [|auto]. split; [|exact Hp]. unfold cart_products_known in *. simpl.
    apply Forall_app. split; [exact Hk|]. constructor; [|constructor]. simpl.
    rewrite Hp. exact Hprod.
Qed.

Lemma include_product_known db rows l :
  include_product db rows = Ok l ->
  Forall (fun ip => is_Some (products db !! ci_product_id (fst ip))) l.
Proof.
  intros H. apply List.Forall_forall. intros [it pr] Hin.
  destruct (include_product_In _ _ _ _ _ H Hin) as [_ Hp]. simpl. rewrite Hp. eauto.
Qed.

Lemma getCart_runs env userId db :
  cart_products_known db ->
  exists r db', getCart env (Some userId) None db = (Ok r, db').
Proof.
  intros Hknown.
  destruct (proj2 (getCart_frame env (Some userId) None db)
              (or_introl (ltac:(discriminate) : Some userId <> None)) Hknown) as (r & Hr).
  destruct (getCart env (Some userId) None db) as [r' d] eqn:E. simpl in Hr. subst r'.
  eauto.
Qed.

Lemma mergeAnonymousCart_cases env userId sessionId db :
  cart_products_known db ->
  (exists r db', mergeAnonymousCart env userId sessionId db = (Ok r, db'))
  \/ (exists e db1,
        mergeAnonymousCart env userId sessionId db = (Err e, db1)
        /\ cart_items db1 = cart_items db
        /\ products db1 = products db
        /\ (carts db1 = carts db \/ exists c, carts db1 = carts db ++ [c])).
Proof.
  intros Hknown. unfold mergeAnonymousCart. rewrite bind_get.
  destruct (latest (List.filter (cart_of_session sessionId) (carts db)))
    as [anonymousCart|]; [|left; exact (getCart_runs env userId db Hknown)].
  destruct (include_product_total _ _ (items_of_cart_known (c_id anonymousCart) _ Hknown))
    as (items & Hitems).
  assert (Hread : cart_items_with_product (c_id anonymousCart) db = (Ok items, db))
    by (unfold cart_items_with_product; rewrite Hitems; reflexivity).
  rewrite (bind_ok _ _ _ _ _ Hread).
  destruct items as [|ip items]; [left; exact (getCart_runs env userId db Hknown)|].
  assert (Hcart : exists userCart db_c,
             match latest (List.filter (cart_of_user userId) (carts db)) with
             | Some c => ret c
             | None => cart_create env (Some userId) None None
             end db = (Ok userCart, db_c)
             /\ cart_items db_c = cart_items db
             /\ products db_c = products db
             /\ (carts db_c = carts db \/ exists c, carts db_c = carts db ++ [c])).
  { destruct (latest (List.filter (cart_of_user userId) (carts db))) as [c|].
    - exists c, db. auto.
    - unfold cart_create, bind, fresh_id. simpl. eexists. eexists.
      split; [reflexivity|]. simpl. split; [reflexivity|]. split; [reflexivity|].
      right. eexists. reflexivity. }
  destruct Hcart as (userCart & db_c & Hcart & Hi_c & Hp_c & Hc_c).
  rewrite (bind_ok _ _ _ _ _ Hcart).
  assert (Hknown_c : cart_products_known db_c).
  { unfold cart_products_known. rewrite Hi_c, Hp_c. exact Hknown. }
  destruct (transaction
              (forM (ip :: items) (merge_item env (c_id userCart)) ;;;
               cart_delete_where (fun c => bool_decide (c_id c = c_id anonymousCart))) db_c)
    as [[[]|e] db_t] eqn:Htx.
  - rewrite (bind_ok _ _ _ _ _ Htx). left.
    apply getCart_runs.
    apply transaction_ok in Htx.
    apply bind_ok_inv in Htx as ([] & db_m & Hm & Hd).
    assert (Hknown_m : cart_products_known db_m /\ products db_m = products db_c).
    { refine (proj1 (keeps_forM
                       (fun d => cart_products_known d /\ products d = products db_c)
                       (ip :: items) (merge_item env (c_id userCart))
                       (fun ip => is_Some (products db_c !! ci_product_id (fst ip)))
                       _ _ db_c _ db_m (conj Hknown_c eq_refl) Hm)).
      - rewrite Hp_c. exact (include_product_known _ _ _ Hitems).
      - intros x Hx. apply known_merge_item. exact Hx. }
    apply (known_only_deleted db_m); [|exact (proj1 Hknown_m)].
    exact (proj1 (only_deleted_cart_delete_where db_m _ _ _ _ (only_deleted_refl db_m) Hd)).
  - right. exists e, db_c.
    pose proof (transaction_err _ _ _ _ Htx) as ->.
    rewrite (bind_err _ _ _ _ _ Htx). auto.
Qed.

(** X27. When [mergeAnonymousCart] throws at login, as it does when a
    product lock is not granted, its transaction has been rolled back: every
    cart row and every product is as it was and no cart is gone, the
    anonymous cart included.  The fallback of [login] then reads the user's
    cart: as long as the cart rows refer to products that exist, the reply
    of [login] carries a cart. *)
Theorem login_keeps_the_anonymous_cart env user sessionId db :
  cart_products_known db ->
  (exists r, fst (login_cart env user sessionId db) = Some r)
  /\ (forall s e db1,
        mergeAnonymousCart env user s db = (Err e, db1) ->
        cart_items db1 = cart_items db
        /\ products db1 = products db
        /\ incl (carts db) (carts db1)).
Proof.
  intros Hknown.
  assert (Hmerge : forall s e db1,
             mergeAnonymousCart env user s db = (Err e, db1) ->
             cart_items db1 = cart_items db
             /\ products db1 = products db
             /\ (carts db1 = carts db \/ exists c, carts db1 = carts db ++ [c])).
  { intros s e db1 H.
    destruct (mergeAnonymousCart_cases env user s db Hknown)
      as [(r & d & Hok) | (e' & d & Herr & Hrest)]; [congruence|].
    rewrite H in Herr. injection Herr as -> ->. exact Hrest. }
  split.
  - unfold login_cart.
    assert (Hfallback : forall d, cart_products_known d ->
              exists r, fst (match getCart env (Some user) None d with
                             | (Ok cart, db2) => (Some cart, db2)
                             | (Err _, db2) => (None, db2)
                             end) = Some r).
    { intros d Hd. destruct (getCart_runs env user d Hd) as (r & d' & ->). eauto. }
    destruct sessionId as [s|]; [|apply Hfallback; exact Hknown].
    destruct (mergeAnonymousCart env user s db) as [[r|e] db1] eqn:E; [eauto|].
    apply Hfallback. destruct (Hmerge _ _ _ E) as (Hi & Hp & _).
    unfold cart_products_known. rewrite Hi, Hp. exact Hknown.
  - intros s e db1 H. destruct (Hmerge _ _ _ H) as (Hi & Hp & Hc).
    split; [exact Hi|]. split; [exact Hp|].
    destruct Hc as [-> | (c & ->)]; intros x Hx; [exact Hx | apply in_or_app; left; exact Hx].
Qed.

Lemma known_merge_sum : cart_products_known Example.merge_sum.
Proof. repeat (constructor; [simpl; eexists; reflexivity|]). constructor. Qed.

Lemma login_keeps_the_anonymous_cart_witness :
  (exists r, fst (login_cart Witness.contended 1%nat (Some 9%nat) Example.merge_sum) = Some r)
  /\ (forall s e db1,
        mergeAnonymousCart Witness.contended 1%nat s Example.merge_sum = (Err e, db1) ->
        cart_items db1 = cart_items Example.merge_sum
        /\ products db1 = products Example.merge_sum
        /\ incl (carts Example.merge_sum) (carts db1)).
Proof.
  exact (login_keeps_the_anonymous_cart Witness.contended 1%nat (Some 9%nat)
           Example.merge_sum known_merge_sum).
Defined.

(** ** What an order is made from *)

Lemma forM_reads_ok {A} (l : list A) (f : A -> M unit) db db' :
  (forall x, reads (f x)) ->
  forM l f db = (Ok tt, db') ->
  Forall (fun x => f x db = (Ok tt, db)) l.
Proof.
  intros Hf. induction l as [|x l IH]; simpl; intros H; [constructor|].
  apply bind_ok_inv in H as ([] & db1 & H1 & H2).
  pose proof (Hf _ _ _ _ H1). subst db1. constructor; [exact H1 | exact (IH H2)].
Qed.

Lemma validate_item_ok env cart_id ip db :
  validate_item env cart_id ip db = (Ok tt, db) ->
  expired (now env) (ci_reservation_expires_at (fst ip)) = false
  /\ exists product,
       products db !! ci_product_id (fst ip) = Some product
       /\ ci_quantity (fst ip)
          <= p_stock product
             - reserved (now env) (ci_product_id (fst ip))
                 (fun it => negb (bool_decide (ci_cart_id it = cart_id))) db.
Proof.
  unfold validate_item. cbv zeta. rewrite bind_get.
  destruct (products db !! ci_product_id (fst ip)) as [product|]; [|discriminate].
  destruct (expired _ _); [discriminate|].
  destruct (_ <? _) eqn:E; [discriminate|]. apply Z.ltb_ge in E.
  intros _. split; [reflexivity|]. exists product. split; [reflexivity | exact E].
Qed.

(** X28. An order is made only from live reservations: when [createOrder]
    succeeds, at that instant no row of the cart had an expired reservation,
    every row's product existed with stock for the row's quantity besides
    the live reservations of the other carts, the lock of every product was
    granted, and the address was the user's. *)
Theorem createOrder_needs_live_reservations env userId addressId paymentMethod db resp db' :
  createOrder env userId addressId paymentMethod db = (Ok resp, db') ->
  exists cart,
    List.find (cart_of_user userId) (carts db) = Some cart
    /\ items_of_cart (c_id cart) db <> []
    /\ (exists address, find_address userId addressId db = Some address)
    /\ Forall
         (fun it =>
            expired (now env) (ci_reservation_expires_at it) = false
            /\ lock_granted env (ci_product_id it) = true
            /\ exists product,
                 products db !! ci_product_id it = Some product
                 /\ ci_quantity it
                    <= p_stock product
                       - reserved (now env) (ci_product_id it)
                           (fun x => negb (bool_decide (ci_cart_id x = c_id cart))) db)
         (items_of_cart (c_id cart) db).
Proof.
  intros H. pose proof (createOrder_ok_address _ _ _ _ _ _ _ H) as Haddress.
  unfold createOrder in H. rewrite bind_get in H.
  destruct (List.find (cart_of_user userId) (carts db)) as [cart|] eqn:Hcart; [|discriminate].
  apply bind_ok_inv in H as (items & db1 & H1 & H).
  pose proof (reads_cart_items_with_product _ _ _ _ H1). subst db1.
  unfold cart_items_with_product in H1. injection H1 as Hitems.
  pose proof (include_product_fst _ _ _ Hitems) as Hrows.
  destruct items as [|ip items]; [discriminate|].
  destruct (List.find _ (addresses db)) as [address|]; [|discriminate].
  apply bind_ok_inv in H as ([] & db1 & H2 & H).
  pose proof (forM_reads_ok _ _ _ _ (reads_validate_item env (c_id cart)) H2) as Hvalid.
  apply (reads_forM _ _ (reads_validate_item env (c_id cart))) in H2. subst db1.
  apply bind_ok_inv in H as (parent & db1 & H3 & _).
  apply transaction_ok in H3.
  destruct (createOrder_tx_ok _ _ _ _ _ _ _ H3) as (_ & subs & created & Hc).
  pose proof (committed_locks _ _ _ _ _ _ _ _ Hc) as Hlocks.
  exists cart. split; [reflexivity|]. split; [rewrite <- Hrows; discriminate|].
  split; [exact Haddress|].
  rewrite <- Hrows. apply List.Forall_map.
  rewrite List.Forall_forall in *. intros x Hx.
  destruct (validate_item_ok _ _ _ _ (Hvalid x Hx)) as (Hlive & Hstock).
  split; [exact Hlive|]. split; [exact (Hlocks x Hx) | exact Hstock].
Qed.

Lemma createOrder_needs_live_reservations_witness :
  match createOrder Example.env 1%nat 40%nat None Witness.checkout with
  | (Ok resp, db') =>
      exists cart,
        List.find (cart_of_user 1%nat) (carts Witness.checkout) = Some cart
        /\ items_of_cart (c_id cart) Witness.checkout <> []
        /\ (exists address, find_address 1%nat 40%nat Witness.checkout = Some address)
        /\ Forall
             (fun it =>
                expired (now Example.env) (ci_reservation_expires_at it) = false
                /\ lock_granted Example.env (ci_product_id it) = true
                /\ exists product,
                     products Witness.checkout !! ci_product_id it = Some product
                     /\ ci_quantity it
                        <= p_stock product
                           - reserved (now Example.env) (ci_product_id it)
                               (fun x => negb (bool_decide (ci_cart_id x = c_id cart)))
                               Witness.checkout)
             (items_of_cart (c_id cart) Witness.checkout)
  | (Err _, _) => False
  end.
Proof.
  destruct (createOrder Example.env 1%nat 40%nat None Witness.checkout)
    as [[resp|e] db'] eqn:E.
  - exact (createOrder_needs_live_reservations Example.env 1%nat 40%nat None
             Witness.checkout resp db' E).
  - vm_compute in E. discriminate E.
Defined.
